(** * Verification of the peer-discovery coordinator (src/index.js)

    The program is a Node.js module with two classes, [Topic] and
    [Discovery], both event emitters, driven by one event loop.  The
    embedding below follows the source method by method:

    - objects are records, the [Topic] instances live in a heap (a list
      indexed by allocation order) and are referred to by their index;
    - the [Map] of [Set]s held in [Discovery._domains] is an association
      list of lists, both in insertion order, as JavaScript iterates them;
    - everything the program does to the outside world (events emitted,
      callbacks invoked, calls into the DHT and multicast clients,
      exceptions thrown at the caller) is appended to a trace;
    - [process.nextTick], [setTimeout] and the callbacks of the external
      clients are queues in the state; the environment picks which of them
      runs next, one [action] at a time;
    - [Math.random], [crypto.randomBytes] are oracles stored in the state,
      [Date.now] is supplied by the environment with the action. *)

From Stdlib Require Import List String Ascii Bool.
From Stdlib.Strings Require Import Byte.
From Stdlib Require Import ZArith NArith PeanoNat QArith Qround Lia Lqa.
From Stdlib Require PrimFloat.
Import ListNotations.

Local Open Scope string_scope.
Local Open Scope list_scope.
Local Open Scope Z_scope.

(* ================================================================== *)
(** * Part I: the embedding                                           *)
(* ================================================================== *)

(** ** JavaScript values *)

(** A property that holds a number or is absent ([undefined]).  Its
    truthiness is what [||] tests: absent and [0] are falsy. *)
Definition truthy (v : option Z) : bool :=
  match v with
  | Some n => negb (n =? 0)
  | None => false
  end.

(** [a || b] on such properties. *)
Definition js_or (a b : option Z) : option Z :=
  if truthy a then a else b.

(** [a || 0]: the result is a number. *)
Definition js_or0 (a : option Z) : Z :=
  match a with
  | Some n => if n =? 0 then 0 else n
  | None => 0
  end.

(** [s || dflt] on a string property: absent and the empty string are
    falsy. *)
Definition js_or_string (s : option string) (dflt : string) : string :=
  match s with
  | Some EmptyString => dflt
  | Some x => x
  | None => dflt
  end.

(** ** Buffers *)

Definition Buffer := list byte.

(** [buf.slice(0, n)] *)
Definition slice0 (n : nat) (buf : Buffer) : Buffer := firstn n buf.

Definition hex_digit (n : N) : ascii :=
  match n with
  | 0%N => "0" | 1%N => "1" | 2%N => "2" | 3%N => "3"
  | 4%N => "4" | 5%N => "5" | 6%N => "6" | 7%N => "7"
  | 8%N => "8" | 9%N => "9" | 10%N => "a" | 11%N => "b"
  | 12%N => "c" | 13%N => "d" | 14%N => "e" | _ => "f"
  end%char.

(** [buf.toString('hex')]: two lower-case digits per byte. *)
Fixpoint toString_hex (buf : Buffer) : string :=
  match buf with
  | [] => EmptyString
  | b :: rest =>
      let n := Byte.to_N b in
      String (hex_digit (N.div n 16))
        (String (hex_digit (N.modulo n 16)) (toString_hex rest))
  end.

Definition byte_eqb (a b : byte) : bool := N.eqb (Byte.to_N a) (Byte.to_N b).

(** [a.equals(b)] *)
Fixpoint Buffer_equals (a b : Buffer) : bool :=
  match a, b with
  | [], [] => true
  | x :: a', y :: b' => byte_eqb x y && Buffer_equals a' b'
  | _, _ => false
  end.

(** [Buffer.from('id=')] *)
Definition id_prefix : Buffer := ["i"; "d"; "="]%byte.

(** ** Double-precision arithmetic of [_notify]

    JavaScript numbers are IEEE-754 binary64.  [_notify] multiplies and
    adds non-negative numbers far below 2^53, so the only part of
    binary64 that matters is rounding to nearest, ties to even, of a
    non-negative real to 53 significant bits (with the fixed exponent
    -1074 in the subnormal range).  The reals that occur are rationals. *)

Module Binary64.

Definition pow2 (k : Z) : Q :=
  if (0 <=? k)%Z then inject_Z (2 ^ k) else / inject_Z (2 ^ (- k)).

(** floor of the binary logarithm of a positive rational *)
Definition ilog2 (x : Q) : Z :=
  let k := (Z.log2 (Qnum x) - Z.log2 (Zpos (Qden x)))%Z in
  if Qle_bool (pow2 k) x then k else (k - 1)%Z.

(** round to the nearest integer, ties to the even one *)
Definition rne (q : Q) : Z :=
  let f := Qfloor q in
  match Qcompare (q - inject_Z f) (1 # 2) with
  | Lt => f
  | Gt => (f + 1)%Z
  | Eq => if Z.even f then f else (f + 1)%Z
  end.

(** exponent of the unit in the last place of the binade of [x] *)
Definition ulp_exp (x : Q) : Z := Z.max (ilog2 x - 52) (-1074).

(** the binary64 number nearest to [x], for [0 <= x < 2^1024] *)
Definition round (x : Q) : Q :=
  if Qle_bool x 0 then 0%Q
  else inject_Z (rne (x / pow2 (ulp_exp x))) * pow2 (ulp_exp x).

Definition mul (x y : Q) : Q := round (x * y).
Definition add (x y : Q) : Q := round (x + y).

(** [Math.floor], whose result is an integer *)
Definition Math_floor (x : Q) : Z := Qfloor x.

End Binary64.

(** ** The backoff delay of [Discovery._notify]

    [Math.floor(wait + Math.random() * wait)] with [r] the number that
    [Math.random()] returned. *)

Definition notify_wait (eager : bool) : Z :=
  if eager then 30000 else 300000.

Definition notify_delay (eager : bool) (r : Q) : Z :=
  let wait := inject_Z (notify_wait eager) in
  Binary64.Math_floor (Binary64.add wait (Binary64.mul r wait)).

(** ** Data exchanged with the caller and with the two clients *)

(** a [Topic] object is referred to by its position in the heap *)
Definition tid := nat.

(** the DHT node a result came from, [data.node]: the referrer *)
Record node := mk_node { node_host : string; node_port : Z }.

(** a peer candidate, [{ port, host, local, referrer }] *)
Record peer := mk_peer {
  p_port : Z;
  p_host : string;
  p_local : bool;
  p_referrer : option node }.

(** an entry of [data.localPeers] or [data.peers] *)
Record addr := mk_addr { a_host : string; a_port : Z }.

(** the argument of a DHT stream's ['data'] event *)
Record dht_data := mk_data {
  data_node : node;
  data_localPeers : list addr;
  data_peers : list addr }.

(** the announce descriptor, [{ port, localAddress }] *)
Record Announce := mk_ann {
  ann_port : Z;
  ann_localAddress : option string }.

(** the options of [Discovery.announce] *)
Record announce_opts := mk_aopts {
  o_port : option Z;
  o_localPort : option Z;
  o_localAddress : option string;
  o_lookup : bool }.

(** the options the [Topic] constructor reads *)
Record topic_opts := mk_topts {
  to_localPort : option Z;
  to_lookup : bool;
  to_announce : option Announce }.

(** [_topic(key)] passes no options: [opts = {}] *)
Definition no_opts : topic_opts := mk_topts None false None.

(** a resource record of the multicast protocol; the constructor is the
    record's [type] *)
Inductive record :=
| SRV (name : string) (target : string) (port : Z)
| TXT (name : string) (data : list Buffer)
| RR (type name : string).

Record question := mk_q { q_type : string; q_name : string }.

(** a multicast packet, query or response *)
Record message := mk_msg {
  questions : list question;
  answers : list record }.

(** an entry of the result of [ping] *)
Record ping_result := mk_pr {
  pr_bootstrap : string;
  pr_rtt : Z;
  pr_pong : nat }.

(** ** Events and listeners *)

Inductive event :=
| Ev_peer (p : peer)
| Ev_update (err : option string)
| Ev_close.

Inductive event_name := N_peer | N_update | N_close.

Definition name_of (e : event) : event_name :=
  match e with
  | Ev_peer _ => N_peer
  | Ev_update _ => N_update
  | Ev_close => N_close
  end.

(** The functions that get registered on a [Topic].  Those of the caller
    are opaque: their invocation is recorded and nothing else.  The
    others are the closures of the source. *)
Inductive listener :=
| L_user (n : nat)         (* registered by the caller with [topic.on] *)
| L_onclose (cb : nat)     (* [onclose] of [lookupOne] *)
| L_onpeer (cb : nat)      (* [onpeer] of [lookupOne], registered once *)
| L_done.                  (* [done] of [Discovery.destroy] *)

Definition listener_eqb (a b : listener) : bool :=
  match a, b with
  | L_user n, L_user m => Nat.eqb n m
  | L_onclose n, L_onclose m => Nat.eqb n m
  | L_onpeer n, L_onpeer m => Nat.eqb n m
  | L_done, L_done => true
  | _, _ => false
  end.

(** what a callback of the caller is invoked with *)
Inductive cb_result :=
| Failure (msg : string)             (* [cb(new Error(msg))] *)
| Peer (p : peer)                    (* [cb(null, peer)] *)
| Pongs (res : list ping_result).    (* [cb(null, res)] *)

(** what is passed to [process.nextTick] *)
Inductive task :=
| T_emit_close (t : tid)              (* [this.emit.bind(this, 'close')] *)
| T_done                              (* [done] of [Discovery.destroy] *)
| T_call (cb : nat) (r : cb_result).  (* [cb] with its argument *)

(** what is passed to [setTimeout]: the two [loop] closures *)
Inductive timer_fn :=
| F_mdns_loop (t : tid)
| F_dht_loop (t : tid).

(** the first argument of [process.nextTick] as the source writes it *)
Inductive js_callback :=
| V_function (f : task)
| V_error (msg : string).     (* an [Error] object: not callable *)

(** ** The trace: what the program does to its environment *)

Inductive effect :=
| Emit (t : tid) (e : event)                 (* [topic.emit(...)] *)
| EmitClose                                  (* the session's ['close'] *)
| Call (cb : nat) (r : cb_result)            (* a callback of the caller *)
| Listen (n : nat) (t : tid) (e : event)     (* a listener of the caller *)
| DhtAnnounce (key : Buffer) (ann : Announce) (stream : nat)
| DhtLookup (key : Buffer) (stream : nat)
| DhtUnannounce (key : Buffer) (ann : Announce) (t : tid)
| DhtPing (bootstrap : string) (call : nat)
| DhtHolepunch (p : peer) (referrer : node) (cb : nat)
| DhtDestroy
| StreamDestroy (stream : nat)
| MdnsQuery (m : message)
| MdnsResponse (m : message)
| MdnsDestroy
| Throw (msg : string).                      (* thrown at the caller *)

(** ** Objects *)

Record Topic := mk_Topic {
  t_key : Buffer;
  t_announce : option Announce;
  t_destroyed : bool;
  t_id : Buffer;
  t_timeoutDht : option nat;
  t_timeoutMdns : option nat;
  t_stream : option nat;
  t_domain : string;
  t_answer : option record;
  t_on_peer : list listener;
  t_on_update : list listener;
  t_on_close : list listener }.

(** the closure of one run of [loop] in [_startDht]: its stream is
    identified with it *)
Record Loop := mk_Loop { lp_topic : tid; lp_called : bool }.

(** the closure of one call of [ping] *)
Record Ping := mk_Ping {
  pg_cb : nat;
  pg_start : Z;
  pg_missing : Z;
  pg_res : list ping_result }.

(** The [Discovery] instance together with the run-time around it. *)
Record State := mk_State {
  d_destroyed : bool;                        (* [this.destroyed] *)
  d_tld : string;                            (* [this._tld] *)
  d_domains : list (string * list tid);      (* [this._domains] *)
  d_bootstrap : list string;                 (* [this._bootstrap] *)
  d_missing : Z;                 (* [missing] of [Discovery.destroy] *)
  heap : list Topic;
  loops : list Loop;
  pings : list Ping;
  ticks : list task;                         (* [process.nextTick] queue *)
  timers : list (nat * (Z * timer_fn));      (* pending timeouts *)
  timer_ctr : nat;                           (* next timeout handle *)
  unannounces : list tid;        (* [dht.unannounce] calls in flight *)
  draws : list Q;                            (* future [Math.random()] *)
  entropy : list Buffer;                     (* future [randomBytes] *)
  trace : list effect }.                     (* newest first *)

(** ** Assignments to fields *)

Definition set_destroyed (v : bool) (s : State) : State :=
  mk_State v (d_tld s) (d_domains s) (d_bootstrap s) (d_missing s) (heap s)
    (loops s) (pings s) (ticks s) (timers s) (timer_ctr s) (unannounces s)
    (draws s) (entropy s) (trace s).

Definition set_domains (v : list (string * list tid)) (s : State) : State :=
  mk_State (d_destroyed s) (d_tld s) v (d_bootstrap s) (d_missing s) (heap s)
    (loops s) (pings s) (ticks s) (timers s) (timer_ctr s) (unannounces s)
    (draws s) (entropy s) (trace s).

Definition set_missing (v : Z) (s : State) : State :=
  mk_State (d_destroyed s) (d_tld s) (d_domains s) (d_bootstrap s) v (heap s)
    (loops s) (pings s) (ticks s) (timers s) (timer_ctr s) (unannounces s)
    (draws s) (entropy s) (trace s).

Definition set_heap (v : list Topic) (s : State) : State :=
  mk_State (d_destroyed s) (d_tld s) (d_domains s) (d_bootstrap s)
    (d_missing s) v (loops s) (pings s) (ticks s) (timers s) (timer_ctr s)
    (unannounces s) (draws s) (entropy s) (trace s).

Definition set_loops (v : list Loop) (s : State) : State :=
  mk_State (d_destroyed s) (d_tld s) (d_domains s) (d_bootstrap s)
    (d_missing s) (heap s) v (pings s) (ticks s) (timers s) (timer_ctr s)
    (unannounces s) (draws s) (entropy s) (trace s).

Definition set_pings (v : list Ping) (s : State) : State :=
  mk_State (d_destroyed s) (d_tld s) (d_domains s) (d_bootstrap s)
    (d_missing s) (heap s) (loops s) v (ticks s) (timers s) (timer_ctr s)
    (unannounces s) (draws s) (entropy s) (trace s).

Definition set_ticks (v : list task) (s : State) : State :=
  mk_State (d_destroyed s) (d_tld s) (d_domains s) (d_bootstrap s)
    (d_missing s) (heap s) (loops s) (pings s) v (timers s) (timer_ctr s)
    (unannounces s) (draws s) (entropy s) (trace s).

Definition set_timers (v : list (nat * (Z * timer_fn))) (c : nat)
    (s : State) : State :=
  mk_State (d_destroyed s) (d_tld s) (d_domains s) (d_bootstrap s)
    (d_missing s) (heap s) (loops s) (pings s) (ticks s) v c
    (unannounces s) (draws s) (entropy s) (trace s).

Definition set_unannounces (v : list tid) (s : State) : State :=
  mk_State (d_destroyed s) (d_tld s) (d_domains s) (d_bootstrap s)
    (d_missing s) (heap s) (loops s) (pings s) (ticks s) (timers s)
    (timer_ctr s) v (draws s) (entropy s) (trace s).

Definition set_draws (v : list Q) (s : State) : State :=
  mk_State (d_destroyed s) (d_tld s) (d_domains s) (d_bootstrap s)
    (d_missing s) (heap s) (loops s) (pings s) (ticks s) (timers s)
    (timer_ctr s) (unannounces s) v (entropy s) (trace s).

Definition set_entropy (v : list Buffer) (s : State) : State :=
  mk_State (d_destroyed s) (d_tld s) (d_domains s) (d_bootstrap s)
    (d_missing s) (heap s) (loops s) (pings s) (ticks s) (timers s)
    (timer_ctr s) (unannounces s) (draws s) v (trace s).

(** an effect happens *)
Definition log (e : effect) (s : State) : State :=
  mk_State (d_destroyed s) (d_tld s) (d_domains s) (d_bootstrap s)
    (d_missing s) (heap s) (loops s) (pings s) (ticks s) (timers s)
    (timer_ctr s) (unannounces s) (draws s) (entropy s) (e :: trace s).

Definition T_set_destroyed (v : bool) (T : Topic) : Topic :=
  mk_Topic (t_key T) (t_announce T) v (t_id T) (t_timeoutDht T)
    (t_timeoutMdns T) (t_stream T) (t_domain T) (t_answer T) (t_on_peer T)
    (t_on_update T) (t_on_close T).

Definition T_set_timeoutDht (v : option nat) (T : Topic) : Topic :=
  mk_Topic (t_key T) (t_announce T) (t_destroyed T) (t_id T) v
    (t_timeoutMdns T) (t_stream T) (t_domain T) (t_answer T) (t_on_peer T)
    (t_on_update T) (t_on_close T).

Definition T_set_timeoutMdns (v : option nat) (T : Topic) : Topic :=
  mk_Topic (t_key T) (t_announce T) (t_destroyed T) (t_id T)
    (t_timeoutDht T) v (t_stream T) (t_domain T) (t_answer T) (t_on_peer T)
    (t_on_update T) (t_on_close T).

Definition T_set_stream (v : option nat) (T : Topic) : Topic :=
  mk_Topic (t_key T) (t_announce T) (t_destroyed T) (t_id T)
    (t_timeoutDht T) (t_timeoutMdns T) v (t_domain T) (t_answer T)
    (t_on_peer T) (t_on_update T) (t_on_close T).

Definition T_set_on_peer (v : list listener) (T : Topic) : Topic :=
  mk_Topic (t_key T) (t_announce T) (t_destroyed T) (t_id T)
    (t_timeoutDht T) (t_timeoutMdns T) (t_stream T) (t_domain T)
    (t_answer T) v (t_on_update T) (t_on_close T).

Definition T_set_on_update (v : list listener) (T : Topic) : Topic :=
  mk_Topic (t_key T) (t_announce T) (t_destroyed T) (t_id T)
    (t_timeoutDht T) (t_timeoutMdns T) (t_stream T) (t_domain T)
    (t_answer T) (t_on_peer T) v (t_on_close T).

Definition T_set_on_close (v : list listener) (T : Topic) : Topic :=
  mk_Topic (t_key T) (t_announce T) (t_destroyed T) (t_id T)
    (t_timeoutDht T) (t_timeoutMdns T) (t_stream T) (t_domain T)
    (t_answer T) (t_on_peer T) (t_on_update T) v.

(** ** The heap *)

Fixpoint list_update {A : Type} (l : list A) (i : nat) (f : A -> A)
    : list A :=
  match l, i with
  | [], _ => []
  | x :: l', O => f x :: l'
  | x :: l', S i' => x :: list_update l' i' f
  end.

Definition get_topic (t : tid) (s : State) : option Topic :=
  nth_error (heap s) t.

(** an assignment to fields of the object [t] *)
Definition upd_topic (t : tid) (f : Topic -> Topic) (s : State) : State :=
  set_heap (list_update (heap s) t f) s.

(** ** [Map] and [Set], in insertion order *)

Fixpoint Map_get (m : list (string * list tid)) (k : string)
    : option (list tid) :=
  match m with
  | [] => None
  | (k', v) :: m' => if String.eqb k' k then Some v else Map_get m' k
  end.

Definition Map_has (m : list (string * list tid)) (k : string) : bool :=
  match Map_get m k with Some _ => true | None => false end.

(** [m.set(k, v)]: a present key keeps its place, a new one goes last *)
Fixpoint Map_set (m : list (string * list tid)) (k : string)
    (v : list tid) : list (string * list tid) :=
  match m with
  | [] => [(k, v)]
  | (k', v') :: m' =>
      if String.eqb k' k then (k', v) :: m' else (k', v') :: Map_set m' k v
  end.

Fixpoint Map_delete (m : list (string * list tid)) (k : string)
    : list (string * list tid) :=
  match m with
  | [] => []
  | (k', v') :: m' =>
      if String.eqb k' k then m' else (k', v') :: Map_delete m' k
  end.

Definition Set_has (s : list tid) (x : tid) : bool := existsb (Nat.eqb x) s.

Definition Set_add (s : list tid) (x : tid) : list tid :=
  if Set_has s x then s else s ++ [x].

Fixpoint Set_delete (s : list tid) (x : tid) : list tid :=
  match s with
  | [] => []
  | y :: s' => if Nat.eqb x y then s' else y :: Set_delete s' x
  end.

(** [Map.values()] followed by the iteration of each [Set] *)
Definition Map_all (m : list (string * list tid)) : list tid :=
  List.concat (map snd m).

(** ** The run-time: timers, ticks, oracles *)

(** [Math.random()] *)
Definition Math_random (s : State) : Q * State :=
  match draws s with
  | [] => (0%Q, s)
  | r :: rest => (r, set_draws rest s)
  end.

(** [crypto.randomBytes(n)] *)
Definition crypto_randomBytes (n : nat) (s : State) : Buffer * State :=
  match entropy s with
  | [] => (repeat x00%byte n, s)
  | b :: rest => (firstn n (b ++ repeat x00%byte n), set_entropy rest s)
  end.

Definition setTimeout (fn : timer_fn) (delay : Z) (s : State)
    : nat * State :=
  let h := timer_ctr s in
  (h, set_timers (timers s ++ [(h, (delay, fn))]) (S h) s).

Definition clearTimeout (h : option nat) (s : State) : State :=
  match h with
  | None => s
  | Some n =>
      set_timers (filter (fun x => negb (Nat.eqb (fst x) n)) (timers s))
        (timer_ctr s) s
  end.

(** [process.nextTick(callback)]: Node refuses what is not a function
    with a [TypeError], thrown at once. *)
Definition process_nextTick (callback : js_callback) (s : State) : State :=
  match callback with
  | V_function f => set_ticks (ticks s ++ [f]) s
  | V_error _ =>
      log (Throw "TypeError: the callback argument must be of type function") s
  end.

(** ** [EventEmitter] *)

Definition listeners (n : event_name) (T : Topic) : list listener :=
  match n with
  | N_peer => t_on_peer T
  | N_update => t_on_update T
  | N_close => t_on_close T
  end.

Definition T_set_listeners (n : event_name) (v : list listener) (T : Topic)
    : Topic :=
  match n with
  | N_peer => T_set_on_peer v T
  | N_update => T_set_on_update v T
  | N_close => T_set_on_close v T
  end.

(** [topic.on(name, l)] *)
Definition T_on (n : event_name) (l : listener) (T : Topic) : Topic :=
  T_set_listeners n (listeners n T ++ [l]) T.

Fixpoint remove_first (ls : list listener) (l : listener) : list listener :=
  match ls with
  | [] => []
  | x :: ls' => if listener_eqb x l then ls' else x :: remove_first ls' l
  end.

(** [topic.removeListener(name, l)] takes out the instance added last *)
Definition T_removeListener (n : event_name) (l : listener) (T : Topic)
    : Topic :=
  T_set_listeners n (rev (remove_first (rev (listeners n T)) l)) T.

(** ** [Discovery._domain] and [Discovery._notify] *)

Definition Discovery__domain (s : State) (key : Buffer) : string :=
  String.append (toString_hex (slice0 20 key)) (d_tld s).

Definition Discovery__notify (fn : timer_fn) (eager : bool) (s : State)
    : nat * State :=
  let (r, s) := Math_random s in
  setTimeout fn (notify_delay eager r) s.

(** ** [Topic._stopDht] and [Topic.destroy] *)

Definition Topic__stopDht (t : tid) (s : State) : State :=
  match get_topic t s with
  | None => s
  | Some T =>
      let s := clearTimeout (t_timeoutDht T) s in
      let s := upd_topic t (T_set_timeoutDht None) s in
      match t_stream T with
      | Some sid => log (StreamDestroy sid) s
      | None => s
      end
  end.

Definition Topic_destroy (t : tid) (s : State) : State :=
  match get_topic t s with
  | None => s
  | Some T =>
      if t_destroyed T then s
      else
        let s := upd_topic t (T_set_destroyed true) s in
        let s := Topic__stopDht t s in
        let s := clearTimeout (t_timeoutMdns T) s in
        match Map_get (d_domains s) (t_domain T) with
        | None => log (Throw "TypeError: set is undefined") s
        | Some set =>
            let set := Set_delete set t in
            let s := set_domains (Map_set (d_domains s) (t_domain T) set) s in
            let s :=
              match set with
              | [] => set_domains (Map_delete (d_domains s) (t_domain T)) s
              | _ :: _ => s
              end in
            match t_announce T with
            | None => process_nextTick (V_function (T_emit_close t)) s
            | Some ann =>
                set_unannounces (unannounces s ++ [t])
                  (log (DhtUnannounce (t_key T) ann t) s)
            end
        end
  end.

(** ** [done] of [Discovery.destroy] *)

Definition destroy_done (s : State) : State :=
  let s := set_missing (d_missing s - 1) s in
  if d_missing s =? 0 then log EmitClose (log DhtDestroy s) else s.

(** ** [emit]

    The listeners registered when [emit] is called are run in the order
    of their registration. *)

Definition run_listener (t : tid) (e : event) (l : listener) (s : State)
    : State :=
  match l with
  | L_user n => log (Listen n t e) s
  | L_onclose cb => log (Call cb (Failure "Lookup failed")) s
  | L_onpeer cb =>
      match e with
      | Ev_peer p =>
          (* [once] takes the listener out before it calls it *)
          let s := upd_topic t (T_removeListener N_peer (L_onpeer cb)) s in
          let s := upd_topic t (T_removeListener N_close (L_onclose cb)) s in
          let s := Topic_destroy t s in
          log (Call cb (Peer p)) s
      | _ => s
      end
  | L_done => destroy_done s
  end.

Definition Topic_emit (t : tid) (e : event) (s : State) : State :=
  match get_topic t s with
  | None => s
  | Some T =>
      fold_left (fun s l => run_listener t e l s)
        (listeners (name_of e) T) (log (Emit t e) s)
  end.

(** ** [Topic._ondhtdata] *)

Definition Topic__ondhtdata (t : tid) (data : dht_data) (s : State) : State :=
  match get_topic t s with
  | None => s
  | Some T =>
      if t_destroyed T then s
      else
        let referrer := data_node data in
        let s :=
          fold_left
            (fun s p =>
               Topic_emit t
                 (Ev_peer (mk_peer (a_port p) (a_host p) true None)) s)
            (data_localPeers data) s in
        fold_left
          (fun s p =>
             Topic_emit t
               (Ev_peer (mk_peer (a_port p) (a_host p) false (Some referrer)))
               s)
          (data_peers data) s
  end.

(** ** [Topic._startMdns] *)

(** [loop] of [_startMdns] *)
Definition mdns_loop (t : tid) (s : State) : State :=
  match get_topic t s with
  | None => s
  | Some T =>
      let query :=
        mk_msg [mk_q "SRV" (t_domain T)] [TXT (t_domain T) [t_id T]] in
      let s := log (MdnsQuery query) s in
      let (h, s) := Discovery__notify (F_mdns_loop t) true s in
      upd_topic t (T_set_timeoutMdns (Some h)) s
  end.

Definition Topic__startMdns (t : tid) (s : State) : State := mdns_loop t s.

(** ** [Topic._startDht] *)

(** [loop] of [_startDht]: a new stream, a new [called] *)
Definition dht_loop (t : tid) (s : State) : State :=
  match get_topic t s with
  | None => s
  | Some T =>
      let sid := List.length (loops s) in
      let s :=
        match t_announce T with
        | Some ann => log (DhtAnnounce (t_key T) ann sid) s
        | None => log (DhtLookup (t_key T) sid) s
        end in
      let s := set_loops (loops s ++ [mk_Loop t false]) s in
      let s := upd_topic t (T_set_timeoutDht None) s in
      upd_topic t (T_set_stream (Some sid)) s
  end.

(** [done] of the run [sid] of [loop] *)
Definition dht_done (sid : nat) (err : option string) (s : State) : State :=
  match nth_error (loops s) sid with
  | None => s
  | Some L =>
      let t := lp_topic L in
      match get_topic t s with
      | None => s
      | Some T =>
          if lp_called L || t_destroyed T then s
          else
            let s := upd_topic t (T_set_stream None) s in
            let s :=
              set_loops
                (list_update (loops s) sid (fun L => mk_Loop (lp_topic L) true))
                s in
            let s := Topic_emit t (Ev_update err) s in
            let (h, s) := Discovery__notify (F_dht_loop t) false s in
            upd_topic t (T_set_timeoutDht (Some h)) s
      end
  end.

Definition Topic__startDht (t : tid) (s : State) : State := dht_loop t s.

(** ** The [Topic] constructor and [Topic.update] *)

Definition Topic_new (key : Buffer) (opts : topic_opts) (s : State)
    : tid * State :=
  let t := List.length (heap s) in
  let (rnd, s) := crypto_randomBytes 32 s in
  let port := js_or0 (to_localPort opts) in
  let name := Discovery__domain s key in
  let T :=
    mk_Topic key (to_announce opts) false (id_prefix ++ rnd) None None None
      name
      (if port =? 0 then None else Some (SRV name "0.0.0.0" port))
      [] [] [] in
  let s := set_heap (heap s ++ [T]) s in
  let s := Topic__startDht t s in
  let s :=
    match to_announce opts with
    | None => Topic__startMdns t s
    | Some _ => if to_lookup opts then Topic__startMdns t s else s
    end in
  (t, s).

Definition Topic_update (t : tid) (s : State) : State :=
  match get_topic t s with
  | None => s
  | Some T =>
      if t_destroyed T then s
      else
        let s :=
          match t_timeoutDht T with
          | Some h =>
              let s := clearTimeout (Some h) s in
              let s := upd_topic t (T_set_timeoutDht None) s in
              Topic__startDht t s
          | None => s
          end in
        let s := clearTimeout (t_timeoutMdns T) s in
        Topic__startMdns t s
  end.

(** ** The [Discovery] constructor *)

Record discovery_opts := mk_dopts {
  opt_domain : option string;
  opt_bootstrap : option (list string) }.

Definition default_bootstrap : list string :=
  ["bootstrap1.hyperdht.org"; "bootstrap2.hyperdht.org";
   "bootstrap3.hyperdht.org"].

(** [draws] and [entropy] are what the random sources will answer *)
Definition Discovery_new (opts : discovery_opts) (draws : list Q)
    (entropy : list Buffer) : State :=
  let bootstrap :=
    match opt_bootstrap opts with
    | Some l => l
    | None => default_bootstrap
    end in
  let domain := js_or_string (opt_domain opts) "hyperswarm.local" in
  mk_State false (String.append "." domain) [] bootstrap 0 [] [] [] [] [] O
    [] draws entropy [].

(** ** [Discovery._topic], [lookup], [announce], [lookupOne] *)

Definition Discovery__topic (key : Buffer) (ann : topic_opts) (s : State)
    : tid * State :=
  let (topic, s) := Topic_new key ann s in
  let domain := Discovery__domain s key in
  let s :=
    if Map_has (d_domains s) domain then s
    else set_domains (Map_set (d_domains s) domain []) s in
  match Map_get (d_domains s) domain with
  | None => (topic, log (Throw "TypeError: set is undefined") s)
  | Some set =>
      (topic, set_domains (Map_set (d_domains s) domain (Set_add set topic)) s)
  end.

(** The methods that return a [Topic] return [None] when they throw. *)
Definition Discovery_lookup (key : Buffer) (s : State)
    : option tid * State :=
  if d_destroyed s then
    (None, log (Throw "Discovery instance is destroyed") s)
  else
    let (t, s) := Discovery__topic key no_opts s in (Some t, s).

Definition Discovery_announce (key : Buffer) (opts : announce_opts)
    (s : State) : option tid * State :=
  if d_destroyed s then
    (None, log (Throw "Discovery instance is destroyed") s)
  else
    let (t, s) :=
      Discovery__topic key
        (mk_topts
           (Some (js_or0 (js_or (o_localPort opts) (o_port opts))))
           (o_lookup opts)
           (Some (mk_ann (js_or0 (o_port opts)) (o_localAddress opts))))
        s in
    (Some t, s).

Definition Discovery_lookupOne (key : Buffer) (cb : nat) (s : State)
    : State :=
  match Discovery_lookup key s with
  | (None, s) => s
  | (Some t, s) =>
      let s := upd_topic t (T_on N_close (L_onclose cb)) s in
      upd_topic t (T_on N_peer (L_onpeer cb)) s
  end.

(** ** [Discovery.ping] *)

(** the callback given to [dht.ping] for [bootstrap] by the call [pid] *)
Definition ping_callback (pid : nat) (bootstrap : string)
    (pong : option nat) (now : Z) (s : State) : State :=
  match nth_error (pings s) pid with
  | None => s
  | Some P =>
      let res :=
        match pong with
        | Some g => pg_res P ++ [mk_pr bootstrap (now - pg_start P) g]
        | None => pg_res P
        end in
      let missing := pg_missing P - 1 in
      let s :=
        set_pings
          (list_update (pings s) pid
             (fun P => mk_Ping (pg_cb P) (pg_start P) missing res))
          s in
      if negb (missing =? 0) then s
      else
        match res with
        | [] => log (Call (pg_cb P) (Failure "All bootstrap nodes failed")) s
        | _ :: _ => log (Call (pg_cb P) (Pongs res)) s
        end
  end.

Definition Discovery_ping (cb : nat) (now : Z) (s : State) : State :=
  match d_bootstrap s with
  | [] =>
      process_nextTick
        (V_function (T_call cb (Failure "No bootstrap nodes available"))) s
  | _ :: _ =>
      let pid := List.length (pings s) in
      let s :=
        set_pings
          (pings s ++
           [mk_Ping cb now (Z.of_nat (List.length (d_bootstrap s))) []])
          s in
      fold_left (fun s bootstrap => log (DhtPing bootstrap pid) s)
        (d_bootstrap s) s
  end.

(** ** [Discovery.holepunch] *)

Definition Discovery_holepunch (p : peer) (cb : nat) (s : State) : State :=
  match p_referrer p with
  | None => process_nextTick (V_error "Referrer needed to holepunch") s
  | Some referrer => log (DhtHolepunch p referrer cb) s
  end.

(** ** [Discovery.destroy]

    The two [for ... of] loops walk the live [Map] and [Set]s while
    [topic.destroy()] deletes from them.  What it deletes is the element
    just visited (and its [Set] once empty), which leaves the elements
    still to come in place: the loops visit the topics present at the
    start, in order. *)

Definition Discovery_destroy (s : State) : State :=
  if d_destroyed s then s
  else
    let s := set_destroyed true s in
    let s := set_missing 1 s in
    let s := log MdnsDestroy s in
    let s :=
      fold_left
        (fun s topic =>
           let s := set_missing (d_missing s + 1) s in
           let s := Topic_destroy topic s in
           upd_topic topic (T_on N_close L_done) s)
        (Map_all (d_domains s)) s in
    process_nextTick (V_function T_done) s.

(** ** The multicast handlers *)

Fixpoint Discovery__getId (ans : list record) (name : string)
    : option Buffer :=
  match ans with
  | [] => None
  | TXT n (d :: _) :: rest =>
      if String.eqb n name then Some d else Discovery__getId rest name
  | _ :: rest => Discovery__getId rest name
  end.

(** the [if (id && topic.id.equals(id)) continue] of [_onmdnsquery] *)
Definition is_self (id : option Buffer) (T : Topic) : bool :=
  match id with
  | Some i => Buffer_equals (t_id T) i
  | None => false
  end.

(** the body of the inner loop of [_onmdnsquery] *)
Definition answer_for (s : State) (id : option Buffer) (r : list record)
    (topic : tid) : list record :=
  match get_topic topic s with
  | None => r
  | Some T =>
      if is_self id T then r
      else
        match t_answer T with
        | Some a => r ++ [a]
        | None => r
        end
  end.

(** the body of the outer loop of [_onmdnsquery] *)
Definition answers_for (s : State) (res : message) (r : list record)
    (q : question) : list record :=
  if String.eqb (q_type q) "SRV" then
    match Map_get (d_domains s) (q_name q) with
    | None => r
    | Some set =>
        let id := Discovery__getId (answers res) (q_name q) in
        fold_left (answer_for s id) set r
    end
  else r.

Definition Discovery__onmdnsquery (res : message) (s : State) : State :=
  let r := fold_left (answers_for s res) (questions res) [] in
  log (MdnsResponse (mk_msg [] r)) s.

(** In [_onmdnsresponse] a listener run by [topic.emit] can destroy that
    topic, which deletes the element just visited from the [Set] being
    walked: the inner loop visits the topics present when it starts.
    The [Set] is looked up again for every answer. *)
Definition Discovery__onmdnsresponse (res : message) (address : string)
    (s : State) : State :=
  fold_left
    (fun s a =>
       match a with
       | SRV name target port =>
           match Map_get (d_domains s) name with
           | None => s
           | Some set =>
               let host :=
                 if String.eqb target "0.0.0.0" then address else target in
               fold_left
                 (fun s topic =>
                    Topic_emit topic (Ev_peer (mk_peer port host true None)) s)
                 set s
           end
       | _ => s
       end)
    (answers res) s.

(** ** The event loop

    One [action] is one run to completion: a call by the caller, or one
    callback invoked by the run-time or by one of the two clients. *)

Inductive action :=
| A_announce (key : Buffer) (opts : announce_opts)
| A_lookup (key : Buffer)
| A_lookupOne (key : Buffer) (cb : nat)
| A_ping (cb : nat) (now : Z)
| A_holepunch (p : peer) (cb : nat)
| A_destroy
| A_topic_update (t : tid)
| A_topic_destroy (t : tid)
| A_topic_on (t : tid) (n : event_name) (l : nat)
| E_tick                                 (* the next [nextTick] callback *)
| E_timeout (h : nat)                    (* the timeout [h] fires *)
| E_data (sid : nat) (data : dht_data)   (* ['data'] on the stream [sid] *)
| E_error (sid : nat) (err : string)     (* ['error'] *)
| E_end (sid : nat)                      (* ['end'] *)
| E_unannounced (t : tid)                (* [dht.unannounce] calls back *)
| E_pong (pid : nat) (bootstrap : string) (pong : option nat) (now : Z)
| E_query (res : message)                (* ['query'] of the mdns client *)
| E_response (res : message) (address : string).

Definition run_task (f : task) (s : State) : State :=
  match f with
  | T_emit_close t => Topic_emit t Ev_close s
  | T_done => destroy_done s
  | T_call cb r => log (Call cb r) s
  end.

Definition run_timer (fn : timer_fn) (s : State) : State :=
  match fn with
  | F_mdns_loop t => mdns_loop t s
  | F_dht_loop t => dht_loop t s
  end.

Fixpoint find_timer (l : list (nat * (Z * timer_fn))) (h : nat)
    : option timer_fn :=
  match l with
  | [] => None
  | (h', (_, fn)) :: l' => if Nat.eqb h' h then Some fn else find_timer l' h
  end.

Definition step (a : action) (s : State) : State :=
  match a with
  | A_announce key opts => snd (Discovery_announce key opts s)
  | A_lookup key => snd (Discovery_lookup key s)
  | A_lookupOne key cb => Discovery_lookupOne key cb s
  | A_ping cb now => Discovery_ping cb now s
  | A_holepunch p cb => Discovery_holepunch p cb s
  | A_destroy => Discovery_destroy s
  | A_topic_update t => Topic_update t s
  | A_topic_destroy t => Topic_destroy t s
  | A_topic_on t n l => upd_topic t (T_on n (L_user l)) s
  | E_tick =>
      match ticks s with
      | [] => s
      | f :: rest => run_task f (set_ticks rest s)
      end
  | E_timeout h =>
      match find_timer (timers s) h with
      | None => s
      | Some fn => run_timer fn (clearTimeout (Some h) s)
      end
  | E_data sid data =>
      match nth_error (loops s) sid with
      | None => s
      | Some L => Topic__ondhtdata (lp_topic L) data s
      end
  | E_error sid err => dht_done sid (Some err) s
  | E_end sid => dht_done sid None s
  | E_unannounced t =>
      if Set_has (unannounces s) t then
        Topic_emit t Ev_close
          (set_unannounces (Set_delete (unannounces s) t) s)
      else s
  | E_pong pid bootstrap pong now => ping_callback pid bootstrap pong now s
  | E_query res => Discovery__onmdnsquery res s
  | E_response res address => Discovery__onmdnsresponse res address s
  end.

Definition run (acts : list action) (s : State) : State :=
  fold_left (fun s a => step a s) acts s.

(** the trace in the order things happened *)
Definition history (s : State) : list effect := rev (trace s).

(* ================================================================== *)
(** * Part Ib: the observable core of the machine                     *)
(* ================================================================== *)

(** Timers, streams, the random sources and the calls into the two
    clients decide when things happen and with which data, but not what
    the program then does with its topics, its index, its tick queue and
    its listeners.  The core machine below is the program with those
    parts erased; [erase_step] (Part II) shows that every step of the
    program is a step of the core.  The invariants are proved on the
    core and read back on the program. *)

Record CTopic := mk_CTopic {
  ct_destroyed : bool;
  ct_domain : string;
  ct_announcing : bool;
  ct_on_peer : list listener;
  ct_on_update : list listener;
  ct_on_close : list listener }.

Record Core := mk_Core {
  c_destroyed : bool;
  c_domains : list (string * list tid);
  c_missing : Z;
  c_topics : list CTopic;
  c_pings : list Ping;
  c_ticks : list task;
  c_unann : list tid;
  c_trace : list effect }.

(** the effects the core keeps: events and callbacks *)
Definition visible (e : effect) : bool :=
  match e with
  | Emit _ _ | EmitClose | Call _ _ => true
  | _ => false
  end.

Definition is_some {A : Type} (o : option A) : bool :=
  match o with Some _ => true | None => false end.

Definition erase_topic (T : Topic) : CTopic :=
  mk_CTopic (t_destroyed T) (t_domain T) (is_some (t_announce T))
    (t_on_peer T) (t_on_update T) (t_on_close T).

Definition erase (s : State) : Core :=
  mk_Core (d_destroyed s) (d_domains s) (d_missing s)
    (map erase_topic (heap s)) (pings s) (ticks s) (unannounces s)
    (filter visible (trace s)).

Definition c_set_destroyed (v : bool) (c : Core) : Core :=
  mk_Core v (c_domains c) (c_missing c) (c_topics c) (c_pings c) (c_ticks c)
    (c_unann c) (c_trace c).

Definition c_set_domains (v : list (string * list tid)) (c : Core) : Core :=
  mk_Core (c_destroyed c) v (c_missing c) (c_topics c) (c_pings c)
    (c_ticks c) (c_unann c) (c_trace c).

Definition c_set_missing (v : Z) (c : Core) : Core :=
  mk_Core (c_destroyed c) (c_domains c) v (c_topics c) (c_pings c)
    (c_ticks c) (c_unann c) (c_trace c).

Definition c_set_topics (v : list CTopic) (c : Core) : Core :=
  mk_Core (c_destroyed c) (c_domains c) (c_missing c) v (c_pings c)
    (c_ticks c) (c_unann c) (c_trace c).

Definition c_set_pings (v : list Ping) (c : Core) : Core :=
  mk_Core (c_destroyed c) (c_domains c) (c_missing c) (c_topics c) v
    (c_ticks c) (c_unann c) (c_trace c).

Definition c_set_ticks (v : list task) (c : Core) : Core :=
  mk_Core (c_destroyed c) (c_domains c) (c_missing c) (c_topics c)
    (c_pings c) v (c_unann c) (c_trace c).

Definition c_set_unann (v : list tid) (c : Core) : Core :=
  mk_Core (c_destroyed c) (c_domains c) (c_missing c) (c_topics c)
    (c_pings c) (c_ticks c) v (c_trace c).

Definition c_log (e : effect) (c : Core) : Core :=
  mk_Core (c_destroyed c) (c_domains c) (c_missing c) (c_topics c)
    (c_pings c) (c_ticks c) (c_unann c) (e :: c_trace c).

Definition ct_set_destroyed (v : bool) (T : CTopic) : CTopic :=
  mk_CTopic v (ct_domain T) (ct_announcing T) (ct_on_peer T)
    (ct_on_update T) (ct_on_close T).

Definition ct_listeners (n : event_name) (T : CTopic) : list listener :=
  match n with
  | N_peer => ct_on_peer T
  | N_update => ct_on_update T
  | N_close => ct_on_close T
  end.

Definition ct_set_listeners (n : event_name) (v : list listener)
    (T : CTopic) : CTopic :=
  match n with
  | N_peer =>
      mk_CTopic (ct_destroyed T) (ct_domain T) (ct_announcing T) v
        (ct_on_update T) (ct_on_close T)
  | N_update =>
      mk_CTopic (ct_destroyed T) (ct_domain T) (ct_announcing T)
        (ct_on_peer T) v (ct_on_close T)
  | N_close =>
      mk_CTopic (ct_destroyed T) (ct_domain T) (ct_announcing T)
        (ct_on_peer T) (ct_on_update T) v
  end.

Definition ct_on (n : event_name) (l : listener) (T : CTopic) : CTopic :=
  ct_set_listeners n (ct_listeners n T ++ [l]) T.

Definition ct_removeListener (n : event_name) (l : listener) (T : CTopic)
    : CTopic :=
  ct_set_listeners n (rev (remove_first (rev (ct_listeners n T)) l)) T.

Definition c_get (t : tid) (c : Core) : option CTopic :=
  nth_error (c_topics c) t.

Definition c_upd (t : tid) (f : CTopic -> CTopic) (c : Core) : Core :=
  c_set_topics (list_update (c_topics c) t f) c.

Definition c_Topic_destroy (t : tid) (c : Core) : Core :=
  match c_get t c with
  | None => c
  | Some T =>
      if ct_destroyed T then c
      else
        let c := c_upd t (ct_set_destroyed true) c in
        match Map_get (c_domains c) (ct_domain T) with
        | None => c
        | Some set =>
            let set := Set_delete set t in
            let c := c_set_domains (Map_set (c_domains c) (ct_domain T) set) c in
            let c :=
              match set with
              | [] => c_set_domains (Map_delete (c_domains c) (ct_domain T)) c
              | _ :: _ => c
              end in
            if ct_announcing T then c_set_unann (c_unann c ++ [t]) c
            else c_set_ticks (c_ticks c ++ [T_emit_close t]) c
        end
  end.

Definition c_done (c : Core) : Core :=
  let c := c_set_missing (c_missing c - 1) c in
  if c_missing c =? 0 then c_log EmitClose c else c.

Definition c_run_listener (t : tid) (e : event) (l : listener) (c : Core)
    : Core :=
  match l with
  | L_user _ => c
  | L_onclose cb => c_log (Call cb (Failure "Lookup failed")) c
  | L_onpeer cb =>
      match e with
      | Ev_peer p =>
          let c := c_upd t (ct_removeListener N_peer (L_onpeer cb)) c in
          let c := c_upd t (ct_removeListener N_close (L_onclose cb)) c in
          let c := c_Topic_destroy t c in
          c_log (Call cb (Peer p)) c
      | _ => c
      end
  | L_done => c_done c
  end.

Definition c_emit (t : tid) (e : event) (c : Core) : Core :=
  match c_get t c with
  | None => c
  | Some T =>
      fold_left (fun c l => c_run_listener t e l c)
        (ct_listeners (name_of e) T) (c_log (Emit t e) c)
  end.

(** [_topic]: a new topic, entered in the index under [domain] *)
Definition c_topic (domain : string) (announcing : bool) (c : Core)
    : Core :=
  let topic := List.length (c_topics c) in
  let c :=
    c_set_topics (c_topics c ++ [mk_CTopic false domain announcing [] [] []])
      c in
  let c :=
    if Map_has (c_domains c) domain then c
    else c_set_domains (Map_set (c_domains c) domain []) c in
  match Map_get (c_domains c) domain with
  | None => c
  | Some set =>
      c_set_domains (Map_set (c_domains c) domain (Set_add set topic)) c
  end.

Definition c_destroy (c : Core) : Core :=
  if c_destroyed c then c
  else
    let c := c_set_destroyed true c in
    let c := c_set_missing 1 c in
    let c :=
      fold_left
        (fun c topic =>
           let c := c_set_missing (c_missing c + 1) c in
           let c := c_Topic_destroy topic c in
           c_upd topic (ct_on N_close L_done) c)
        (Map_all (c_domains c)) c in
    c_set_ticks (c_ticks c ++ [T_done]) c.

Definition c_run_task (f : task) (c : Core) : Core :=
  match f with
  | T_emit_close t => c_emit t Ev_close c
  | T_done => c_done c
  | T_call cb r => c_log (Call cb r) c
  end.

Definition c_pong (pid : nat) (bootstrap : string) (pong : option nat)
    (now : Z) (c : Core) : Core :=
  match nth_error (c_pings c) pid with
  | None => c
  | Some P =>
      let res :=
        match pong with
        | Some g => pg_res P ++ [mk_pr bootstrap (now - pg_start P) g]
        | None => pg_res P
        end in
      let missing := pg_missing P - 1 in
      let c :=
        c_set_pings
          (list_update (c_pings c) pid
             (fun P => mk_Ping (pg_cb P) (pg_start P) missing res))
          c in
      if negb (missing =? 0) then c
      else
        match res with
        | [] => c_log (Call (pg_cb P) (Failure "All bootstrap nodes failed")) c
        | _ :: _ => c_log (Call (pg_cb P) (Pongs res)) c
        end
  end.

(** the steps of the core *)
Inductive caction :=
| C_skip
| C_topic (domain : string) (announcing : bool)
| C_lookupOne (domain : string) (cb : nat)
| C_topic_destroy (t : tid)
| C_destroy
| C_on (t : tid) (n : event_name) (l : nat)
| C_tick
| C_unannounced (t : tid)
| C_data (t : tid) (ps : list peer)
| C_update (t : tid) (err : option string)
| C_response (l : list (string * peer))
| C_ping_fail (cb : nat)
| C_ping (cb : nat) (now : Z) (n : nat)
| C_pong (pid : nat) (bootstrap : string) (pong : option nat) (now : Z).

Definition c_data (t : tid) (ps : list peer) (c : Core) : Core :=
  match c_get t c with
  | None => c
  | Some T =>
      if ct_destroyed T then c
      else fold_left (fun c p => c_emit t (Ev_peer p) c) ps c
  end.

Definition c_response (l : list (string * peer)) (c : Core) : Core :=
  fold_left
    (fun c a =>
       match Map_get (c_domains c) (fst a) with
       | None => c
       | Some set =>
           fold_left (fun c topic => c_emit topic (Ev_peer (snd a)) c) set c
       end)
    l c.

Definition c_step (a : caction) (c : Core) : Core :=
  match a with
  | C_skip => c
  | C_topic domain announcing => c_topic domain announcing c
  | C_lookupOne domain cb =>
      let t := List.length (c_topics c) in
      let c := c_topic domain false c in
      let c := c_upd t (ct_on N_close (L_onclose cb)) c in
      c_upd t (ct_on N_peer (L_onpeer cb)) c
  | C_topic_destroy t => c_Topic_destroy t c
  | C_destroy => c_destroy c
  | C_on t n l => c_upd t (ct_on n (L_user l)) c
  | C_tick =>
      match c_ticks c with
      | [] => c
      | f :: rest => c_run_task f (c_set_ticks rest c)
      end
  | C_unannounced t =>
      if Set_has (c_unann c) t then
        c_emit t Ev_close (c_set_unann (Set_delete (c_unann c) t) c)
      else c
  | C_data t ps => c_data t ps c
  | C_update t err => c_emit t (Ev_update err) c
  | C_response l => c_response l c
  | C_ping_fail cb =>
      c_set_ticks
        (c_ticks c ++ [T_call cb (Failure "No bootstrap nodes available")]) c
  | C_ping cb now n =>
      c_set_pings (c_pings c ++ [mk_Ping cb now (Z.of_nat n) []]) c
  | C_pong pid bootstrap pong now => c_pong pid bootstrap pong now c
  end.

Definition c_run (acts : list caction) (c : Core) : Core :=
  fold_left (fun c a => c_step a c) acts c.

(** the peers [_ondhtdata] emits for [data], in order *)
Definition peers_of (data : dht_data) : list peer :=
  map (fun p => mk_peer (a_port p) (a_host p) true None)
    (data_localPeers data) ++
  map (fun p => mk_peer (a_port p) (a_host p) false (Some (data_node data)))
    (data_peers data).

(** the peers [_onmdnsresponse] emits for the answers, with their names *)
Definition response_peers (address : string) (ans : list record)
    : list (string * peer) :=
  flat_map
    (fun a =>
       match a with
       | SRV name target port =>
           [(name,
             mk_peer port
               (if String.eqb target "0.0.0.0" then address else target)
               true None)]
       | _ => []
       end)
    ans.

(** the core step that a step of the program amounts to *)
Definition abstraction (a : action) (s : State) : caction :=
  match a with
  | A_announce key opts =>
      if d_destroyed s then C_skip
      else C_topic (Discovery__domain s key) true
  | A_lookup key =>
      if d_destroyed s then C_skip
      else C_topic (Discovery__domain s key) false
  | A_lookupOne key cb =>
      if d_destroyed s then C_skip
      else C_lookupOne (Discovery__domain s key) cb
  | A_ping cb now =>
      match d_bootstrap s with
      | [] => C_ping_fail cb
      | _ :: _ => C_ping cb now (List.length (d_bootstrap s))
      end
  | A_holepunch _ _ => C_skip
  | A_destroy => C_destroy
  | A_topic_update _ => C_skip
  | A_topic_destroy t => C_topic_destroy t
  | A_topic_on t n l => C_on t n l
  | E_tick => C_tick
  | E_timeout _ => C_skip
  | E_data sid data =>
      match nth_error (loops s) sid with
      | None => C_skip
      | Some L => C_data (lp_topic L) (peers_of data)
      end
  | E_error sid err =>
      match nth_error (loops s) sid with
      | None => C_skip
      | Some L =>
          match get_topic (lp_topic L) s with
          | None => C_skip
          | Some T =>
              if lp_called L || t_destroyed T then C_skip
              else C_update (lp_topic L) (Some err)
          end
      end
  | E_end sid =>
      match nth_error (loops s) sid with
      | None => C_skip
      | Some L =>
          match get_topic (lp_topic L) s with
          | None => C_skip
          | Some T =>
              if lp_called L || t_destroyed T then C_skip
              else C_update (lp_topic L) None
          end
      end
  | E_unannounced t => C_unannounced t
  | E_pong pid bootstrap pong now => C_pong pid bootstrap pong now
  | E_query _ => C_skip
  | E_response res address => C_response (response_peers address (answers res))
  end.


(** the core steps of a run of the program *)
Fixpoint abstractions (acts : list action) (s : State) : list caction :=
  match acts with
  | [] => []
  | a :: rest => abstraction a s :: abstractions rest (step a s)
  end.

(** the fields that are set by the constructor and never again *)
Definition consts (s : State) : string * list string :=
  (d_tld s, d_bootstrap s).

(* ================================================================== *)
(** * Part Ic: vocabulary of the specification                        *)
(* ================================================================== *)

Definition count {A : Type} (p : A -> bool) (l : list A) : nat :=
  List.length (filter p l).

Definition is_done_listener (l : listener) : bool :=
  match l with L_done => true | _ => false end.

Definition is_close_task (t : tid) (f : task) : bool :=
  match f with T_emit_close t' => Nat.eqb t t' | _ => false end.

Definition is_done_task (f : task) : bool :=
  match f with T_done => true | _ => false end.

Definition is_close_emit (t : tid) (e : effect) : bool :=
  match e with Emit t' Ev_close => Nat.eqb t t' | _ => false end.

Definition is_session_close (e : effect) : bool :=
  match e with EmitClose => true | _ => false end.

(** the ['close'] of the topic [t] that is still to come: a tick or an
    [unannounce] in flight *)
Definition pending_close (c : Core) (t : tid) : nat :=
  count (is_close_task t) (c_ticks c) + count (Nat.eqb t) (c_unann c).

Definition emitted_close (c : Core) (t : tid) : nat :=
  count (is_close_emit t) (c_trace c).

(** how often the session has emitted ['close'] *)
Definition closes (c : Core) : nat := count is_session_close (c_trace c).

Definition topic_destroyed (c : Core) (t : tid) : bool :=
  match c_get t c with Some T => ct_destroyed T | None => false end.

(** how many times [done] is registered on the ['close'] of [t] *)
Definition done_on (c : Core) (t : tid) : nat :=
  match c_get t c with
  | Some T => count is_done_listener (ct_on_close T)
  | None => O
  end.

(** the calls of [done] a queued callback will make *)
Definition task_weight (c : Core) (f : task) : nat :=
  match f with
  | T_emit_close t => done_on c t
  | T_done => 1
  | T_call _ _ => 0
  end.

(** the calls of [done] still to come *)
Definition owed (c : Core) : nat :=
  list_sum (map (task_weight c) (c_ticks c)) +
  list_sum (map (done_on c) (c_unann c)).

(** [a] happened before [b] in the trace [tr] (newest first) *)
Definition before (a b : effect) (tr : list effect) : Prop :=
  exists l1 l2, tr = l1 ++ b :: l2 /\ In a l2.

Definition peer_listener (l : listener) : bool :=
  match l with L_user _ | L_onpeer _ => true | _ => false end.

Definition update_listener (l : listener) : bool :=
  match l with L_user _ => true | _ => false end.

Definition close_listener (l : listener) : bool :=
  match l with L_onpeer _ => false | _ => true end.

Definition typed (T : CTopic) : Prop :=
  forallb peer_listener (ct_on_peer T) = true /\
  forallb update_listener (ct_on_update T) = true /\
  forallb close_listener (ct_on_close T) = true.

(** The Domain Index and the heap agree: the index holds exactly the
    topics that are not destroyed, each once, under its domain, and no
    domain is kept with an empty set. *)
Record index_ok (c : Core) : Prop := mk_index_ok {
  ix_nonempty : forall d set, In (d, set) (c_domains c) -> set <> [];
  ix_keys : NoDup (map fst (c_domains c));
  ix_sets : forall d set, In (d, set) (c_domains c) -> NoDup set;
  ix_live : forall d set t,
      In (d, set) (c_domains c) -> In t set ->
      exists T, c_get t c = Some T /\ ct_destroyed T = false /\
                ct_domain T = d;
  ix_all : forall t T,
      c_get t c = Some T -> ct_destroyed T = false ->
      exists set, In (ct_domain T, set) (c_domains c) /\ In t set }.

(** The invariant of the core.  [extra] counts the calls of [done] that
    the step in progress is about to make itself; [F] is a set of topics
    on whose ['close'] [done] is known to be registered. *)
Record Inv (F : tid -> Prop) (extra : nat) (c : Core) : Prop := mk_Inv {
  inv_index : index_ok c;
  inv_typed : forall t T, c_get t c = Some T -> typed T;
  inv_close : forall t,
      (pending_close c t + emitted_close c t)%nat
      = if topic_destroyed c t then 1%nat else 0%nat;
  inv_idle : c_destroyed c = false ->
      (forall t, done_on c t = O) /\ count is_done_task (c_ticks c) = O /\
      closes c = O /\ extra = O;
  inv_missing : c_destroyed c = true ->
      c_missing c = Z.of_nat (owed c + extra);
  inv_closes : c_destroyed c = true ->
      closes c = if c_missing c =? 0 then 1%nat else 0%nat;
  inv_done_destroyed : forall t,
      done_on c t <> O -> topic_destroyed c t = true;
  inv_order : forall t,
      closes c <> O -> done_on c t <> O ->
      before (Emit t Ev_close) EmitClose (c_trace c);
  inv_frozen : forall t, F t -> done_on c t <> O }.

(** the index after [set.delete(topic)] left [set] under [d], with the
    entry removed when nothing is left *)
Definition removed (m : list (string * list tid)) (d : string)
    (set : list tid) : list (string * list tid) :=
  match set with
  | [] => Map_delete (Map_set m d set) d
  | _ :: _ => Map_set m d set
  end.

(** the index after [_topic] entered the topic [n] under [d] *)
Definition inserted (m : list (string * list tid)) (d : string) (n : tid)
    : list (string * list tid) :=
  match Map_get m d with
  | Some set => Map_set m d (Set_add set n)
  | None => m ++ [(d, [n])]
  end.

(** one round of the loop of [Discovery.destroy] *)
Definition destroy_round (c : Core) (topic : tid) : Core :=
  c_upd topic (ct_on N_close L_done)
    (c_Topic_destroy topic (c_set_missing (c_missing c + 1) c)).

(** the states the program can be in *)
Definition reachable (s : State) : Prop :=
  exists opts draws entropy acts,
    s = run acts (Discovery_new opts draws entropy).

(** running every queued tick, then every [unannounce] callback *)
Definition drain (s : State) : list action :=
  repeat E_tick (List.length (ticks s)) ++ map E_unannounced (unannounces s).

(** nothing is queued: no tick, no [unannounce] in flight *)
Definition quiescent (s : State) : Prop :=
  ticks s = [] /\ unannounces s = [].

(** ** Sample inputs *)

Definition sample_key : Buffer := ["001"; "002"; "003"]%byte.

Definition sample_session : State :=
  Discovery_new (mk_dopts (Some "test.local") None) [] [].

Definition sample_announce : announce_opts :=
  mk_aopts (Some 4000) None None false.

Definition sample_data : dht_data :=
  mk_data (mk_node "203.0.113.7" 49737)
    [mk_addr "192.168.1.10" 4000; mk_addr "192.168.1.11" 4001] [].

Definition sample_peer_a : peer := mk_peer 4000 "192.168.1.10" true None.
Definition sample_peer_b : peer := mk_peer 4001 "192.168.1.11" true None.

(** the fields of a [Topic] that are assigned by the constructor only *)
Definition T_static (T : Topic)
    : Buffer * option Announce * Buffer * string * option record :=
  (t_key T, t_announce T, t_id T, t_domain T, t_answer T).

Definition statics (s : State)
    : list (Buffer * option Announce * Buffer * string * option record) :=
  map T_static (heap s).

(** an answer record is only ever held by an announcing topic *)
Definition answer_announced
    (x : Buffer * option Announce * Buffer * string * option record) : Prop :=
  match x with
  | (_, ann, _, _, ans) => ans <> None -> ann <> None
  end.

Definition option_list {A : Type} (o : option A) : list A :=
  match o with Some a => [a] | None => [] end.

(** what the topic [t] adds to the response to a query whose companion
    record carries the token [id]: nothing when the token is its own *)
Definition contribution (s : State) (id : option Buffer) (t : tid)
    : list record :=
  match get_topic t s with
  | Some T => if is_self id T then [] else option_list (t_answer T)
  | None => []
  end.

(** what the question [q] of the query [res] adds to the response *)
Definition question_answers (s : State) (res : message) (q : question)
    : list record :=
  if String.eqb (q_type q) "SRV" then
    match Map_get (d_domains s) (q_name q) with
    | Some set =>
        flat_map (contribution s (Discovery__getId (answers res) (q_name q)))
          set
    | None => []
    end
  else [].

(** the answer records of the topics [ts], in that order: the record of
    each topic that has one *)
Definition answer_records (s : State) (ts : list tid) : list record :=
  flat_map
    (fun t =>
       match get_topic t s with
       | Some T => option_list (t_answer T)
       | None => []
       end)
    ts.

(** ** Vocabulary for [ping] *)

(** what the environment reports when one [dht.ping] of the [ping] call
    [pid] completes: the node, the pong if there is one and the time *)
Definition completion : Type := string * option nat * Z.

Fixpoint completions (pid : nat) (acts : list action) : list completion :=
  match acts with
  | [] => []
  | E_pong p bootstrap pong now :: rest =>
      if Nat.eqb p pid then (bootstrap, pong, now) :: completions pid rest
      else completions pid rest
  | _ :: rest => completions pid rest
  end.

Definition responded (c : completion) : bool := is_some (snd (fst c)).

(** the nodes that responded, in the order of completion, with their
    round-trip time from [start] *)
Definition responders (start : Z) (cs : list completion)
    : list ping_result :=
  flat_map
    (fun c : completion =>
       match c with
       | (bootstrap, Some pong, now) => [mk_pr bootstrap (now - start) pong]
       | (_, None, _) => []
       end) cs.

Definition ping_outcome (res : list ping_result) : cb_result :=
  match res with
  | [] => Failure "All bootstrap nodes failed"
  | _ :: _ => Pongs res
  end.

Definition sample_pinger : State :=
  Discovery_new (mk_dopts None (Some ["a.example"; "b.example"])) [] [].


(** ** Vocabulary for [lookupOne] *)

(** the callback [cb] is given to the call [a] *)
Definition uses (cb : nat) (a : action) : bool :=
  match a with
  | A_lookupOne _ cb' => Nat.eqb cb' cb
  | A_ping cb' _ => Nat.eqb cb' cb
  | A_holepunch _ cb' => Nat.eqb cb' cb
  | _ => false
  end.

Definition c_uses (cb : nat) (a : caction) : bool :=
  match a with
  | C_lookupOne _ cb' => Nat.eqb cb' cb
  | C_ping_fail cb' => Nat.eqb cb' cb
  | C_ping cb' _ _ => Nat.eqb cb' cb
  | _ => false
  end.

Definition is_call (cb : nat) (e : effect) : bool :=
  match e with Call cb' _ => Nat.eqb cb' cb | _ => false end.

Definition is_call_task (cb : nat) (f : task) : bool :=
  match f with T_call cb' _ => Nat.eqb cb' cb | _ => false end.

Definition is_onpeer (cb : nat) (l : listener) : bool :=
  match l with L_onpeer cb' => Nat.eqb cb' cb | _ => false end.

Definition is_onclose (cb : nat) (l : listener) : bool :=
  match l with L_onclose cb' => Nat.eqb cb' cb | _ => false end.

(** [l] is one of the two closures of the [lookupOne] call of [cb] *)
Definition mine (cb : nat) (l : listener) : bool :=
  is_onpeer cb l || is_onclose cb l.

Definition pinged (cb : nat) (P : Ping) : bool := Nat.eqb (pg_cb P) cb.

Definition peer_on (t : tid) (e : effect) : list peer :=
  match e with
  | Emit t' (Ev_peer p) => if Nat.eqb t' t then [p] else []
  | _ => []
  end.

(** the peer candidates the topic [t] has emitted, in the order of [tr] *)
Definition peers_on (t : tid) (tr : list effect) : list peer :=
  flat_map (peer_on t) tr.

(** where the closures of [cb] are registered on a topic: [onpeer] on
    ['peer'], [onclose] on ['close'], and anywhere else *)
Definition tally (cb : nat) (T : CTopic) : nat * nat * nat :=
  (count (is_onpeer cb) (ct_on_peer T),
   count (is_onclose cb) (ct_on_close T),
   (count (is_onclose cb) (ct_on_peer T) + count (mine cb) (ct_on_update T)
    + count (is_onpeer cb) (ct_on_close T))%nat).

(** what a state holds of the callback [cb] and of the topic [t] *)
Record Sig := mk_Sig {
  sg_tallies : list (nat * nat * nat);
  sg_tasks : nat;
  sg_pings : nat;
  sg_calls : list effect;
  sg_peers : list peer;
  sg_closed : nat }.

Definition sig (cb : nat) (t : tid) (c : Core) : Sig :=
  mk_Sig (map (tally cb) (c_topics c))
    (count (is_call_task cb) (c_ticks c))
    (count (pinged cb) (c_pings c))
    (filter (is_call cb) (c_trace c))
    (peers_on t (c_trace c))
    (emitted_close c t).

(** the life of a [lookupOne] call: before it, waiting, and settled one
    way or the other; [Seen] and [Closing] are the two moments inside an
    emission, between the event and the closure of the call *)
Inductive phase :=
| Fresh
| Waiting
| Seen (p : peer)
| Closing
| Resolved (p : peer)
| Failed.

Definition Watch (cb : nat) (t : tid) (ph : phase) (c : Core) : Prop :=
  let g := sig cb t c in
  sg_tasks g = O /\ sg_pings g = O /\
  (forall t' a, t' <> t -> nth_error (sg_tallies g) t' = Some a ->
                a = (O, O, O)) /\
  match ph with
  | Fresh =>
      (forall a, nth_error (sg_tallies g) t = Some a -> a = (O, O, O)) /\
      sg_calls g = [] /\
      ((List.length (sg_tallies g) <= t)%nat ->
       sg_peers g = [] /\ sg_closed g = O)
  | Waiting =>
      nth_error (sg_tallies g) t = Some (1, 1, 0)%nat /\
      sg_calls g = [] /\ sg_peers g = [] /\ sg_closed g = O
  | Seen p =>
      nth_error (sg_tallies g) t = Some (1, 1, 0)%nat /\
      sg_calls g = [] /\ sg_peers g = [p] /\ sg_closed g = O
  | Closing =>
      nth_error (sg_tallies g) t = Some (1, 1, 0)%nat /\
      sg_calls g = [] /\ sg_peers g = [] /\ sg_closed g = 1%nat
  | Resolved p =>
      nth_error (sg_tallies g) t = Some (O, O, O) /\
      sg_calls g = [Call cb (Peer p)] /\
      (exists l, sg_peers g = l ++ [p]) /\
      topic_destroyed c t = true
  | Failed =>
      nth_error (sg_tallies g) t = Some (1, 1, 0)%nat /\
      sg_calls g = [Call cb (Failure "Lookup failed")] /\
      sg_peers g = [] /\ sg_closed g = 1%nat
  end.

(** [c'] holds of [cb] and [t] what [c] holds *)
Definition same (cb : nat) (t : tid) (c c' : Core) : Prop :=
  sig cb t c' = sig cb t c /\
  (topic_destroyed c t = true -> topic_destroyed c' t = true).

(** the phases between two steps, and how one follows another *)
Definition boundary (ph : phase) : Prop :=
  match ph with Seen _ | Closing => False | _ => True end.

Definition follows (ph ph' : phase) : Prop :=
  match ph with
  | Fresh => ph' = Fresh
  | Waiting =>
      ph' = Waiting \/ (exists p, ph' = Resolved p) \/ ph' = Failed
  | Resolved p => ph' = Resolved p
  | Failed => ph' = Failed
  | _ => False
  end.

Definition after_peer (t t' : tid) (p : peer) (ph : phase) : phase :=
  match ph with
  | Waiting => if Nat.eqb t' t then Resolved p else Waiting
  | _ => ph
  end.

Definition after_close (t t' : tid) (ph : phase) : phase :=
  match ph with
  | Waiting => if Nat.eqb t' t then Failed else Waiting
  | _ => ph
  end.

(** what the caller of [lookupOne] has got, from what the topic did *)
Definition lookupOne_outcome (cb : nat) (peers : list peer) (closed : nat)
    : list effect :=
  match peers with
  | p :: _ => [Call cb (Peer p)]
  | [] =>
      match closed with
      | O => []
      | S _ => [Call cb (Failure "Lookup failed")]
      end
  end.


(** ** Vocabulary for the topics of a session *)

(** the query the loop of [_startMdns] builds for the topic [T] *)
Definition query_of (T : Topic) : message :=
  mk_msg [mk_q "SRV" (t_domain T)] [TXT (t_domain T) [t_id T]].

(** the events the topic [t] has emitted, in the order of [tr] *)
Definition event_on (t : tid) (e : effect) : list event :=
  match e with
  | Emit t' ev => if Nat.eqb t' t then [ev] else []
  | _ => []
  end.

Definition events_on (t : tid) (tr : list effect) : list event :=
  flat_map (event_on t) tr.

(** what the constructor of [Topic] gives a topic of a session with the
    suffix [tld], as [T_static] reads it *)
Definition minted (tld : string)
    (x : Buffer * option Announce * Buffer * string * option record) : Prop :=
  match x with
  | (key, ann, id, domain, ans) =>
      domain = String.append (toString_hex (slice0 20 key)) tld /\
      (exists rnd, id = id_prefix ++ rnd /\ List.length rnd = 32%nat) /\
      (forall a, ans = Some a ->
         exists port, port <> 0 /\ a = SRV domain "0.0.0.0" port)
  end.


(** ** Vocabulary for what a step emits *)

Definition is_emit (e : effect) : bool :=
  match e with Emit _ _ => true | _ => false end.

(** the events of the trace [tr], of all topics *)
Definition emissions (tr : list effect) : list effect := filter is_emit tr.

(** the candidate [_onmdnsresponse] builds from an SRV answer received
    from [address] *)
Definition srv_peer (address target : string) (port : Z) : peer :=
  mk_peer port (if String.eqb target "0.0.0.0" then address else target)
    true None.

Definition srv_named (name : string) (a : record) : bool :=
  match a with SRV n _ _ => String.eqb n name | _ => false end.

(** the topics of [c'] are those of [c], further on in their life *)
Definition evolves (c c' : Core) : Prop :=
  forall t,
    match c_get t c, c_get t c' with
    | Some T, Some T' =>
        ct_domain T' = ct_domain T /\
        (ct_destroyed T = true -> ct_destroyed T' = true)
    | None, None => True
    | _, _ => False
    end.


Definition is_close_ev (e : event) : bool :=
  match e with Ev_close => true | _ => false end.


(* ================================================================== *)
(** * Part Id: the clockwork of the machine                           *)
(* ================================================================== *)

(** The timers, the runs of the DHT loop and the four fields of a topic
    that steer them ([destroyed], [_timeoutDht], [_timeoutMdns],
    [_stream]) form a small machine of their own: of the rest of the
    state it only needs to know whether a topic announces.  [gears] reads that machine off
    a state; the functions [G_...] are what the methods do to it. *)

Record Gear := mk_Gear {
  g_announcing : bool;
  g_destroyed : bool;
  g_dht : option nat;
  g_mdns : option nat;
  g_stream : option nat }.

Definition T_gear (T : Topic) : Gear :=
  mk_Gear (match t_announce T with Some _ => true | None => false end)
    (t_destroyed T) (t_timeoutDht T) (t_timeoutMdns T) (t_stream T).

Record Gears := mk_Gears {
  gs_timers : list (nat * (Z * timer_fn));
  gs_ctr : nat;
  gs_loops : list Loop;
  gs_topics : list Gear }.

Definition gears (s : State) : Gears :=
  mk_Gears (timers s) (timer_ctr s) (loops s) (map T_gear (heap s)).

Definition g_set_destroyed (v : bool) (T : Gear) : Gear :=
  mk_Gear (g_announcing T) v (g_dht T) (g_mdns T) (g_stream T).

Definition g_set_dht (v : option nat) (T : Gear) : Gear :=
  mk_Gear (g_announcing T) (g_destroyed T) v (g_mdns T) (g_stream T).

Definition g_set_mdns (v : option nat) (T : Gear) : Gear :=
  mk_Gear (g_announcing T) (g_destroyed T) (g_dht T) v (g_stream T).

Definition g_set_stream (v : option nat) (T : Gear) : Gear :=
  mk_Gear (g_announcing T) (g_destroyed T) (g_dht T) (g_mdns T) v.

(** [clearTimeout] *)
Definition G_clear (h : option nat) (g : Gears) : Gears :=
  match h with
  | None => g
  | Some n =>
      mk_Gears (filter (fun x => negb (Nat.eqb (fst x) n)) (gs_timers g))
        (gs_ctr g) (gs_loops g) (gs_topics g)
  end.

(** [setTimeout] *)
Definition G_set (fn : timer_fn) (delay : Z) (g : Gears) : Gears :=
  mk_Gears (gs_timers g ++ [(gs_ctr g, (delay, fn))]) (S (gs_ctr g))
    (gs_loops g) (gs_topics g).

Definition G_upd (t : tid) (f : Gear -> Gear) (g : Gears) : Gears :=
  mk_Gears (gs_timers g) (gs_ctr g) (gs_loops g)
    (list_update (gs_topics g) t f).

Definition G_loops (v : list Loop) (g : Gears) : Gears :=
  mk_Gears (gs_timers g) (gs_ctr g) v (gs_topics g).

(** the constructor of [Topic], before it starts the loops *)
Definition G_new (ann : bool) (g : Gears) : Gears :=
  mk_Gears (gs_timers g) (gs_ctr g) (gs_loops g)
    (gs_topics g ++ [mk_Gear ann false None None None]).

(** [Topic.destroy] *)
Definition G_destroy (t : tid) (g : Gears) : Gears :=
  match nth_error (gs_topics g) t with
  | None => g
  | Some T =>
      if g_destroyed T then g
      else
        G_clear (g_mdns T)
          (G_upd t (g_set_dht None)
             (G_clear (g_dht T) (G_upd t (g_set_destroyed true) g)))
  end.

(** [loop] of [_startMdns] *)
Definition G_mdns_loop (t : tid) (delay : Z) (g : Gears) : Gears :=
  match nth_error (gs_topics g) t with
  | None => g
  | Some _ =>
      G_upd t (g_set_mdns (Some (gs_ctr g))) (G_set (F_mdns_loop t) delay g)
  end.

(** [loop] of [_startDht] *)
Definition G_dht_loop (t : tid) (g : Gears) : Gears :=
  match nth_error (gs_topics g) t with
  | None => g
  | Some _ =>
      G_upd t (g_set_stream (Some (List.length (gs_loops g))))
        (G_upd t (g_set_dht None)
           (G_loops (gs_loops g ++ [mk_Loop t false]) g))
  end.

(** [done] of the run [sid] of the DHT loop *)
Definition G_done (sid : nat) (delay : Z) (g : Gears) : Gears :=
  match nth_error (gs_loops g) sid with
  | None => g
  | Some L =>
      match nth_error (gs_topics g) (lp_topic L) with
      | None => g
      | Some T =>
          if lp_called L || g_destroyed T then g
          else
            let g := G_upd (lp_topic L) (g_set_stream None) g in
            let g :=
              G_loops
                (list_update (gs_loops g) sid
                   (fun L => mk_Loop (lp_topic L) true)) g in
            let h := gs_ctr g in
            let g := G_set (F_dht_loop (lp_topic L)) delay g in
            G_upd (lp_topic L) (g_set_dht (Some h)) g
      end
  end.

(** [Topic.update] *)
Definition G_update (t : tid) (delay : Z) (g : Gears) : Gears :=
  match nth_error (gs_topics g) t with
  | None => g
  | Some T =>
      if g_destroyed T then g
      else
        let g :=
          match g_dht T with
          | Some h =>
              G_dht_loop t (G_upd t (g_set_dht None) (G_clear (Some h) g))
          | None => g
          end in
        G_mdns_loop t delay (G_clear (g_mdns T) g)
  end.

(** the topic a timer belongs to *)
Definition timer_topic (fn : timer_fn) : tid :=
  match fn with F_mdns_loop t => t | F_dht_loop t => t end.

(** the constructor of [Topic]: [mdns] tells whether it starts the
    multicast loop *)
Definition G_topic (ann mdns : bool) (delay : Z) (g : Gears) : Gears :=
  let t := List.length (gs_topics g) in
  let g := G_dht_loop t (G_new ann g) in
  if mdns then G_mdns_loop t delay g else g.

(** the timeout [h] fires *)
Definition G_timeout (h : nat) (delay : Z) (g : Gears) : Gears :=
  match find_timer (gs_timers g) h with
  | None => g
  | Some (F_mdns_loop t) => G_mdns_loop t delay (G_clear (Some h) g)
  | Some (F_dht_loop t) => G_dht_loop t (G_clear (Some h) g)
  end.

(** a run of the DHT loop whose [done] is still to come *)
Definition awaited (g : Gears) (t : tid) (sid : nat) : Prop :=
  nth_error (gs_loops g) sid = Some (mk_Loop t false).

(** The order the clockwork keeps.  The handles of the pending timers
    are distinct and were all given out.  A pending timer belongs to a
    topic that is not destroyed and that holds its handle in the field
    of the timer's kind, and the handle a live topic holds in
    [_timeoutMdns] is the one of a pending timer.  A run of the DHT loop
    that is awaited is the [_stream] of its topic.  A live topic is in
    one of two positions: it awaits its stream and has no retry
    scheduled, or it has no stream and its retry is pending. *)
Record Hyg (g : Gears) : Prop := mk_Hyg {
  hy_fresh : forall x, In x (gs_timers g) -> (fst x < gs_ctr g)%nat;
  hy_nodup : NoDup (map fst (gs_timers g));
  hy_mdns : forall h d t,
      In (h, (d, F_mdns_loop t)) (gs_timers g) ->
      exists T, nth_error (gs_topics g) t = Some T /\
                g_destroyed T = false /\ g_mdns T = Some h;
  hy_dht : forall h d t,
      In (h, (d, F_dht_loop t)) (gs_timers g) ->
      exists T, nth_error (gs_topics g) t = Some T /\
                g_destroyed T = false /\ g_dht T = Some h;
  hy_loops : forall sid t,
      awaited g t sid ->
      exists T, nth_error (gs_topics g) t = Some T /\ g_stream T = Some sid;
  hy_back : forall t T h,
      nth_error (gs_topics g) t = Some T -> g_destroyed T = false ->
      g_mdns T = Some h -> exists d, In (h, (d, F_mdns_loop t)) (gs_timers g);
  hy_beat : forall t T,
      nth_error (gs_topics g) t = Some T -> g_destroyed T = false ->
      match g_stream T, g_dht T with
      | Some sid, None => awaited g t sid
      | None, Some h => exists d, In (h, (d, F_dht_loop t)) (gs_timers g)
      | _, _ => False
      end }.

(** a topic that does not announce has started its multicast loop *)
Definition Lkp (g : Gears) : Prop :=
  forall t T,
    nth_error (gs_topics g) t = Some T -> g_announcing T = false ->
    g_mdns T <> None.

(** the order of the clockwork, read on a state *)
Definition Clock (s : State) : Prop := Hyg (gears s) /\ Lkp (gears s).

(** the field of a topic that holds the handle of a timer *)
Definition timer_field (fn : timer_fn) (T : Topic) : option nat :=
  match fn with
  | F_mdns_loop _ => t_timeoutMdns T
  | F_dht_loop _ => t_timeoutDht T
  end.

(** the call that opens the stream [sid] of a topic *)
Definition stream_call (T : Topic) (sid : nat) : effect :=
  match t_announce T with
  | Some ann => DhtAnnounce (t_key T) ann sid
  | None => DhtLookup (t_key T) sid
  end.

(** whether the constructor of [Topic] starts the multicast loop, and
    whether the topic announces *)
Definition starts_mdns (opts : topic_opts) : bool :=
  match to_announce opts with
  | None => true
  | Some _ => to_lookup opts
  end.

Definition announces (opts : topic_opts) : bool :=
  match to_announce opts with Some _ => true | None => false end.

(** a timer that [clearTimeout(h)] leaves on the list *)
Definition spared (h : option nat) (x : nat * (Z * timer_fn)) : Prop :=
  match h with Some n => fst x <> n | None => True end.

Definition keeps (h : option nat) (x : nat * (Z * timer_fn)) : bool :=
  match h with
  | Some n => negb (Nat.eqb (fst x) n)
  | None => true
  end.

(** an assignment to a topic that keeps [announce] and does not unset
    [_timeoutMdns] *)
Definition tame (f : Gear -> Gear) : Prop :=
  forall T, g_announcing (f T) = g_announcing T /\
            (g_mdns T <> None -> g_mdns (f T) <> None).

(** ** What is thrown at the caller *)

Definition is_throw (e : effect) : bool :=
  match e with Throw _ => true | _ => false end.

(** the exceptions of the trace [tr] *)
Definition thrown (tr : list effect) : list effect := filter is_throw tr.

(** the exception a call is refused with: [lookup], [announce] and
    [lookupOne] on a destroyed session, [holepunch] of a peer without
    referrer *)
Definition refusal (a : action) (s : State) : list effect :=
  match a with
  | A_lookup _ | A_lookupOne _ _ | A_announce _ _ =>
      if d_destroyed s then [Throw "Discovery instance is destroyed"] else []
  | A_holepunch p _ =>
      match p_referrer p with
      | None =>
          [Throw "TypeError: the callback argument must be of type function"]
      | Some _ => []
      end
  | _ => []
  end.

(** every topic that is not destroyed is found in the index under its
    domain: what [Topic.destroy] relies on when it calls [set.delete] *)
Definition indexed (c : Core) : Prop :=
  forall t T,
    c_get t c = Some T -> ct_destroyed T = false ->
    exists set, Map_get (c_domains c) (ct_domain T) = Some set /\ In t set.

(** the part of the core that [indexed] reads *)
Definition ix_view (c : Core)
    : list (string * list tid) * list (bool * string) :=
  (c_domains c, map (fun T => (ct_destroyed T, ct_domain T)) (c_topics c)).

(** [indexed], read on a state *)
Definition Ok (s : State) : Prop := indexed (erase s).

(** from [s] to [s'] nothing was thrown, and [s'] is [Ok] *)
Definition Calm (s s' : State) : Prop :=
  Ok s' /\ thrown (trace s') = thrown (trace s).

(** ** What the caller hears *)

(** the actions that are calls by the caller *)
Definition is_caller_action (a : action) : bool :=
  match a with
  | A_announce _ _ | A_lookup _ | A_lookupOne _ _ | A_ping _ _
  | A_holepunch _ _ | A_destroy | A_topic_update _ | A_topic_destroy _
  | A_topic_on _ _ _ => true
  | _ => false
  end.

(** the effects that run code of the caller: an event, with the listeners
    it reaches, and a callback *)
Definition heard (e : effect) : bool :=
  match e with
  | Emit _ _ | EmitClose | Call _ _ | Listen _ _ _ => true
  | _ => false
  end.

(** what the caller has heard in the trace [tr] *)
Definition hearing (tr : list effect) : list effect := filter heard tr.

(* ================================================================== *)
(** * Part II: properties                                             *)
(* ================================================================== *)

(** ** The backoff delays *)

Module Binary64Facts.
Import Binary64.
Local Open Scope Q_scope.

Lemma pow2_nonpos (e : Z) :
  (e <= 0)%Z -> pow2 e == / inject_Z (2 ^ (- e)).
Proof.
  intros He. unfold pow2.
  destruct (0 <=? e)%Z eqn:E.
  - apply Z.leb_le in E. assert (e = 0%Z) by lia. subst e. reflexivity.
  - reflexivity.
Qed.

Lemma pow2_scale_pos (e : Z) : (e <= 0)%Z -> 0 < inject_Z (2 ^ (- e)).
Proof.
  intros He. change 0 with (inject_Z 0). rewrite <- Zlt_Qlt.
  apply Z.pow_pos_nonneg; lia.
Qed.

Lemma rne_ge_floor (q : Q) : (Qfloor q <= rne q)%Z.
Proof.
  unfold rne. destruct (q - inject_Z (Qfloor q) ?= 1 # 2); try lia.
  destruct (Z.even (Qfloor q)); lia.
Qed.

Lemma rne_le (q : Q) (n : Z) : q <= inject_Z n -> (rne q <= n)%Z.
Proof.
  intros Hq.
  assert (Hf : (Qfloor q <= n)%Z).
  { rewrite <- (Qfloor_Z n). now apply Qfloor_resp_le. }
  assert (Hup : 0 < q - inject_Z (Qfloor q) -> (Qfloor q + 1 <= n)%Z).
  { intros Hpos. destruct (Z.eq_dec (Qfloor q) n) as [E|E]; [|lia].
    rewrite E in Hpos. lra. }
  unfold rne. destruct (q - inject_Z (Qfloor q) ?= 1 # 2) eqn:C.
  - apply Qeq_alt in C. destruct (Z.even (Qfloor q)); [lia|].
    apply Hup. rewrite C. reflexivity.
  - exact Hf.
  - apply Qgt_alt in C. apply Hup. lra.
Qed.

Lemma rne_ge (q : Q) (n : Z) : inject_Z n <= q -> (n <= rne q)%Z.
Proof.
  intros Hq. pose proof (rne_ge_floor q).
  assert ((n <= Qfloor q)%Z); [|lia].
  rewrite <- (Qfloor_Z n). now apply Qfloor_resp_le.
Qed.

Lemma ilog2_below (x : Q) : 0 < x -> x < inject_Z (2 ^ 53) -> (ilog2 x <= 52)%Z.
Proof.
  intros Hpos Hlt. unfold ilog2.
  set (k := (Z.log2 (Qnum x) - Z.log2 (Z.pos (Qden x)))%Z).
  destruct (Qle_bool (pow2 k) x) eqn:E.
  - apply Qle_bool_iff in E.
    destruct (Z.le_gt_cases k 52) as [|Hk]; [assumption|exfalso].
    unfold pow2 in E. replace (0 <=? k)%Z with true in E
      by (symmetry; apply Z.leb_le; lia).
    assert (inject_Z (2 ^ 53) <= inject_Z (2 ^ k)).
    { rewrite <- Zle_Qle. apply Z.pow_le_mono_r; lia. }
    lra.
  - assert (Hk : (k <= 53)%Z); [|lia]. subst k.
    destruct x as [n d]. cbn [Qnum Qden] in *.
    unfold Qlt in Hpos, Hlt. cbn in Hpos, Hlt.
    assert (Hn : (0 < n)%Z) by lia.
    assert (Hle : (Z.log2 n <= Z.log2 (Z.pos d * 2 ^ 53))%Z).
    { apply Z.log2_le_mono. lia. }
    rewrite Z.log2_mul_pow2 in Hle by lia. lia.
Qed.

Lemma ulp_exp_nonpos (x : Q) :
  0 < x -> x < inject_Z (2 ^ 53) -> (ulp_exp x <= 0)%Z.
Proof.
  intros H1 H2. unfold ulp_exp. pose proof (ilog2_below x H1 H2). lia.
Qed.

Lemma pow2_pos_nonpos (e : Z) : (e <= 0)%Z -> 0 < pow2 e.
Proof.
  intros He. rewrite (pow2_nonpos e He).
  apply Qinv_lt_0_compat. now apply pow2_scale_pos.
Qed.

Lemma pow2_scale (e : Z) :
  (e <= 0)%Z -> inject_Z (2 ^ (- e)) * pow2 e == 1.
Proof.
  intros He. rewrite (pow2_nonpos e He).
  apply Qmult_inv_r. pose proof (pow2_scale_pos e He). lra.
Qed.

Lemma scaled_int (e c : Z) :
  (e <= 0)%Z -> inject_Z (c * 2 ^ (- e)) * pow2 e == inject_Z c.
Proof.
  intros He. rewrite inject_Z_mult, <- Qmult_assoc, (pow2_scale e He).
  apply Qmult_1_r.
Qed.

Lemma round_pos_case (x : Q) :
  Qle_bool x 0 = false -> 0 < x.
Proof.
  intros E. apply Qnot_le_lt. intros H. apply Qle_bool_iff in H. congruence.
Qed.

(** On the numbers below 2^53 rounding never crosses an integer. *)
Lemma round_le_int (x : Q) (c : Z) :
  (0 <= c)%Z -> (c < 2 ^ 53)%Z -> x <= inject_Z c -> round x <= inject_Z c.
Proof.
  intros Hc0 Hc Hx. unfold round.
  destruct (Qle_bool x 0) eqn:E.
  - change 0 with (inject_Z 0). now rewrite <- Zle_Qle.
  - pose proof (round_pos_case x E) as Hpos.
    assert (Hlt : x < inject_Z (2 ^ 53)).
    { apply Qle_lt_trans with (inject_Z c); [assumption|].
      now rewrite <- Zlt_Qlt. }
    pose proof (ulp_exp_nonpos x Hpos Hlt) as He.
    set (e := ulp_exp x) in *.
    pose proof (pow2_pos_nonpos e He) as Hp.
    assert (Hr : (rne (x / pow2 e) <= c * 2 ^ (- e))%Z).
    { apply rne_le. apply Qle_shift_div_r; [exact Hp|].
      rewrite (scaled_int e c He). exact Hx. }
    rewrite <- (scaled_int e c He).
    apply Qmult_le_compat_r; [|lra].
    now rewrite <- Zle_Qle.
Qed.

Lemma round_ge_int (x : Q) (c : Z) :
  (0 <= c)%Z -> x < inject_Z (2 ^ 53) -> inject_Z c <= x ->
  inject_Z c <= round x.
Proof.
  intros Hc0 Hlt Hx. unfold round.
  destruct (Qle_bool x 0) eqn:E.
  - apply Qle_bool_iff in E.
    assert (inject_Z 0 <= inject_Z c) by (now rewrite <- Zle_Qle).
    change (inject_Z 0) with 0 in *. lra.
  - pose proof (round_pos_case x E) as Hpos.
    pose proof (ulp_exp_nonpos x Hpos Hlt) as He.
    set (e := ulp_exp x) in *.
    pose proof (pow2_pos_nonpos e He) as Hp.
    assert (Hr : (c * 2 ^ (- e) <= rne (x / pow2 e))%Z).
    { apply rne_ge. apply Qle_shift_div_l; [exact Hp|].
      rewrite (scaled_int e c He). exact Hx. }
    rewrite <- (scaled_int e c He).
    apply Qmult_le_compat_r; [|lra].
    now rewrite <- Zle_Qle.
Qed.

End Binary64Facts.

Section Backoff.
Local Open Scope Q_scope.

Lemma notify_wait_range (eager : bool) :
  (0 < notify_wait eager)%Z /\ (2 * notify_wait eager < 2 ^ 53)%Z.
Proof. destruct eager; cbn; lia. Qed.

(** C7 (as the code has it): for every draw [r] in [0,1) the eager delay
    lies in [30000, 60000] and the lazy delay in [300000, 600000]
    milliseconds.  The upper end belongs to the interval: the double
    [wait + r * wait] is rounded, and rounds up to [2 * wait] for the
    draws next to 1. *)
Theorem notify_delay_bounds (eager : bool) (r : Q) :
  0 <= r -> r < 1 ->
  (notify_wait eager <= notify_delay eager r <= 2 * notify_wait eager)%Z.
Proof.
  intros H0 H1. unfold notify_delay, Binary64.add, Binary64.mul,
    Binary64.Math_floor.
  destruct (notify_wait_range eager) as [Hw Hw2].
  set (w := notify_wait eager) in *.
  assert (HwQ : 0 < inject_Z w).
  { change 0 with (inject_Z 0). now rewrite <- Zlt_Qlt. }
  assert (Hprod : 0 <= r * inject_Z w <= inject_Z w).
  { split; [apply Qmult_le_0_compat; lra|].
    rewrite <- (Qmult_1_l (inject_Z w)) at 2.
    apply Qmult_le_compat_r; lra. }
  assert (Hbig : inject_Z (2 * w) < inject_Z (2 ^ 53))
    by (now rewrite <- Zlt_Qlt).
  assert (H2w : inject_Z (2 * w) == inject_Z w + inject_Z w).
  { replace (2 * w)%Z with (w + w)%Z by lia.
    rewrite inject_Z_plus. reflexivity. }
  assert (Hp : 0 <= Binary64.round (r * inject_Z w) <= inject_Z w).
  { split.
    - change 0 with (inject_Z 0).
      apply Binary64Facts.round_ge_int; [lia| |exact (proj1 Hprod)]. lra.
    - apply Binary64Facts.round_le_int; [lia|lia|exact (proj2 Hprod)]. }
  set (p := Binary64.round (r * inject_Z w)) in *.
  assert (Hs : inject_Z w <= Binary64.round (inject_Z w + p)
               <= inject_Z (2 * w)).
  { split.
    - apply Binary64Facts.round_ge_int; [lia|lra|lra].
    - apply Binary64Facts.round_le_int; [lia|lia|lra]. }
  split.
  - apply Z.le_trans with (Qfloor (inject_Z w)).
    + rewrite Qfloor_Z. lia.
    + apply Qfloor_resp_le, Hs.
  - apply Z.le_trans with (Qfloor (inject_Z (2 * w))).
    + apply Qfloor_resp_le, Hs.
    + rewrite Qfloor_Z. lia.
Qed.

Lemma notify_delay_bounds_witness :
  (30000 <= notify_delay true (1 # 2) <= 60000)%Z.
Proof.
  apply (notify_delay_bounds true (1 # 2)).
  - unfold Qle; cbn; lia.
  - unfold Qlt; cbn; lia.
Defined.

(** C7 (as stated) fails: [1 - 2^-52] is a double in [0,1), and for it the
    lazy delay is 600000, which is not below 600000. *)
Lemma notify_delay_reaches_twice_wait :
  let r := 1 - (1 # 2 ^ 52) in
  0 <= r /\ r < 1 /\ Binary64.round r == r /\
  notify_delay false r = 600000%Z /\
  ~ (300000 <= notify_delay false r < 600000)%Z.
Proof.
  cbv zeta. repeat split; try (vm_compute; congruence).
  assert (E : notify_delay false (1 - (1 # 2 ^ 52)) = 600000%Z)
    by (vm_compute; reflexivity).
  rewrite E. lia.
Qed.

End Backoff.

Module HardwareDoubles.
Import PrimFloat.

(** The same two operations on the machine's doubles. *)
Example notify_delay_on_hardware_doubles :
  PrimFloat.eqb
    (PrimFloat.add 300000%float
       (PrimFloat.mul 0x1.ffffffffffffep-1%float 300000%float))
    600000%float = true /\
  PrimFloat.eqb
    (PrimFloat.add 30000%float
       (PrimFloat.mul 0x1.fffffffffffffp-1%float 30000%float))
    60000%float = true.
Proof. split; vm_compute; reflexivity. Qed.

End HardwareDoubles.


(** ** Erasure: every step of the program is a step of the core *)

Lemma map_list_update {A B : Type} (h : A -> B) (f : A -> A) (g : B -> B)
    (l : list A) (i : nat) :
  (forall x, h (f x) = g (h x)) ->
  map h (list_update l i f) = list_update (map h l) i g.
Proof.
  intros Hfg. revert i. induction l as [|x l IH]; intros [|i]; cbn;
    try reflexivity.
  - now rewrite Hfg.
  - now rewrite IH.
Qed.

Lemma map_list_update_id {A B : Type} (h : A -> B) (f : A -> A)
    (l : list A) (i : nat) :
  (forall x, h (f x) = h x) -> map h (list_update l i f) = map h l.
Proof.
  intros Hf. revert i. induction l as [|x l IH]; intros [|i]; cbn;
    try reflexivity.
  - now rewrite Hf.
  - now rewrite IH.
Qed.

Lemma c_get_erase (t : tid) (s : State) :
  c_get t (erase s) = option_map erase_topic (get_topic t s).
Proof. unfold c_get, get_topic. cbn. apply nth_error_map. Qed.

Lemma erase_log (e : effect) (s : State) :
  erase (log e s) = if visible e then c_log e (erase s) else erase s.
Proof. unfold erase, log, c_log. cbn. now destruct (visible e). Qed.

Lemma erase_upd_topic (t : tid) (f : Topic -> Topic) (g : CTopic -> CTopic)
    (s : State) :
  (forall T, erase_topic (f T) = g (erase_topic T)) ->
  erase (upd_topic t f s) = c_upd t g (erase s).
Proof.
  intros H. unfold erase, upd_topic, c_upd, c_set_topics. cbn.
  now rewrite (map_list_update erase_topic f g).
Qed.

Lemma erase_upd_topic_id (t : tid) (f : Topic -> Topic) (s : State) :
  (forall T, erase_topic (f T) = erase_topic T) ->
  erase (upd_topic t f s) = erase s.
Proof.
  intros H. unfold erase, upd_topic. cbn.
  now rewrite (map_list_update_id erase_topic f).
Qed.

Lemma erase_T_on (n : event_name) (l : listener) (T : Topic) :
  erase_topic (T_on n l T) = ct_on n l (erase_topic T).
Proof. now destruct n. Qed.

Lemma erase_T_removeListener (n : event_name) (l : listener) (T : Topic) :
  erase_topic (T_removeListener n l T) = ct_removeListener n l (erase_topic T).
Proof. now destruct n. Qed.

Lemma erase_clearTimeout (h : option nat) (s : State) :
  erase (clearTimeout h s) = erase s.
Proof. now destruct h. Qed.

Lemma erase_notify (fn : timer_fn) (eager : bool) (s : State) :
  erase (snd (Discovery__notify fn eager s)) = erase s.
Proof.
  unfold Discovery__notify, Math_random. now destruct (draws s).
Qed.

Lemma erase_randomBytes (n : nat) (s : State) :
  erase (snd (crypto_randomBytes n s)) = erase s.
Proof. unfold crypto_randomBytes. now destruct (entropy s). Qed.

Lemma erase_nextTick (f : task) (s : State) :
  erase (process_nextTick (V_function f) s)
  = c_set_ticks (c_ticks (erase s) ++ [f]) (erase s).
Proof. reflexivity. Qed.

Lemma erase_stopDht (t : tid) (s : State) :
  erase (Topic__stopDht t s) = erase s.
Proof.
  unfold Topic__stopDht. destruct (get_topic t s) as [T|]; [|reflexivity].
  assert (E : erase (upd_topic t (T_set_timeoutDht None)
                       (clearTimeout (t_timeoutDht T) s)) = erase s).
  { rewrite erase_upd_topic_id by reflexivity. apply erase_clearTimeout. }
  destruct (t_stream T); [rewrite erase_log; cbn|]; exact E.
Qed.

Lemma erase_mdns_loop (t : tid) (s : State) :
  erase (mdns_loop t s) = erase s.
Proof.
  unfold mdns_loop. destruct (get_topic t s) as [T|]; [|reflexivity].
  destruct (Discovery__notify _ _ _) as [h s'] eqn:E.
  rewrite erase_upd_topic_id by reflexivity.
  change s' with (snd (h, s')). rewrite <- E, erase_notify.
  now rewrite erase_log.
Qed.

Lemma erase_dht_loop (t : tid) (s : State) :
  erase (dht_loop t s) = erase s.
Proof.
  unfold dht_loop. destruct (get_topic t s) as [T|]; [|reflexivity].
  rewrite !erase_upd_topic_id by reflexivity.
  destruct (t_announce T); reflexivity.
Qed.

Lemma erase_Topic_update (t : tid) (s : State) :
  erase (Topic_update t s) = erase s.
Proof.
  unfold Topic_update. destruct (get_topic t s) as [T|]; [|reflexivity].
  destruct (t_destroyed T); [reflexivity|].
  unfold Topic__startMdns, Topic__startDht.
  rewrite erase_mdns_loop, erase_clearTimeout.
  destruct (t_timeoutDht T); [|reflexivity].
  now rewrite erase_dht_loop, erase_upd_topic_id, erase_clearTimeout.
Qed.

Lemma erase_Topic_destroy (t : tid) (s : State) :
  erase (Topic_destroy t s) = c_Topic_destroy t (erase s).
Proof.
  unfold Topic_destroy, c_Topic_destroy. rewrite c_get_erase.
  destruct (get_topic t s) as [T|]; [cbn [option_map]|reflexivity].
  change (ct_destroyed (erase_topic T)) with (t_destroyed T).
  destruct (t_destroyed T); [reflexivity|].
  set (s1 := clearTimeout _ _).
  assert (E1 : erase s1 = c_upd t (ct_set_destroyed true) (erase s)).
  { unfold s1. rewrite erase_clearTimeout, erase_stopDht.
    now apply erase_upd_topic. }
  change (ct_domain (erase_topic T)) with (t_domain T).
  change (c_domains (c_upd t (ct_set_destroyed true) (erase s)))
    with (d_domains s).
  assert (Ed : d_domains s1 = d_domains s).
  { change (d_domains s1) with (c_domains (erase s1)). now rewrite E1. }
  rewrite Ed.
  destruct (Map_get (d_domains s) (t_domain T)) as [set|].
  - change (ct_announcing (erase_topic T)) with (is_some (t_announce T)).
    rewrite <- E1.
    destruct (Set_delete set t); destruct (t_announce T); cbn [is_some];
      unfold erase; cbn; now rewrite ?Ed.
  - rewrite erase_log. cbn. exact E1.
Qed.

Lemma erase_destroy_done (s : State) :
  erase (destroy_done s) = c_done (erase s).
Proof.
  unfold destroy_done, c_done. cbn.
  destruct (d_missing s - 1 =? 0); reflexivity.
Qed.

Lemma erase_run_listener (t : tid) (e : event) (l : listener) (s : State) :
  erase (run_listener t e l s) = c_run_listener t e l (erase s).
Proof.
  destruct l as [n|cb|cb|]; cbn [run_listener c_run_listener].
  - reflexivity.
  - reflexivity.
  - destruct e; try reflexivity.
    rewrite erase_log. cbn [visible]. rewrite erase_Topic_destroy.
    rewrite (erase_upd_topic _ _ (ct_removeListener N_close (L_onclose cb)))
      by (intros; apply erase_T_removeListener).
    rewrite (erase_upd_topic _ _ (ct_removeListener N_peer (L_onpeer cb)))
      by (intros; apply erase_T_removeListener).
    reflexivity.
  - apply erase_destroy_done.
Qed.

Lemma erase_fold {A : Type} (f : State -> A -> State) (g : Core -> A -> Core)
    (l : list A) :
  (forall s a, erase (f s a) = g (erase s) a) ->
  forall s, erase (fold_left f l s) = fold_left g l (erase s).
Proof.
  intros H. induction l as [|a l IH]; intros s; cbn; [reflexivity|].
  now rewrite IH, H.
Qed.

Lemma erase_listeners (n : event_name) (T : Topic) :
  ct_listeners n (erase_topic T) = listeners n T.
Proof. now destruct n. Qed.

Lemma erase_emit (t : tid) (e : event) (s : State) :
  erase (Topic_emit t e s) = c_emit t e (erase s).
Proof.
  unfold Topic_emit, c_emit. rewrite c_get_erase.
  destruct (get_topic t s) as [T|]; [cbn [option_map]|reflexivity].
  rewrite erase_listeners.
  rewrite (erase_fold _ (fun c l => c_run_listener t e l c))
    by (intros; apply erase_run_listener).
  reflexivity.
Qed.

Lemma fold_left_over_map {A B C : Type} (f : A -> C -> A) (g : B -> C)
    (l : list B) (a : A) :
  fold_left f (map g l) a = fold_left (fun a x => f a (g x)) l a.
Proof. revert a. induction l; cbn; auto. Qed.

Lemma erase_ondhtdata (t : tid) (data : dht_data) (s : State) :
  erase (Topic__ondhtdata t data s) = c_data t (peers_of data) (erase s).
Proof.
  unfold Topic__ondhtdata, c_data. rewrite c_get_erase.
  destruct (get_topic t s) as [T|]; [cbn [option_map]|reflexivity].
  change (ct_destroyed (erase_topic T)) with (t_destroyed T).
  destruct (t_destroyed T); [reflexivity|].
  unfold peers_of. rewrite fold_left_app, !fold_left_over_map.
  rewrite (erase_fold _
    (fun c p => c_emit t
       (Ev_peer (mk_peer (a_port p) (a_host p) false (Some (data_node data))))
       c)) by (intros; apply erase_emit).
  rewrite (erase_fold _
    (fun c p => c_emit t (Ev_peer (mk_peer (a_port p) (a_host p) true None)) c))
    by (intros; apply erase_emit).
  reflexivity.
Qed.

Lemma erase_set_loops (v : list Loop) (s : State) :
  erase (set_loops v s) = erase s.
Proof. reflexivity. Qed.

Lemma erase_dht_done (sid : nat) (err : option string) (s : State) :
  erase (dht_done sid err s)
  = match nth_error (loops s) sid with
    | None => erase s
    | Some L =>
        match get_topic (lp_topic L) s with
        | None => erase s
        | Some T =>
            if lp_called L || t_destroyed T then erase s
            else c_emit (lp_topic L) (Ev_update err) (erase s)
        end
    end.
Proof.
  unfold dht_done. destruct (nth_error (loops s) sid) as [L|]; [|reflexivity].
  destruct (get_topic (lp_topic L) s) as [T|]; [|reflexivity].
  destruct (lp_called L || t_destroyed T); [reflexivity|].
  destruct (Discovery__notify _ _ _) as [h s'] eqn:E.
  rewrite erase_upd_topic_id by reflexivity.
  change s' with (snd (h, s')). rewrite <- E, erase_notify, erase_emit.
  f_equal. now rewrite erase_set_loops, erase_upd_topic_id.
Qed.

Lemma erase_onmdnsresponse (res : message) (address : string) (s : State) :
  erase (Discovery__onmdnsresponse res address s)
  = c_response (response_peers address (answers res)) (erase s).
Proof.
  unfold Discovery__onmdnsresponse, c_response, response_peers.
  generalize (answers res) as ans. intros ans. revert s.
  induction ans as [|a ans IH]; intros s; [reflexivity|].
  cbn [fold_left flat_map]. rewrite fold_left_app, IH. f_equal.
  destruct a as [name target port| |]; try reflexivity.
  cbn [fold_left fst snd].
  change (c_domains (erase s)) with (d_domains s).
  destruct (Map_get (d_domains s) name) as [set|]; [|reflexivity].
  now apply erase_fold; intros; apply erase_emit.
Qed.

(** ** What never changes: the suffix and the bootstrap list *)

Lemma consts_fold {A : Type} (f : State -> A -> State) (l : list A) :
  (forall s a, consts (f s a) = consts s) ->
  forall s, consts (fold_left f l s) = consts s.
Proof.
  intros H. induction l as [|a l IH]; intros s; cbn; [reflexivity|].
  now rewrite IH, H.
Qed.

Lemma consts_clearTimeout (h : option nat) (s : State) :
  consts (clearTimeout h s) = consts s.
Proof. now destruct h. Qed.

Lemma consts_notify (fn : timer_fn) (eager : bool) (s : State) :
  consts (snd (Discovery__notify fn eager s)) = consts s.
Proof. unfold Discovery__notify, Math_random. now destruct (draws s). Qed.

Lemma consts_randomBytes (n : nat) (s : State) :
  consts (snd (crypto_randomBytes n s)) = consts s.
Proof. unfold crypto_randomBytes. now destruct (entropy s). Qed.

Lemma consts_nextTick (f : js_callback) (s : State) :
  consts (process_nextTick f s) = consts s.
Proof. now destruct f. Qed.

Lemma consts_stopDht (t : tid) (s : State) :
  consts (Topic__stopDht t s) = consts s.
Proof.
  unfold Topic__stopDht. destruct (get_topic t s) as [T|]; [|reflexivity].
  destruct (t_stream T); cbn; apply consts_clearTimeout.
Qed.

Lemma consts_mdns_loop (t : tid) (s : State) :
  consts (mdns_loop t s) = consts s.
Proof.
  unfold mdns_loop. destruct (get_topic t s) as [T|]; [|reflexivity].
  destruct (Discovery__notify _ _ _) as [h s'] eqn:E.
  change (consts (upd_topic t (T_set_timeoutMdns (Some h)) s'))
    with (consts (snd (h, s'))).
  now rewrite <- E, consts_notify.
Qed.

Lemma consts_dht_loop (t : tid) (s : State) :
  consts (dht_loop t s) = consts s.
Proof.
  unfold dht_loop. destruct (get_topic t s) as [T|]; [|reflexivity].
  destruct (t_announce T); reflexivity.
Qed.

Lemma consts_Topic_destroy (t : tid) (s : State) :
  consts (Topic_destroy t s) = consts s.
Proof.
  unfold Topic_destroy. destruct (get_topic t s) as [T|]; [|reflexivity].
  destruct (t_destroyed T); [reflexivity|].
  set (s1 := clearTimeout _ _).
  assert (E1 : consts s1 = consts s).
  { unfold s1. now rewrite consts_clearTimeout, consts_stopDht. }
  destruct (Map_get (d_domains s1) (t_domain T)) as [set|]; [|exact E1].
  destruct (Set_delete set t); destruct (t_announce T); exact E1.
Qed.

Lemma consts_destroy_done (s : State) : consts (destroy_done s) = consts s.
Proof.
  unfold destroy_done. cbn. destruct (d_missing s - 1 =? 0); reflexivity.
Qed.

Lemma consts_run_listener (t : tid) (e : event) (l : listener) (s : State) :
  consts (run_listener t e l s) = consts s.
Proof.
  destruct l as [n|cb|cb|]; cbn [run_listener]; try reflexivity.
  - destruct e; try reflexivity.
    change (consts (log ?e ?x)) with (consts x).
    now rewrite consts_Topic_destroy.
  - apply consts_destroy_done.
Qed.

Lemma consts_emit (t : tid) (e : event) (s : State) :
  consts (Topic_emit t e s) = consts s.
Proof.
  unfold Topic_emit. destruct (get_topic t s) as [T|]; [|reflexivity].
  now rewrite consts_fold by (intros; apply consts_run_listener).
Qed.

Lemma consts_Topic_new (key : Buffer) (opts : topic_opts) (s : State) :
  consts (snd (Topic_new key opts s)) = consts s.
Proof.
  unfold Topic_new.
  destruct (crypto_randomBytes 32 s) as [rnd s1] eqn:E.
  assert (E1 : consts s1 = consts s).
  { change s1 with (snd (rnd, s1)). rewrite <- E. apply consts_randomBytes. }
  unfold Topic__startMdns, Topic__startDht.
  destruct (to_announce opts); [destruct (to_lookup opts)|]; cbn [snd];
    rewrite ?consts_mdns_loop, consts_dht_loop; exact E1.
Qed.

Lemma consts_topic (key : Buffer) (opts : topic_opts) (s : State) :
  consts (snd (Discovery__topic key opts s)) = consts s.
Proof.
  unfold Discovery__topic.
  destruct (Topic_new key opts s) as [t s1] eqn:E.
  assert (E1 : consts s1 = consts s).
  { change s1 with (snd (t, s1)). rewrite <- E. apply consts_Topic_new. }
  destruct (Map_has (d_domains s1) (Discovery__domain s1 key));
    destruct (Map_get _ _); exact E1.
Qed.

Lemma consts_step (a : action) (s : State) : consts (step a s) = consts s.
Proof.
  destruct a; cbn [step].
  - unfold Discovery_announce. destruct (d_destroyed s); [reflexivity|].
    destruct (Discovery__topic _ _ _) as [t s1] eqn:E. cbn [snd].
    change s1 with (snd (t, s1)). rewrite <- E. apply consts_topic.
  - unfold Discovery_lookup. destruct (d_destroyed s); [reflexivity|].
    destruct (Discovery__topic _ _ _) as [t s1] eqn:E. cbn [snd].
    change s1 with (snd (t, s1)). rewrite <- E. apply consts_topic.
  - unfold Discovery_lookupOne, Discovery_lookup.
    destruct (d_destroyed s); [reflexivity|].
    destruct (Discovery__topic _ _ _) as [t s1] eqn:E.
    change (consts (upd_topic ?a ?b (upd_topic ?c ?d ?x))) with (consts x).
    change s1 with (snd (t, s1)). rewrite <- E. apply consts_topic.
  - unfold Discovery_ping. destruct (d_bootstrap s) eqn:E; [reflexivity|].
    rewrite <- E. now rewrite consts_fold by reflexivity.
  - unfold Discovery_holepunch. destruct (p_referrer p); reflexivity.
  - unfold Discovery_destroy. destruct (d_destroyed s); [reflexivity|].
    rewrite consts_nextTick.
    now rewrite consts_fold
      by (intros; cbn; change (consts (upd_topic ?a ?b ?x)) with (consts x);
          now rewrite consts_Topic_destroy).
  - unfold Topic_update. destruct (get_topic t s) as [T|]; [|reflexivity].
    destruct (t_destroyed T); [reflexivity|].
    unfold Topic__startMdns, Topic__startDht.
    rewrite consts_mdns_loop, consts_clearTimeout.
    destruct (t_timeoutDht T); [|reflexivity].
    rewrite consts_dht_loop. apply consts_clearTimeout.
  - apply consts_Topic_destroy.
  - reflexivity.
  - destruct (ticks s) as [|f rest]; [reflexivity|].
    destruct f; cbn [run_task]; [rewrite consts_emit|rewrite consts_destroy_done|];
      reflexivity.
  - destruct (find_timer (timers s) h) as [fn|]; [|reflexivity].
    destruct fn; cbn [run_timer];
      [rewrite consts_mdns_loop|rewrite consts_dht_loop];
      apply consts_clearTimeout.
  - destruct (nth_error (loops s) sid) as [L|]; [|reflexivity].
    unfold Topic__ondhtdata. destruct (get_topic _ s) as [T|]; [|reflexivity].
    destruct (t_destroyed T); [reflexivity|].
    now rewrite !consts_fold by (intros; apply consts_emit).
  - unfold dht_done. destruct (nth_error (loops s) sid) as [L|]; [|reflexivity].
    destruct (get_topic _ s) as [T|]; [|reflexivity].
    destruct (lp_called L || t_destroyed T); [reflexivity|].
    destruct (Discovery__notify _ _ _) as [h s'] eqn:E.
    change (consts (upd_topic ?a ?b s')) with (consts (snd (h, s'))).
    rewrite <- E, consts_notify, consts_emit. reflexivity.
  - unfold dht_done. destruct (nth_error (loops s) sid) as [L|]; [|reflexivity].
    destruct (get_topic _ s) as [T|]; [|reflexivity].
    destruct (lp_called L || t_destroyed T); [reflexivity|].
    destruct (Discovery__notify _ _ _) as [h s'] eqn:E.
    change (consts (upd_topic ?a ?b s')) with (consts (snd (h, s'))).
    rewrite <- E, consts_notify, consts_emit. reflexivity.
  - destruct (Set_has (unannounces s) t); [|reflexivity].
    now rewrite consts_emit.
  - unfold ping_callback. destruct (nth_error (pings s) pid) as [P|];
      [|reflexivity].
    destruct (negb _); [reflexivity|].
    destruct pong; destruct (pg_res P); reflexivity.
  - reflexivity.
  - unfold Discovery__onmdnsresponse. apply consts_fold.
    intros s' a. destruct a; try reflexivity.
    destruct (Map_get _ _); [|reflexivity].
    now apply consts_fold; intros; apply consts_emit.
Qed.

Lemma consts_run (acts : list action) (s : State) :
  consts (run acts s) = consts s.
Proof.
  revert s. induction acts as [|a acts IH]; intros s; cbn; [reflexivity|].
  unfold run in IH. now rewrite IH, consts_step.
Qed.

Lemma domain_consts (s s' : State) (key : Buffer) :
  consts s' = consts s -> Discovery__domain s' key = Discovery__domain s key.
Proof. unfold consts, Discovery__domain. intros E. now inversion E. Qed.

Lemma Topic_new_fst (key : Buffer) (opts : topic_opts) (s : State) :
  fst (Topic_new key opts s) = List.length (heap s).
Proof.
  unfold Topic_new. destruct (crypto_randomBytes 32 s) as [rnd s1] eqn:E.
  cbn [fst]. unfold crypto_randomBytes in E.
  destruct (entropy s); inversion E; reflexivity.
Qed.

Lemma erase_Topic_new (key : Buffer) (opts : topic_opts) (s : State) :
  erase (snd (Topic_new key opts s))
  = c_set_topics
      (c_topics (erase s) ++
       [mk_CTopic false (Discovery__domain s key) (is_some (to_announce opts))
          [] [] []])
      (erase s).
Proof.
  unfold Topic_new. destruct (crypto_randomBytes 32 s) as [rnd s1] eqn:E.
  assert (E1 : erase s1 = erase s).
  { change s1 with (snd (rnd, s1)). rewrite <- E. apply erase_randomBytes. }
  assert (E2 : Discovery__domain s1 key = Discovery__domain s key).
  { apply domain_consts. change s1 with (snd (rnd, s1)). rewrite <- E.
    apply consts_randomBytes. }
  unfold Topic__startMdns, Topic__startDht. rewrite E2, <- E1.
  destruct (to_announce opts); [destruct (to_lookup opts)|]; cbn [snd];
    rewrite ?erase_mdns_loop, erase_dht_loop; unfold erase; cbn;
    now rewrite map_app.
Qed.

Lemma Discovery__topic_fst (key : Buffer) (opts : topic_opts) (s : State) :
  fst (Discovery__topic key opts s) = List.length (heap s).
Proof.
  unfold Discovery__topic. rewrite <- (Topic_new_fst key opts s).
  destruct (Topic_new key opts s) as [t s1]. cbn [fst].
  now destruct (Map_get _ _).
Qed.

Lemma length_erase (s : State) :
  List.length (c_topics (erase s)) = List.length (heap s).
Proof. cbn. apply length_map. Qed.

Lemma erase_Discovery__topic (key : Buffer) (opts : topic_opts) (s : State) :
  erase (snd (Discovery__topic key opts s))
  = c_topic (Discovery__domain s key) (is_some (to_announce opts)) (erase s).
Proof.
  unfold Discovery__topic, c_topic.
  pose proof (erase_Topic_new key opts s) as E1.
  pose proof (consts_Topic_new key opts s) as E2.
  pose proof (Topic_new_fst key opts s) as E3.
  destruct (Topic_new key opts s) as [t s1]. cbn [fst snd] in *.
  rewrite (domain_consts _ _ key E2), length_erase, <- E3, <- E1.
  change (c_domains (erase s1)) with (d_domains s1).
  destruct (Map_has (d_domains s1) (Discovery__domain s key)).
  - change (c_domains (erase s1)) with (d_domains s1).
    destruct (Map_get _ _); reflexivity.
  - cbn [c_set_domains c_domains d_domains set_domains].
    destruct (Map_get _ _); reflexivity.
Qed.

Lemma erase_ping_callback (pid : nat) (bootstrap : string)
    (pong : option nat) (now : Z) (s : State) :
  erase (ping_callback pid bootstrap pong now s)
  = c_pong pid bootstrap pong now (erase s).
Proof.
  unfold ping_callback, c_pong. cbn [c_pings erase].
  destruct (nth_error (pings s) pid) as [P|]; [|reflexivity].
  destruct (negb _); [reflexivity|].
  destruct pong; destruct (pg_res P); reflexivity.
Qed.

Lemma erase_Discovery_destroy (s : State) :
  erase (Discovery_destroy s) = c_destroy (erase s).
Proof.
  unfold Discovery_destroy, c_destroy. cbn [c_destroyed erase].
  destruct (d_destroyed s); [reflexivity|].
  rewrite erase_nextTick.
  rewrite (erase_fold _
    (fun c topic =>
       c_upd topic (ct_on N_close L_done)
         (c_Topic_destroy topic (c_set_missing (c_missing c + 1) c)))).
  - reflexivity.
  - intros s' a. cbn beta zeta.
    rewrite (erase_upd_topic _ _ (ct_on N_close L_done))
      by (intros; apply erase_T_on).
    now rewrite erase_Topic_destroy.
Qed.

Lemma fold_left_const {A B : Type} (l : list B) (a : A) :
  fold_left (fun a _ => a) l a = a.
Proof. induction l; cbn; auto. Qed.

(** Every step of the program is the corresponding step of the core. *)
Lemma erase_step (a : action) (s : State) :
  erase (step a s) = c_step (abstraction a s) (erase s).
Proof.
  destruct a; cbn [step abstraction].
  - unfold Discovery_announce. destruct (d_destroyed s); [reflexivity|].
    pose proof (erase_Discovery__topic key
      (mk_topts (Some (js_or0 (js_or (o_localPort opts) (o_port opts))))
         (o_lookup opts)
         (Some (mk_ann (js_or0 (o_port opts)) (o_localAddress opts)))) s) as E.
    destruct (Discovery__topic _ _ _) as [t s1]. exact E.
  - unfold Discovery_lookup. destruct (d_destroyed s); [reflexivity|].
    pose proof (erase_Discovery__topic key no_opts s) as E.
    destruct (Discovery__topic _ _ _) as [t s1]. exact E.
  - unfold Discovery_lookupOne, Discovery_lookup.
    destruct (d_destroyed s); [reflexivity|].
    pose proof (erase_Discovery__topic key no_opts s) as E.
    pose proof (Discovery__topic_fst key no_opts s) as F.
    destruct (Discovery__topic _ _ _) as [t s1]. cbn [fst snd] in *.
    cbn [c_step]. rewrite length_erase, <- F.
    rewrite (erase_upd_topic _ _ (ct_on N_peer (L_onpeer cb)))
      by (intros; apply erase_T_on).
    rewrite (erase_upd_topic _ _ (ct_on N_close (L_onclose cb)))
      by (intros; apply erase_T_on).
    now rewrite E.
  - unfold Discovery_ping. destruct (d_bootstrap s) eqn:E; [reflexivity|].
    rewrite <- E. cbn [c_step].
    rewrite (erase_fold _ (fun c _ => c)) by reflexivity.
    now rewrite fold_left_const.
  - unfold Discovery_holepunch. destruct (p_referrer p); reflexivity.
  - apply erase_Discovery_destroy.
  - apply erase_Topic_update.
  - apply erase_Topic_destroy.
  - cbn [c_step]. now apply erase_upd_topic; intros; apply erase_T_on.
  - cbn [c_step c_ticks erase]. destruct (ticks s) as [|f rest]; [reflexivity|].
    destruct f; cbn [run_task c_run_task].
    + now rewrite erase_emit.
    + now rewrite erase_destroy_done.
    + reflexivity.
  - destruct (find_timer (timers s) h) as [fn|]; [|reflexivity].
    destruct fn; cbn [run_timer c_step];
      [rewrite erase_mdns_loop|rewrite erase_dht_loop];
      apply erase_clearTimeout.
  - destruct (nth_error (loops s) sid) as [L|]; [|reflexivity].
    apply erase_ondhtdata.
  - rewrite erase_dht_done.
    destruct (nth_error (loops s) sid) as [L|]; [|reflexivity].
    destruct (get_topic _ s) as [T|]; [|reflexivity].
    destruct (lp_called L || t_destroyed T); reflexivity.
  - rewrite erase_dht_done.
    destruct (nth_error (loops s) sid) as [L|]; [|reflexivity].
    destruct (get_topic _ s) as [T|]; [|reflexivity].
    destruct (lp_called L || t_destroyed T); reflexivity.
  - cbn [c_step c_unann erase].
    destruct (Set_has (unannounces s) t); [|reflexivity].
    now rewrite erase_emit.
  - apply erase_ping_callback.
  - reflexivity.
  - apply erase_onmdnsresponse.
Qed.

Lemma erase_run (acts : list action) (s : State) :
  erase (run acts s) = c_run (abstractions acts s) (erase s).
Proof.
  revert s. induction acts as [|a acts IH]; intros s; [reflexivity|].
  cbn [abstractions]. unfold run, c_run in *. cbn [fold_left].
  now rewrite IH, erase_step.
Qed.

(** ** [Map], [Set] and the heap *)

Lemma nth_error_list_update_eq {A : Type} (l : list A) (i : nat) (f : A -> A) :
  nth_error (list_update l i f) i = option_map f (nth_error l i).
Proof.
  revert i. induction l as [|x l IH]; intros [|i]; cbn; auto.
Qed.

Lemma nth_error_list_update_ne {A : Type} (l : list A) (i j : nat)
    (f : A -> A) :
  i <> j -> nth_error (list_update l i f) j = nth_error l j.
Proof.
  revert i j. induction l as [|x l IH]; intros [|i] [|j] H; cbn; auto;
    try congruence.
Qed.

Lemma length_list_update {A : Type} (l : list A) (i : nat) (f : A -> A) :
  List.length (list_update l i f) = List.length l.
Proof.
  revert i. induction l as [|x l IH]; intros [|i]; cbn; auto.
Qed.

Lemma Map_get_In (m : list (string * list tid)) (k : string) (v : list tid) :
  Map_get m k = Some v -> In (k, v) m.
Proof.
  induction m as [|[k' v'] m IH]; cbn; [discriminate|].
  destruct (String.eqb_spec k' k) as [->|N].
  - intros E. inversion E. now left.
  - intros E. right. now apply IH.
Qed.

Lemma In_Map_get (m : list (string * list tid)) (k : string) (v : list tid) :
  NoDup (map fst m) -> In (k, v) m -> Map_get m k = Some v.
Proof.
  induction m as [|[k' v'] m IH]; cbn; [tauto|].
  intros ND [E|I].
  - inversion E. subst. now rewrite String.eqb_refl.
  - inversion ND as [|? ? Hn ND']. subst.
    destruct (String.eqb_spec k' k) as [->|N].
    + exfalso. apply Hn. now apply (in_map fst _ (k, v)).
    + now apply IH.
Qed.

Lemma Map_get_None (m : list (string * list tid)) (k : string) :
  Map_get m k = None -> ~ In k (map fst m).
Proof.
  induction m as [|[k' v'] m IH]; cbn; [tauto|].
  destruct (String.eqb_spec k' k) as [->|N]; [discriminate|].
  intros E [H|H]; [congruence|]. now apply IH.
Qed.

Lemma Map_set_keys_present (m : list (string * list tid)) (k : string)
    (v v0 : list tid) :
  Map_get m k = Some v0 -> map fst (Map_set m k v) = map fst m.
Proof.
  induction m as [|[k' v'] m IH]; cbn; [discriminate|].
  destruct (String.eqb_spec k' k) as [->|N]; cbn; [reflexivity|].
  intros E. now rewrite IH.
Qed.

Lemma Map_set_keys_absent (m : list (string * list tid)) (k : string)
    (v : list tid) :
  Map_get m k = None -> Map_set m k v = m ++ [(k, v)].
Proof.
  induction m as [|[k' v'] m IH]; cbn; [reflexivity|].
  destruct (String.eqb_spec k' k) as [->|N]; [discriminate|].
  intros E. now rewrite IH.
Qed.

Lemma Map_get_set_eq (m : list (string * list tid)) (k : string)
    (v : list tid) :
  Map_get (Map_set m k v) k = Some v.
Proof.
  induction m as [|[k' v'] m IH]; cbn.
  - now rewrite String.eqb_refl.
  - destruct (String.eqb_spec k' k) as [->|N]; cbn.
    + now rewrite String.eqb_refl.
    + destruct (String.eqb_spec k' k); [congruence|exact IH].
Qed.

Lemma In_Map_set (m : list (string * list tid)) (k : string)
    (v : list tid) (k' : string) (v' : list tid) :
  NoDup (map fst m) -> In k (map fst m) ->
  (In (k', v') (Map_set m k v)
   <-> (k' = k /\ v' = v) \/ (k' <> k /\ In (k', v') m)).
Proof.
  induction m as [|[k0 v0] m IH]; cbn; [tauto|].
  intros ND Hk. inversion ND as [|? ? Hn ND']. subst.
  destruct (String.eqb_spec k0 k) as [->|N]; cbn.
  - split.
    + intros [E|I]; [inversion E; subst; auto|].
      right. split; [|auto]. intros ->. apply Hn.
      now apply (in_map fst _ (k, v')).
    + intros [[-> ->]|[Hne [E|I]]]; auto. inversion E. subst. congruence.
  - destruct Hk as [Hk|Hk]; [congruence|].
    rewrite (IH ND' Hk). split.
    + intros [E|[[-> ->]|[Hne I]]]; auto. inversion E; subst. right. split; auto.
    + intros [[-> ->]|[Hne [E|I]]]; auto.
Qed.

Lemma In_Map_delete (m : list (string * list tid)) (k : string)
    (k' : string) (v' : list tid) :
  NoDup (map fst m) ->
  (In (k', v') (Map_delete m k) <-> k' <> k /\ In (k', v') m).
Proof.
  induction m as [|[k0 v0] m IH]; cbn; [tauto|].
  intros ND. inversion ND as [|? ? Hn ND']. subst.
  destruct (String.eqb_spec k0 k) as [->|N]; cbn.
  - split.
    + intros I. split; [|auto]. intros ->. apply Hn.
      now apply (in_map fst _ (k, v')).
    + intros [Hne [E|I]]; auto. inversion E. subst. congruence.
  - rewrite (IH ND'). split.
    + intros [E|[H I]]; auto. inversion E. subst. auto.
    + intros [Hne [E|I]]; auto.
Qed.

Lemma Map_delete_keys (m : list (string * list tid)) (k : string) :
  NoDup (map fst m) -> NoDup (map fst (Map_delete m k)).
Proof.
  induction m as [|[k0 v0] m IH]; cbn; [auto|].
  intros ND. inversion ND as [|? ? Hn ND']. subst.
  destruct (String.eqb_spec k0 k) as [->|N]; cbn; [assumption|].
  constructor; [|auto]. intros H. apply Hn.
  apply in_map_iff in H. destruct H as [[a b] [E I]]. cbn in E. subst a.
  apply (In_Map_delete m k k0 b ND') in I. destruct I as [_ I].
  now apply (in_map fst _ (k0, b)).
Qed.

Lemma In_Set_delete (s : list tid) (t x : tid) :
  NoDup s -> (In x (Set_delete s t) <-> x <> t /\ In x s).
Proof.
  induction s as [|y s IH]; cbn; [tauto|].
  intros ND. inversion ND as [|? ? Hn ND']. subst.
  destruct (Nat.eqb_spec t y) as [->|N].
  - split.
    + intros I. split; [|auto]. intros ->. contradiction.
    + intros [Hne [E|I]]; auto. congruence.
  - cbn. rewrite (IH ND'). split.
    + intros [E|[H I]]; auto. subst. auto.
    + intros [Hne [E|I]]; auto.
Qed.

Lemma NoDup_Set_delete (s : list tid) (t : tid) :
  NoDup s -> NoDup (Set_delete s t).
Proof.
  induction s as [|y s IH]; cbn; [auto|].
  intros ND. inversion ND as [|? ? Hn ND']. subst.
  destruct (Nat.eqb_spec t y) as [->|N]; [assumption|].
  constructor; [|auto]. intros H. apply Hn.
  now apply (In_Set_delete s t y ND') in H.
Qed.

Lemma Set_has_In (s : list tid) (x : tid) : Set_has s x = true <-> In x s.
Proof.
  unfold Set_has. rewrite existsb_exists. split.
  - intros [y [I E]]. apply Nat.eqb_eq in E. now subst.
  - intros I. exists x. split; [assumption|apply Nat.eqb_refl].
Qed.

Lemma Set_add_new (s : list tid) (x : tid) :
  ~ In x s -> Set_add s x = s ++ [x].
Proof.
  intros H. unfold Set_add. destruct (Set_has s x) eqn:E; [|reflexivity].
  apply Set_has_In in E. contradiction.
Qed.

(** ** The invariant is kept by the moves of the core *)

Lemma c_get_upd_eq (t : tid) (f : CTopic -> CTopic) (c : Core) :
  c_get t (c_upd t f c) = option_map f (c_get t c).
Proof. apply nth_error_list_update_eq. Qed.

Lemma c_get_upd_ne (t t' : tid) (f : CTopic -> CTopic) (c : Core) :
  t <> t' -> c_get t' (c_upd t f c) = c_get t' c.
Proof. apply nth_error_list_update_ne. Qed.

Lemma before_cons (a b x : effect) (tr : list effect) :
  before a b tr -> before a b (x :: tr).
Proof.
  intros [l1 [l2 [E I]]]. exists (x :: l1), l2. split; [|assumption].
  now rewrite E.
Qed.

Lemma before_here (a b : effect) (tr : list effect) :
  In a tr -> before a b (b :: tr).
Proof. intros I. exists [], tr. now split. Qed.

Lemma count_In {A : Type} (p : A -> bool) (l : list A) :
  count p l <> O -> exists x, In x l /\ p x = true.
Proof.
  unfold count. induction l as [|x l IH]; cbn; [congruence|].
  destruct (p x) eqn:E.
  - intros _. exists x. auto.
  - intros H. destruct (IH H) as [y [I Hy]]. exists y. auto.
Qed.

Lemma count_app {A : Type} (p : A -> bool) (l1 l2 : list A) :
  count p (l1 ++ l2) = (count p l1 + count p l2)%nat.
Proof. unfold count. now rewrite filter_app, length_app. Qed.

(** logging what is neither a ['close'] of a topic nor of the session *)
Lemma Inv_log (F : tid -> Prop) (k : nat) (e : effect) (c : Core) :
  (forall t, is_close_emit t e = false) -> is_session_close e = false ->
  Inv F k c -> Inv F k (c_log e c).
Proof.
  intros H1 H2 [Hix Hty Hcl Hid Hmi Hcs Hdd Hor Hfr].
  assert (Ecl : forall t, emitted_close (c_log e c) t = emitted_close c t).
  { intros t. unfold emitted_close, count. cbn. now rewrite H1. }
  assert (Ecs : closes (c_log e c) = closes c).
  { unfold closes, count. cbn. now rewrite H2. }
  constructor; try assumption.
  - destruct Hix. now constructor.
  - intros t. rewrite Ecl. apply Hcl.
  - intros Hd. rewrite Ecs. now apply Hid.
  - intros Hd. rewrite Ecs. now apply Hcs.
  - intros t Hc Hd. rewrite Ecs in Hc. apply before_cons. now apply Hor.
Qed.

Lemma c_get_upd (t t' : tid) (f : CTopic -> CTopic) (c : Core) :
  c_get t' (c_upd t f c)
  = option_map (fun T => if Nat.eqb t t' then f T else T) (c_get t' c).
Proof.
  destruct (Nat.eqb_spec t t') as [->|N].
  - apply c_get_upd_eq.
  - rewrite c_get_upd_ne by assumption. now destruct (c_get t' c).
Qed.

Lemma owed_ext (c c' : Core) :
  c_ticks c' = c_ticks c -> c_unann c' = c_unann c ->
  (forall t, done_on c' t = done_on c t) -> owed c' = owed c.
Proof.
  intros E1 E2 E3. unfold owed. rewrite E1, E2. f_equal.
  - f_equal. apply map_ext. intros [t| |]; cbn; auto.
  - f_equal. apply map_ext. auto.
Qed.

(** an assignment that leaves the flag, the domain and the registrations
    of [done] of the topic alone *)
Lemma Inv_upd (F : tid -> Prop) (k : nat) (t : tid) (f : CTopic -> CTopic) (c : Core) :
  (forall T, ct_destroyed (f T) = ct_destroyed T) ->
  (forall T, ct_domain (f T) = ct_domain T) ->
  (forall T, count is_done_listener (ct_on_close (f T))
             = count is_done_listener (ct_on_close T)) ->
  (forall T, typed T -> typed (f T)) ->
  Inv F k c -> Inv F k (c_upd t f c).
Proof.
  intros F1 F2 F3 F4 [Hix Hty Hcl Hid Hmi Hcs Hdd Hor Hfr].
  assert (Eg : forall t' T', c_get t' (c_upd t f c) = Some T' ->
            exists T, c_get t' c = Some T /\
                      ct_destroyed T' = ct_destroyed T /\
                      ct_domain T' = ct_domain T /\
                      (typed T -> typed T')).
  { intros t' T'. rewrite c_get_upd.
    destruct (c_get t' c) as [T|]; [|discriminate]. cbn. intros E.
    inversion E. exists T. destruct (Nat.eqb t t'); auto. }
  assert (Eg' : forall t' T, c_get t' c = Some T ->
            exists T', c_get t' (c_upd t f c) = Some T' /\
                      ct_destroyed T' = ct_destroyed T /\
                      ct_domain T' = ct_domain T).
  { intros t' T E. rewrite c_get_upd, E. cbn.
    eexists. split; [reflexivity|]. destruct (Nat.eqb t t'); auto. }
  assert (Edn : forall t', done_on (c_upd t f c) t' = done_on c t').
  { intros t'. unfold done_on. rewrite c_get_upd.
    destruct (c_get t' c) as [T|]; [|reflexivity]. cbn.
    destruct (Nat.eqb t t'); auto. }
  assert (Etd : forall t', topic_destroyed (c_upd t f c) t'
                           = topic_destroyed c t').
  { intros t'. unfold topic_destroyed. rewrite c_get_upd.
    destruct (c_get t' c) as [T|]; [|reflexivity]. cbn.
    destruct (Nat.eqb t t'); auto. }
  assert (Eow : owed (c_upd t f c) = owed c) by (now apply owed_ext).
  constructor.
  - destruct Hix as [I1 I2 I3 I4 I5]. constructor; try assumption.
    + intros d set t' Hin Ht. destruct (I4 d set t' Hin Ht) as [T [E [D1 D2]]].
      destruct (Eg' t' T E) as [T' [E' [D1' D2']]].
      exists T'. repeat split; congruence.
    + intros t' T' E' D'. destruct (Eg t' T' E') as [T [E [D1 [D2 _]]]].
      rewrite D2. apply (I5 t' T E). congruence.
  - intros t' T' E'. destruct (Eg t' T' E') as [T [E [_ [_ Ht]]]].
    apply Ht. now apply (Hty t' T).
  - intros t'. rewrite Etd. apply Hcl.
  - intros Hd. destruct (Hid Hd) as [A [B [C D]]].
    repeat split; auto. intros t'. rewrite Edn. apply A.
  - intros Hd. rewrite Eow. now apply Hmi.
  - assumption.
  - intros t'. rewrite Edn, Etd. apply Hdd.
  - intros t' Hc Hd. rewrite Edn in Hd. now apply Hor.
  - intros t' Ht. rewrite Edn. now apply Hfr.
Qed.

Lemma count_done_app (l : list listener) (x : listener) :
  is_done_listener x = false ->
  count is_done_listener (l ++ [x]) = count is_done_listener l.
Proof.
  intros H. rewrite count_app. unfold count at 2. cbn. rewrite H. cbn. lia.
Qed.

Lemma forallb_snoc {A : Type} (p : A -> bool) (l : list A) (x : A) :
  forallb p l = true -> p x = true -> forallb p (l ++ [x]) = true.
Proof. intros H1 H2. rewrite forallb_app, H1. cbn. now rewrite H2. Qed.

Lemma remove_first_count (l : list listener) (x : listener) :
  is_done_listener x = false ->
  count is_done_listener (remove_first l x) = count is_done_listener l.
Proof.
  intros Hx. induction l as [|y l IH]; [reflexivity|]. cbn.
  destruct (listener_eqb y x) eqn:E.
  - assert (is_done_listener y = false).
    { destruct y, x; cbn in *; congruence. }
    unfold count. cbn. now rewrite H.
  - unfold count in *. cbn. destruct (is_done_listener y); cbn; now rewrite IH.
Qed.

Lemma remove_first_forallb {A : Type} (p : listener -> bool)
    (l : list listener) (x : listener) :
  forallb p l = true -> forallb p (remove_first l x) = true.
Proof.
  induction l as [|y l IH]; [reflexivity|]. cbn.
  intros H. apply andb_true_iff in H. destruct H as [H1 H2].
  destruct (listener_eqb y x); [assumption|]. cbn. now rewrite H1, IH.
Qed.

Lemma count_rev {A : Type} (p : A -> bool) (l : list A) :
  count p (rev l) = count p l.
Proof.
  induction l as [|x l IH]; [reflexivity|]. cbn [rev]. rewrite count_app, IH.
  unfold count. cbn. destruct (p x); cbn; lia.
Qed.

Lemma forallb_rev {A : Type} (p : A -> bool) (l : list A) :
  forallb p (rev l) = forallb p l.
Proof.
  induction l as [|x l IH]; [reflexivity|]. cbn.
  rewrite forallb_app, IH. cbn. destruct (p x), (forallb p l); reflexivity.
Qed.

(** registering a listener other than [done] *)
Lemma Inv_on (F : tid -> Prop) (k : nat) (t : tid) (n : event_name) (l : listener) (c : Core) :
  is_done_listener l = false ->
  match n with
  | N_peer => peer_listener l
  | N_update => update_listener l
  | N_close => close_listener l
  end = true ->
  Inv F k c -> Inv F k (c_upd t (ct_on n l) c).
Proof.
  intros Hl Hn. apply Inv_upd; intros T; try (now destruct n).
  - destruct n; try reflexivity. unfold ct_on.
    cbn [ct_set_listeners ct_listeners ct_on_close].
    now apply count_done_app.
  - intros [T1 [T2 T3]]. destruct n; repeat split; cbn; try assumption;
      now apply forallb_snoc.
Qed.

(** taking out a listener other than [done] *)
Lemma Inv_removeListener (F : tid -> Prop) (k : nat) (t : tid) (n : event_name) (l : listener)
    (c : Core) :
  is_done_listener l = false ->
  Inv F k c -> Inv F k (c_upd t (ct_removeListener n l) c).
Proof.
  intros Hl. apply Inv_upd; intros T; try (now destruct n).
  - destruct n; try reflexivity. unfold ct_removeListener.
    cbn [ct_set_listeners ct_listeners ct_on_close].
    now rewrite count_rev, remove_first_count, count_rev.
  - intros [T1 [T2 T3]].
    destruct n; repeat split; cbn; try assumption;
      rewrite forallb_rev; apply (remove_first_forallb (A := unit));
      now rewrite forallb_rev.
Qed.

Lemma In_removed (m : list (string * list tid)) (d : string)
    (set : list tid) (d' : string) (s' : list tid) :
  NoDup (map fst m) -> In d (map fst m) ->
  (In (d', s') (removed m d set)
   <-> (d' = d /\ s' = set /\ set <> []) \/ (d' <> d /\ In (d', s') m)).
Proof.
  intros ND Hd. unfold removed. destruct set as [|x set].
  - assert (E : exists v0, Map_get m d = Some v0).
    { destruct (Map_get m d) eqn:G; [eauto|].
      now apply Map_get_None in G. }
    destruct E as [v0 E].
    rewrite In_Map_delete
      by (now rewrite (Map_set_keys_present m d [] v0 E)).
    rewrite (In_Map_set m d [] d' s' ND Hd). split.
    + intros [Hne [[-> _]|[_ I]]]; [congruence|auto].
    + intros [[_ [_ H]]|[Hne I]]; [congruence|auto].
  - rewrite (In_Map_set m d (x :: set) d' s' ND Hd). split.
    + intros [[-> ->]|H]; [left|right]; auto. repeat split. discriminate.
    + intros [[-> [-> _]]|H]; auto.
Qed.

Lemma removed_keys (m : list (string * list tid)) (d : string)
    (set : list tid) :
  NoDup (map fst m) -> In d (map fst m) -> NoDup (map fst (removed m d set)).
Proof.
  intros ND Hd.
  assert (E : exists v0, Map_get m d = Some v0).
  { destruct (Map_get m d) eqn:G; [eauto|]. now apply Map_get_None in G. }
  destruct E as [v0 E]. unfold removed. destruct set as [|x set].
  - apply Map_delete_keys. now rewrite (Map_set_keys_present m d [] v0 E).
  - now rewrite (Map_set_keys_present m d (x :: set) v0 E).
Qed.

(** what [destroy] does to a live topic that is in the index *)
Lemma c_Topic_destroy_live (t : tid) (T : CTopic) (set : list tid)
    (c : Core) :
  c_get t c = Some T -> ct_destroyed T = false ->
  Map_get (c_domains c) (ct_domain T) = Some set ->
  c_Topic_destroy t c
  = let c1 :=
      c_set_domains (removed (c_domains c) (ct_domain T) (Set_delete set t))
        (c_upd t (ct_set_destroyed true) c) in
    if ct_announcing T then c_set_unann (c_unann c ++ [t]) c1
    else c_set_ticks (c_ticks c ++ [T_emit_close t]) c1.
Proof.
  intros E D G. unfold c_Topic_destroy. rewrite E, D.
  change (c_domains (c_upd t (ct_set_destroyed true) c)) with (c_domains c).
  rewrite G. unfold removed.
  destruct (Set_delete set t); destruct (ct_announcing T); reflexivity.
Qed.

Lemma count_eqb_NoDup (l : list tid) (t : tid) :
  count (Nat.eqb t) (l ++ [t]) = S (count (Nat.eqb t) l).
Proof.
  rewrite count_app. unfold count at 2. cbn. rewrite Nat.eqb_refl. cbn. lia.
Qed.

Lemma Inv_Topic_destroy (F : tid -> Prop) (k : nat) (t : tid) (c : Core) :
  Inv F k c -> Inv F k (c_Topic_destroy t c).
Proof.
  intros H. destruct (c_get t c) as [T|] eqn:E;
    [|unfold c_Topic_destroy; now rewrite E].
  destruct (ct_destroyed T) eqn:D;
    [unfold c_Topic_destroy; now rewrite E, D|].
  destruct H as [Hix Hty Hcl Hid Hmi Hcs Hdd Hor Hfr].
  destruct Hix as [I1 I2 I3 I4 I5].
  destruct (I5 t T E D) as [set [Hin Ht]].
  pose proof (In_Map_get _ _ _ I2 Hin) as G.
  rewrite (c_Topic_destroy_live t T set c E D G). cbv zeta.
  set (d := ct_domain T) in *.
  set (c1 := c_set_domains _ _).
  assert (Hd : In d (map fst (c_domains c)))
    by (now apply (in_map fst _ (d, set))).
  assert (Ndone : done_on c t = O).
  { destruct (Nat.eq_dec (done_on c t) 0) as [|N]; [assumption|].
    apply Hdd in N. unfold topic_destroyed in N. rewrite E in N. congruence. }
  assert (G1 : forall t', c_get t' c1
             = option_map (fun T => if Nat.eqb t t' then ct_set_destroyed true T
                                    else T) (c_get t' c))
    by (intros; apply c_get_upd).
  assert (Edn : forall t', done_on c1 t' = done_on c t').
  { intros t'. unfold done_on. rewrite G1.
    destruct (c_get t' c); [|reflexivity]. cbn. now destruct (Nat.eqb t t'). }
  assert (Etd : forall t', topic_destroyed c1 t'
             = if Nat.eqb t t' then true else topic_destroyed c t').
  { intros t'. unfold topic_destroyed. rewrite G1.
    destruct (Nat.eqb_spec t t') as [<-|N].
    - now rewrite E.
    - now destruct (c_get t' c). }
  assert (Hix1 : index_ok c1).
  { constructor; cbn [c_domains c1 c_set_domains].
    - intros d' s' Hi. apply In_removed in Hi; try assumption.
      destruct Hi as [[_ [-> N]]|[_ Hi]]; [assumption|eauto].
    - now apply removed_keys.
    - intros d' s' Hi. apply In_removed in Hi; try assumption.
      destruct Hi as [[_ [-> N]]|[_ Hi]]; [|eauto].
      apply NoDup_Set_delete. eauto.
    - intros d' s' t' Hi Ht'. apply In_removed in Hi; try assumption.
      assert (Hold : exists set0, In (d', set0) (c_domains c) /\ In t' set0
                                  /\ t' <> t).
      { destruct Hi as [[-> [-> N]]|[Hne Hi]].
        - apply In_Set_delete in Ht'; [|eauto]. exists set. tauto.
        - exists s'. repeat split; try assumption. intros ->.
          destruct (I4 d' s' t Hi Ht') as [T0 [E0 [_ D0]]].
          rewrite E in E0. inversion E0. subst T0. now apply Hne. }
      destruct Hold as [set0 [Hi0 [Ht0 Hne]]].
      destruct (I4 d' set0 t' Hi0 Ht0) as [T0 [E0 [D0 D1]]].
      exists T0. rewrite G1, E0. cbn.
      destruct (Nat.eqb_spec t t'); [congruence|auto].
    - intros t' T' E' D'. rewrite G1 in E'.
      destruct (c_get t' c) as [T0|] eqn:E0; [|discriminate]. cbn in E'.
      destruct (Nat.eqb_spec t t') as [<-|N].
      + inversion E'. subst T'. discriminate.
      + inversion E'. subst T'.
        destruct (I5 t' T0 E0 D') as [set0 [Hi0 Ht0]].
        destruct (String.eqb_spec (ct_domain T0) d) as [Ed|Nd].
        * rewrite Ed in *.
          assert (set0 = set).
          { pose proof (In_Map_get _ _ _ I2 Hi0) as G0. congruence. }
          subst set0. exists (Set_delete set t).
          assert (In t' (Set_delete set t)).
          { apply In_Set_delete; [eauto|]. split; congruence. }
          split; [|assumption]. apply In_removed; try assumption.
          left. repeat split. intros Z. now rewrite Z in H.
        * exists set0. split; [|assumption].
          apply In_removed; try assumption. right. now split. }
  assert (Hty1 : forall t' T', c_get t' c1 = Some T' -> typed T').
  { intros t' T' E'. rewrite G1 in E'.
    destruct (c_get t' c) as [T0|] eqn:E0; [|discriminate]. cbn in E'.
    pose proof (Hty t' T0 E0) as Ht0.
    destruct (Nat.eqb t t'); inversion E'; subst T'; exact Ht0. }
  destruct (ct_announcing T).
  - (* the close comes with the callback of [unannounce] *)
    constructor.
    + destruct Hix1. now constructor.
    + exact Hty1.
    + intros t'. change (topic_destroyed (c_set_unann _ c1) t')
        with (topic_destroyed c1 t'). rewrite Etd.
      unfold pending_close, emitted_close. cbn [c_ticks c_unann c_trace
        c_set_unann c1 c_set_domains c_upd c_set_topics].
      specialize (Hcl t'). unfold pending_close, emitted_close in Hcl.
      destruct (Nat.eqb_spec t t') as [<-|N].
      * rewrite count_eqb_NoDup.
        unfold topic_destroyed in Hcl. rewrite E, D in Hcl. lia.
      * rewrite count_app. unfold count at 3. cbn.
        replace (t' =? t)%nat with false
          by (symmetry; apply Nat.eqb_neq; congruence).
        cbn. lia.
    + intros Hd'. destruct (Hid Hd') as [A [B [C0 D0]]].
      repeat split; auto. intros t'.
      change (done_on (c_set_unann _ c1) t') with (done_on c1 t').
      rewrite Edn. apply A.
    + intros Hd'. cbn [c_missing c_set_unann c1 c_set_domains c_upd
        c_set_topics]. rewrite (Hmi Hd'). f_equal. f_equal.
      unfold owed. cbn [c_ticks c_unann c_set_unann c1 c_set_domains c_upd
        c_set_topics].
      rewrite map_app, list_sum_app. cbn [map list_sum].
      change (done_on (c_set_unann _ c1)) with (done_on c1).
      rewrite (Edn t), Ndone.
      replace (map (done_on c1) (c_unann c)) with (map (done_on c) (c_unann c))
        by (apply map_ext; intros; now rewrite Edn).
      replace (map (task_weight (c_set_unann (c_unann c ++ [t]) c1)) (c_ticks c))
        with (map (task_weight c) (c_ticks c)).
      * cbn [list_sum fold_right]. lia.
      * apply map_ext. intros [x| |]; cbn; auto.
        change (done_on (c_set_unann _ c1) x) with (done_on c1 x).
        now rewrite Edn.
    + exact Hcs.
    + intros t'. change (done_on (c_set_unann _ c1) t') with (done_on c1 t').
      change (topic_destroyed (c_set_unann _ c1) t')
        with (topic_destroyed c1 t').
      rewrite Edn, Etd. intros Hn. destruct (Nat.eqb t t'); auto.
    + intros t'. change (done_on (c_set_unann _ c1) t') with (done_on c1 t').
      rewrite Edn. apply Hor.
    + intros t'. change (done_on (c_set_unann _ c1) t') with (done_on c1 t').
      rewrite Edn. apply Hfr.
  - (* the close comes with the next tick *)
    constructor.
    + destruct Hix1. now constructor.
    + exact Hty1.
    + intros t'. change (topic_destroyed (c_set_ticks _ c1) t')
        with (topic_destroyed c1 t'). rewrite Etd.
      unfold pending_close, emitted_close. cbn [c_ticks c_unann c_trace
        c_set_ticks c1 c_set_domains c_upd c_set_topics].
      specialize (Hcl t'). unfold pending_close, emitted_close in Hcl.
      rewrite count_app. unfold count at 2. cbn.
      destruct (Nat.eqb_spec t t') as [<-|N].
      * rewrite Nat.eqb_refl. cbn.
        unfold topic_destroyed in Hcl. rewrite E, D in Hcl. lia.
      * replace (t' =? t)%nat with false
          by (symmetry; apply Nat.eqb_neq; congruence).
        cbn. lia.
    + intros Hd'. destruct (Hid Hd') as [A [B [C0 D0]]].
      repeat split; auto.
      * intros t'.
        change (done_on (c_set_ticks _ c1) t') with (done_on c1 t').
        rewrite Edn. apply A.
      * cbn [c_ticks c_set_ticks]. rewrite count_app, B. reflexivity.
    + intros Hd'. cbn [c_missing c_set_ticks c1 c_set_domains c_upd
        c_set_topics]. rewrite (Hmi Hd'). f_equal. f_equal.
      unfold owed. cbn [c_ticks c_unann c_set_ticks c1 c_set_domains c_upd
        c_set_topics].
      rewrite map_app, list_sum_app. cbn [map list_sum task_weight].
      change (done_on (c_set_ticks _ c1)) with (done_on c1).
      rewrite (Edn t), Ndone.
      replace (map (done_on c1) (c_unann c)) with (map (done_on c) (c_unann c))
        by (apply map_ext; intros; now rewrite Edn).
      replace (map (task_weight (c_set_ticks (c_ticks c ++ [T_emit_close t]) c1))
                 (c_ticks c))
        with (map (task_weight c) (c_ticks c)).
      * cbn [list_sum fold_right]. lia.
      * apply map_ext. intros [x| |]; cbn; auto.
        change (done_on (c_set_ticks _ c1) x) with (done_on c1 x).
        now rewrite Edn.
    + exact Hcs.
    + intros t'. change (done_on (c_set_ticks _ c1) t') with (done_on c1 t').
      change (topic_destroyed (c_set_ticks _ c1) t')
        with (topic_destroyed c1 t').
      rewrite Edn, Etd. intros Hn. destruct (Nat.eqb t t'); auto.
    + intros t'. change (done_on (c_set_ticks _ c1) t') with (done_on c1 t').
      rewrite Edn. apply Hor.
    + intros t'. change (done_on (c_set_ticks _ c1) t') with (done_on c1 t').
      rewrite Edn. apply Hfr.
Qed.

Lemma Inv_ext (F : tid -> Prop) (k : nat) (c c' : Core) :
  index_ok c' ->
  (forall t T, c_get t c' = Some T -> typed T) ->
  c_destroyed c' = c_destroyed c -> c_missing c' = c_missing c ->
  c_ticks c' = c_ticks c -> c_unann c' = c_unann c ->
  c_trace c' = c_trace c ->
  (forall t, done_on c' t = done_on c t) ->
  (forall t, topic_destroyed c' t = topic_destroyed c t) ->
  Inv F k c -> Inv F k c'.
Proof.
  intros Hix Hty E1 E2 E3 E4 E5 E6 E7 [_ _ Hcl Hid Hmi Hcs Hdd Hor Hfr].
  assert (Eow : owed c' = owed c) by (now apply owed_ext).
  constructor; try assumption.
  - intros t. unfold pending_close, emitted_close. rewrite E3, E4, E5, E7.
    apply Hcl.
  - rewrite E1. intros Hd. destruct (Hid Hd) as [A [B [C0 D0]]].
    unfold closes. rewrite E3, E5. repeat split; auto.
    intros t. rewrite E6. apply A.
  - rewrite E1, E2, Eow. exact Hmi.
  - rewrite E1, E2. unfold closes. rewrite E5. exact Hcs.
  - intros t. rewrite E6, E7. apply Hdd.
  - intros t. unfold closes. rewrite E5, E6. apply Hor.
  - intros t Ht. rewrite E6. now apply Hfr.
Qed.

Lemma Map_set_set (m : list (string * list tid)) (k : string)
    (v v' : list tid) :
  Map_set (Map_set m k v) k v' = Map_set m k v'.
Proof.
  induction m as [|[k0 v0] m IH]; cbn.
  - now rewrite String.eqb_refl.
  - destruct (String.eqb_spec k0 k) as [->|N]; cbn.
    + now rewrite String.eqb_refl.
    + destruct (String.eqb_spec k0 k); [congruence|]. now rewrite IH.
Qed.

Lemma c_topic_eq (d : string) (a : bool) (c : Core) :
  c_topic d a c
  = c_set_domains (inserted (c_domains c) d (List.length (c_topics c)))
      (c_set_topics (c_topics c ++ [mk_CTopic false d a [] [] []]) c).
Proof.
  unfold c_topic, inserted, Map_has.
  cbn [c_domains c_set_topics].
  destruct (Map_get (c_domains c) d) as [set|] eqn:G.
  - cbn [c_domains c_set_topics]. now rewrite G.
  - cbn [c_domains c_set_domains]. rewrite Map_get_set_eq, Map_set_set.
    unfold Set_add. cbn [Set_has existsb app].
    now rewrite (Map_set_keys_absent _ _ _ G).
Qed.

Lemma Inv_topic (F : tid -> Prop) (k : nat) (d : string) (a : bool) (c : Core) :
  Inv F k c -> Inv F k (c_topic d a c).
Proof.
  intros H. rewrite c_topic_eq.
  set (n := List.length (c_topics c)).
  set (Tn := mk_CTopic false d a [] [] []).
  set (c' := c_set_domains _ _).
  pose proof H as [[I1 I2 I3 I4 I5] Hty Hcl _ _ _ _ _ _].
  assert (G1 : forall t, t <> n -> c_get t c' = c_get t c).
  { intros t Hne. unfold c_get. cbn.
    destruct (Nat.lt_ge_cases t n) as [L|L].
    - now apply nth_error_app1.
    - assert (n < t)%nat by (fold n in L; lia).
      transitivity (@None CTopic).
      + apply nth_error_None. rewrite length_app. cbn. fold n. lia.
      + symmetry. apply nth_error_None. fold n. lia. }
  assert (G2 : c_get n c' = Some Tn).
  { unfold c_get. cbn. rewrite nth_error_app2 by (fold n; lia).
    fold n. now rewrite Nat.sub_diag. }
  assert (G3 : c_get n c = None).
  { unfold c_get. apply nth_error_None. fold n. lia. }
  assert (Fresh : forall d' s', In (d', s') (c_domains c) -> ~ In n s').
  { intros d' s' Hi Hn. destruct (I4 d' s' n Hi Hn) as [T [E _]]. congruence. }
  apply (Inv_ext F k c c'); try reflexivity; try assumption.
  - constructor; cbn [c_domains c' c_set_domains].
    + intros d' s'. unfold inserted.
      destruct (Map_get (c_domains c) d) as [set|] eqn:G.
      * rewrite In_Map_set;
          [|assumption|apply (in_map fst _ (d, set)); now apply Map_get_In].
        intros [[_ ->]|[_ Hi]]; [|eauto].
        unfold Set_add. destruct (Set_has set n) eqn:S.
        -- apply Set_has_In in S. intros ->. contradiction.
        -- now destruct set.
      * rewrite in_app_iff. intros [Hi|[Hi|[]]]; [eauto|].
        inversion Hi. discriminate.
    + unfold inserted. destruct (Map_get (c_domains c) d) as [set|] eqn:G.
      * now rewrite (Map_set_keys_present _ _ _ _ G).
      * rewrite map_app. cbn. apply NoDup_app; try assumption.
        -- constructor; [tauto|constructor].
        -- intros x Hx [<-|[]]. now apply Map_get_None in G.
    + intros d' s'. unfold inserted.
      destruct (Map_get (c_domains c) d) as [set|] eqn:G.
      * pose proof (Map_get_In _ _ _ G) as Hi0.
        rewrite In_Map_set;
          [|assumption|now apply (in_map fst _ (d, set))].
        intros [[_ ->]|[_ Hi]]; [|eauto].
        rewrite Set_add_new by eauto.
        apply NoDup_app; [eauto|constructor; [tauto|constructor]|].
        intros x Hx [<-|[]]. now apply (Fresh d set).
      * rewrite in_app_iff. intros [Hi|[Hi|[]]]; [eauto|].
        inversion Hi. constructor; [tauto|constructor].
    + intros d' s' t Hi Ht.
      assert (Hcase : (t = n /\ d' = d) \/
                (t <> n /\ exists s0, In (d', s0) (c_domains c) /\ In t s0)).
      { unfold inserted in Hi.
        destruct (Map_get (c_domains c) d) as [set|] eqn:G.
        - pose proof (Map_get_In _ _ _ G) as Hi0.
          rewrite In_Map_set in Hi;
            [|assumption|now apply (in_map fst _ (d, set))].
          destruct Hi as [[-> ->]|[_ Hi]].
          + rewrite Set_add_new in Ht by eauto.
            apply in_app_iff in Ht. destruct Ht as [Ht|[<-|[]]]; [|auto].
            right. split; [|eauto]. intros ->. now apply (Fresh d set).
          + right. split; [|eauto]. intros ->. now apply (Fresh d' s').
        - apply in_app_iff in Hi. destruct Hi as [Hi|[Hi|[]]].
          + right. split; [|eauto]. intros ->. now apply (Fresh d' s').
          + inversion Hi. subst. destruct Ht as [<-|[]]. auto. }
      destruct Hcase as [[-> ->]|[Hne [s0 [Hi0 Ht0]]]].
      * exists Tn. auto.
      * rewrite (G1 t Hne). eauto.
    + intros t T E D.
      assert (Hadd : forall s0, In t s0 \/ t = n -> In t (Set_add s0 n)).
      { intros s0 [Hs| ->]; unfold Set_add;
          destruct (Set_has s0 n) eqn:S; auto.
        - apply in_app_iff. auto.
        - now apply Set_has_In.
        - apply in_app_iff. cbn. auto. }
      destruct (Nat.eq_dec t n) as [->|Hne].
      * rewrite G2 in E. inversion E. subst T. cbn [ct_domain Tn].
        unfold inserted. destruct (Map_get (c_domains c) d) as [set|] eqn:G.
        -- exists (Set_add set n). split; [|auto].
           apply In_Map_set; auto.
           apply (in_map fst _ (d, set)). now apply Map_get_In.
        -- exists [n]. split; [|now left]. apply in_app_iff. right. now left.
      * rewrite (G1 t Hne) in E. destruct (I5 t T E D) as [s0 [Hi0 Ht0]].
        unfold inserted. destruct (Map_get (c_domains c) d) as [set|] eqn:G.
        -- pose proof (Map_get_In _ _ _ G) as Hi1.
           destruct (String.eqb_spec (ct_domain T) d) as [Ed|Nd].
           ++ rewrite Ed in *.
              assert (s0 = set).
              { pose proof (In_Map_get _ _ _ I2 Hi0). congruence. }
              subst s0. exists (Set_add set n). split; [|auto].
              apply In_Map_set; auto.
              now apply (in_map fst _ (d, set)).
           ++ exists s0. split; [|assumption].
              apply In_Map_set; auto.
              now apply (in_map fst _ (d, set)).
        -- exists s0. split; [|assumption]. apply in_app_iff. now left.
  - intros t T E. destruct (Nat.eq_dec t n) as [->|Hne].
    + rewrite G2 in E. inversion E. now repeat split.
    + rewrite (G1 t Hne) in E. eauto.
  - intros t. unfold done_on. destruct (Nat.eq_dec t n) as [->|Hne].
    + now rewrite G2, G3.
    + now rewrite (G1 t Hne).
  - intros t. unfold topic_destroyed. destruct (Nat.eq_dec t n) as [->|Hne].
    + now rewrite G2, G3.
    + now rewrite (G1 t Hne).
Qed.

Lemma list_sum_In {A : Type} (f : A -> nat) (l : list A) (x : A) :
  In x l -> (f x <= list_sum (map f l))%nat.
Proof.
  induction l as [|y l IH]; [cbn; tauto|].
  change (list_sum (map f (y :: l))) with (f y + list_sum (map f l))%nat.
  intros [->|I]; [lia|]. specialize (IH I). lia.
Qed.

Lemma count_Set_delete (l : list tid) (t t' : tid) :
  In t l ->
  (count (Nat.eqb t') (Set_delete l t) + (if Nat.eqb t' t then 1 else 0)
   = count (Nat.eqb t') l)%nat.
Proof.
  induction l as [|y l IH]; cbn; [tauto|].
  intros H. destruct (Nat.eqb_spec t y) as [->|N].
  - unfold count. cbn. destruct (Nat.eqb t' y); cbn; lia.
  - destruct H as [->|I]; [congruence|]. specialize (IH I).
    unfold count in *. cbn. destruct (Nat.eqb t' y); cbn; lia.
Qed.

Lemma sum_Set_delete (f : tid -> nat) (l : list tid) (t : tid) :
  In t l ->
  (list_sum (map f (Set_delete l t)) + f t = list_sum (map f l))%nat.
Proof.
  induction l as [|y l IH]; [cbn; tauto|].
  change (list_sum (map f (y :: l))) with (f y + list_sum (map f l))%nat.
  cbn [Set_delete]. intros H. destruct (Nat.eqb_spec t y) as [->|N].
  - lia.
  - destruct H as [->|I]; [congruence|]. specialize (IH I).
    change (list_sum (map f (y :: Set_delete l t)))
      with (f y + list_sum (map f (Set_delete l t)))%nat.
    lia.
Qed.

(** a pending ['close'] of [t] is taken from the tick queue and emitted *)
Lemma Inv_close_tick (F : tid -> Prop) (k : nat) (t : tid)
    (rest : list task) (c : Core) :
  c_ticks c = T_emit_close t :: rest ->
  Inv F k c ->
  Inv F (done_on c t + k) (c_log (Emit t Ev_close) (c_set_ticks rest c)).
Proof.
  intros Et [Hix Hty Hcl Hid Hmi Hcs Hdd Hor Hfr].
  constructor; try assumption.
  - destruct Hix. now constructor.
  - intros t'. specialize (Hcl t'). unfold pending_close, emitted_close in *.
    rewrite Et in Hcl. unfold count in *.
    change (topic_destroyed (c_log _ (c_set_ticks _ c)) t')
      with (topic_destroyed c t').
    cbn in *.
    destruct (topic_destroyed c t'); destruct (Nat.eqb t' t); cbn in *; lia.
  - intros Hd. destruct (Hid Hd) as [A [B [C0 D0]]].
    rewrite Et in B. unfold count in B. cbn in B.
    repeat split; auto. rewrite (A t). assumption.
  - intros Hd. cbn [c_missing c_log c_set_ticks]. rewrite (Hmi Hd).
    f_equal. unfold owed. rewrite Et.
    cbn [c_ticks c_unann c_log c_set_ticks].
    change (done_on (c_log _ (c_set_ticks _ c))) with (done_on c).
    change (task_weight (c_log _ (c_set_ticks _ c))) with (task_weight c).
    change (list_sum (map (task_weight c) (T_emit_close t :: rest)))
      with (done_on c t + list_sum (map (task_weight c) rest))%nat.
    lia.
  - intros t' Hc Hd. apply before_cons. now apply Hor.
Qed.

(** a pending ['close'] of [t] arrives with the callback of [unannounce] *)
Lemma Inv_close_unann (F : tid -> Prop) (k : nat) (t : tid) (c : Core) :
  In t (c_unann c) ->
  Inv F k c ->
  Inv F (done_on c t + k)
    (c_log (Emit t Ev_close) (c_set_unann (Set_delete (c_unann c) t) c)).
Proof.
  intros Et [Hix Hty Hcl Hid Hmi Hcs Hdd Hor Hfr].
  constructor; try assumption.
  - destruct Hix. now constructor.
  - intros t'. specialize (Hcl t'). unfold pending_close, emitted_close in *.
    pose proof (count_Set_delete (c_unann c) t t' Et) as Hc.
    cbn [c_ticks c_unann c_trace c_log c_set_unann].
    change (topic_destroyed (c_log _ (c_set_unann _ c)) t')
      with (topic_destroyed c t').
    unfold count at 3. cbn [filter is_close_emit].
    destruct (topic_destroyed c t'); destruct (Nat.eqb t' t);
      cbn [List.length]; unfold count in *; lia.
  - intros Hd. destruct (Hid Hd) as [A [B [C0 D0]]].
    repeat split; auto. rewrite (A t). assumption.
  - intros Hd. cbn [c_missing c_log c_set_unann]. rewrite (Hmi Hd).
    f_equal. unfold owed.
    cbn [c_ticks c_unann c_log c_set_unann].
    pose proof (sum_Set_delete (done_on c) (c_unann c) t Et) as Hs.
    change (done_on (c_log _ (c_set_unann _ c))) with (done_on c).
    change (task_weight (c_log _ (c_set_unann _ c))) with (task_weight c).
    lia.
  - intros t' Hc Hd. apply before_cons. now apply Hor.
Qed.

Lemma Inv_destroyed (F : tid -> Prop) (k : nat) (c : Core) :
  Inv F (S k) c -> c_destroyed c = true.
Proof.
  intros H. destruct (c_destroyed c) eqn:D; [reflexivity|].
  destruct (inv_idle _ _ _ H D) as [_ [_ [_ Z]]]. discriminate.
Qed.

Lemma owed_zero_pending (c : Core) (t : tid) :
  owed c = O -> done_on c t <> O -> pending_close c t = O.
Proof.
  intros Ho Hd. unfold owed in Ho. unfold pending_close.
  assert (A : count (is_close_task t) (c_ticks c) = O).
  { destruct (Nat.eq_dec (count (is_close_task t) (c_ticks c)) 0) as [|N];
      [assumption|exfalso].
    apply count_In in N. destruct N as [f [I Hf]].
    destruct f as [t'| |]; try discriminate. cbn in Hf.
    apply Nat.eqb_eq in Hf. subst t'.
    pose proof (list_sum_In (task_weight c) _ _ I) as L. cbn in L. lia. }
  assert (B : count (Nat.eqb t) (c_unann c) = O).
  { destruct (Nat.eq_dec (count (Nat.eqb t) (c_unann c)) 0) as [|N];
      [assumption|exfalso].
    apply count_In in N. destruct N as [t' [I Hf]].
    apply Nat.eqb_eq in Hf. subst t'.
    pose proof (list_sum_In (done_on c) _ _ I) as L. lia. }
  lia.
Qed.

Lemma count_nonzero_In {A : Type} (p : A -> bool) (l : list A) (x : A) :
  In x l -> p x = true -> count p l <> O.
Proof.
  unfold count. induction l as [|y l IH]; cbn; [tauto|].
  intros [->|I] Hx.
  - rewrite Hx. cbn. lia.
  - destruct (p y); cbn; [lia|auto].
Qed.

(** one call of [done] *)
Lemma Inv_done (F : tid -> Prop) (k : nat) (c : Core) :
  Inv F (S k) c -> Inv F k (c_done c).
Proof.
  intros H. pose proof (Inv_destroyed F k c H) as D.
  destruct H as [Hix Hty Hcl Hid Hmi Hcs Hdd Hor Hfr].
  pose proof (Hmi D) as M. pose proof (Hcs D) as C0.
  assert (M1 : (c_missing c =? 0) = false) by (apply Z.eqb_neq; lia).
  rewrite M1 in C0.
  unfold c_done. cbn [c_missing c_set_missing].
  destruct (c_missing c - 1 =? 0) eqn:Z0.
  - apply Z.eqb_eq in Z0.
    assert (O0 : owed c = O /\ k = O) by lia. destruct O0 as [O0 ->].
    constructor; try assumption.
    + destruct Hix. now constructor.
    + intros D'. cbn in D'. congruence.
    + intros _. cbn [c_missing c_log c_set_missing].
      change (owed (c_log _ (c_set_missing _ c))) with (owed c). lia.
    + intros _. cbn [c_missing c_log c_set_missing].
      replace (c_missing c - 1 =? 0) with true
        by (symmetry; apply Z.eqb_eq; lia).
      unfold closes in *. unfold count in *. cbn. lia.
    + intros t _ Hd. apply before_here.
      change (done_on (c_log _ (c_set_missing _ c)) t) with (done_on c t) in Hd.
      pose proof (owed_zero_pending c t O0 Hd) as P.
      specialize (Hcl t). rewrite (Hdd t Hd), P in Hcl.
      assert (N : count (is_close_emit t) (c_trace c) <> O)
        by (unfold emitted_close in Hcl; lia).
      apply count_In in N. destruct N as [e [I He]].
      destruct e as [t' [| |]| | | | | | | | | | | | | |]; try discriminate.
      cbn in He. apply Nat.eqb_eq in He. now subst t'.
  - apply Z.eqb_neq in Z0.
    constructor; try assumption.
    + destruct Hix. now constructor.
    + intros D'. cbn in D'. congruence.
    + intros _. cbn [c_missing c_set_missing].
      change (owed (c_set_missing _ c)) with (owed c). lia.
    + intros _. cbn [c_missing c_set_missing].
      replace (c_missing c - 1 =? 0) with false
        by (symmetry; apply Z.eqb_neq; lia).
      exact C0.
Qed.

Lemma Inv_set_pings (F : tid -> Prop) (k : nat) (v : list Ping) (c : Core) :
  Inv F k c -> Inv F k (c_set_pings v c).
Proof.
  intros [Hix Hty Hcl Hid Hmi Hcs Hdd Hor Hfr].
  constructor; try assumption. destruct Hix. now constructor.
Qed.

(** a callback of the caller is taken from the tick queue *)
Lemma Inv_pop_call (F : tid -> Prop) (k : nat) (cb : nat) (r : cb_result)
    (rest : list task) (c : Core) :
  c_ticks c = T_call cb r :: rest -> Inv F k c ->
  Inv F k (c_set_ticks rest c).
Proof.
  intros Et [Hix Hty Hcl Hid Hmi Hcs Hdd Hor Hfr].
  constructor; try assumption.
  - destruct Hix. now constructor.
  - intros t. specialize (Hcl t). unfold pending_close in *.
    rewrite Et in Hcl. exact Hcl.
  - intros Hd. destruct (Hid Hd) as [A [B [C0 D0]]].
    rewrite Et in B. repeat split; auto.
  - intros Hd. cbn [c_missing c_set_ticks]. rewrite (Hmi Hd).
    f_equal. unfold owed. now rewrite Et.
Qed.

(** a callback of the caller is put on the tick queue *)
Lemma Inv_push_call (F : tid -> Prop) (k : nat) (cb : nat) (r : cb_result)
    (c : Core) :
  Inv F k c -> Inv F k (c_set_ticks (c_ticks c ++ [T_call cb r]) c).
Proof.
  intros [Hix Hty Hcl Hid Hmi Hcs Hdd Hor Hfr].
  constructor; try assumption.
  - destruct Hix. now constructor.
  - intros t. specialize (Hcl t). unfold pending_close in *.
    cbn [c_ticks c_unann c_set_ticks]. rewrite count_app.
    unfold count at 2. cbn. rewrite Nat.add_0_r. exact Hcl.
  - intros Hd. destruct (Hid Hd) as [A [B [C0 D0]]].
    repeat split; auto. cbn [c_ticks c_set_ticks]. rewrite count_app, B.
    reflexivity.
  - intros Hd. cbn [c_missing c_set_ticks]. rewrite (Hmi Hd).
    f_equal. unfold owed. cbn [c_ticks c_unann c_set_ticks].
    rewrite map_app, list_sum_app.
    change (task_weight (c_set_ticks _ c)) with (task_weight c).
    change (done_on (c_set_ticks _ c)) with (done_on c).
    cbn [map list_sum fold_right task_weight]. lia.
Qed.

(** [done] is taken from the tick queue, to be called *)
Lemma Inv_pop_done (F : tid -> Prop) (k : nat) (rest : list task)
    (c : Core) :
  c_ticks c = T_done :: rest -> Inv F k c ->
  Inv F (S k) (c_set_ticks rest c).
Proof.
  intros Et [Hix Hty Hcl Hid Hmi Hcs Hdd Hor Hfr].
  assert (D : c_destroyed c = true).
  { destruct (c_destroyed c) eqn:D; [reflexivity|].
    destruct (Hid eq_refl) as [_ [B _]]. rewrite Et in B. discriminate. }
  constructor; try assumption.
  - destruct Hix. now constructor.
  - intros t. specialize (Hcl t). unfold pending_close in *.
    rewrite Et in Hcl. exact Hcl.
  - intros D'. cbn in D'. congruence.
  - intros Hd. cbn [c_missing c_set_ticks]. rewrite (Hmi Hd).
    f_equal. unfold owed. rewrite Et. cbn [c_ticks c_unann c_set_ticks].
    change (task_weight (c_set_ticks _ c)) with (task_weight c).
    change (done_on (c_set_ticks _ c)) with (done_on c).
    change (list_sum (map (task_weight c) (T_done :: rest)))
      with (1 + list_sum (map (task_weight c) rest))%nat.
    lia.
Qed.

(** the listeners of a ['close'] *)
Lemma Inv_run_close (F : tid -> Prop) (k : nat) (t : tid)
    (ls : list listener) :
  forall c,
    Inv F (count is_done_listener ls + k) c ->
    Inv F k (fold_left (fun c l => c_run_listener t Ev_close l c) ls c).
Proof.
  induction ls as [|l ls IH]; intros c H; [exact H|].
  cbn [fold_left]. apply IH.
  destruct l as [n|cb|cb|]; cbn [c_run_listener].
  - exact H.
  - apply Inv_log; [reflexivity|reflexivity|exact H].
  - exact H.
  - apply Inv_done. exact H.
Qed.

Lemma pending_topic (F : tid -> Prop) (k : nat) (t : tid) (c : Core) :
  Inv F k c -> pending_close c t <> O ->
  exists T, c_get t c = Some T /\
            done_on c t = count is_done_listener (ct_on_close T).
Proof.
  intros H P. pose proof (inv_close _ _ _ H t) as Hc.
  unfold topic_destroyed, done_on in *.
  destruct (c_get t c) as [T|]; [eauto|lia].
Qed.

Lemma Inv_tick_close (F : tid -> Prop) (t : tid) (rest : list task)
    (c : Core) :
  c_ticks c = T_emit_close t :: rest -> Inv F 0 c ->
  Inv F 0 (c_emit t Ev_close (c_set_ticks rest c)).
Proof.
  intros Et H.
  assert (P : pending_close c t <> O).
  { unfold pending_close. rewrite Et. unfold count. cbn.
    rewrite Nat.eqb_refl. cbn. lia. }
  destruct (pending_topic F 0 t c H P) as [T [E Ed]].
  unfold c_emit. change (c_get t (c_set_ticks rest c)) with (c_get t c).
  rewrite E. cbn [name_of ct_listeners].
  apply Inv_run_close. rewrite <- Ed. now apply Inv_close_tick.
Qed.

Lemma Inv_unannounced (F : tid -> Prop) (t : tid) (c : Core) :
  In t (c_unann c) -> Inv F 0 c ->
  Inv F 0 (c_emit t Ev_close (c_set_unann (Set_delete (c_unann c) t) c)).
Proof.
  intros Et H.
  assert (P : pending_close c t <> O).
  { unfold pending_close.
    pose proof (count_nonzero_In (Nat.eqb t) _ t Et (Nat.eqb_refl t)). lia. }
  destruct (pending_topic F 0 t c H P) as [T [E Ed]].
  unfold c_emit. change (c_get t (c_set_unann _ c)) with (c_get t c).
  rewrite E. cbn [name_of ct_listeners].
  apply Inv_run_close. rewrite <- Ed. now apply Inv_close_unann.
Qed.

(** the listeners of a ['peer'] *)
Lemma Inv_run_peer (F : tid -> Prop) (k : nat) (t : tid) (p : peer)
    (ls : list listener) :
  forallb peer_listener ls = true ->
  forall c,
    Inv F k c ->
    Inv F k (fold_left (fun c l => c_run_listener t (Ev_peer p) l c) ls c).
Proof.
  induction ls as [|l ls IH]; intros Hls c H; [exact H|].
  cbn [forallb] in Hls. apply andb_true_iff in Hls. destruct Hls as [Hl Hls].
  cbn [fold_left]. apply (IH Hls).
  destruct l as [n|cb|cb|]; try discriminate; cbn [c_run_listener].
  - exact H.
  - apply Inv_log; [reflexivity|reflexivity|].
    apply Inv_Topic_destroy.
    apply Inv_removeListener; [reflexivity|].
    apply Inv_removeListener; [reflexivity|exact H].
Qed.

Lemma Inv_emit_peer (F : tid -> Prop) (k : nat) (t : tid) (p : peer)
    (c : Core) :
  Inv F k c -> Inv F k (c_emit t (Ev_peer p) c).
Proof.
  intros H. unfold c_emit. destruct (c_get t c) as [T|] eqn:E; [|exact H].
  cbn [name_of ct_listeners].
  destruct (inv_typed _ _ _ H t T E) as [T1 _].
  apply (Inv_run_peer F k t p _ T1).
  apply Inv_log; [reflexivity|reflexivity|exact H].
Qed.

Lemma run_update_listeners (t : tid) (err : option string)
    (ls : list listener) :
  forallb update_listener ls = true ->
  forall c,
    fold_left (fun c l => c_run_listener t (Ev_update err) l c) ls c = c.
Proof.
  induction ls as [|l ls IH]; intros Hls c; [reflexivity|].
  cbn [forallb] in Hls. apply andb_true_iff in Hls. destruct Hls as [Hl Hls].
  cbn [fold_left]. destruct l; try discriminate. cbn [c_run_listener].
  now apply IH.
Qed.

Lemma Inv_emit_update (F : tid -> Prop) (k : nat) (t : tid)
    (err : option string) (c : Core) :
  Inv F k c -> Inv F k (c_emit t (Ev_update err) c).
Proof.
  intros H. unfold c_emit. destruct (c_get t c) as [T|] eqn:E; [|exact H].
  cbn [name_of ct_listeners].
  destruct (inv_typed _ _ _ H t T E) as [_ [T2 _]].
  rewrite (run_update_listeners t err _ T2).
  apply Inv_log; [reflexivity|reflexivity|exact H].
Qed.

Lemma Inv_fold {A : Type} (P : Core -> Prop) (f : Core -> A -> Core)
    (l : list A) :
  (forall c a, P c -> P (f c a)) -> forall c, P c -> P (fold_left f l c).
Proof.
  intros Hf. induction l as [|a l IH]; intros c H; [exact H|].
  cbn. apply IH. now apply Hf.
Qed.

Lemma Inv_data (F : tid -> Prop) (k : nat) (t : tid) (ps : list peer)
    (c : Core) :
  Inv F k c -> Inv F k (c_data t ps c).
Proof.
  intros H. unfold c_data. destruct (c_get t c) as [T|]; [|exact H].
  destruct (ct_destroyed T); [exact H|].
  apply Inv_fold; [|exact H]. intros c' p. apply Inv_emit_peer.
Qed.

Lemma Inv_response (F : tid -> Prop) (k : nat) (l : list (string * peer))
    (c : Core) :
  Inv F k c -> Inv F k (c_response l c).
Proof.
  intros H. unfold c_response. apply Inv_fold; [|exact H].
  intros c' a H'. destruct (Map_get _ _); [|exact H'].
  apply Inv_fold; [|exact H']. intros c'' t. apply Inv_emit_peer.
Qed.

Lemma Inv_pong (F : tid -> Prop) (k : nat) (pid : nat) (bootstrap : string)
    (pong : option nat) (now : Z) (c : Core) :
  Inv F k c -> Inv F k (c_pong pid bootstrap pong now c).
Proof.
  intros H. unfold c_pong. destruct (nth_error (c_pings c) pid) as [P|];
    [|exact H].
  destruct (negb _); [now apply Inv_set_pings|].
  destruct pong; destruct (pg_res P);
    (apply Inv_log; [reflexivity|reflexivity|now apply Inv_set_pings]).
Qed.

Lemma Inv_weaken (F F' : tid -> Prop) (k : nat) (c : Core) :
  (forall t, F' t -> F t) -> Inv F k c -> Inv F' k c.
Proof.
  intros HF [Hix Hty Hcl Hid Hmi Hcs Hdd Hor Hfr].
  constructor; try assumption. intros t Ht. apply Hfr. now apply HF.
Qed.

Lemma index_ok_upd (t : tid) (f : CTopic -> CTopic) (c : Core) :
  (forall T, ct_destroyed (f T) = ct_destroyed T) ->
  (forall T, ct_domain (f T) = ct_domain T) ->
  index_ok c -> index_ok (c_upd t f c).
Proof.
  intros F1 F2 [I1 I2 I3 I4 I5]. constructor; try assumption.
  - intros d set t' Hin Ht. destruct (I4 d set t' Hin Ht) as [T [E [D1 D2]]].
    rewrite c_get_upd, E. cbn. eexists. split; [reflexivity|].
    destruct (Nat.eqb t t'); rewrite ?F1, ?F2; auto.
  - intros t' T'. rewrite c_get_upd.
    destruct (c_get t' c) as [T|] eqn:E; [|discriminate]. cbn.
    intros E' D'. inversion E'. subst T'.
    destruct (Nat.eqb t t'); rewrite ?F1, ?F2 in *; now apply (I5 t' T).
Qed.

Lemma list_sum_map_add {A : Type} (f : A -> nat) (p : A -> bool)
    (l : list A) :
  list_sum (map (fun x => f x + (if p x then 1 else 0))%nat l)
  = (list_sum (map f l) + count p l)%nat.
Proof.
  induction l as [|x l IH]; [reflexivity|].
  change (list_sum (map ?g (x :: l))) with (g x + list_sum (map g l))%nat.
  rewrite IH. unfold count. cbn [filter]. destruct (p x); cbn [List.length]; lia.
Qed.

(** [done] is registered on the ['close'] of a topic that has one pending
    close *)
Lemma Inv_add_done (F : tid -> Prop) (k : nat) (t : tid) (c : Core) :
  Inv F (S k) c -> topic_destroyed c t = true -> pending_close c t = 1%nat ->
  Inv (fun x => x = t \/ F x) k (c_upd t (ct_on N_close L_done) c).
Proof.
  intros H Td Pc. pose proof (Inv_destroyed F k c H) as D.
  destruct H as [Hix Hty Hcl Hid Hmi Hcs Hdd Hor Hfr].
  set (c' := c_upd t (ct_on N_close L_done) c).
  assert (Et : exists T, c_get t c = Some T).
  { unfold topic_destroyed in Td. destruct (c_get t c); [eauto|discriminate]. }
  destruct Et as [T Et].
  assert (Edn : forall x, done_on c' x
             = (done_on c x + (if Nat.eqb t x then 1 else 0))%nat).
  { intros x. unfold done_on, c'. rewrite c_get_upd.
    destruct (Nat.eqb_spec t x) as [<-|N].
    - rewrite Et. unfold ct_on.
      cbn [option_map ct_set_listeners ct_listeners ct_on_close].
      rewrite count_app. reflexivity.
    - destruct (c_get x c); cbn [option_map]; lia. }
  assert (Etd : forall x, topic_destroyed c' x = topic_destroyed c x).
  { intros x. unfold topic_destroyed, c'. rewrite c_get_upd.
    destruct (c_get x c); [|reflexivity]. cbn. now destruct (Nat.eqb t x). }
  assert (Eow : owed c' = (owed c + 1)%nat).
  { unfold owed. cbn [c_ticks c_unann c' c_upd c_set_topics].
    rewrite <- Pc. unfold pending_close.
    replace (map (task_weight c') (c_ticks c))
      with (map (fun f => task_weight c f + (if is_close_task t f then 1 else 0))%nat
              (c_ticks c)).
    - replace (map (done_on c') (c_unann c))
        with (map (fun x => done_on c x + (if Nat.eqb t x then 1 else 0))%nat
                (c_unann c)).
      + rewrite !list_sum_map_add. unfold tid. lia.
      + apply map_ext. intros x. now rewrite Edn.
    - apply map_ext. intros [x| |]; cbn [task_weight is_close_task];
        rewrite ?Edn; lia. }
  pose proof (Hmi D) as M. pose proof (Hcs D) as C0.
  assert (M1 : (c_missing c =? 0) = false) by (apply Z.eqb_neq; lia).
  rewrite M1 in C0.
  constructor.
  - apply index_ok_upd; auto.
  - intros x T'. unfold c'. rewrite c_get_upd.
    destruct (c_get x c) as [T0|] eqn:E0; [|discriminate]. cbn.
    intros E'. inversion E'. pose proof (Hty x T0 E0) as [T1 [T2 T3]].
    destruct (Nat.eqb t x); repeat split; cbn; auto.
    now apply forallb_snoc.
  - intros x. rewrite Etd. apply Hcl.
  - intros D'. cbn in D'. congruence.
  - intros _. change (c_missing c') with (c_missing c). rewrite M, Eow.
    f_equal. lia.
  - intros _. change (c_missing c') with (c_missing c).
    change (closes c') with (closes c). rewrite M1. exact C0.
  - intros x. rewrite Edn, Etd. destruct (Nat.eqb_spec t x) as [<-|N].
    + intros _. exact Td.
    + rewrite Nat.add_0_r. apply Hdd.
  - intros x Hc. change (closes c') with (closes c) in Hc. congruence.
  - intros x [->|Hx]; rewrite Edn.
    + rewrite Nat.eqb_refl. lia.
    + specialize (Hfr x Hx). lia.
Qed.

Lemma Inv_missing_incr (F : tid -> Prop) (k : nat) (c : Core) :
  Inv F (S k) c -> Inv F (S (S k)) (c_set_missing (c_missing c + 1) c).
Proof.
  intros H. pose proof (Inv_destroyed F k c H) as D.
  destruct H as [Hix Hty Hcl Hid Hmi Hcs Hdd Hor Hfr].
  pose proof (Hmi D) as M. pose proof (Hcs D) as C0.
  assert (M1 : (c_missing c =? 0) = false) by (apply Z.eqb_neq; lia).
  rewrite M1 in C0.
  constructor; try assumption.
  - destruct Hix. now constructor.
  - intros D'. cbn in D'. congruence.
  - intros _. cbn [c_missing c_set_missing].
    change (owed (c_set_missing _ c)) with (owed c). lia.
  - intros _. cbn [c_missing c_set_missing].
    replace (c_missing c + 1 =? 0) with false
      by (symmetry; apply Z.eqb_neq; lia).
    exact C0.
Qed.

Lemma c_trace_Topic_destroy (t : tid) (c : Core) :
  c_trace (c_Topic_destroy t c) = c_trace c.
Proof.
  unfold c_Topic_destroy. destruct (c_get t c) as [T|]; [|reflexivity].
  destruct (ct_destroyed T); [reflexivity|].
  destruct (Map_get _ _) as [set|]; [|reflexivity].
  destruct (Set_delete set t); destruct (ct_announcing T); reflexivity.
Qed.

Lemma Map_all_head (c : Core) (t : tid) (L : list tid) :
  index_ok c -> Map_all (c_domains c) = t :: L ->
  exists T set,
    c_get t c = Some T /\ ct_destroyed T = false /\
    Map_get (c_domains c) (ct_domain T) = Some set /\
    Map_all (removed (c_domains c) (ct_domain T) (Set_delete set t)) = L.
Proof.
  intros [I1 I2 I3 I4 I5] E. unfold Map_all in *.
  destruct (c_domains c) as [|[d s] m0] eqn:Em; [discriminate|].
  cbn [map snd List.concat] in E.
  assert (Hs : s <> []) by (apply (I1 d); now left).
  destruct s as [|t0 s]; [congruence|]. cbn in E. inversion E. subst t0.
  destruct (I4 d (t :: s) t) as [T [Et [Dt Dd]]]; [now left|now left|].
  exists T, (t :: s). rewrite Dd. cbn [Map_get]. rewrite String.eqb_refl.
  repeat split; auto. cbn [Set_delete]. rewrite Nat.eqb_refl.
  unfold removed. destruct s as [|x s]; cbn [Map_set Map_delete];
    rewrite String.eqb_refl; cbn [Map_delete]; rewrite ?String.eqb_refl;
    reflexivity.
Qed.

Lemma destroy_round_spec (F : tid -> Prop) (t : tid) (L : list tid)
    (c : Core) :
  Inv F 1 c -> Map_all (c_domains c) = t :: L ->
  Inv (fun x => x = t \/ F x) 1 (destroy_round c t) /\
  Map_all (c_domains (destroy_round c t)) = L /\
  c_trace (destroy_round c t) = c_trace c.
Proof.
  intros H E.
  destruct (Map_all_head c t L (inv_index _ _ _ H) E) as [T [set [Et [Dt [G ML]]]]].
  pose proof (Inv_missing_incr F 0 c H) as H1.
  set (c1 := c_set_missing (c_missing c + 1) c) in *.
  pose proof (Inv_Topic_destroy F 2 t c1 H1) as H2.
  assert (Live : c_Topic_destroy t c1
                 = let c2 :=
                     c_set_domains
                       (removed (c_domains c) (ct_domain T) (Set_delete set t))
                       (c_upd t (ct_set_destroyed true) c1) in
                   if ct_announcing T then c_set_unann (c_unann c ++ [t]) c2
                   else c_set_ticks (c_ticks c ++ [T_emit_close t]) c2)
    by (now apply (c_Topic_destroy_live t T set c1)).
  set (c2 := c_Topic_destroy t c1) in *.
  assert (Td : topic_destroyed c2 t = true).
  { unfold topic_destroyed. rewrite Live. cbv zeta.
    destruct (ct_announcing T);
      [change (c_get t (c_set_unann ?u (c_set_domains ?v ?x))) with (c_get t x)
      |change (c_get t (c_set_ticks ?u (c_set_domains ?v ?x))) with (c_get t x)];
      rewrite c_get_upd_eq; change (c_get t c1) with (c_get t c);
      now rewrite Et. }
  assert (Em : emitted_close c2 t = O).
  { unfold emitted_close, c2. rewrite c_trace_Topic_destroy.
    pose proof (inv_close _ _ _ H t) as Hc. unfold topic_destroyed in Hc.
    rewrite Et, Dt in Hc. unfold emitted_close in Hc.
    change (c_trace c1) with (c_trace c). lia. }
  assert (Pc : pending_close c2 t = 1%nat).
  { pose proof (inv_close _ _ _ H2 t) as Hc. fold c2 in Hc.
    rewrite Td, Em in Hc. lia. }
  split; [|split].
  - unfold destroy_round. fold c1. fold c2. now apply Inv_add_done.
  - unfold destroy_round. fold c1. fold c2.
    change (c_domains (c_upd t (ct_on N_close L_done) c2))
      with (c_domains c2).
    rewrite Live. cbv zeta. now destruct (ct_announcing T).
  - unfold destroy_round. fold c1. fold c2.
    change (c_trace (c_upd t (ct_on N_close L_done) c2)) with (c_trace c2).
    unfold c2. now rewrite c_trace_Topic_destroy.
Qed.

Lemma destroy_loop (L : list tid) :
  forall (F : tid -> Prop) (c : Core),
    Inv F 1 c -> Map_all (c_domains c) = L ->
    Inv (fun x => In x L \/ F x) 1 (fold_left destroy_round L c) /\
    c_trace (fold_left destroy_round L c) = c_trace c.
Proof.
  induction L as [|t L IH]; intros F c H E.
  - split; [|reflexivity]. apply (Inv_weaken F); [|exact H].
    intros x [[]|Hx]. exact Hx.
  - destruct (destroy_round_spec F t L c H E) as [H1 [E1 T1]].
    destruct (IH _ _ H1 E1) as [H2 T2]. cbn [fold_left]. split.
    + apply (Inv_weaken (fun x => In x L \/ x = t \/ F x)); [|exact H2].
      intros x [[<-|Hx]|Hx]; auto.
    + now rewrite T2.
Qed.

Lemma owed_idle (c : Core) :
  (forall t, done_on c t = O) -> count is_done_task (c_ticks c) = O ->
  owed c = O.
Proof.
  intros A B. unfold owed.
  assert (E1 : list_sum (map (done_on c) (c_unann c)) = O).
  { induction (c_unann c) as [|x l IH]; [reflexivity|].
    change (list_sum (map (done_on c) (x :: l)))
      with (done_on c x + list_sum (map (done_on c) l))%nat.
    rewrite A, IH. reflexivity. }
  assert (E2 : list_sum (map (task_weight c) (c_ticks c)) = O).
  { revert B. induction (c_ticks c) as [|f l IH]; [reflexivity|].
    change (list_sum (map (task_weight c) (f :: l)))
      with (task_weight c f + list_sum (map (task_weight c) l))%nat.
    unfold count. cbn [filter].
    destruct f as [x| |]; cbn [is_done_task task_weight List.length];
      try discriminate; intros B; rewrite ?A, (IH B); reflexivity. }
  lia.
Qed.

Lemma Inv_push_done (F : tid -> Prop) (k : nat) (c : Core) :
  Inv F (S k) c -> Inv F k (c_set_ticks (c_ticks c ++ [T_done]) c).
Proof.
  intros H. pose proof (Inv_destroyed F k c H) as D.
  destruct H as [Hix Hty Hcl Hid Hmi Hcs Hdd Hor Hfr].
  constructor; try assumption.
  - destruct Hix. now constructor.
  - intros t. specialize (Hcl t). unfold pending_close in *.
    cbn [c_ticks c_unann c_set_ticks]. rewrite count_app.
    unfold count at 2. cbn. rewrite Nat.add_0_r. exact Hcl.
  - intros D'. cbn in D'. congruence.
  - intros _. cbn [c_missing c_set_ticks]. rewrite (Hmi D).
    f_equal. unfold owed. cbn [c_ticks c_unann c_set_ticks].
    rewrite map_app, list_sum_app.
    change (task_weight (c_set_ticks _ c)) with (task_weight c).
    change (done_on (c_set_ticks _ c)) with (done_on c).
    cbn [map list_sum fold_right task_weight]. lia.
Qed.

(** [Discovery.destroy] on a session that is not destroyed: [done] gets
    registered on every topic of the index, and nothing is emitted. *)
Lemma Inv_destroy_live (F : tid -> Prop) (c : Core) :
  c_destroyed c = false -> Inv F 0 c ->
  Inv (fun x => In x (Map_all (c_domains c)) \/ F x) 0 (c_destroy c) /\
  c_trace (c_destroy c) = c_trace c /\
  c_destroyed (c_destroy c) = true.
Proof.
  intros D H. unfold c_destroy. rewrite D.
  set (c1 := c_set_missing 1 (c_set_destroyed true c)).
  assert (H1 : Inv F 1 c1).
  { destruct H as [Hix Hty Hcl Hid Hmi Hcs Hdd Hor Hfr].
    destruct (Hid D) as [A [B [C0 _]]].
    constructor; try assumption.
    - destruct Hix. now constructor.
    - intros D'. cbn in D'. discriminate.
    - intros _. change (owed c1) with (owed c).
      rewrite (owed_idle c A B). reflexivity.
    - intros _. exact C0. }
  change (Map_all (c_domains c1)) with (Map_all (c_domains c)).
  destruct (destroy_loop (Map_all (c_domains c)) F c1 H1 eq_refl) as [H2 T2].
  change (fun c0 topic =>
            c_upd topic (ct_on N_close L_done)
              (c_Topic_destroy topic (c_set_missing (c_missing c0 + 1) c0)))
    with destroy_round.
  split; [|split].
  - now apply Inv_push_done.
  - cbn [c_trace c_set_ticks]. exact T2.
  - pose proof (Inv_destroyed _ _ _ H2). assumption.
Qed.

Lemma Inv_destroy (F : tid -> Prop) (c : Core) :
  Inv F 0 c -> Inv F 0 (c_destroy c).
Proof.
  intros H. destruct (c_destroyed c) eqn:D.
  - unfold c_destroy. now rewrite D.
  - destruct (Inv_destroy_live F c D H) as [H1 _].
    apply (Inv_weaken _ _ _ _ (fun x Hx => or_intror Hx) H1).
Qed.

(** Every step of the core keeps the invariant. *)
Lemma Inv_step (F : tid -> Prop) (a : caction) (c : Core) :
  Inv F 0 c -> Inv F 0 (c_step a c).
Proof.
  intros H. destruct a; cbn [c_step].
  - exact H.
  - now apply Inv_topic.
  - apply Inv_on; [reflexivity|reflexivity|].
    apply Inv_on; [reflexivity|reflexivity|]. now apply Inv_topic.
  - now apply Inv_Topic_destroy.
  - now apply Inv_destroy.
  - apply Inv_on; [reflexivity|now destruct n|exact H].
  - destruct (c_ticks c) as [|f rest] eqn:Et; [exact H|].
    destruct f as [t| |cb r]; cbn [c_run_task].
    + now apply Inv_tick_close.
    + apply Inv_done. now apply Inv_pop_done.
    + apply Inv_log; [reflexivity|reflexivity|].
      now apply (Inv_pop_call F 0 cb r rest).
  - destruct (Set_has (c_unann c) t) eqn:S; [|exact H].
    apply Inv_unannounced; [|exact H]. now apply Set_has_In.
  - now apply Inv_data.
  - now apply Inv_emit_update.
  - now apply Inv_response.
  - now apply Inv_push_call.
  - now apply Inv_set_pings.
  - now apply Inv_pong.
Qed.

Lemma Inv_run (F : tid -> Prop) (acts : list caction) (c : Core) :
  Inv F 0 c -> Inv F 0 (c_run acts c).
Proof.
  revert c. induction acts as [|a acts IH]; intros c H; [exact H|].
  cbn. apply IH. now apply Inv_step.
Qed.

(** ** From the core back to the program *)

Lemma count_filter {A : Type} (p q : A -> bool) (l : list A) :
  (forall x, p x = true -> q x = true) ->
  count p (filter q l) = count p l.
Proof.
  intros H. unfold count. induction l as [|x l IH]; [reflexivity|].
  cbn [filter]. destruct (q x) eqn:Q; cbn [filter].
  - destruct (p x); cbn [List.length]; now rewrite IH.
  - destruct (p x) eqn:P; [|exact IH]. apply H in P. congruence.
Qed.

Lemma count_zero_In {A : Type} (p : A -> bool) (l : list A) (x : A) :
  count p l = O -> In x l -> p x = false.
Proof.
  intros H I. destruct (p x) eqn:P; [|reflexivity].
  now apply (count_nonzero_In p l x I) in P.
Qed.

Lemma filter_split {A : Type} (p : A -> bool) (l : list A) :
  forall l1 b l2,
    filter p l = l1 ++ b :: l2 ->
    exists l1' l2', l = l1' ++ b :: l2' /\ filter p l2' = l2.
Proof.
  induction l as [|x l IH]; intros l1 b l2 E.
  - destruct l1; discriminate.
  - cbn [filter] in E. destruct (p x).
    + destruct l1 as [|y l1]; cbn in E; injection E as Ex El.
      * exists [], l. rewrite Ex. auto.
      * destruct (IH l1 b l2 El) as [l1' [l2' [E1 E2]]].
        exists (x :: l1'), l2'. split; [now rewrite E1|assumption].
    + destruct (IH l1 b l2 E) as [l1' [l2' [E1 E2]]].
      exists (x :: l1'), l2'. split; [now rewrite E1|assumption].
Qed.

Lemma before_filter (p : effect -> bool) (a b : effect) (tr : list effect) :
  before a b (filter p tr) -> before a b tr.
Proof.
  intros [l1 [l2 [E I]]].
  destruct (filter_split p tr l1 b l2 E) as [l1' [l2' [E1 E2]]].
  exists l1', l2'. split; [assumption|].
  rewrite <- E2 in I. now apply filter_In in I.
Qed.

Lemma closes_erase (s : State) :
  closes (erase s) = count is_session_close (trace s).
Proof.
  unfold closes. cbn [c_trace erase]. apply count_filter.
  now intros [].
Qed.

Lemma In_EmitClose_closes (s : State) :
  In EmitClose (trace s) <-> closes (erase s) <> O.
Proof.
  rewrite closes_erase. split.
  - intros I. now apply (count_nonzero_In _ _ EmitClose I).
  - intros N. apply count_In in N. destruct N as [e [I E]].
    now destruct e.
Qed.

Lemma Inv_new (opts : discovery_opts) (draws : list Q)
    (entropy : list Buffer) :
  Inv (fun _ => False) 0 (erase (Discovery_new opts draws entropy)).
Proof.
  constructor; cbn; try tauto; try discriminate.
  - constructor; cbn; try tauto.
    + constructor.
    + intros [|t] T; discriminate.
  - intros [|t] T; discriminate.
  - intros t. unfold pending_close, emitted_close, topic_destroyed, c_get.
    cbn. now destruct t.
  - intros _. unfold done_on, c_get. cbn. repeat split.
    intros t. now destruct t.
  - intros t. unfold done_on, c_get. cbn. destruct t; cbn; congruence.
Qed.

Lemma Inv_erase_run (F : tid -> Prop) (acts : list action) (s : State) :
  Inv F 0 (erase s) -> Inv F 0 (erase (run acts s)).
Proof. intros H. rewrite erase_run. now apply Inv_run. Qed.

Lemma reachable_Inv (s : State) :
  reachable s -> Inv (fun _ => False) 0 (erase s).
Proof.
  intros [opts [draws [entropy [acts ->]]]].
  apply Inv_erase_run, Inv_new.
Qed.

(** C9: the Domain Index never maps a domain to an empty set, whatever
    the caller and the environment do: after every step of every run,
    each entry of [_domains] holds at least one topic. *)
Theorem domain_index_never_empty (opts : discovery_opts) (draws : list Q)
    (entropy : list Buffer) (acts : list action) (d : string)
    (set : list tid) :
  In (d, set) (d_domains (run acts (Discovery_new opts draws entropy))) ->
  set <> [].
Proof.
  intros I.
  assert (R : reachable (run acts (Discovery_new opts draws entropy)))
    by (now exists opts, draws, entropy, acts).
  apply (ix_nonempty _ (inv_index _ _ _ (reachable_Inv _ R)) d set I).
Qed.

(** ** The session's own flag is never reset *)

Lemma frame_fold {A B : Type} (g : Core -> B) (f : Core -> A -> Core)
    (l : list A) :
  (forall c a, g (f c a) = g c) -> forall c, g (fold_left f l c) = g c.
Proof.
  intros H. induction l as [|a l IH]; intros c; [reflexivity|].
  cbn. now rewrite IH, H.
Qed.

Lemma c_destroyed_Topic_destroy (t : tid) (c : Core) :
  c_destroyed (c_Topic_destroy t c) = c_destroyed c.
Proof.
  unfold c_Topic_destroy. destruct (c_get t c) as [T|]; [|reflexivity].
  destruct (ct_destroyed T); [reflexivity|].
  destruct (Map_get _ _) as [set|]; [|reflexivity].
  destruct (Set_delete set t); destruct (ct_announcing T); reflexivity.
Qed.

Lemma c_destroyed_done (c : Core) : c_destroyed (c_done c) = c_destroyed c.
Proof. unfold c_done. cbn. now destruct (c_missing c - 1 =? 0). Qed.

Lemma c_destroyed_run_listener (t : tid) (e : event) (l : listener)
    (c : Core) :
  c_destroyed (c_run_listener t e l c) = c_destroyed c.
Proof.
  destruct l; cbn [c_run_listener]; try reflexivity.
  - destruct e; try reflexivity. cbn [c_destroyed c_log].
    now rewrite c_destroyed_Topic_destroy.
  - apply c_destroyed_done.
Qed.

Lemma c_destroyed_emit (t : tid) (e : event) (c : Core) :
  c_destroyed (c_emit t e c) = c_destroyed c.
Proof.
  unfold c_emit. destruct (c_get t c) as [T|]; [|reflexivity].
  now rewrite frame_fold by (intros; apply c_destroyed_run_listener).
Qed.

Lemma c_destroyed_topic (d : string) (a : bool) (c : Core) :
  c_destroyed (c_topic d a c) = c_destroyed c.
Proof. now rewrite c_topic_eq. Qed.

Lemma c_destroyed_step (a : caction) (c : Core) :
  c_destroyed c = true -> c_destroyed (c_step a c) = true.
Proof.
  intros D. destruct a; cbn [c_step]; try assumption.
  - now rewrite c_destroyed_topic.
  - cbn [c_destroyed c_upd c_set_topics]. now rewrite c_destroyed_topic.
  - now rewrite c_destroyed_Topic_destroy.
  - unfold c_destroy. now rewrite D.
  - destruct (c_ticks c) as [|f rest]; [assumption|].
    destruct f; cbn [c_run_task];
      [rewrite c_destroyed_emit|rewrite c_destroyed_done|]; assumption.
  - destruct (Set_has (c_unann c) t); [|assumption].
    now rewrite c_destroyed_emit.
  - unfold c_data. destruct (c_get t c) as [T|]; [|assumption].
    destruct (ct_destroyed T); [assumption|].
    now rewrite frame_fold by (intros; apply c_destroyed_emit).
  - now rewrite c_destroyed_emit.
  - unfold c_response. rewrite frame_fold; [assumption|].
    intros c' x. destruct (Map_get _ _); [|reflexivity].
    now rewrite frame_fold by (intros; apply c_destroyed_emit).
  - unfold c_pong. destruct (nth_error (c_pings c) pid) as [P|]; [|assumption].
    destruct (negb _); [assumption|].
    destruct pong; destruct (pg_res P); assumption.
Qed.

Lemma c_destroyed_run (acts : list caction) (c : Core) :
  c_destroyed c = true -> c_destroyed (c_run acts c) = true.
Proof.
  revert c. induction acts as [|a acts IH]; intros c D; [exact D|].
  cbn. apply IH. now apply c_destroyed_step.
Qed.

(** ** Draining the queues *)

Lemma run_app (a b : list action) (s : State) :
  run (a ++ b) s = run b (run a s).
Proof. unfold run. apply fold_left_app. Qed.

Lemma queues_run_close (t : tid) (ls : list listener) :
  forall s,
    ticks (fold_left (fun s l => run_listener t Ev_close l s) ls s) = ticks s /\
    unannounces (fold_left (fun s l => run_listener t Ev_close l s) ls s)
    = unannounces s.
Proof.
  induction ls as [|l ls IH]; intros s; [auto|].
  cbn [fold_left]. destruct (IH (run_listener t Ev_close l s)) as [E1 E2].
  rewrite E1, E2.
  destruct l; cbn [run_listener]; auto.
  unfold destroy_done. cbn. destruct (d_missing s - 1 =? 0); auto.
Qed.

Lemma queues_emit_close (t : tid) (s : State) :
  ticks (Topic_emit t Ev_close s) = ticks s /\
  unannounces (Topic_emit t Ev_close s) = unannounces s.
Proof.
  unfold Topic_emit. destruct (get_topic t s) as [T|]; [|auto].
  apply (queues_run_close t _ (log (Emit t Ev_close) s)).
Qed.

Lemma queues_tick (f : task) (rest : list task) (s : State) :
  ticks s = f :: rest ->
  ticks (step E_tick s) = rest /\
  unannounces (step E_tick s) = unannounces s.
Proof.
  intros E. cbn [step]. rewrite E.
  destruct f; cbn [run_task].
  - apply (queues_emit_close t (set_ticks rest s)).
  - unfold destroy_done. cbn. destruct (d_missing s - 1 =? 0); auto.
  - auto.
Qed.

Lemma run_ticks (n : nat) :
  forall s, List.length (ticks s) = n ->
    ticks (run (repeat E_tick n) s) = [] /\
    unannounces (run (repeat E_tick n) s) = unannounces s.
Proof.
  induction n as [|n IH]; intros s E.
  - cbn. split; [|reflexivity]. now destruct (ticks s).
  - destruct (ticks s) as [|f rest] eqn:Et; [discriminate|].
    destruct (queues_tick f rest s Et) as [E1 E2].
    cbn [repeat]. change (run (E_tick :: repeat E_tick n) s)
      with (run (repeat E_tick n) (step E_tick s)).
    destruct (IH (step E_tick s)) as [E3 E4].
    + rewrite E1. cbn in E. lia.
    + split; [assumption|congruence].
Qed.

Lemma run_unannounced (l : list tid) :
  forall s, unannounces s = l -> ticks s = [] ->
    quiescent (run (map E_unannounced l) s).
Proof.
  induction l as [|t l IH]; intros s E Et; [now split|].
  cbn [map]. change (run (E_unannounced t :: map E_unannounced l) s)
    with (run (map E_unannounced l) (step (E_unannounced t) s)).
  apply IH.
  - cbn [step]. unfold Set_has. rewrite E. cbn [existsb].
    rewrite Nat.eqb_refl. cbn [orb].
    destruct (queues_emit_close t (set_unannounces (Set_delete (t :: l) t) s))
      as [_ E2].
    rewrite E2. cbn. now rewrite Nat.eqb_refl.
  - cbn [step]. unfold Set_has. rewrite E. cbn [existsb].
    rewrite Nat.eqb_refl. cbn [orb].
    destruct (queues_emit_close t (set_unannounces (Set_delete (t :: l) t) s))
      as [E1 _].
    now rewrite E1.
Qed.

(** From every state the queues can be drained. *)
Lemma drain_quiescent (s : State) : quiescent (run (drain s) s).
Proof.
  unfold drain. rewrite run_app.
  destruct (run_ticks (List.length (ticks s)) s eq_refl) as [E1 E2].
  rewrite <- E2. now apply run_unannounced.
Qed.

(** ** The session's ['close'] *)

(** C1 (as the code has it): [destroy()] on a session emits nothing
    itself; from then on the session's ['close'] is emitted at most once,
    and only after the ['close'] of every topic that was live (in the
    index) when [destroy()] was called; it has been emitted exactly once
    as soon as no tick and no [unannounce] is outstanding, which running
    the queues brings about; with no live topic and an empty tick queue
    it is emitted by the first tick after [destroy()]. *)
Theorem session_close_after_live_topics (opts : discovery_opts)
    (draws : list Q) (entropy : list Buffer) (pre post : list action) :
  let s0 := run pre (Discovery_new opts draws entropy) in
  let s1 := Discovery_destroy s0 in
  let s2 := run post s1 in
  d_destroyed s0 = false ->
  ~ In EmitClose (trace s1) /\
  (count is_session_close (trace s2) <= 1)%nat /\
  (In EmitClose (trace s2) ->
   forall t, In t (Map_all (d_domains s0)) ->
             before (Emit t Ev_close) EmitClose (trace s2)) /\
  (quiescent s2 -> count is_session_close (trace s2) = 1%nat) /\
  count is_session_close (trace (run (drain s2) s2)) = 1%nat /\
  (d_domains s0 = [] -> ticks s0 = [] ->
   trace (step E_tick s1) = EmitClose :: DhtDestroy :: trace s1).
Proof.
  intros s0 s1 s2 D.
  assert (R0 : reachable s0) by (now exists opts, draws, entropy, pre).
  pose proof (reachable_Inv s0 R0) as H0.
  destruct (Inv_destroy_live _ (erase s0) D H0) as [H1 [T1 D1]].
  rewrite <- erase_Discovery_destroy in H1, T1, D1. fold s1 in H1, T1, D1.
  set (F := fun x => In x (Map_all (c_domains (erase s0))) \/ False) in H1.
  assert (Hq : forall acts,
            quiescent (run acts s1) ->
            count is_session_close (trace (run acts s1)) = 1%nat).
  { intros acts [Q1 Q2].
    pose proof (Inv_erase_run F acts s1 H1) as H2.
    assert (D2 : c_destroyed (erase (run acts s1)) = true).
    { rewrite erase_run. now apply c_destroyed_run. }
    rewrite <- closes_erase.
    pose proof (inv_missing _ _ _ H2 D2) as M.
    rewrite (inv_closes _ _ _ H2 D2), M.
    unfold owed. cbn [c_ticks c_unann erase]. rewrite Q1, Q2. reflexivity. }
  pose proof (Inv_erase_run F post s1 H1) as H2. fold s2 in H2.
  split; [|split; [|split; [|split; [|split]]]].
  - rewrite In_EmitClose_closes. unfold closes. rewrite T1.
    destruct (inv_idle _ _ _ H0 D) as [_ [_ [C0 _]]]. intros N. now apply N.
  - rewrite <- closes_erase.
    destruct (c_destroyed (erase s2)) eqn:D2.
    + rewrite (inv_closes _ _ _ H2 D2). destruct (_ =? 0); lia.
    + destruct (inv_idle _ _ _ H2 D2) as [_ [_ [C0 _]]]. lia.
  - intros I t Ht. apply In_EmitClose_closes in I.
    apply (before_filter visible). apply (inv_order _ _ _ H2 t I).
    apply (inv_frozen _ _ _ H2). left. exact Ht.
  - apply (Hq post).
  - unfold s2. rewrite <- run_app. apply Hq. rewrite run_app.
    apply drain_quiescent.
  - intros Ed Et. unfold s1, Discovery_destroy. rewrite D.
    unfold Map_all. cbn [d_domains set_destroyed set_missing log].
    rewrite Ed. cbn [map List.concat fold_left process_nextTick].
    cbn [step ticks set_ticks set_destroyed set_missing log].
    rewrite Et. reflexivity.
Qed.

Lemma session_close_after_live_topics_witness :
  let s0 := run [A_lookup sample_key; A_announce sample_key sample_announce]
              sample_session in
  let s1 := Discovery_destroy s0 in
  let s2 := run [E_tick] s1 in
  d_destroyed s0 = false /\
  ~ In EmitClose (trace s1) /\
  (count is_session_close (trace s2) <= 1)%nat /\
  (In EmitClose (trace s2) ->
   forall t, In t (Map_all (d_domains s0)) ->
             before (Emit t Ev_close) EmitClose (trace s2)) /\
  (quiescent s2 -> count is_session_close (trace s2) = 1%nat) /\
  count is_session_close (trace (run (drain s2) s2)) = 1%nat /\
  (d_domains s0 = [] -> ticks s0 = [] ->
   trace (step E_tick s1) = EmitClose :: DhtDestroy :: trace s1).
Proof.
  split; [reflexivity|].
  apply (session_close_after_live_topics (mk_dopts (Some "test.local") None)
           [] []
           [A_lookup sample_key; A_announce sample_key sample_announce]
           [E_tick]).
  reflexivity.
Defined.

(** C1 (as stated) fails for a topic that was destroyed before the
    session: the session does not wait for its [unannounce].  Topic 0 is
    announced and destroyed, then the session is destroyed and one tick
    runs: the session has emitted ['close'], topic 0 has not; its
    ['close'] follows when [unannounce] calls back. *)
Lemma session_close_before_earlier_topic :
  let s := run [A_announce sample_key sample_announce; A_topic_destroy 0%nat;
                A_destroy; E_tick] sample_session in
  (exists T, get_topic 0%nat s = Some T) /\
  In EmitClose (trace s) /\
  ~ In (Emit 0%nat Ev_close) (trace s) /\
  filter visible (history (step (E_unannounced 0%nat) s))
  = [EmitClose; Emit 0%nat Ev_close].
Proof.
  cbv zeta. split; [|split; [|split]].
  - vm_compute. eauto.
  - vm_compute. tauto.
  - vm_compute. intuition discriminate.
  - vm_compute. reflexivity.
Qed.

Lemma domain_index_never_empty_witness :
  In ("010203.test.local", [0%nat])
    (d_domains (run [A_lookup sample_key] sample_session)) /\
  [0%nat] <> [].
Proof.
  split; [left; reflexivity|].
  apply (domain_index_never_empty (mk_dopts (Some "test.local") None) [] []
           [A_lookup sample_key] "010203.test.local" [0%nat]).
  left. reflexivity.
Defined.

(** ** The domain of a key *)

(** C2: in every state of a session the domain of a key is the hex
    encoding of the key's first 20 bytes, followed by "." and the suffix
    the session was created with ([opts.domain], or "hyperswarm.local"
    when that is absent or empty); hence two keys that agree on their
    first 20 bytes have the same domain. *)
Theorem domain_of_key_prefix (opts : discovery_opts) (draws : list Q)
    (entropy : list Buffer) (acts : list action) :
  let s := run acts (Discovery_new opts draws entropy) in
  (forall key,
     Discovery__domain s key
     = String.append (toString_hex (firstn 20 key))
         (String.append "."
            (js_or_string (opt_domain opts) "hyperswarm.local"))) /\
  (forall key1 key2,
     firstn 20 key1 = firstn 20 key2 ->
     Discovery__domain s key1 = Discovery__domain s key2).
Proof.
  intros s.
  assert (E : d_tld s
              = String.append "."
                  (js_or_string (opt_domain opts) "hyperswarm.local")).
  { pose proof (consts_run acts (Discovery_new opts draws entropy)) as C.
    unfold consts in C. now inversion C. }
  split.
  - intros key. unfold Discovery__domain, slice0. now rewrite E.
  - intros key1 key2 H. unfold Discovery__domain, slice0. now rewrite H.
Qed.

Lemma domain_of_key_prefix_witness :
  let k1 := (repeat "007" 20 ++ ["001"])%byte in
  let k2 := (repeat "007" 20 ++ ["002"; "003"])%byte in
  firstn 20 k1 = firstn 20 k2 /\
  Discovery__domain (run [A_lookup k1] sample_session) k1
  = Discovery__domain (run [A_lookup k1] sample_session) k2.
Proof.
  split; [reflexivity|].
  apply (proj2 (domain_of_key_prefix (mk_dopts (Some "test.local") None)
                  [] [] [A_lookup (repeat "007" 20 ++ ["001"])%byte])).
  reflexivity.
Defined.

(** ** [holepunch] *)

(** C5 on the code: with a referrer the call is handed to [dht.holepunch]
    with that referrer; without one the external operation is not
    invoked, but neither is the callback, now or later: [process.nextTick]
    is given the [Error] instead of [cb] and throws a [TypeError] at the
    caller, and nothing is queued. *)
Theorem holepunch_without_referrer_throws (s : State) (port : Z)
    (host : string) (local : bool) (cb : nat) :
  (forall referrer,
     step (A_holepunch (mk_peer port host local (Some referrer)) cb) s
     = log (DhtHolepunch (mk_peer port host local (Some referrer)) referrer cb)
         s) /\
  step (A_holepunch (mk_peer port host local None) cb) s
  = log (Throw "TypeError: the callback argument must be of type function") s /\
  ticks (step (A_holepunch (mk_peer port host local None) cb) s) = ticks s.
Proof. repeat split. Qed.

(** ** Events after [destroy] *)

(** C8 on the code: [lookupOne]'s own listener destroys the topic on the
    first peer of a batch, and [_ondhtdata], which tested [destroyed]
    only once, goes on to emit the second peer of the batch on the
    destroyed topic. *)
Theorem peer_emitted_after_destroy :
  let s1 := run [A_lookupOne sample_key 7%nat] sample_session in
  let s2 := step (E_data 0%nat sample_data) s1 in
  option_map t_destroyed (get_topic 0%nat s1) = Some false /\
  option_map t_destroyed (get_topic 0%nat s2) = Some true /\
  firstn 4 (trace s2)
  = [Emit 0%nat (Ev_peer sample_peer_b);
     Call 7%nat (Peer sample_peer_a);
     StreamDestroy 0%nat;
     Emit 0%nat (Ev_peer sample_peer_a)] /\
  timers s2 = [].
Proof. cbv zeta. repeat split. Qed.

(** ** The fields of a topic that never change *)

Lemma statics_upd (t : tid) (f : Topic -> Topic) (s : State) :
  (forall T, T_static (f T) = T_static T) ->
  statics (upd_topic t f s) = statics s.
Proof. intros H. unfold statics, upd_topic. cbn. now apply map_list_update_id. Qed.

Lemma statics_fold {A : Type} (f : State -> A -> State) (l : list A) :
  (forall s a, statics (f s a) = statics s) ->
  forall s, statics (fold_left f l s) = statics s.
Proof.
  intros H. induction l as [|a l IH]; intros s; cbn; [reflexivity|].
  now rewrite IH, H.
Qed.

Lemma statics_clearTimeout (h : option nat) (s : State) :
  statics (clearTimeout h s) = statics s.
Proof. now destruct h. Qed.

Lemma statics_notify (fn : timer_fn) (eager : bool) (s : State) :
  statics (snd (Discovery__notify fn eager s)) = statics s.
Proof. unfold Discovery__notify, Math_random. now destruct (draws s). Qed.

Lemma statics_nextTick (f : js_callback) (s : State) :
  statics (process_nextTick f s) = statics s.
Proof. now destruct f. Qed.

Lemma statics_stopDht (t : tid) (s : State) :
  statics (Topic__stopDht t s) = statics s.
Proof.
  unfold Topic__stopDht. destruct (get_topic t s) as [T|]; [|reflexivity].
  assert (E : statics (upd_topic t (T_set_timeoutDht None)
                         (clearTimeout (t_timeoutDht T) s)) = statics s).
  { rewrite statics_upd by reflexivity. apply statics_clearTimeout. }
  destruct (t_stream T); exact E.
Qed.

Lemma statics_mdns_loop (t : tid) (s : State) :
  statics (mdns_loop t s) = statics s.
Proof.
  unfold mdns_loop. destruct (get_topic t s) as [T|]; [|reflexivity].
  destruct (Discovery__notify _ _ _) as [h s'] eqn:E.
  rewrite statics_upd by reflexivity.
  change s' with (snd (h, s')). now rewrite <- E, statics_notify.
Qed.

Lemma statics_dht_loop (t : tid) (s : State) :
  statics (dht_loop t s) = statics s.
Proof.
  unfold dht_loop. destruct (get_topic t s) as [T|]; [|reflexivity].
  rewrite !statics_upd by reflexivity. now destruct (t_announce T).
Qed.

Lemma statics_Topic_destroy (t : tid) (s : State) :
  statics (Topic_destroy t s) = statics s.
Proof.
  unfold Topic_destroy. destruct (get_topic t s) as [T|]; [|reflexivity].
  destruct (t_destroyed T); [reflexivity|].
  set (s1 := clearTimeout _ _).
  assert (E1 : statics s1 = statics s).
  { unfold s1. rewrite statics_clearTimeout, statics_stopDht.
    now apply statics_upd. }
  destruct (Map_get (d_domains s1) (t_domain T)) as [set|]; [|exact E1].
  destruct (Set_delete set t); destruct (t_announce T); exact E1.
Qed.

Lemma statics_destroy_done (s : State) : statics (destroy_done s) = statics s.
Proof.
  unfold destroy_done. cbn. destruct (d_missing s - 1 =? 0); reflexivity.
Qed.

Lemma statics_T_on (n : event_name) (l : listener) (T : Topic) :
  T_static (T_on n l T) = T_static T.
Proof. now destruct n. Qed.

Lemma statics_T_removeListener (n : event_name) (l : listener) (T : Topic) :
  T_static (T_removeListener n l T) = T_static T.
Proof. now destruct n. Qed.

Lemma statics_run_listener (t : tid) (e : event) (l : listener) (s : State) :
  statics (run_listener t e l s) = statics s.
Proof.
  destruct l as [n|cb|cb|]; cbn [run_listener]; try reflexivity.
  - destruct e; try reflexivity.
    change (statics (log ?e ?x)) with (statics x).
    rewrite statics_Topic_destroy.
    now rewrite !statics_upd by (intros; apply statics_T_removeListener).
  - apply statics_destroy_done.
Qed.

Lemma statics_emit (t : tid) (e : event) (s : State) :
  statics (Topic_emit t e s) = statics s.
Proof.
  unfold Topic_emit. destruct (get_topic t s) as [T|]; [|reflexivity].
  now rewrite statics_fold by (intros; apply statics_run_listener).
Qed.

Lemma statics_Topic_new (key : Buffer) (opts : topic_opts) (s : State) :
  exists id,
    statics (snd (Topic_new key opts s))
    = statics s ++
      [(key, to_announce opts, id, Discovery__domain s key,
        if js_or0 (to_localPort opts) =? 0 then None
        else Some (SRV (Discovery__domain s key) "0.0.0.0"
                     (js_or0 (to_localPort opts))))].
Proof.
  unfold Topic_new. destruct (crypto_randomBytes 32 s) as [rnd s1] eqn:E.
  assert (E1 : heap s1 = heap s).
  { unfold crypto_randomBytes in E. destruct (entropy s); now inversion E. }
  assert (E2 : d_tld s1 = d_tld s).
  { unfold crypto_randomBytes in E. destruct (entropy s); now inversion E. }
  exists (id_prefix ++ rnd).
  unfold Topic__startMdns, Topic__startDht, Discovery__domain.
  destruct (to_announce opts); [destruct (to_lookup opts)|]; cbn [snd];
    rewrite ?statics_mdns_loop, statics_dht_loop; unfold statics;
    cbn [heap set_heap]; rewrite map_app, E1, E2; reflexivity.
Qed.

Lemma statics_topic (key : Buffer) (opts : topic_opts) (s : State) :
  exists id,
    statics (snd (Discovery__topic key opts s))
    = statics s ++
      [(key, to_announce opts, id, Discovery__domain s key,
        if js_or0 (to_localPort opts) =? 0 then None
        else Some (SRV (Discovery__domain s key) "0.0.0.0"
                     (js_or0 (to_localPort opts))))].
Proof.
  unfold Discovery__topic.
  destruct (statics_Topic_new key opts s) as [id E]. exists id.
  destruct (Topic_new key opts s) as [t s1]. cbn [snd] in *.
  destruct (Map_has _ _); destruct (Map_get _ _); exact E.
Qed.

(** Each step leaves the fixed fields of the topics alone, and a topic
    it creates holds an answer record only if it announces. *)
Lemma statics_step (a : action) (s : State) :
  exists l, statics (step a s) = statics s ++ l /\ Forall answer_announced l.
Proof.
  assert (Same : forall s', statics s' = statics s ->
            exists l, statics s' = statics s ++ l /\ Forall answer_announced l).
  { intros s' E. exists []. rewrite app_nil_r. auto. }
  destruct a; cbn [step].
  - unfold Discovery_announce. destruct (d_destroyed s); [now apply Same|].
    match goal with
    | |- context [Discovery__topic ?k ?o s] =>
        destruct (statics_topic k o s) as [id E];
        destruct (Discovery__topic k o s) as [t s1]
    end.
    cbn [snd] in *. eexists. split; [exact E|].
    constructor; [|constructor]. cbn. discriminate.
  - unfold Discovery_lookup. destruct (d_destroyed s); [now apply Same|].
    destruct (statics_topic key no_opts s) as [id E].
    destruct (Discovery__topic key no_opts s) as [t s1].
    cbn [snd] in *. eexists. split; [exact E|].
    constructor; [|constructor]. cbn. tauto.
  - unfold Discovery_lookupOne, Discovery_lookup.
    destruct (d_destroyed s); [now apply Same|].
    destruct (statics_topic key no_opts s) as [id E].
    destruct (Discovery__topic key no_opts s) as [t s1].
    cbn [snd] in *. eexists. split.
    + rewrite !statics_upd by (intros; apply statics_T_on). exact E.
    + constructor; [|constructor]. cbn. tauto.
  - apply Same. unfold Discovery_ping. destruct (d_bootstrap s) eqn:E;
      [reflexivity|]. rewrite <- E. now rewrite statics_fold by reflexivity.
  - apply Same. unfold Discovery_holepunch. now destruct (p_referrer p).
  - apply Same. unfold Discovery_destroy.
    destruct (d_destroyed s); [reflexivity|]. rewrite statics_nextTick.
    rewrite statics_fold; [reflexivity|]. intros s' x. cbn beta zeta.
    rewrite statics_upd by (intros; apply statics_T_on).
    now rewrite statics_Topic_destroy.
  - apply Same. unfold Topic_update.
    destruct (get_topic t s) as [T|]; [|reflexivity].
    destruct (t_destroyed T); [reflexivity|].
    unfold Topic__startMdns, Topic__startDht.
    rewrite statics_mdns_loop, statics_clearTimeout.
    destruct (t_timeoutDht T); [|reflexivity].
    rewrite statics_dht_loop, statics_upd by reflexivity.
    apply statics_clearTimeout.
  - apply Same. apply statics_Topic_destroy.
  - apply Same. apply statics_upd. intros. apply statics_T_on.
  - apply Same. destruct (ticks s) as [|f rest]; [reflexivity|].
    destruct f; cbn [run_task];
      [rewrite statics_emit|rewrite statics_destroy_done|]; reflexivity.
  - apply Same. destruct (find_timer (timers s) h) as [fn|]; [|reflexivity].
    destruct fn; cbn [run_timer];
      [rewrite statics_mdns_loop|rewrite statics_dht_loop];
      apply statics_clearTimeout.
  - apply Same. destruct (nth_error (loops s) sid) as [L|]; [|reflexivity].
    unfold Topic__ondhtdata. destruct (get_topic _ s) as [T|]; [|reflexivity].
    destruct (t_destroyed T); [reflexivity|].
    now rewrite !statics_fold by (intros; apply statics_emit).
  - apply Same. unfold dht_done.
    destruct (nth_error (loops s) sid) as [L|]; [|reflexivity].
    destruct (get_topic _ s) as [T|]; [|reflexivity].
    destruct (lp_called L || t_destroyed T); [reflexivity|].
    destruct (Discovery__notify _ _ _) as [h s'] eqn:E.
    rewrite statics_upd by reflexivity.
    change s' with (snd (h, s')). rewrite <- E, statics_notify, statics_emit.
    change (statics (set_loops ?v ?x)) with (statics x).
    now rewrite statics_upd.
  - apply Same. unfold dht_done.
    destruct (nth_error (loops s) sid) as [L|]; [|reflexivity].
    destruct (get_topic _ s) as [T|]; [|reflexivity].
    destruct (lp_called L || t_destroyed T); [reflexivity|].
    destruct (Discovery__notify _ _ _) as [h s'] eqn:E.
    rewrite statics_upd by reflexivity.
    change s' with (snd (h, s')). rewrite <- E, statics_notify, statics_emit.
    change (statics (set_loops ?v ?x)) with (statics x).
    now rewrite statics_upd.
  - apply Same. destruct (Set_has (unannounces s) t); [|reflexivity].
    now rewrite statics_emit.
  - apply Same. unfold ping_callback.
    destruct (nth_error (pings s) pid) as [P|]; [|reflexivity].
    destruct (negb _); [reflexivity|].
    destruct pong; destruct (pg_res P); reflexivity.
  - now apply Same.
  - apply Same. unfold Discovery__onmdnsresponse. apply statics_fold.
    intros s' a. destruct a; try reflexivity.
    destruct (Map_get _ _); [|reflexivity].
    now apply statics_fold; intros; apply statics_emit.
Qed.

Lemma statics_reachable (s : State) :
  reachable s -> Forall answer_announced (statics s).
Proof.
  intros [opts [draws [entropy [acts ->]]]].
  assert (G : forall s0, Forall answer_announced (statics s0) ->
            Forall answer_announced (statics (run acts s0))).
  { induction acts as [|a acts IH]; intros s0 H; [exact H|].
    change (run (a :: acts) s0) with (run acts (step a s0)). apply IH.
    destruct (statics_step a s0) as [l [E Hl]]. rewrite E.
    apply Forall_app. now split. }
  apply G. constructor.
Qed.

(** In a reachable state a topic that holds an answer record has an
    announce descriptor. *)
Lemma answer_needs_announce (s : State) (t : tid) (T : Topic) :
  reachable s -> get_topic t s = Some T ->
  t_answer T <> None -> t_announce T <> None.
Proof.
  intros R E. pose proof (statics_reachable s R) as H.
  rewrite Forall_forall in H. specialize (H (T_static T)).
  apply H. unfold statics. apply in_map. now apply (nth_error_In _ t).
Qed.

(** ** The response to a multicast query *)

Lemma byte_eqb_eq (a b : byte) : byte_eqb a b = true <-> a = b.
Proof.
  unfold byte_eqb. rewrite N.eqb_eq. split; [|now intros ->].
  intros H. pose proof (Byte.of_to_N a) as Ha.
  rewrite H, Byte.of_to_N in Ha. now inversion Ha.
Qed.

Lemma Buffer_equals_eq (a b : Buffer) : Buffer_equals a b = true <-> a = b.
Proof.
  revert b. induction a as [|x a IH]; intros [|y b]; cbn;
    try (split; [discriminate|discriminate]); try tauto.
  rewrite andb_true_iff, byte_eqb_eq, IH. split.
  - now intros [-> ->].
  - intros E. now inversion E.
Qed.

Lemma fold_answer_for (s : State) (id : option Buffer) (set : list tid) :
  forall r,
    fold_left (answer_for s id) set r = r ++ flat_map (contribution s id) set.
Proof.
  induction set as [|t set IH]; intros r; cbn [fold_left flat_map].
  - now rewrite app_nil_r.
  - rewrite IH. unfold answer_for, contribution.
    destruct (get_topic t s) as [T|]; [|reflexivity].
    destruct (is_self id T); [reflexivity|].
    destruct (t_answer T); cbn [option_list]; [|reflexivity].
    now rewrite <- app_assoc.
Qed.

Lemma fold_answers_for (s : State) (res : message) (qs : list question) :
  forall r,
    fold_left (answers_for s res) qs r
    = r ++ flat_map (question_answers s res) qs.
Proof.
  induction qs as [|q qs IH]; intros r; cbn [fold_left flat_map].
  - now rewrite app_nil_r.
  - rewrite IH. unfold answers_for, question_answers.
    destruct (String.eqb (q_type q) "SRV"); [|reflexivity].
    destruct (Map_get _ _) as [set|]; [|reflexivity].
    now rewrite fold_answer_for, <- app_assoc.
Qed.

Lemma answers_complete (s : State) (res : message) (q : question)
    (set : list tid) (t : tid) (T : Topic) (a : record) :
  In q (questions res) -> q_type q = "SRV" ->
  Map_get (d_domains s) (q_name q) = Some set -> In t set ->
  get_topic t s = Some T -> t_answer T = Some a ->
  (forall id, Discovery__getId (answers res) (q_name q) = Some id ->
              t_id T <> id) ->
  In a (flat_map (question_answers s res) (questions res)).
Proof.
  intros Hq Hty Hm Ht HT Ha Hid.
  apply in_flat_map. exists q. split; [assumption|].
  unfold question_answers. rewrite Hty, Hm.
  change (String.eqb "SRV" "SRV") with true. cbv iota.
  apply in_flat_map. exists t. split; [assumption|].
  unfold contribution. rewrite HT.
  destruct (is_self _ T) eqn:S.
  - exfalso. unfold is_self in S.
    destruct (Discovery__getId _ _) as [id|] eqn:G; [|discriminate].
    apply Buffer_equals_eq in S. now apply (Hid id).
  - rewrite Ha. now left.
Qed.

Lemma onmdnsquery_eq (s : State) (res : message) :
  step (E_query res) s
  = log (MdnsResponse
           (mk_msg [] (flat_map (question_answers s res) (questions res)))) s.
Proof.
  cbn [step]. unfold Discovery__onmdnsquery. now rewrite fold_answers_for.
Qed.

(** the token is read off the first TXT record of the name that has data *)
Lemma getId_first (pre post : list record) (name : string) (id : Buffer)
    (more : list Buffer) :
  (forall d ds, ~ In (TXT name (d :: ds)) pre) ->
  Discovery__getId (pre ++ TXT name (id :: more) :: post) name = Some id.
Proof.
  induction pre as [|a pre IH]; intros N; cbn [app Discovery__getId].
  - now rewrite String.eqb_refl.
  - assert (N' : forall d ds, ~ In (TXT name (d :: ds)) pre).
    { intros d ds I. apply (N d ds). now right. }
    destruct a as [n tg p|n [|d ds]|ty n]; try (now apply IH).
    destruct (String.eqb_spec n name) as [->|_]; [|now apply IH].
    exfalso. apply (N d ds). now left.
Qed.

Lemma getId_none (ans : list record) (name : string) :
  (forall d ds, ~ In (TXT name (d :: ds)) ans) ->
  Discovery__getId ans name = None.
Proof.
  induction ans as [|a ans IH]; intros N; cbn [Discovery__getId];
    [reflexivity|].
  assert (N' : forall d ds, ~ In (TXT name (d :: ds)) ans).
  { intros d ds I. apply (N d ds). now right. }
  destruct a as [n tg p|n [|d ds]|ty n]; try (now apply IH).
  destruct (String.eqb_spec n name) as [->|_]; [|now apply IH].
  exfalso. apply (N d ds). now left.
Qed.

Lemma contributions_except (s : State) (id : Buffer) (set : list tid) :
  flat_map (contribution s (Some id)) set
  = answer_records s
      (filter
         (fun t =>
            match get_topic t s with
            | Some T => negb (Buffer_equals (t_id T) id)
            | None => false
            end)
         set).
Proof.
  unfold answer_records.
  induction set as [|t set IH]; [reflexivity|].
  cbn [flat_map filter]. rewrite IH. unfold contribution at 1.
  destruct (get_topic t s) as [T|] eqn:G; [|reflexivity].
  cbn [is_self]. destruct (Buffer_equals (t_id T) id); cbn [negb];
    [reflexivity|].
  cbn [flat_map]. now rewrite G.
Qed.

Lemma contributions_all (s : State) (set : list tid) :
  flat_map (contribution s None) set = answer_records s set.
Proof. reflexivity. Qed.

(** C3: an inbound query is answered by exactly one response, and
    nothing else happens.  Its answers are, question by question, what
    the questions add.  A question that is not of type SRV, or that
    names no indexed domain, adds nothing.  An SRV question of a query
    that carries a token for its name (the first datum of the first TXT
    record of that name that has data) adds the answer records of the
    topics of the queried domain, in the order of the set, leaving out
    exactly the topics whose own token is that token: a topic never
    answers its own query, and every other topic that has an answer
    record does.  Without a token every topic of the domain that has a
    record answers.  The code tests the record, not the announce
    descriptor: in a state of a session a topic that has a record has
    its announce descriptor set. *)
Theorem query_answered_without_self (s : State) (res : message) :
  let r := flat_map (question_answers s res) (questions res) in
  step (E_query res) s = log (MdnsResponse (mk_msg [] r)) s /\
  (forall q, q_type q <> "SRV" -> question_answers s res q = []) /\
  (forall q,
     Map_get (d_domains s) (q_name q) = None ->
     question_answers s res q = []) /\
  (forall q set pre id more post,
     q_type q = "SRV" -> Map_get (d_domains s) (q_name q) = Some set ->
     answers res = pre ++ TXT (q_name q) (id :: more) :: post ->
     (forall d ds, ~ In (TXT (q_name q) (d :: ds)) pre) ->
     exists keep : tid -> bool,
       (forall t,
          keep t = true <->
          exists T, get_topic t s = Some T /\ t_id T <> id) /\
       question_answers s res q = answer_records s (filter keep set)) /\
  (forall q set,
     q_type q = "SRV" -> Map_get (d_domains s) (q_name q) = Some set ->
     (forall d ds, ~ In (TXT (q_name q) (d :: ds)) (answers res)) ->
     question_answers s res q = answer_records s set) /\
  (reachable s ->
   forall t T,
     get_topic t s = Some T -> t_answer T <> None -> t_announce T <> None).
Proof.
  intros r. split; [apply onmdnsquery_eq|].
  split; [|split; [|split; [|split]]].
  - intros q N. unfold question_answers.
    destruct (String.eqb_spec (q_type q) "SRV"); [contradiction|reflexivity].
  - intros q M. unfold question_answers. rewrite M.
    now destruct (String.eqb (q_type q) "SRV").
  - intros q set pre id more post Hty Hm Ha Hn.
    exists (fun t =>
              match get_topic t s with
              | Some T => negb (Buffer_equals (t_id T) id)
              | None => false
              end).
    split.
    + intros t. destruct (get_topic t s) as [T|].
      * rewrite negb_true_iff. split.
        -- intros E. exists T. split; [reflexivity|]. intros X.
           apply Buffer_equals_eq in X. congruence.
        -- intros [T' [G N]]. injection G as <-.
           destruct (Buffer_equals (t_id T) id) eqn:E; [|reflexivity].
           apply Buffer_equals_eq in E. contradiction.
      * split; [discriminate|]. intros [T [G _]]. discriminate.
    + unfold question_answers. rewrite Hty, Hm, Ha.
      change (String.eqb "SRV" "SRV") with true. cbv iota.
      rewrite (getId_first pre post (q_name q) id more Hn).
      apply contributions_except.
  - intros q set Hty Hm Hn. unfold question_answers. rewrite Hty, Hm.
    change (String.eqb "SRV" "SRV") with true. cbv iota.
    now rewrite (getId_none _ _ Hn).
  - intros R t T G N. exact (answer_needs_announce s t T R G N).
Qed.

Lemma query_answered_without_self_witness :
  let s := run [A_announce sample_key sample_announce] sample_session in
  let name := "010203.test.local" in
  let other := ["i"; "d"; "="; "001"]%byte in
  let res := mk_msg [mk_q "SRV" name] [TXT name [other]] in
  question_answers s res (mk_q "SRV" name) = [SRV name "0.0.0.0" 4000].
Proof.
  cbv zeta.
  destruct (proj1 (proj2 (proj2 (proj2
              (query_answered_without_self
                 (run [A_announce sample_key sample_announce] sample_session)
                 (mk_msg [mk_q "SRV" "010203.test.local"]
                    [TXT "010203.test.local" [["i"; "d"; "="; "001"]%byte]])))))
              (mk_q "SRV" "010203.test.local") [0%nat] []
              ["i"; "d"; "="; "001"]%byte [] [] eq_refl)
    as [keep [K E]].
  - vm_compute. reflexivity.
  - reflexivity.
  - intros d ds [].
  - rewrite E.
    assert (K0 : keep 0%nat = true).
    { apply K. vm_compute. eexists. split; [reflexivity|discriminate]. }
    cbn [filter]. rewrite K0. vm_compute. reflexivity.
Defined.

(** the same query sent by the topic itself gets no answer from it *)
Example own_query_not_answered :
  let s := run [A_announce sample_key sample_announce] sample_session in
  let name := "010203.test.local" in
  let res :=
    mk_msg [mk_q "SRV" name] [TXT name [id_prefix ++ repeat "000"%byte 32]] in
  firstn 1 (trace (step (E_query res) s)) = [MdnsResponse (mk_msg [] [])].
Proof. reflexivity. Qed.

(** ** The local port of an announcing topic *)

Lemma index_after_topic (key : Buffer) (opts : topic_opts) (s : State) :
  exists set,
    Map_get (d_domains (snd (Discovery__topic key opts s)))
      (Discovery__domain s key) = Some set /\
    In (List.length (heap s)) set.
Proof.
  unfold Discovery__topic.
  pose proof (consts_Topic_new key opts s) as C.
  pose proof (Topic_new_fst key opts s) as F.
  destruct (Topic_new key opts s) as [t s1]. cbn [fst snd] in *. subst t.
  rewrite (domain_consts _ _ key C).
  set (d := Discovery__domain s key).
  set (s2 := if Map_has (d_domains s1) d then s1 else _).
  assert (G : exists set0, Map_get (d_domains s2) d = Some set0).
  { unfold s2, Map_has. destruct (Map_get (d_domains s1) d) eqn:E; [eauto|].
    cbn [d_domains set_domains]. rewrite Map_get_set_eq. eauto. }
  destruct G as [set0 G]. rewrite G. cbn [snd d_domains set_domains].
  rewrite Map_get_set_eq. eexists. split; [reflexivity|].
  unfold Set_add. destruct (Set_has set0 _) eqn:S.
  - now apply Set_has_In.
  - apply in_app_iff. right. now left.
Qed.

Lemma new_topic_static (key : Buffer) (opts : topic_opts) (s : State) :
  exists T,
    get_topic (List.length (heap s)) (snd (Discovery__topic key opts s))
    = Some T /\
    t_key T = key /\ t_announce T = to_announce opts /\
    t_answer T
    = if js_or0 (to_localPort opts) =? 0 then None
      else Some (SRV (Discovery__domain s key) "0.0.0.0"
                   (js_or0 (to_localPort opts))).
Proof.
  destruct (statics_topic key opts s) as [id E].
  assert (N : nth_error (statics (snd (Discovery__topic key opts s)))
                (List.length (heap s)) = Some (key, to_announce opts, id,
                  Discovery__domain s key,
                  if js_or0 (to_localPort opts) =? 0 then None
                  else Some (SRV (Discovery__domain s key) "0.0.0.0"
                               (js_or0 (to_localPort opts))))).
  { rewrite E, nth_error_app2 by (unfold statics; rewrite length_map; lia).
    unfold statics. rewrite length_map, Nat.sub_diag. reflexivity. }
  unfold statics in N. rewrite nth_error_map in N. unfold get_topic.
  destruct (nth_error _ _) as [T|]; [|discriminate].
  exists T. unfold T_static in N. injection N; intros.
  repeat split; assumption.
Qed.

Lemma js_or0_zero (a : option Z) : js_or0 a = 0 <-> truthy a = false.
Proof.
  destruct a as [n|]; cbn; [|tauto].
  destruct (n =? 0) eqn:E; cbn; split; intros; try reflexivity;
    try discriminate.
  apply Z.eqb_neq in E. congruence.
Qed.

Lemma js_or0_Some (p : Z) : p <> 0 -> js_or0 (Some p) = p.
Proof. intros H. cbn. apply Z.eqb_neq in H. now rewrite H. Qed.

Lemma truthy_js_or (a b : option Z) :
  truthy (js_or a b) = truthy a || truthy b.
Proof. unfold js_or. now destruct (truthy a) eqn:E; cbn; rewrite ?E. Qed.

(** C10: on a session that is not destroyed, [announce(key, opts)]
    creates a topic whose answer record is the SRV record of its domain
    with target "0.0.0.0" and port [opts.localPort || opts.port], and
    none when both are absent or zero.  So with [localPort] absent or
    zero and [port] nonzero the record carries [opts.port], and it is
    what a query for the domain is answered with. *)
Theorem announce_local_port_defaults_to_port (s : State) (key : Buffer)
    (opts : announce_opts) :
  d_destroyed s = false ->
  let t := List.length (heap s) in
  let s' := step (A_announce key opts) s in
  let name := Discovery__domain s key in
  fst (Discovery_announce key opts s) = Some t /\
  exists T,
    get_topic t s' = Some T /\ t_key T = key /\
    t_announce T = Some (mk_ann (js_or0 (o_port opts)) (o_localAddress opts)) /\
    (truthy (o_localPort opts) = false ->
     forall p, o_port opts = Some p -> p <> 0 ->
       t_answer T = Some (SRV name "0.0.0.0" p) /\
       step (E_query (mk_msg [mk_q "SRV" name] [])) s'
       = log (MdnsResponse
                (mk_msg []
                   (flat_map
                      (question_answers s' (mk_msg [mk_q "SRV" name] []))
                      [mk_q "SRV" name]))) s' /\
       In (SRV name "0.0.0.0" p)
         (flat_map (question_answers s' (mk_msg [mk_q "SRV" name] []))
            [mk_q "SRV" name])) /\
    (forall p, o_localPort opts = Some p -> p <> 0 ->
       t_answer T = Some (SRV name "0.0.0.0" p)) /\
    (t_answer T = None <->
     truthy (o_localPort opts) = false /\ truthy (o_port opts) = false).
Proof.
  intros D t s' name.
  set (port := js_or0 (js_or (o_localPort opts) (o_port opts))).
  set (topts := mk_topts (Some port) (o_lookup opts)
         (Some (mk_ann (js_or0 (o_port opts)) (o_localAddress opts)))).
  assert (Es : s' = snd (Discovery__topic key topts s)).
  { unfold s'. cbn [step]. unfold Discovery_announce. rewrite D.
    fold port topts. now destruct (Discovery__topic key topts s). }
  split.
  { unfold Discovery_announce. rewrite D. fold port topts.
    pose proof (Discovery__topic_fst key topts s) as F.
    destruct (Discovery__topic key topts s). cbn [fst] in *. now rewrite F. }
  destruct (new_topic_static key topts s) as [T [G [K [A N]]]].
  destruct (index_after_topic key topts s) as [set [M I]].
  rewrite <- Es in G, M. fold t in G, I. fold name in M, N.
  cbn [to_localPort to_announce topts] in N, A.
  assert (N' : t_answer T
               = if port =? 0 then None else Some (SRV name "0.0.0.0" port)).
  { rewrite N. cbn [js_or0]. now destruct (port =? 0) eqn:E; rewrite ?E. }
  clear N.
  assert (P0 : port = 0
               <-> truthy (o_localPort opts) = false
                   /\ truthy (o_port opts) = false).
  { unfold port. rewrite js_or0_zero, truthy_js_or. apply orb_false_iff. }
  assert (R : forall p, p <> 0 -> port = p ->
                t_answer T = Some (SRV name "0.0.0.0" p)).
  { intros p Hp E. rewrite N', E. apply Z.eqb_neq in Hp. now rewrite Hp. }
  exists T. split; [exact G|]. split; [exact K|]. split; [exact A|].
  split; [|split].
  - intros L p Hp Hn.
    assert (E : port = p).
    { unfold port, js_or. rewrite L, Hp. now apply js_or0_Some. }
    split; [now apply R|]. split; [apply onmdnsquery_eq|].
    apply (answers_complete s' (mk_msg [mk_q "SRV" name] [])
             (mk_q "SRV" name) set t T).
    + now left.
    + reflexivity.
    + exact M.
    + exact I.
    + exact G.
    + now apply R.
    + intros id. cbn. discriminate.
  - intros p Hp Hn. apply R; [assumption|].
    unfold port, js_or. rewrite Hp. cbn [truthy].
    apply Z.eqb_neq in Hn. rewrite Hn. cbn [negb].
    apply js_or0_Some. now apply Z.eqb_neq.
  - rewrite <- P0, N'. destruct (port =? 0) eqn:E.
    + apply Z.eqb_eq in E. tauto.
    + apply Z.eqb_neq in E. split; [discriminate|contradiction].
Qed.

Lemma announce_local_port_defaults_to_port_witness :
  let s := sample_session in
  let s' := step (A_announce sample_key sample_announce) s in
  fst (Discovery_announce sample_key sample_announce s) = Some 0%nat /\
  exists T, get_topic 0%nat s' = Some T /\
    t_answer T = Some (SRV "010203.test.local" "0.0.0.0" 4000).
Proof.
  cbv zeta.
  destruct (announce_local_port_defaults_to_port sample_session sample_key
              sample_announce eq_refl) as [F [T [G [_ [_ [P _]]]]]].
  split; [exact F|]. exists T. split; [exact G|].
  exact (proj1 (P eq_refl 4000 eq_refl ltac:(discriminate))).
Defined.

(** with neither port given the topic has no record, and a query for its
    domain is answered with an empty list *)
Example announce_without_ports :
  let o := mk_aopts None (Some 0) None false in
  let s := run [A_announce sample_key o] sample_session in
  option_map t_answer (get_topic 0%nat s) = Some None /\
  firstn 1 (trace (step (E_query (mk_msg [mk_q "SRV" "010203.test.local"] []))
                     s))
  = [MdnsResponse (mk_msg [] [])].
Proof. split; reflexivity. Qed.

(** ** [ping] *)

Lemma c_pings_Topic_destroy (t : tid) (c : Core) :
  c_pings (c_Topic_destroy t c) = c_pings c.
Proof.
  unfold c_Topic_destroy. destruct (c_get t c) as [T|]; [|reflexivity].
  destruct (ct_destroyed T); [reflexivity|].
  destruct (Map_get _ _) as [set|]; [|reflexivity].
  destruct (Set_delete set t); destruct (ct_announcing T); reflexivity.
Qed.

Lemma c_pings_done (c : Core) : c_pings (c_done c) = c_pings c.
Proof. unfold c_done. cbn. now destruct (c_missing c - 1 =? 0). Qed.

Lemma c_pings_run_listener (t : tid) (e : event) (l : listener) (c : Core) :
  c_pings (c_run_listener t e l c) = c_pings c.
Proof.
  destruct l; cbn [c_run_listener]; try reflexivity.
  - destruct e; try reflexivity. cbn [c_pings c_log].
    now rewrite c_pings_Topic_destroy.
  - apply c_pings_done.
Qed.

Lemma c_pings_emit (t : tid) (e : event) (c : Core) :
  c_pings (c_emit t e c) = c_pings c.
Proof.
  unfold c_emit. destruct (c_get t c) as [T|]; [|reflexivity].
  now rewrite frame_fold by (intros; apply c_pings_run_listener).
Qed.

Lemma c_pings_destroy (c : Core) : c_pings (c_destroy c) = c_pings c.
Proof.
  unfold c_destroy. destruct (c_destroyed c); [reflexivity|].
  cbn [c_pings c_set_ticks]. rewrite frame_fold; [reflexivity|].
  intros c' t. cbn [c_pings c_upd c_set_topics].
  now rewrite c_pings_Topic_destroy.
Qed.

(** only [ping] and the completion of one of its calls touch the
    closures of [ping] *)
Lemma c_pings_step (a : caction) (c : Core) (pid : nat) (P : Ping) :
  nth_error (c_pings c) pid = Some P ->
  (forall b pong now, a <> C_pong pid b pong now) ->
  nth_error (c_pings (c_step a c)) pid = Some P.
Proof.
  intros H Ha. destruct a; cbn [c_step]; try assumption.
  - now rewrite c_topic_eq.
  - cbn [c_pings c_upd c_set_topics]. now rewrite c_topic_eq.
  - now rewrite c_pings_Topic_destroy.
  - now rewrite c_pings_destroy.
  - destruct (c_ticks c) as [|f rest]; [assumption|].
    destruct f; cbn [c_run_task];
      [rewrite c_pings_emit|rewrite c_pings_done|]; assumption.
  - destruct (Set_has (c_unann c) t); [|assumption].
    now rewrite c_pings_emit.
  - unfold c_data. destruct (c_get t c) as [T|]; [|assumption].
    destruct (ct_destroyed T); [assumption|].
    now rewrite frame_fold by (intros; apply c_pings_emit).
  - now rewrite c_pings_emit.
  - unfold c_response. rewrite frame_fold; [assumption|].
    intros c' x. destruct (Map_get _ _); [|reflexivity].
    now rewrite frame_fold by (intros; apply c_pings_emit).
  - cbn [c_pings c_set_pings]. rewrite nth_error_app1; [assumption|].
    apply nth_error_Some. congruence.
  - assert (N : pid0 <> pid) by (intros ->; now apply (Ha bootstrap pong now)).
    unfold c_pong. destruct (nth_error (c_pings c) pid0) as [P0|];
      [|assumption].
    assert (G : nth_error
                  (list_update (c_pings c) pid0
                     (fun P1 => mk_Ping (pg_cb P1) (pg_start P1)
                                  (pg_missing P0 - 1)
                                  match pong with
                                  | Some g =>
                                      pg_res P0 ++
                                      [mk_pr bootstrap (now - pg_start P0) g]
                                  | None => pg_res P0
                                  end)) pid = Some P).
    { now rewrite nth_error_list_update_ne. }
    destruct (negb _); [exact G|].
    destruct pong; destruct (pg_res P0); exact G.
Qed.

Lemma pings_step (a : action) (s : State) (pid : nat) (P : Ping) :
  nth_error (pings s) pid = Some P ->
  (forall b pong now, a <> E_pong pid b pong now) ->
  nth_error (pings (step a s)) pid = Some P.
Proof.
  intros H Ha.
  change (nth_error (c_pings (erase (step a s))) pid = Some P).
  rewrite erase_step. apply c_pings_step; [exact H|].
  intros b pong now E. destruct a; cbn in E; try discriminate;
    repeat match type of E with
      | context [match ?x with _ => _ end] => destruct x; try discriminate
      end.
  injection E as -> -> -> ->. now apply (Ha b pong now).
Qed.

Lemma pings_pong (pid : nat) (b : string) (pong : option nat) (now : Z)
    (s : State) (P : Ping) :
  nth_error (pings s) pid = Some P ->
  nth_error (pings (step (E_pong pid b pong now) s)) pid
  = Some (mk_Ping (pg_cb P) (pg_start P) (pg_missing P - 1)
            (pg_res P ++ responders (pg_start P) [(b, pong, now)])).
Proof.
  intros H. cbn [step]. unfold ping_callback. rewrite H.
  assert (G : forall res,
             nth_error
               (list_update (pings s) pid
                  (fun P1 => mk_Ping (pg_cb P1) (pg_start P1)
                               (pg_missing P - 1) res)) pid
             = Some (mk_Ping (pg_cb P) (pg_start P) (pg_missing P - 1) res)).
  { intros res. now rewrite nth_error_list_update_eq, H. }
  assert (R : match pong with
              | Some g => pg_res P ++ [mk_pr b (now - pg_start P) g]
              | None => pg_res P
              end = pg_res P ++ responders (pg_start P) [(b, pong, now)]).
  { destruct pong; cbn; [reflexivity|now rewrite app_nil_r]. }
  rewrite R. destruct (negb _); [apply G|].
  destruct (pg_res P ++ _); apply G.
Qed.

Lemma responders_app (start : Z) (a b : list completion) :
  responders start (a ++ b) = responders start a ++ responders start b.
Proof. unfold responders. apply flat_map_app. Qed.

(** the closure of a [ping] call counts the completions down and
    collects the responders, whatever else happens in between *)
Lemma ping_closure (acts : list action) (s : State) (pid : nat) (P : Ping) :
  nth_error (pings s) pid = Some P ->
  nth_error (pings (run acts s)) pid
  = Some (mk_Ping (pg_cb P) (pg_start P)
            (pg_missing P - Z.of_nat (List.length (completions pid acts)))
            (pg_res P ++ responders (pg_start P) (completions pid acts))).
Proof.
  revert s P. induction acts as [|a acts IH]; intros s P H.
  - cbn. rewrite Z.sub_0_r, app_nil_r. now destruct P.
  - assert (F : (forall b pong now, a <> E_pong pid b pong now) ->
                nth_error (pings (run (a :: acts) s)) pid
                = Some (mk_Ping (pg_cb P) (pg_start P)
                          (pg_missing P
                           - Z.of_nat (List.length (completions pid acts)))
                          (pg_res P
                           ++ responders (pg_start P) (completions pid acts)))).
    { intros Ha. cbn [run fold_left]. apply (IH (step a s) P).
      now apply pings_step. }
    destruct a; try (apply F; intros; discriminate).
    cbn [completions]. destruct (Nat.eqb pid0 pid) eqn:E.
    + apply Nat.eqb_eq in E. subst pid0. clear F.
      change (run (E_pong pid bootstrap pong now :: acts) s)
        with (run acts (step (E_pong pid bootstrap pong now) s)).
      rewrite (IH _ _ (pings_pong pid bootstrap pong now s P H)).
      cbn [pg_cb pg_start pg_missing pg_res List.length].
      change ((bootstrap, pong, now) :: completions pid acts)
        with ([(bootstrap, pong, now)] ++ completions pid acts).
      rewrite responders_app, <- app_assoc. f_equal. f_equal. lia.
    + apply F. intros b p n Eq. injection Eq as -> _ _ _.
      rewrite Nat.eqb_refl in E. discriminate.
Qed.

Lemma pong_trace (pid : nat) (b : string) (pong : option nat) (now : Z)
    (s : State) (P : Ping) :
  nth_error (pings s) pid = Some P ->
  let s' := step (E_pong pid b pong now) s in
  ticks s' = ticks s /\
  trace s'
  = if pg_missing P - 1 =? 0 then
      Call (pg_cb P)
        (ping_outcome (pg_res P ++ responders (pg_start P) [(b, pong, now)]))
      :: trace s
    else trace s.
Proof.
  intros H. cbn [step]. unfold ping_callback. rewrite H.
  assert (R : match pong with
              | Some g => pg_res P ++ [mk_pr b (now - pg_start P) g]
              | None => pg_res P
              end = pg_res P ++ responders (pg_start P) [(b, pong, now)]).
  { destruct pong; cbn; [reflexivity|now rewrite app_nil_r]. }
  rewrite R. destruct (pg_missing P - 1 =? 0); cbn [negb].
  - destruct (pg_res P ++ _); split; reflexivity.
  - split; reflexivity.
Qed.

Lemma fold_log {A : Type} (f : A -> effect) (l : list A) (s : State) :
  let s' := fold_left (fun s x => log (f x) s) l s in
  trace s' = rev (map f l) ++ trace s /\ pings s' = pings s /\
  ticks s' = ticks s.
Proof.
  revert s. induction l as [|x l IH]; intros s; [cbn; auto|].
  cbn [fold_left map rev]. destruct (IH (log (f x) s)) as [T [P K]].
  cbv zeta. rewrite T, P, K, <- app_assoc. cbn. auto.
Qed.

Lemma responders_nonempty (start : Z) (cs : list completion) :
  responders start cs <> [] <-> exists c, In c cs /\ responded c = true.
Proof.
  induction cs as [|[[b [g|]] t] cs IH].
  - cbn. split; [congruence|]. now intros [c [[] _]].
  - split; [|cbn; discriminate].
    intros _. exists (b, Some g, t). split; [now left|reflexivity].
  - change (responders start ((b, None, t) :: cs))
      with (responders start cs).
    rewrite IH. split; intros [c [I R]].
    + exists c. split; [now right|assumption].
    + destruct I as [<-|I]; [discriminate|]. now exists c.
Qed.

(** C6: [ping(cb)] on a session without bootstrap nodes only queues the
    failure of [cb] for the next tick: no network operation is issued.
    Otherwise it pings every bootstrap node in the same turn, all with
    the one start time; the completion of a ping that is not the last
    calls nothing, and the completion of the last one calls [cb] once:
    with the nodes that responded, in the order of completion and each
    with its round-trip time from the shared start, when there is one,
    and with a failure when none responded. *)
Theorem ping_reports_responders (s : State) (cb : nat) (now : Z) :
  let s1 := step (A_ping cb now) s in
  (d_bootstrap s = [] ->
   trace s1 = trace s /\ pings s1 = pings s /\
   ticks s1 = ticks s ++ [T_call cb (Failure "No bootstrap nodes available")] /\
   (ticks s = [] ->
    trace (step E_tick s1)
    = Call cb (Failure "No bootstrap nodes available") :: trace s)) /\
  (d_bootstrap s <> [] ->
   let pid := List.length (pings s) in
   let n := List.length (d_bootstrap s) in
   trace s1 = rev (map (fun b => DhtPing b pid) (d_bootstrap s)) ++ trace s /\
   ticks s1 = ticks s /\
   forall (acts : list action) (b : string) (pong : option nat) (t : Z),
     let s2 := run acts s1 in
     let cs := completions pid acts in
     let s3 := step (E_pong pid b pong t) s2 in
     ticks s3 = ticks s2 /\
     ((List.length cs + 1 < n)%nat -> trace s3 = trace s2) /\
     ((List.length cs + 1 = n)%nat ->
      let res := responders now (cs ++ [(b, pong, t)]) in
      trace s3 = Call cb (ping_outcome res) :: trace s2 /\
      (res <> [] ->
       ping_outcome res = Pongs res /\
       exists c, In c (cs ++ [(b, pong, t)]) /\ responded c = true) /\
      (res = [] ->
       ping_outcome res = Failure "All bootstrap nodes failed" /\
       forall c, In c (cs ++ [(b, pong, t)]) -> responded c = false))).
Proof.
  intros s1. split.
  - intros E. unfold s1. cbn [step]. unfold Discovery_ping. rewrite E.
    cbn [process_nextTick]. repeat split.
    intros K. cbn [step ticks set_ticks]. rewrite K. reflexivity.
  - intros NE pid n.
    set (s0 := set_pings (pings s ++ [mk_Ping cb now (Z.of_nat n) []]) s).
    assert (E1 : s1 = fold_left (fun s b => log (DhtPing b pid) s)
                        (d_bootstrap s) s0).
    { unfold s1. cbn [step]. unfold Discovery_ping.
      destruct (d_bootstrap s) eqn:B; [congruence|].
      cbn [d_bootstrap set_pings]. rewrite B. reflexivity. }
    destruct (fold_log (fun b => DhtPing b pid) (d_bootstrap s) s0)
      as [T [P K]]. cbv zeta in T, P, K. rewrite <- E1 in T, P, K.
    split; [exact T|]. split; [exact K|].
    intros acts b pong t s2 cs s3.
    assert (H1 : nth_error (pings s1) pid
                 = Some (mk_Ping cb now (Z.of_nat n) [])).
    { rewrite P. unfold s0. cbn [pings set_pings]. unfold pid.
      now rewrite nth_error_app2, Nat.sub_diag by lia. }
    pose proof (ping_closure acts s1 pid _ H1) as H2.
    cbn [pg_cb pg_start pg_missing pg_res app] in H2.
    fold s2 cs in H2.
    destruct (pong_trace pid b pong t s2 _ H2) as [K3 T3].
    fold s3 in K3, T3. cbn [pg_cb pg_start pg_missing pg_res] in T3.
    rewrite <- responders_app in T3.
    split; [exact K3|]. split.
    + intros L. rewrite T3.
      destruct (Z.eqb_spec (Z.of_nat n - Z.of_nat (List.length cs) - 1) 0);
        [lia|reflexivity].
    + intros L res. fold res in T3. split.
      * rewrite T3.
        destruct (Z.eqb_spec (Z.of_nat n - Z.of_nat (List.length cs) - 1) 0);
          [reflexivity|lia].
      * split.
        -- intros R. split; [now destruct res|].
           now apply (responders_nonempty now).
        -- intros R. split; [now rewrite R|].
           intros c I. destruct (responded c) eqn:Rc; [|reflexivity].
           exfalso.
           apply (proj2 (responders_nonempty now (cs ++ [(b, pong, t)])));
             [|exact R].
           now exists c.
Qed.

Lemma ping_reports_responders_witness :
  let s1 := step (A_ping 7 1000) sample_pinger in
  let acts := [E_pong 0 "b.example" None 1020; A_lookup sample_key] in
  firstn 2 (trace s1) = [DhtPing "b.example" 0; DhtPing "a.example" 0] /\
  firstn 1 (trace (step (E_pong 0 "a.example" (Some 5%nat) 1045)
                     (run acts s1)))
  = [Call 7 (Pongs [mk_pr "a.example" 45 5])].
Proof.
  cbv zeta.
  destruct (proj2 (ping_reports_responders sample_pinger 7 1000)
              ltac:(discriminate)) as [T [_ H]].
  split; [now rewrite T|].
  destruct (H [E_pong 0 "b.example" None 1020; A_lookup sample_key]
              "a.example" (Some 5%nat) 1045) as [_ [_ L]].
  destruct (L eq_refl) as [C _].
  exact (eq_trans (f_equal (firstn 1) C) eq_refl).
Defined.

(** every node failing is reported as a failure, once *)
Example ping_all_failed :
  filter visible
    (history (run [A_ping 7 1000; E_pong 0 "a.example" None 1020;
                   E_pong 0 "b.example" None 1030] sample_pinger))
  = [Call 7 (Failure "All bootstrap nodes failed")].
Proof. reflexivity. Qed.

(** without bootstrap nodes nothing is sent and the failure comes with
    the next tick *)
Example ping_without_bootstrap :
  history (run [A_ping 7 1000; E_tick]
             (Discovery_new (mk_dopts None (Some [])) [] []))
  = [Call 7 (Failure "No bootstrap nodes available")].
Proof. reflexivity. Qed.

(** ** [lookupOne] *)

Lemma listener_eqb_eq (a b : listener) : listener_eqb a b = true -> a = b.
Proof.
  destruct a, b; cbn; try discriminate; try reflexivity;
    intros E; apply Nat.eqb_eq in E; now subst.
Qed.

Lemma remove_first_miss (q : listener -> bool) (ls : list listener)
    (x : listener) :
  q x = false -> count q (remove_first ls x) = count q ls.
Proof.
  intros Hx. induction ls as [|y ls IH]; [reflexivity|].
  cbn [remove_first]. destruct (listener_eqb y x) eqn:E.
  - apply listener_eqb_eq in E. subst y. unfold count. cbn. now rewrite Hx.
  - unfold count in *. cbn. destruct (q y); cbn; now rewrite IH.
Qed.

Lemma remove_first_hit (q : listener -> bool) (ls : list listener)
    (x : listener) :
  (forall l, q l = true -> l = x) -> q x = true ->
  count q (remove_first ls x) = (count q ls - 1)%nat.
Proof.
  intros Hq Hx. induction ls as [|y ls IH]; [reflexivity|].
  cbn [remove_first]. destruct (listener_eqb y x) eqn:E.
  - apply listener_eqb_eq in E. subst y. unfold count. cbn. rewrite Hx.
    cbn. lia.
  - unfold count in *. cbn. destruct (q y) eqn:Qy.
    + apply Hq in Qy. subst y. destruct x; cbn in E;
        rewrite ?Nat.eqb_refl in E; discriminate.
    + exact IH.
Qed.

Lemma count_list_update {A : Type} (p : A -> bool) (l : list A) (i : nat)
    (f : A -> A) :
  (forall x, p (f x) = p x) -> count p (list_update l i f) = count p l.
Proof.
  intros H. revert i. induction l as [|x l IH]; intros [|i]; cbn;
    try reflexivity; unfold count in *; cbn.
  - rewrite H. now destruct (p x).
  - destruct (p x); cbn; now rewrite IH.
Qed.

Lemma count_snoc {A : Type} (p : A -> bool) (l : list A) (x : A) :
  count p (l ++ [x]) = (count p l + if p x then 1 else 0)%nat.
Proof. rewrite count_app. unfold count. cbn. now destruct (p x). Qed.

Section Watching.

Variables (cb : nat) (t : tid).

Lemma is_onpeer_eq (l : listener) : is_onpeer cb l = true -> l = L_onpeer cb.
Proof.
  destruct l; cbn; try discriminate. intros E. apply Nat.eqb_eq in E.
  now subst.
Qed.

Lemma is_onclose_eq (l : listener) :
  is_onclose cb l = true -> l = L_onclose cb.
Proof.
  destruct l; cbn; try discriminate. intros E. apply Nat.eqb_eq in E.
  now subst.
Qed.

Lemma mine_false (l : listener) :
  mine cb l = false <-> is_onpeer cb l = false /\ is_onclose cb l = false.
Proof. unfold mine. apply orb_false_iff. Qed.

Lemma count_mine (ls : list listener) :
  count (mine cb) ls
  = (count (is_onpeer cb) ls + count (is_onclose cb) ls)%nat.
Proof.
  induction ls as [|l ls IH]; [reflexivity|].
  unfold count, mine in *. cbn.
  destruct l; cbn; try exact IH; destruct (Nat.eqb _ _); cbn; lia.
Qed.

(** *** What leaves the signature alone *)

Lemma same_refl (c : Core) : same cb t c c.
Proof. split; auto. Qed.

Lemma same_trans (c1 c2 c3 : Core) :
  same cb t c1 c2 -> same cb t c2 c3 -> same cb t c1 c3.
Proof. intros [A B] [C D]. split; [congruence|auto]. Qed.

Lemma same_log (e : effect) (c : Core) :
  is_call cb e = false -> peer_on t e = [] -> is_close_emit t e = false ->
  same cb t c (c_log e c).
Proof.
  intros H1 H2 H3. split; [|auto].
  unfold sig, emitted_close, peers_on, count. cbn.
  now rewrite H1, H2, H3.
Qed.

Lemma same_done (c : Core) : same cb t c (c_done c).
Proof.
  unfold c_done. destruct (_ =? 0).
  - apply (same_trans _ (c_set_missing (c_missing c - 1) c)).
    + split; auto.
    + now apply same_log.
  - split; auto.
Qed.

Lemma topic_destroyed_upd (t' : tid) (f : CTopic -> CTopic) (c : Core) :
  (forall T, ct_destroyed T = true -> ct_destroyed (f T) = true) ->
  topic_destroyed c t = true -> topic_destroyed (c_upd t' f c) t = true.
Proof.
  intros Hf. unfold topic_destroyed. rewrite c_get_upd.
  destruct (c_get t c) as [T|]; [|discriminate]. cbn.
  destruct (Nat.eqb t' t); auto.
Qed.

Lemma tally_list_update (l : list CTopic) (t' : tid)
    (f : CTopic -> CTopic) :
  (forall T, tally cb (f T) = tally cb T) ->
  map (tally cb) (list_update l t' f) = map (tally cb) l.
Proof.
  intros H. revert t'. induction l as [|x l IH]; intros [|i]; cbn;
    try reflexivity.
  - now rewrite H.
  - now rewrite IH.
Qed.

Lemma same_upd (t' : tid) (f : CTopic -> CTopic) (c : Core) :
  (forall T, tally cb (f T) = tally cb T) ->
  (forall T, ct_destroyed T = true -> ct_destroyed (f T) = true) ->
  same cb t c (c_upd t' f c).
Proof.
  intros H1 H2. split; [|now apply topic_destroyed_upd].
  unfold sig, emitted_close. cbn. now rewrite tally_list_update.
Qed.

Lemma tally_on (n : event_name) (l : listener) (T : CTopic) :
  mine cb l = false -> tally cb (ct_on n l T) = tally cb T.
Proof.
  intros M. apply mine_false in M as [M1 M2].
  assert (M3 : mine cb l = false) by (apply mine_false; auto).
  unfold tally, ct_on.
  destruct n;
    cbn [ct_set_listeners ct_listeners ct_on_peer ct_on_update ct_on_close];
    rewrite ?count_snoc, ?M1, ?M2, ?M3, ?Nat.add_0_r; reflexivity.
Qed.

Lemma count_removeListener (q : listener -> bool) (ls : list listener)
    (l : listener) :
  q l = false -> count q (rev (remove_first (rev ls) l)) = count q ls.
Proof.
  intros H. now rewrite count_rev, remove_first_miss, count_rev.
Qed.

Lemma tally_removeListener (n : event_name) (l : listener) (T : CTopic) :
  mine cb l = false -> tally cb (ct_removeListener n l T) = tally cb T.
Proof.
  intros M. apply mine_false in M as [M1 M2].
  assert (M3 : mine cb l = false) by (apply mine_false; auto).
  unfold tally, ct_removeListener.
  destruct n;
    cbn [ct_set_listeners ct_listeners ct_on_peer ct_on_update ct_on_close];
    rewrite ?count_removeListener by assumption; reflexivity.
Qed.

Lemma same_Topic_destroy (t' : tid) (c : Core) :
  same cb t c (c_Topic_destroy t' c).
Proof.
  unfold c_Topic_destroy. destruct (c_get t' c) as [T|]; [|apply same_refl].
  destruct (ct_destroyed T); [apply same_refl|].
  apply (same_trans _ (c_upd t' (ct_set_destroyed true) c)).
  { apply same_upd; [reflexivity|reflexivity]. }
  destruct (Map_get _ _) as [set|]; [|apply same_refl].
  split.
  - unfold sig, emitted_close.
    destruct (Set_delete set t'); destruct (ct_announcing T); cbn;
      rewrite ?filter_app; cbn; rewrite ?app_nil_r; reflexivity.
  - unfold topic_destroyed, c_get.
    destruct (Set_delete set t'); destruct (ct_announcing T); cbn; auto.
Qed.

Lemma destroyed_after_destroy (c : Core) (T : CTopic) :
  c_get t c = Some T -> topic_destroyed (c_Topic_destroy t c) t = true.
Proof.
  intros G. unfold c_Topic_destroy. rewrite G.
  destruct (ct_destroyed T) eqn:D.
  { unfold topic_destroyed. now rewrite G. }
  assert (H : topic_destroyed (c_upd t (ct_set_destroyed true) c) t = true).
  { unfold topic_destroyed. now rewrite c_get_upd_eq, G. }
  destruct (Map_get _ _) as [set|]; [|exact H].
  unfold topic_destroyed, c_get in *.
  destruct (Set_delete set t); destruct (ct_announcing T); exact H.
Qed.

Lemma same_run_listener (t' : tid) (e : event) (l : listener) (c : Core) :
  mine cb l = false -> same cb t c (c_run_listener t' e l c).
Proof.
  intros M. destruct l as [n|cb'|cb'|]; cbn [c_run_listener].
  - apply same_refl.
  - apply same_log; try reflexivity.
    unfold mine in M. cbn in M. exact M.
  - destruct e as [p| |]; try apply same_refl.
    assert (N : Nat.eqb cb' cb = false).
    { unfold mine in M. cbn in M. now apply orb_false_iff in M as [M _]. }
    eapply same_trans; [|apply same_log; try reflexivity; exact N].
    eapply same_trans; [|apply same_Topic_destroy].
    apply (same_trans _
             (c_upd t' (ct_removeListener N_peer (L_onpeer cb')) c)).
    + apply same_upd; [|intros T D; exact D].
      intros T. apply tally_removeListener. unfold mine. cbn.
      now rewrite N.
    + apply same_upd; [|intros T D; exact D].
      intros T. apply tally_removeListener. unfold mine. cbn.
      now rewrite N.
  - apply same_done.
Qed.

Lemma same_listeners (t' : tid) (e : event) (ls : list listener) :
  count (mine cb) ls = O ->
  forall c, same cb t c (fold_left (fun c l => c_run_listener t' e l c) ls c).
Proof.
  induction ls as [|l ls IH]; intros H c; [apply same_refl|].
  cbn [fold_left].
  assert (Hl : mine cb l = false).
  { apply (count_zero_In _ _ _ H). now left. }
  eapply same_trans; [apply same_run_listener; exact Hl|].
  apply IH. unfold count in *. cbn in H. now rewrite Hl in H.
Qed.

Lemma Watch_same (ph : phase) (c c' : Core) :
  same cb t c c' -> Watch cb t ph c -> Watch cb t ph c'.
Proof.
  intros [S D] W. unfold Watch in *. rewrite S.
  destruct W as [W1 [W2 [W3 W4]]]. split; [|split; [|split]]; auto.
  destruct ph; auto.
  destruct W4 as [A [B [C E]]]. auto.
Qed.

(** *** The tallies *)

Lemma nth_tally (c : Core) (t' : tid) :
  nth_error (sg_tallies (sig cb t c)) t'
  = option_map (tally cb) (c_get t' c).
Proof. unfold sig, c_get. cbn. apply nth_error_map. Qed.

Lemma tally_zero (T : CTopic) (n : event_name) :
  tally cb T = (O, O, O) -> count (mine cb) (ct_listeners n T) = O.
Proof.
  unfold tally. intros E. injection E as E1 E2 E3.
  destruct n; cbn [ct_listeners]; rewrite ?count_mine in *; lia.
Qed.

Lemma tally_armed (T : CTopic) (a b : nat) :
  tally cb T = (a, b, O) ->
  count (is_onpeer cb) (ct_on_peer T) = a /\
  count (is_onclose cb) (ct_on_peer T) = O /\
  count (mine cb) (ct_on_update T) = O /\
  count (is_onclose cb) (ct_on_close T) = b /\
  count (is_onpeer cb) (ct_on_close T) = O.
Proof. unfold tally. intros E. injection E as E1 E2 E3. lia. Qed.

Lemma Watch_tally (ph : phase) (c : Core) (t' : tid) (T : CTopic) :
  Watch cb t ph c -> c_get t' c = Some T ->
  exists a b, tally cb T = (a, b, O) /\ (t' <> t -> a = O /\ b = O).
Proof.
  intros [_ [_ [W3 W4]]] G.
  destruct (Nat.eq_dec t' t) as [->|N].
  - assert (H : nth_error (sg_tallies (sig cb t c)) t
                = Some (tally cb T)) by (now rewrite nth_tally, G).
    assert (E : tally cb T = (O, O, O) \/ tally cb T = (1, 1, 0)%nat).
    { destruct ph; destruct W4 as [A _];
        try (rewrite H in A; first [left; congruence|right; congruence]).
      left. now apply A. }
    destruct E as [E|E]; rewrite E; eexists; eexists;
      (split; [reflexivity|tauto]).
  - rewrite (W3 t' (tally cb T) N) by (now rewrite nth_tally, G).
    eexists; eexists; split; [reflexivity|auto].
Qed.

End Watching.

Section Emitting.

Variables (cb : nat) (t : tid).

(** *** The two closures of the call *)

Lemma count_removeListener_hit (q : listener -> bool) (ls : list listener)
    (x : listener) :
  (forall l, q l = true -> l = x) -> q x = true ->
  count q (rev (remove_first (rev ls) x)) = (count q ls - 1)%nat.
Proof.
  intros H1 H2. now rewrite count_rev, remove_first_hit, count_rev.
Qed.

Lemma tally_disarm (T : CTopic) :
  tally cb T = (1, 1, 0)%nat ->
  tally cb
    (ct_removeListener N_close (L_onclose cb)
       (ct_removeListener N_peer (L_onpeer cb) T))
  = (O, O, O).
Proof.
  intros E. apply tally_armed in E as [E1 [E2 [E3 [E4 E5]]]].
  unfold tally, ct_removeListener.
  cbn [ct_set_listeners ct_listeners ct_on_peer ct_on_update ct_on_close].
  rewrite (count_removeListener_hit (is_onpeer cb))
    by (try apply is_onpeer_eq; cbn; apply Nat.eqb_refl).
  rewrite (count_removeListener_hit (is_onclose cb))
    by (try apply is_onclose_eq; cbn; apply Nat.eqb_refl).
  rewrite (count_removeListener (is_onclose cb) _ (L_onpeer cb))
    by reflexivity.
  rewrite (count_removeListener (is_onpeer cb) _ (L_onclose cb))
    by reflexivity.
  rewrite E1, E2, E3, E4, E5. reflexivity.
Qed.

Lemma nth_tally_upd (t' : tid) (f : CTopic -> CTopic) (c : Core) :
  nth_error (sg_tallies (sig cb t (c_upd t f c))) t'
  = if Nat.eqb t t' then option_map (fun T => tally cb (f T)) (c_get t c)
    else nth_error (sg_tallies (sig cb t c)) t'.
Proof.
  rewrite !nth_tally, c_get_upd.
  destruct (Nat.eqb_spec t t') as [<-|N].
  - now destruct (c_get t c).
  - now destruct (c_get t' c).
Qed.

Lemma run_onpeer (p : peer) (c : Core) :
  Watch cb t (Seen p) c ->
  Watch cb t (Resolved p) (c_run_listener t (Ev_peer p) (L_onpeer cb) c).
Proof.
  intros [W1 [W2 [W3 [W4 [W5 [W6 W7]]]]]].
  cbn [c_run_listener].
  set (f := fun T => ct_removeListener N_close (L_onclose cb)
                       (ct_removeListener N_peer (L_onpeer cb) T)).
  set (c2 := c_upd t (ct_removeListener N_close (L_onclose cb))
               (c_upd t (ct_removeListener N_peer (L_onpeer cb)) c)).
  assert (G : exists T, c_get t c = Some T /\ tally cb T = (1, 1, 0)%nat).
  { rewrite nth_tally in W4. destruct (c_get t c) as [T|]; [|discriminate].
    exists T. split; [reflexivity|]. cbn in W4. congruence. }
  destruct G as [T [G E]].
  assert (G2 : c_get t c2 = Some (f T)).
  { unfold c2. now rewrite !c_get_upd_eq, G. }
  destruct (same_Topic_destroy cb t t c2) as [S _].
  pose proof (destroyed_after_destroy t c2 (f T) G2) as D.
  set (c3 := c_Topic_destroy t c2) in *.
  assert (N2 : forall t', nth_error (sg_tallies (sig cb t c2)) t'
                = if Nat.eqb t t' then Some (O, O, O)
                  else nth_error (sg_tallies (sig cb t c)) t').
  { intros t'. unfold c2. rewrite nth_tally_upd.
    destruct (Nat.eqb_spec t t') as [<-|N].
    - rewrite c_get_upd_eq, G. cbn. f_equal. now apply tally_disarm.
    - rewrite nth_tally_upd. apply Nat.eqb_neq in N. now rewrite N. }
  assert (S4 : sig cb t (c_log (Call cb (Peer p)) c3)
               = mk_Sig (sg_tallies (sig cb t c2)) (sg_tasks (sig cb t c))
                   (sg_pings (sig cb t c))
                   (Call cb (Peer p) :: sg_calls (sig cb t c))
                   (sg_peers (sig cb t c)) (sg_closed (sig cb t c))).
  { transitivity
      (mk_Sig (sg_tallies (sig cb t c3)) (sg_tasks (sig cb t c3))
         (sg_pings (sig cb t c3))
         (Call cb (Peer p) :: sg_calls (sig cb t c3))
         (sg_peers (sig cb t c3)) (sg_closed (sig cb t c3))).
    - unfold sig, emitted_close, peers_on, count. cbn.
      now rewrite Nat.eqb_refl.
    - rewrite S. reflexivity. }
  unfold Watch. rewrite S4.
  cbn [sg_tallies sg_tasks sg_pings sg_calls sg_peers sg_closed].
  split; [exact W1|]. split; [exact W2|]. split.
  { intros t' a N. rewrite N2.
    destruct (Nat.eqb_spec t t'); [congruence|]. now apply W3. }
  split; [rewrite N2; now rewrite Nat.eqb_refl|].
  split; [now rewrite W5|].
  split; [exists []; now rewrite W6|].
  exact D.
Qed.

Lemma run_onclose (e : event) (c : Core) :
  Watch cb t Closing c ->
  Watch cb t Failed (c_run_listener t e (L_onclose cb) c).
Proof.
  intros [W1 [W2 [W3 [W4 [W5 [W6 W7]]]]]].
  cbn [c_run_listener].
  assert (S : sig cb t (c_log (Call cb (Failure "Lookup failed")) c)
              = mk_Sig (sg_tallies (sig cb t c)) (sg_tasks (sig cb t c))
                  (sg_pings (sig cb t c))
                  (Call cb (Failure "Lookup failed") :: sg_calls (sig cb t c))
                  (sg_peers (sig cb t c)) (sg_closed (sig cb t c))).
  { unfold sig, emitted_close, peers_on, count. cbn.
    now rewrite Nat.eqb_refl. }
  unfold Watch. rewrite S.
  cbn [sg_tallies sg_tasks sg_pings sg_calls sg_peers sg_closed].
  rewrite W5. auto 10.
Qed.

Lemma count_cons_false {A : Type} (q : A -> bool) (x : A) (l : list A) :
  q x = false -> count q (x :: l) = count q l.
Proof. intros H. unfold count. cbn. now rewrite H. Qed.

Lemma count_cons_true {A : Type} (q : A -> bool) (x : A) (l : list A) :
  q x = true -> count q (x :: l) = S (count q l).
Proof. intros H. unfold count. cbn. now rewrite H. Qed.

Lemma run_peer_listeners (p : peer) (ls : list listener) :
  count (is_onclose cb) ls = O -> count (is_onpeer cb) ls = 1%nat ->
  forall c,
    Watch cb t (Seen p) c ->
    Watch cb t (Resolved p)
      (fold_left (fun c l => c_run_listener t (Ev_peer p) l c) ls c).
Proof.
  induction ls as [|l ls IH]; intros H0 H1 c W; [discriminate|].
  cbn [fold_left].
  assert (Hc : is_onclose cb l = false).
  { apply (count_zero_In _ _ _ H0). now left. }
  rewrite (count_cons_false _ _ _ Hc) in H0.
  destruct (is_onpeer cb l) eqn:Hp.
  - rewrite (count_cons_true _ _ _ Hp) in H1.
    apply is_onpeer_eq in Hp. subst l.
    eapply Watch_same; [|apply run_onpeer; exact W].
    apply same_listeners. rewrite count_mine. lia.
  - rewrite (count_cons_false _ _ _ Hp) in H1.
    apply IH; try assumption.
    eapply Watch_same; [|exact W].
    apply same_run_listener. apply mine_false. auto.
Qed.

Lemma run_close_listeners (ls : list listener) :
  count (is_onpeer cb) ls = O -> count (is_onclose cb) ls = 1%nat ->
  forall c,
    Watch cb t Closing c ->
    Watch cb t Failed
      (fold_left (fun c l => c_run_listener t Ev_close l c) ls c).
Proof.
  induction ls as [|l ls IH]; intros H0 H1 c W; [discriminate|].
  cbn [fold_left].
  assert (Hp : is_onpeer cb l = false).
  { apply (count_zero_In _ _ _ H0). now left. }
  rewrite (count_cons_false _ _ _ Hp) in H0.
  destruct (is_onclose cb l) eqn:Hc.
  - rewrite (count_cons_true _ _ _ Hc) in H1.
    apply is_onclose_eq in Hc. subst l.
    eapply Watch_same; [|apply run_onclose; exact W].
    apply same_listeners. rewrite count_mine. lia.
  - rewrite (count_cons_false _ _ _ Hc) in H1.
    apply IH; try assumption.
    eapply Watch_same; [|exact W].
    apply same_run_listener. apply mine_false. auto.
Qed.

(** *** Emissions *)

Lemma sig_log_emit (t' : tid) (e : event) (c : Core) :
  sig cb t (c_log (Emit t' e) c)
  = mk_Sig (sg_tallies (sig cb t c)) (sg_tasks (sig cb t c))
      (sg_pings (sig cb t c)) (sg_calls (sig cb t c))
      (peer_on t (Emit t' e) ++ sg_peers (sig cb t c))
      ((if is_close_emit t (Emit t' e) then 1 else 0)
       + sg_closed (sig cb t c))%nat.
Proof.
  unfold sig, emitted_close, peers_on, count.
  cbn [c_log c_topics c_ticks c_pings c_trace filter flat_map is_call
       sg_tallies sg_tasks sg_pings sg_calls sg_peers sg_closed].
  now destruct (is_close_emit t (Emit t' e)).
Qed.

Lemma Watch_length (ph : phase) (c : Core) (T : CTopic) :
  c_get t c = Some T ->
  (List.length (sg_tallies (sig cb t c)) <= t)%nat -> False.
Proof.
  intros G L. unfold sig in L. cbn in L. rewrite length_map in L.
  assert (H : nth_error (c_topics c) t <> None) by (unfold c_get in G; congruence).
  apply nth_error_Some in H. lia.
Qed.

Lemma emit_others (ph : phase) (t' : tid) (e : event) (c : Core) :
  t' <> t \/ name_of e = N_update ->
  Watch cb t ph c -> Watch cb t ph (c_emit t' e c).
Proof.
  intros H W. unfold c_emit. destruct (c_get t' c) as [T|] eqn:G; [|exact W].
  destruct (Watch_tally cb t ph c t' T W G) as [a [b [E Z]]].
  eapply Watch_same; [|exact W].
  apply (same_trans cb t _ (c_log (Emit t' e) c)).
  - apply same_log; [reflexivity| |].
    + destruct H as [H|H].
      * destruct e; cbn; try reflexivity.
        apply Nat.eqb_neq in H. now rewrite H.
      * destruct e; cbn in *; try reflexivity; discriminate.
    + destruct H as [H|H].
      * destruct e; cbn; try reflexivity.
        apply Nat.eqb_neq. congruence.
      * destruct e; cbn in *; try reflexivity; discriminate.
  - apply same_listeners. destruct H as [H|H].
    + destruct (Z H) as [-> ->]. now apply tally_zero.
    + rewrite H. cbn [ct_listeners]. now apply tally_armed in E.
Qed.

Lemma emit_peer (ph : phase) (t' : tid) (p : peer) (c : Core) :
  boundary ph -> (ph = Failed -> t' <> t) ->
  Watch cb t ph c ->
  Watch cb t (after_peer t t' p ph) (c_emit t' (Ev_peer p) c).
Proof.
  intros B NF W. destruct (Nat.eq_dec t' t) as [->|N].
  2:{ assert (E : after_peer t t' p ph = ph).
      { unfold after_peer. apply Nat.eqb_neq in N. rewrite N.
        now destruct ph. }
      rewrite E. apply emit_others; auto. }
  unfold c_emit. destruct (c_get t c) as [T|] eqn:G.
  2:{ destruct ph; cbn [after_peer]; try exact W.
      destruct W as [_ [_ [_ [W4 _]]]]. rewrite nth_tally, G in W4.
      discriminate. }
  cbn [name_of ct_listeners].
  assert (HT : nth_error (sg_tallies (sig cb t c)) t = Some (tally cb T))
    by (now rewrite nth_tally, G).
  assert (P : peer_on t (Emit t (Ev_peer p)) = [p])
    by (cbn; now rewrite Nat.eqb_refl).
  pose proof (sig_log_emit t (Ev_peer p) c) as S.
  rewrite P in S. cbn [is_close_emit Nat.add] in S.
  destruct ph; cbn [after_peer]; try contradiction.
  - (* before the call *)
    destruct W as [W1 [W2 [W3 [W4 [W5 W6]]]]].
    eapply Watch_same.
    + apply same_listeners. apply (tally_zero cb T N_peer). now apply W4.
    + unfold Watch. rewrite S.
      cbn [sg_tallies sg_tasks sg_pings sg_calls sg_peers sg_closed].
      repeat split; auto; exfalso; eapply (Watch_length Fresh); eauto.
  - (* the first candidate *)
    rewrite Nat.eqb_refl.
    destruct W as [W1 [W2 [W3 [W4 [W5 [W6 W7]]]]]].
    assert (E : tally cb T = (1, 1, 0)%nat) by congruence.
    apply tally_armed in E as [E1 [E2 [E3 [E4 E5]]]].
    apply run_peer_listeners; try assumption.
    unfold Watch. rewrite S.
    cbn [sg_tallies sg_tasks sg_pings sg_calls sg_peers sg_closed].
    rewrite W6. auto 10.
  - (* a later candidate *)
    destruct W as [W1 [W2 [W3 [W4 [W5 [[l W6] W7]]]]]].
    assert (E : tally cb T = (O, O, O)) by congruence.
    eapply Watch_same.
    + apply same_listeners. now apply (tally_zero cb T N_peer).
    + unfold Watch. rewrite S.
      cbn [sg_tallies sg_tasks sg_pings sg_calls sg_peers sg_closed].
      split; [exact W1|]. split; [exact W2|]. split; [exact W3|].
      split; [exact W4|]. split; [exact W5|]. split; [|exact W7].
      exists (p :: l). now rewrite W6.
  - now contradiction NF.
Qed.

Lemma emit_close (ph : phase) (t' : tid) (c : Core) :
  boundary ph -> (ph = Failed -> t' <> t) ->
  Watch cb t ph c ->
  Watch cb t (after_close t t' ph) (c_emit t' Ev_close c).
Proof.
  intros B NF W. destruct (Nat.eq_dec t' t) as [->|N].
  2:{ assert (E : after_close t t' ph = ph).
      { unfold after_close. apply Nat.eqb_neq in N. rewrite N.
        now destruct ph. }
      rewrite E. apply emit_others; auto. }
  unfold c_emit. destruct (c_get t c) as [T|] eqn:G.
  2:{ destruct ph; cbn [after_close]; try exact W.
      destruct W as [_ [_ [_ [W4 _]]]]. rewrite nth_tally, G in W4.
      discriminate. }
  cbn [name_of ct_listeners].
  assert (HT : nth_error (sg_tallies (sig cb t c)) t = Some (tally cb T))
    by (now rewrite nth_tally, G).
  pose proof (sig_log_emit t Ev_close c) as S.
  cbn [peer_on is_close_emit app] in S. rewrite Nat.eqb_refl in S.
  destruct ph; cbn [after_close]; try contradiction.
  - destruct W as [W1 [W2 [W3 [W4 [W5 W6]]]]].
    eapply Watch_same.
    + apply same_listeners. apply (tally_zero cb T N_close). now apply W4.
    + unfold Watch. rewrite S.
      cbn [sg_tallies sg_tasks sg_pings sg_calls sg_peers sg_closed].
      repeat split; auto; exfalso; eapply (Watch_length Fresh); eauto.
  - rewrite Nat.eqb_refl.
    destruct W as [W1 [W2 [W3 [W4 [W5 [W6 W7]]]]]].
    assert (E : tally cb T = (1, 1, 0)%nat) by congruence.
    apply tally_armed in E as [E1 [E2 [E3 [E4 E5]]]].
    apply run_close_listeners; try assumption.
    unfold Watch. rewrite S.
    cbn [sg_tallies sg_tasks sg_pings sg_calls sg_peers sg_closed].
    rewrite W7. auto 10.
  - destruct W as [W1 [W2 [W3 [W4 [W5 [W6 W7]]]]]].
    assert (E : tally cb T = (O, O, O)) by congruence.
    eapply Watch_same.
    + apply same_listeners. now apply (tally_zero cb T N_close).
    + unfold Watch. rewrite S.
      cbn [sg_tallies sg_tasks sg_pings sg_calls sg_peers sg_closed].
      auto 10.
  - now contradiction NF.
Qed.

End Emitting.

Section Stepping.

Variables (cb : nat) (t : tid).

(** *** Phases *)

Lemma follows_refl (ph : phase) : boundary ph -> follows ph ph.
Proof. destruct ph; cbn; eauto; contradiction. Qed.

Lemma follows_trans (a b c : phase) :
  follows a b -> follows b c -> follows a c.
Proof.
  destruct a; cbn; try contradiction.
  - intros ->. auto.
  - intros [->|[[p ->]| ->]]; cbn; auto.
    intros ->. eauto.
  - intros ->. auto.
  - intros ->. auto.
Qed.

Lemma follows_boundary (a b : phase) : follows a b -> boundary b.
Proof.
  destruct a; cbn; try contradiction.
  - now intros ->.
  - now intros [->|[[p ->]| ->]].
  - now intros ->.
  - now intros ->.
Qed.

Lemma after_peer_follows (t' : tid) (p : peer) (ph : phase) :
  boundary ph ->
  follows ph (after_peer t t' p ph) /\
  (after_peer t t' p ph = Failed -> ph = Failed).
Proof.
  destruct ph; cbn; try contradiction; auto.
  destruct (Nat.eqb t' t); split; eauto; discriminate.
Qed.

Lemma after_close_follows (t' : tid) (ph : phase) :
  boundary ph -> follows ph (after_close t t' ph).
Proof.
  destruct ph; cbn; try contradiction; auto.
  destruct (Nat.eqb t' t); eauto.
Qed.

(** *** What the invariant of the core adds *)

Lemma failed_sealed (F : tid -> Prop) (k : nat) (c : Core) :
  Inv F k c -> Watch cb t Failed c ->
  topic_destroyed c t = true /\ pending_close c t = O /\
  forall d set, In (d, set) (c_domains c) -> ~ In t set.
Proof.
  intros I [_ [_ [_ [_ [_ [_ W]]]]]].
  pose proof (inv_close _ _ _ I t) as C.
  unfold sig in W. cbn in W. rewrite W in C.
  destruct (topic_destroyed c t) eqn:D; [|lia].
  split; [reflexivity|]. split; [lia|].
  intros d set Hd Ht.
  destruct (ix_live _ (inv_index _ _ _ I) d set t Hd Ht) as [T [G [L _]]].
  unfold topic_destroyed in D. rewrite G in D. congruence.
Qed.

(** *** The moves of the core *)

Lemma same_fold {A : Type} (f : Core -> A -> Core) (l : list A) :
  (forall c a, same cb t c (f c a)) ->
  forall c, same cb t c (fold_left f l c).
Proof.
  intros H. induction l as [|a l IH]; intros c; [apply same_refl|].
  cbn. eapply same_trans; [apply H|apply IH].
Qed.

Lemma same_destroy (c : Core) : same cb t c (c_destroy c).
Proof.
  unfold c_destroy. destruct (c_destroyed c); [apply same_refl|].
  set (c1 := c_set_missing 1 (c_set_destroyed true c)).
  apply (same_trans cb t _ c1); [split; auto|].
  set (c2 := fold_left _ _ c1).
  apply (same_trans cb t _ c2).
  - apply same_fold. intros c' x.
    apply (same_trans cb t _ (c_set_missing (c_missing c' + 1) c'));
      [split; auto|].
    eapply same_trans; [apply same_Topic_destroy|].
    apply same_upd; [|intros T D; exact D].
    intros T. now apply tally_on.
  - split; [|auto]. unfold sig, emitted_close. cbn.
    rewrite filter_app. cbn. now rewrite app_nil_r.
Qed.

Lemma Watch_topic (ph : phase) (d : string) (a : bool) (c : Core) :
  boundary ph -> Watch cb t ph c -> Watch cb t ph (c_topic d a c).
Proof.
  intros B W. rewrite c_topic_eq.
  set (new := mk_CTopic false d a [] [] []).
  assert (S : sig cb t
                (c_set_domains
                   (inserted (c_domains c) d (List.length (c_topics c)))
                   (c_set_topics (c_topics c ++ [new]) c))
              = mk_Sig (sg_tallies (sig cb t c) ++ [(O, O, O)])
                  (sg_tasks (sig cb t c)) (sg_pings (sig cb t c))
                  (sg_calls (sig cb t c)) (sg_peers (sig cb t c))
                  (sg_closed (sig cb t c))).
  { unfold sig, emitted_close. cbn. now rewrite map_app. }
  assert (N : forall t' x,
             nth_error (sg_tallies (sig cb t c) ++ [(O, O, O)]) t' = Some x ->
             nth_error (sg_tallies (sig cb t c)) t' = Some x \/
             (x = (O, O, O) /\
              (List.length (sg_tallies (sig cb t c)) <= t')%nat)).
  { intros t' x H.
    destruct (Nat.lt_ge_cases t' (List.length (sg_tallies (sig cb t c))))
      as [L|L].
    - left. now rewrite nth_error_app1 in H.
    - right. rewrite nth_error_app2 in H by assumption. split; [|exact L].
      destruct (t' - _)%nat as [|[|n]]; cbn in H; congruence. }
  assert (K : forall x, nth_error (sg_tallies (sig cb t c)) t = Some x ->
                nth_error (sg_tallies (sig cb t c) ++ [(O, O, O)]) t
                = Some x).
  { intros x H. rewrite nth_error_app1; [exact H|].
    apply nth_error_Some. congruence. }
  destruct W as [W1 [W2 [W3 W4]]].
  unfold Watch. rewrite S.
  cbn [sg_tallies sg_tasks sg_pings sg_calls sg_peers sg_closed].
  split; [exact W1|]. split; [exact W2|]. split.
  { intros t' x Ht H. destruct (N t' x H) as [H'|[-> _]]; eauto. }
  destruct ph; try contradiction.
  - destruct W4 as [A [C E]]. split; [|split; [exact C|]].
    + intros x H. destruct (N t x H) as [H'|[-> _]]; eauto.
    + intros L. rewrite length_app in L. apply E. lia.
  - destruct W4 as [A C]. split; [now apply K|exact C].
  - destruct W4 as [A [C [E D]]]. split; [now apply K|].
    split; [exact C|]. split; [exact E|].
    unfold topic_destroyed, c_get in *. cbn.
    destruct (nth_error (c_topics c) t) as [T|] eqn:G; [|discriminate].
    rewrite nth_error_app1; [now rewrite G|].
    apply nth_error_Some. congruence.
  - destruct W4 as [A C]. split; [now apply K|exact C].
Qed.

Lemma same_pop (ph : phase) (f : task) (rest : list task) (c : Core) :
  c_ticks c = f :: rest -> Watch cb t ph c ->
  is_call_task cb f = false /\ same cb t c (c_set_ticks rest c).
Proof.
  intros E [W1 _]. unfold sig in W1. cbn in W1. rewrite E in W1.
  assert (Hf : is_call_task cb f = false).
  { apply (count_zero_In _ _ _ W1). now left. }
  split; [exact Hf|]. split; [|auto].
  unfold sig, emitted_close. cbn. rewrite E.
  unfold count in *. cbn in W1. rewrite Hf in W1. cbn. rewrite Hf.
  reflexivity.
Qed.

Lemma data_fold (t' : tid) (ps : list peer) :
  forall (ph : phase) (c : Core),
    boundary ph -> (ph = Failed -> t' <> t) -> Watch cb t ph c ->
    exists ph',
      follows ph ph' /\ (ph' = Failed -> ph = Failed) /\
      Watch cb t ph' (fold_left (fun c p => c_emit t' (Ev_peer p) c) ps c).
Proof.
  induction ps as [|p ps IH]; intros ph c B NF W.
  - exists ph. split; [now apply follows_refl|]. auto.
  - cbn [fold_left].
    destruct (after_peer_follows t' p ph B) as [A1 A2].
    destruct (IH (after_peer t t' p ph) (c_emit t' (Ev_peer p) c))
      as [ph' [H1 [H2 H3]]].
    + eapply follows_boundary; eauto.
    + intros E. apply NF. auto.
    + now apply emit_peer.
    + exists ph'. split; [eapply follows_trans; eauto|]. split; auto.
Qed.

Lemma response_inner (F : tid -> Prop) (p : peer) (set : list tid) :
  forall (ph : phase) (c : Core),
    boundary ph -> (ph = Failed -> ~ In t set) ->
    Inv F 0 c -> Watch cb t ph c ->
    let c' := fold_left (fun c topic => c_emit topic (Ev_peer p) c) set c in
    Inv F 0 c' /\
    exists ph',
      follows ph ph' /\ (ph' = Failed -> ph = Failed) /\ Watch cb t ph' c'.
Proof.
  induction set as [|x set IH]; intros ph c B NF I W.
  - cbn. split; [exact I|]. exists ph.
    split; [now apply follows_refl|]. auto.
  - cbn [fold_left].
    destruct (after_peer_follows x p ph B) as [A1 A2].
    destruct (IH (after_peer t x p ph) (c_emit x (Ev_peer p) c))
      as [I' [ph' [H1 [H2 H3]]]].
    + eapply follows_boundary; eauto.
    + intros E Hin. apply (NF (A2 E)). now right.
    + now apply Inv_emit_peer.
    + apply emit_peer; auto. intros E ->. apply (NF E). now left.
    + split; [exact I'|]. exists ph'.
      split; [eapply follows_trans; eauto|]. split; auto.
Qed.

Lemma response_fold (F : tid -> Prop) (l : list (string * peer)) :
  forall (ph : phase) (c : Core),
    boundary ph -> Inv F 0 c -> Watch cb t ph c ->
    exists ph', follows ph ph' /\ Watch cb t ph' (c_response l c).
Proof.
  unfold c_response.
  induction l as [|a l IH]; intros ph c B I W.
  - exists ph. split; [now apply follows_refl|exact W].
  - cbn [fold_left]. destruct (Map_get (c_domains c) (fst a)) as [set|] eqn:G.
    + destruct (response_inner F (snd a) set ph c B) as [I' [ph1 [H1 [H2 H3]]]];
        try assumption.
      { intros -> Hin.
        destruct (failed_sealed F 0 c I W) as [_ [_ X]].
        apply (X (fst a) set); [now apply Map_get_In|exact Hin]. }
      destruct (IH ph1 _ (follows_boundary _ _ H1) I' H3) as [ph' [K1 K2]].
      exists ph'. split; [eapply follows_trans; eauto|exact K2].
    + now apply IH.
Qed.

Lemma Watch_step (F : tid -> Prop) (ph : phase) (a : caction) (c : Core) :
  Inv F 0 c -> boundary ph -> c_uses cb a = false ->
  Watch cb t ph c ->
  exists ph', follows ph ph' /\ Watch cb t ph' (c_step a c).
Proof.
  intros I B U W.
  assert (Keep : forall c', same cb t c c' ->
                   exists ph', follows ph ph' /\ Watch cb t ph' c').
  { intros c' S. exists ph. split; [now apply follows_refl|].
    eapply Watch_same; eauto. }
  destruct a; cbn [c_step c_uses] in *.
  - (* nothing *)
    apply Keep, same_refl.
  - (* a new topic *)
    exists ph. split; [now apply follows_refl|]. now apply Watch_topic.
  - (* another lookupOne *)
    exists ph. split; [now apply follows_refl|].
    apply (Watch_same cb t ph (c_topic domain false c));
      [|now apply Watch_topic].
    apply (same_trans cb t _
             (c_upd (List.length (c_topics c))
                (ct_on N_close (L_onclose cb0)) (c_topic domain false c))).
    + apply same_upd; [|intros T D; exact D]. intros T.
      apply tally_on. unfold mine. cbn. now rewrite U.
    + apply same_upd; [|intros T D; exact D]. intros T.
      apply tally_on. unfold mine. cbn. now rewrite U.
  - apply Keep, same_Topic_destroy.
  - apply Keep, same_destroy.
  - apply Keep. apply same_upd; [|intros T D; now destruct n].
    intros T. now apply tally_on.
  - (* a tick *)
    destruct (c_ticks c) as [|f rest] eqn:E; [apply Keep, same_refl|].
    destruct (same_pop ph f rest c E W) as [Hf S].
    pose proof (Watch_same cb t ph _ _ S W) as W'.
    destruct f as [t'| |cb' r]; cbn [c_run_task].
    + exists (after_close t t' ph).
      split; [now apply after_close_follows|].
      apply emit_close; auto. intros -> ->.
      destruct (failed_sealed F 0 c I W) as [_ [P _]].
      unfold pending_close in P. rewrite E in P.
      unfold count in P. cbn in P. rewrite Nat.eqb_refl in P.
      cbn in P. lia.
    + exists ph. split; [now apply follows_refl|].
      eapply Watch_same; [apply same_done|exact W'].
    + exists ph. split; [now apply follows_refl|].
      eapply Watch_same; [|exact W'].
      apply same_log; try reflexivity. exact Hf.
  - (* an unannounce completes *)
    destruct (Set_has (c_unann c) t0) eqn:E; [|apply Keep, same_refl].
    exists (after_close t t0 ph).
    split; [now apply after_close_follows|].
    apply emit_close; [exact B| |].
    + intros -> ->.
      destruct (failed_sealed F 0 c I W) as [_ [P _]].
      apply Set_has_In in E.
      unfold pending_close in P.
      assert (X : count (Nat.eqb t) (c_unann c) <> O).
      { apply (count_nonzero_In _ _ t); [exact E|apply Nat.eqb_refl]. }
      unfold tid in *. lia.
    + eapply Watch_same; [|exact W]. split; auto.
  - (* data of a stream *)
    unfold c_data. destruct (c_get t0 c) as [T|] eqn:G;
      [|apply Keep, same_refl].
    destruct (ct_destroyed T) eqn:D; [apply Keep, same_refl|].
    destruct (data_fold t0 ps ph c B) as [ph' [H1 [_ H2]]]; eauto.
    intros -> ->.
    destruct (failed_sealed F 0 c I W) as [X _].
    unfold topic_destroyed in X. rewrite G in X. congruence.
  - (* a stream ends *)
    exists ph. split; [now apply follows_refl|].
    apply emit_others; auto.
  - (* a multicast response *)
    now apply (response_fold F).
  - (* ping without nodes *)
    apply Keep. split; [|auto].
    unfold sig, emitted_close. cbn. rewrite filter_app. cbn.
    rewrite U. now rewrite app_nil_r.
  - (* ping *)
    apply Keep. split; [|auto].
    unfold sig, emitted_close. cbn. rewrite filter_app. cbn.
    unfold pinged at 2. cbn. rewrite U. now rewrite app_nil_r.
  - (* a ping completes *)
    unfold c_pong. destruct (nth_error (c_pings c) pid) as [P|] eqn:G;
      [|apply Keep, same_refl].
    assert (HP : Nat.eqb (pg_cb P) cb = false).
    { destruct W as [_ [W2 _]]. unfold sig in W2. cbn in W2.
      apply (count_zero_In (pinged cb) _ P W2).
      eapply nth_error_In; eauto. }
    assert (S : forall m res,
               same cb t c
                 (c_set_pings
                    (list_update (c_pings c) pid
                       (fun P1 => mk_Ping (pg_cb P1) (pg_start P1) m res)) c)).
    { intros m res. split; [|auto].
      unfold sig, emitted_close. cbn.
      fold (count (pinged cb)
              (list_update (c_pings c) pid
                 (fun P1 => mk_Ping (pg_cb P1) (pg_start P1) m res))).
      now rewrite count_list_update. }
    apply Keep. destruct (negb _); [apply S|].
    destruct pong; destruct (pg_res P); cbn [app];
      (eapply same_trans; [apply S|]); apply same_log;
      try reflexivity; exact HP.
Qed.

Lemma Watch_run (F : tid -> Prop) (acts : list caction) :
  forall (ph : phase) (c : Core),
    Inv F 0 c -> boundary ph ->
    forallb (fun a => negb (c_uses cb a)) acts = true ->
    Watch cb t ph c ->
    exists ph', follows ph ph' /\ Watch cb t ph' (c_run acts c).
Proof.
  induction acts as [|a acts IH]; intros ph c I B U W.
  - exists ph. split; [now apply follows_refl|exact W].
  - cbn in U. apply andb_true_iff in U as [U1 U2].
    apply negb_true_iff in U1.
    destruct (Watch_step F ph a c I B U1 W) as [ph1 [H1 H2]].
    destruct (IH ph1 (c_step a c)) as [ph' [K1 K2]]; auto.
    + now apply Inv_step.
    + eapply follows_boundary; eauto.
    + exists ph'. split; [eapply follows_trans; eauto|exact K2].
Qed.

(** the call itself *)
Lemma list_update_last {A : Type} (l : list A) (x : A) (f : A -> A) :
  list_update (l ++ [x]) (List.length l) f = l ++ [f x].
Proof. induction l as [|y l IH]; cbn; [reflexivity|now rewrite IH]. Qed.

Lemma Watch_arm (d : string) (c : Core) :
  t = List.length (c_topics c) ->
  Watch cb t Fresh c -> Watch cb t Waiting (c_step (C_lookupOne d cb) c).
Proof.
  intros Et [W1 [W2 [W3 [W4 [W5 W6]]]]].
  cbn [c_step]. rewrite c_topic_eq.
  set (new := mk_CTopic false d false [] [] []).
  assert (L : List.length (sg_tallies (sig cb t c)) = t).
  { unfold sig. cbn. now rewrite length_map. }
  destruct (W6 ltac:(lia)) as [W7 W8].
  assert (S : sig cb t
                (c_upd (List.length (c_topics c))
                   (ct_on N_peer (L_onpeer cb))
                   (c_upd (List.length (c_topics c))
                      (ct_on N_close (L_onclose cb))
                      (c_set_domains
                         (inserted (c_domains c) d
                            (List.length (c_topics c)))
                         (c_set_topics (c_topics c ++ [new]) c))))
              = mk_Sig (sg_tallies (sig cb t c) ++ [(1, 1, 0)%nat])
                  (sg_tasks (sig cb t c)) (sg_pings (sig cb t c))
                  (sg_calls (sig cb t c)) (sg_peers (sig cb t c))
                  (sg_closed (sig cb t c))).
  { unfold sig, emitted_close, c_upd.
    cbn [c_topics c_set_topics c_set_domains c_ticks c_pings c_trace].
    rewrite !list_update_last, map_app.
    cbn [map]. unfold tally at 2. cbn. rewrite Nat.eqb_refl. reflexivity. }
  unfold Watch. rewrite S.
  cbn [sg_tallies sg_tasks sg_pings sg_calls sg_peers sg_closed].
  split; [exact W1|]. split; [exact W2|]. split.
  - intros t' x Ht H.
    destruct (Nat.lt_ge_cases t' t) as [Lt|Ge].
    + rewrite nth_error_app1 in H by lia. eauto.
    + rewrite nth_error_app2 in H by lia. rewrite L in H.
      destruct (t' - t)%nat as [|[|n]] eqn:E; cbn in H; try discriminate.
      lia.
  - rewrite nth_error_app2 by lia. rewrite L, Nat.sub_diag. cbn. auto.
Qed.

End Stepping.

(** *** Reading the invariant back on the program *)

Lemma c_uses_abstraction (cb : nat) (a : action) (s : State) :
  uses cb a = false -> c_uses cb (abstraction a s) = false.
Proof.
  destruct a; cbn; intros U; try reflexivity;
    repeat match goal with
      | |- context [match ?x with _ => _ end] => destruct x; cbn
      end; auto.
Qed.

Lemma c_uses_abstractions (cb : nat) (acts : list action) :
  forall s,
    forallb (fun a => negb (uses cb a)) acts = true ->
    forallb (fun a => negb (c_uses cb a)) (abstractions acts s) = true.
Proof.
  induction acts as [|a acts IH]; intros s H; [reflexivity|].
  cbn in *. apply andb_true_iff in H as [H1 H2].
  apply negb_true_iff in H1.
  rewrite (c_uses_abstraction cb a s H1). cbn. now apply IH.
Qed.

Lemma Watch_new (cb : nat) (t : tid) (opts : discovery_opts)
    (draws : list Q) (entropy : list Buffer) :
  Watch cb t Fresh (erase (Discovery_new opts draws entropy)).
Proof.
  unfold Watch. cbn. repeat split; auto.
  intros t' a _ H. now destruct t'.
  intros a H. now destruct t.
Qed.

Lemma filter_visible_calls (cb : nat) (tr : list effect) :
  filter (is_call cb) (filter visible tr) = filter (is_call cb) tr.
Proof.
  induction tr as [|e tr IH]; [reflexivity|].
  destruct e; cbn; rewrite ?IH; reflexivity.
Qed.

Lemma peers_on_visible (t : tid) (tr : list effect) :
  peers_on t (filter visible tr) = peers_on t tr.
Proof.
  induction tr as [|e tr IH]; [reflexivity|].
  unfold peers_on in *. destruct e; cbn; rewrite ?IH; reflexivity.
Qed.

Lemma peers_on_app (t : tid) (a b : list effect) :
  peers_on t (a ++ b) = peers_on t a ++ peers_on t b.
Proof. apply flat_map_app. Qed.

Lemma peers_on_rev (t : tid) (tr : list effect) :
  peers_on t (rev tr) = rev (peers_on t tr).
Proof.
  induction tr as [|e tr IH]; [reflexivity|].
  cbn [rev]. rewrite peers_on_app, IH.
  change (peers_on t (e :: tr)) with (peer_on t e ++ peers_on t tr).
  rewrite rev_app_distr. f_equal.
  unfold peers_on. cbn. rewrite app_nil_r.
  destruct e; try reflexivity. destruct e; try reflexivity.
  cbn. now destruct (Nat.eqb t0 t).
Qed.

Lemma calls_rev (cb : nat) (tr : list effect) :
  filter (is_call cb) (rev tr) = rev (filter (is_call cb) tr).
Proof.
  induction tr as [|e tr IH]; [reflexivity|].
  cbn [rev filter]. rewrite filter_app, IH. cbn [filter].
  destruct (is_call cb e); cbn [rev]; [reflexivity|now rewrite app_nil_r].
Qed.

Lemma statics_get (s : State) (t : tid)
    (x : Buffer * option Announce * Buffer * string * option record) :
  nth_error (statics s) t = Some x ->
  exists T, get_topic t s = Some T /\ T_static T = x.
Proof.
  unfold statics, get_topic. rewrite nth_error_map.
  destruct (nth_error (heap s) t) as [T|]; [|discriminate].
  intros H. exists T. split; [reflexivity|]. cbn in H. congruence.
Qed.

Lemma destroyed_read (s : State) (t : tid) :
  topic_destroyed (erase s) t = true ->
  exists T, get_topic t s = Some T /\ t_destroyed T = true.
Proof.
  unfold topic_destroyed. rewrite c_get_erase.
  destruct (get_topic t s) as [T|]; [|discriminate].
  cbn. intros H. now exists T.
Qed.

Lemma onpeer_destroys_first (t : tid) (cb : nat) (p : peer) (s : State) :
  get_topic t s <> None ->
  exists s',
    run_listener t (Ev_peer p) (L_onpeer cb) s = log (Call cb (Peer p)) s' /\
    exists T, get_topic t s' = Some T /\ t_destroyed T = true.
Proof.
  intros G. cbn [run_listener].
  set (s2 := upd_topic t (T_removeListener N_close (L_onclose cb))
               (upd_topic t (T_removeListener N_peer (L_onpeer cb)) s)).
  exists (Topic_destroy t s2). split; [reflexivity|].
  apply destroyed_read. rewrite erase_Topic_destroy.
  assert (G2 : exists T, c_get t (erase s2) = Some T).
  { rewrite c_get_erase. unfold s2, get_topic, upd_topic in *. cbn.
    rewrite !nth_error_list_update_eq.
    destruct (nth_error (heap s) t); [|congruence]. cbn. eauto. }
  destruct G2 as [T G2]. now apply (destroyed_after_destroy t _ T).
Qed.

(** C4: a call [lookupOne(key, cb)] on a session that is not destroyed
    creates a lookup topic for [key]; [cb], given to no other call, is
    called at most once, and what it got is decided by what the topic
    emitted: the first peer candidate if the topic emitted one, else a
    failure if the topic emitted ['close'] (it was destroyed first),
    else nothing yet.  Once a candidate was emitted the topic is
    destroyed, and [onpeer] destroys it before it calls [cb].  The end
    or the error of the stream plays no part. *)
Theorem lookupOne_first_peer_or_close (opts : discovery_opts)
    (draws : list Q) (entropy : list Buffer) (pre post : list action)
    (key : Buffer) (cb : nat) :
  let s0 := run pre (Discovery_new opts draws entropy) in
  let t := List.length (heap s0) in
  let s1 := step (A_lookupOne key cb) s0 in
  let s2 := run post s1 in
  d_destroyed s0 = false ->
  forallb (fun a => negb (uses cb a)) (pre ++ post) = true ->
  (exists T, get_topic t s1 = Some T /\ t_key T = key /\
             t_announce T = None) /\
  filter (is_call cb) (history s2)
  = lookupOne_outcome cb (peers_on t (history s2))
      (count (is_close_emit t) (trace s2)) /\
  (peers_on t (history s2) <> [] ->
   exists T, get_topic t s2 = Some T /\ t_destroyed T = true) /\
  (forall p s, get_topic t s <> None ->
     exists s',
       run_listener t (Ev_peer p) (L_onpeer cb) s
       = log (Call cb (Peer p)) s' /\
       exists T, get_topic t s' = Some T /\ t_destroyed T = true).
Proof.
  intros s0 t s1 s2 D U.
  rewrite forallb_app in U. apply andb_true_iff in U as [U1 U2].
  assert (E1 : s1 = upd_topic t (T_on N_peer (L_onpeer cb))
                      (upd_topic t (T_on N_close (L_onclose cb))
                         (snd (Discovery__topic key no_opts s0)))).
  { unfold s1. cbn [step]. unfold Discovery_lookupOne, Discovery_lookup.
    rewrite D. pose proof (Discovery__topic_fst key no_opts s0) as F.
    destruct (Discovery__topic key no_opts s0) as [t0 s']. cbn [fst snd] in *.
    now subst t0. }
  assert (I0 : Inv (fun _ => False) 0 (erase s0)).
  { apply reachable_Inv. now exists opts, draws, entropy, pre. }
  assert (W0 : Watch cb t Fresh (erase s0)).
  { unfold s0. rewrite erase_run.
    destruct (Watch_run cb t (fun _ => False)
                (abstractions pre (Discovery_new opts draws entropy))
                Fresh (erase (Discovery_new opts draws entropy)))
      as [ph [F W]].
    - apply Inv_new.
    - exact Logic.I.
    - now apply c_uses_abstractions.
    - apply Watch_new.
    - cbn in F. now subst ph. }
  assert (W1 : Watch cb t Waiting (erase s1)).
  { unfold s1. rewrite erase_step. cbn [abstraction]. rewrite D.
    apply Watch_arm; [|exact W0]. unfold t. now rewrite length_erase. }
  assert (I1 : Inv (fun _ => False) 0 (erase s1)).
  { unfold s1. rewrite erase_step. now apply Inv_step. }
  assert (W2 : exists ph, follows Waiting ph /\ Watch cb t ph (erase s2)).
  { unfold s2. rewrite erase_run.
    apply (Watch_run cb t (fun _ => False)); auto.
    - exact Logic.I.
    - now apply c_uses_abstractions. }
  assert (R : sig cb t (erase s2)
              = mk_Sig (sg_tallies (sig cb t (erase s2)))
                  (sg_tasks (sig cb t (erase s2)))
                  (sg_pings (sig cb t (erase s2)))
                  (filter (is_call cb) (trace s2))
                  (peers_on t (trace s2))
                  (count (is_close_emit t) (trace s2))).
  { unfold sig, emitted_close.
    cbn [erase c_trace c_topics c_ticks c_pings sg_tallies sg_tasks sg_pings].
    rewrite filter_visible_calls, peers_on_visible, count_filter;
      [reflexivity|].
    intros e H. destruct e; try discriminate. reflexivity. }
  unfold history. rewrite calls_rev, peers_on_rev.
  destruct W2 as [ph [F W2]]. unfold Watch in W2. rewrite R in W2.
  cbn [sg_tallies sg_tasks sg_pings sg_calls sg_peers sg_closed] in W2.
  destruct W2 as [_ [_ [_ W2]]].
  split; [|split; [|split]].
  - destruct (statics_topic key no_opts s0) as [id E].
    assert (N : nth_error (statics s1) t
                = Some (key, to_announce no_opts, id,
                        Discovery__domain s0 key,
                        if js_or0 (to_localPort no_opts) =? 0 then None
                        else Some (SRV (Discovery__domain s0 key) "0.0.0.0"
                                     (js_or0 (to_localPort no_opts))))).
    { rewrite E1, !statics_upd by (intros; apply statics_T_on).
      rewrite E, nth_error_app2
        by (unfold statics, t; rewrite length_map; lia).
      unfold statics, t. now rewrite length_map, Nat.sub_diag. }
    apply statics_get in N as [T [G ET]]. exists T. split; [exact G|].
    unfold T_static in ET. injection ET as K A _ _ _. auto.
  - destruct F as [->|[[p ->]| ->]].
    + destruct W2 as [_ [C [P K]]]. now rewrite C, P, K.
    + destruct W2 as [_ [C [[l P] _]]]. rewrite C, P, rev_app_distr.
      reflexivity.
    + destruct W2 as [_ [C [P K]]]. now rewrite C, P, K.
  - intros NE. destruct F as [->|[[p ->]| ->]].
    + destruct W2 as [_ [_ [P _]]]. rewrite P in NE. now contradiction NE.
    + destruct W2 as [_ [_ [_ X]]]. now apply destroyed_read.
    + destruct W2 as [_ [_ [P _]]]. rewrite P in NE. now contradiction NE.
  - intros p s. apply onpeer_destroys_first.
Qed.

Lemma lookupOne_first_peer_or_close_witness :
  let s2 := run [A_lookupOne sample_key 7%nat; E_data 0%nat sample_data; E_tick]
              sample_session in
  filter (is_call 7%nat) (history s2) = [Call 7%nat (Peer sample_peer_a)] /\
  exists T, get_topic 0%nat s2 = Some T /\ t_destroyed T = true.
Proof.
  cbv zeta.
  pose proof (lookupOne_first_peer_or_close (mk_dopts (Some "test.local") None)
                [] [] [] [E_data 0%nat sample_data; E_tick] sample_key 7%nat)
    as H.
  cbv zeta in H.
  assert (H1 : d_destroyed
                 (run [] (Discovery_new (mk_dopts (Some "test.local") None)
                            [] []))
               = false) by (vm_compute; reflexivity).
  assert (H2 : forallb (fun a => negb (uses 7%nat a))
                 ([] ++ [E_data 0%nat sample_data; E_tick]) = true)
    by (vm_compute; reflexivity).
  destruct (H H1 H2) as [_ [C [X _]]].
  split.
  - refine (eq_trans _ (eq_trans C _)); vm_compute; reflexivity.
  - destruct X as [T [G K]].
    + intros E. vm_compute in E. discriminate.
    + exists T. split; [|exact K].
      refine (eq_trans _ G). vm_compute. reflexivity.
Defined.

(** the stream of the lookup ends, or fails, before any candidate was
    seen: the topic emits ['update'] and stays, its loop is scheduled
    again, and the callback is not called; it fails only later, when the
    session is destroyed *)
Lemma lookupOne_stream_end_is_no_failure :
  let s := run [A_lookupOne sample_key 7%nat; E_end 0%nat] sample_session in
  let s' :=
    run [A_lookupOne sample_key 7%nat; E_error 0%nat "boom"] sample_session in
  filter visible (history s) = [Emit 0%nat (Ev_update None)] /\
  filter (is_call 7%nat) (history s) = [] /\
  peers_on 0%nat (history s) = [] /\
  option_map t_destroyed (get_topic 0%nat s) = Some false /\
  ticks s = [] /\ unannounces s = [] /\
  map (fun x => snd (snd x)) (timers s)
  = [F_mdns_loop 0%nat; F_dht_loop 0%nat] /\
  filter visible (history s') = [Emit 0%nat (Ev_update (Some "boom"))] /\
  filter visible (history (run [A_destroy; E_tick; E_tick] s'))
  = [Emit 0%nat (Ev_update (Some "boom")); Emit 0%nat Ev_close;
     Call 7%nat (Failure "Lookup failed"); EmitClose].
Proof. vm_compute. repeat split. Qed.

(** ** The domain of a key, the other way round *)

Lemma hex_digit_inj (a b : N) :
  (a < 16)%N -> (b < 16)%N -> hex_digit a = hex_digit b -> a = b.
Proof.
  intros Ha Hb.
  assert (A : In a (map N.of_nat (seq 0 16))).
  { apply in_map_iff. exists (N.to_nat a). split; [apply N2Nat.id|].
    apply in_seq. lia. }
  assert (B : In b (map N.of_nat (seq 0 16))).
  { apply in_map_iff. exists (N.to_nat b). split; [apply N2Nat.id|].
    apply in_seq. lia. }
  cbn in A, B.
  repeat (destruct A as [<-|A]; [|]); try contradiction;
    repeat (destruct B as [<-|B]; [|]); try contradiction;
    cbn; intros E; first [reflexivity|discriminate E].
Qed.

Lemma to_N_inj (a b : byte) : Byte.to_N a = Byte.to_N b -> a = b.
Proof.
  intros E. pose proof (Byte.of_to_N a) as A. pose proof (Byte.of_to_N b) as B.
  rewrite E in A. congruence.
Qed.

Lemma toString_hex_inj (a : Buffer) :
  forall b, toString_hex a = toString_hex b -> a = b.
Proof.
  induction a as [|x a IH]; intros [|y b] E; cbn in E; try discriminate;
    [reflexivity|].
  injection E as E1 E2 E3.
  pose proof (Byte.to_N_bounded x) as Bx.
  pose proof (Byte.to_N_bounded y) as By.
  apply hex_digit_inj in E1;
    [|apply N.Div0.div_lt_upper_bound; lia|apply N.Div0.div_lt_upper_bound; lia].
  apply hex_digit_inj in E2; [|apply N.mod_lt; lia|apply N.mod_lt; lia].
  f_equal; [|now apply IH].
  apply to_N_inj.
  rewrite (N.div_mod (Byte.to_N x) 16), (N.div_mod (Byte.to_N y) 16) by lia.
  now rewrite E1, E2.
Qed.

Lemma length_toString_hex (a : Buffer) :
  String.length (toString_hex a) = (2 * List.length a)%nat.
Proof. induction a as [|x a IH]; cbn; [reflexivity|]. rewrite IH. lia. Qed.

Lemma length_append (a b : string) :
  String.length (String.append a b)
  = (String.length a + String.length b)%nat.
Proof. induction a as [|x a IH]; cbn; [reflexivity|now rewrite IH]. Qed.

Lemma append_cancel_r (a : string) :
  forall b c, String.append a c = String.append b c -> a = b.
Proof.
  induction a as [|x a IH]; intros [|y b] c E; cbn in E.
  - reflexivity.
  - exfalso. apply (f_equal String.length) in E. cbn in E.
    rewrite length_append in E. lia.
  - exfalso. apply (f_equal String.length) in E. cbn in E.
    rewrite length_append in E. lia.
  - injection E as -> E. f_equal. now apply (IH b c).
Qed.

(** [_domain] tells apart any two keys that differ in their first 20
    bytes, in every state; a key shorter than 20 bytes is used whole,
    and the empty key gives the bare suffix. *)
Theorem domain_separates_prefixes (s : State) (key1 key2 : Buffer) :
  (Discovery__domain s key1 = Discovery__domain s key2
   <-> firstn 20 key1 = firstn 20 key2) /\
  String.length (Discovery__domain s key1)
  = (2 * Nat.min 20 (List.length key1) + String.length (d_tld s))%nat /\
  Discovery__domain s [] = d_tld s.
Proof.
  unfold Discovery__domain, slice0. split; [|split].
  - split.
    + intros E. apply append_cancel_r in E. now apply toString_hex_inj.
    + now intros ->.
  - now rewrite length_append, length_toString_hex, length_firstn.
  - reflexivity.
Qed.

(** ** What a topic is given at its creation *)

Lemma length_randomBytes (n : nat) (s : State) :
  List.length (fst (crypto_randomBytes n s)) = n.
Proof.
  unfold crypto_randomBytes. destruct (entropy s) as [|b rest]; cbn [fst].
  - apply repeat_length.
  - rewrite length_firstn, length_app, repeat_length. lia.
Qed.

Lemma minted_Topic_new (key : Buffer) (opts : topic_opts) (s : State) :
  exists x,
    statics (snd (Topic_new key opts s)) = statics s ++ [x] /\
    minted (d_tld s) x.
Proof.
  unfold Topic_new.
  pose proof (length_randomBytes 32 s) as L.
  destruct (crypto_randomBytes 32 s) as [rnd s1] eqn:E. cbn [fst] in L.
  assert (E1 : heap s1 = heap s).
  { unfold crypto_randomBytes in E. destruct (entropy s); now inversion E. }
  assert (E2 : d_tld s1 = d_tld s).
  { unfold crypto_randomBytes in E. destruct (entropy s); now inversion E. }
  exists (key, to_announce opts, id_prefix ++ rnd, Discovery__domain s key,
          if js_or0 (to_localPort opts) =? 0 then None
          else Some (SRV (Discovery__domain s key) "0.0.0.0"
                       (js_or0 (to_localPort opts)))).
  split.
  - unfold Topic__startMdns, Topic__startDht, Discovery__domain.
    destruct (to_announce opts); [destruct (to_lookup opts)|]; cbn [snd];
      rewrite ?statics_mdns_loop, statics_dht_loop; unfold statics;
      cbn [heap set_heap]; rewrite map_app, E1, E2; reflexivity.
  - cbn. split; [reflexivity|]. split; [now exists rnd|].
    intros a H. destruct (js_or0 (to_localPort opts) =? 0) eqn:Z;
      [discriminate|].
    exists (js_or0 (to_localPort opts)). split.
    + now apply Z.eqb_neq.
    + congruence.
Qed.

Lemma minted_topic (key : Buffer) (opts : topic_opts) (s : State) :
  exists x,
    statics (snd (Discovery__topic key opts s)) = statics s ++ [x] /\
    minted (d_tld s) x.
Proof.
  unfold Discovery__topic.
  destruct (minted_Topic_new key opts s) as [x [E M]]. exists x.
  destruct (Topic_new key opts s) as [t s1]. cbn [snd] in *.
  split; [|exact M].
  destruct (Map_has _ _); destruct (Map_get _ _); exact E.
Qed.

Lemma statics_step_minted (a : action) (s : State) :
  exists l, statics (step a s) = statics s ++ l /\
            Forall (minted (d_tld s)) l.
Proof.
  assert (Same : forall s', statics s' = statics s ->
            exists l, statics s' = statics s ++ l /\
                      Forall (minted (d_tld s)) l).
  { intros s' E. exists []. rewrite app_nil_r. auto. }
  assert (New : forall key o (f : State -> State),
            (forall s', statics (f s') = statics s') ->
            exists l,
              statics (f (snd (Discovery__topic key o s))) = statics s ++ l /\
              Forall (minted (d_tld s)) l).
  { intros key o f Hf. destruct (minted_topic key o s) as [x [E M]].
    exists [x]. rewrite Hf. auto. }
  destruct a; cbn [step].
  - unfold Discovery_announce. destruct (d_destroyed s); [now apply Same|].
    match goal with
    | |- context [Discovery__topic ?k ?o s] =>
        destruct (New k o (fun x => x) (fun _ => eq_refl)) as [l H];
        destruct (Discovery__topic k o s) as [t s1]
    end.
    now exists l.
  - unfold Discovery_lookup. destruct (d_destroyed s); [now apply Same|].
    destruct (New key no_opts (fun x => x) (fun _ => eq_refl)) as [l H].
    destruct (Discovery__topic key no_opts s) as [t s1]. now exists l.
  - unfold Discovery_lookupOne, Discovery_lookup.
    destruct (d_destroyed s); [now apply Same|].
    pose proof (Discovery__topic_fst key no_opts s) as F.
    destruct (New key no_opts
                (fun x => upd_topic (List.length (heap s))
                            (T_on N_peer (L_onpeer cb))
                            (upd_topic (List.length (heap s))
                               (T_on N_close (L_onclose cb)) x)))
      as [l H].
    { intros s'. now rewrite !statics_upd by (intros; apply statics_T_on). }
    destruct (Discovery__topic key no_opts s) as [t s1].
    cbn [fst snd] in *. subst t. now exists l.
  - destruct (statics_step (A_ping cb now) s) as [l [E _]].
    apply Same. cbn [step] in E. unfold Discovery_ping.
    destruct (d_bootstrap s) eqn:B; [reflexivity|]. rewrite <- B.
    now rewrite statics_fold by reflexivity.
  - apply Same. unfold Discovery_holepunch. now destruct (p_referrer p).
  - apply Same. unfold Discovery_destroy.
    destruct (d_destroyed s); [reflexivity|]. rewrite statics_nextTick.
    rewrite statics_fold; [reflexivity|]. intros s' x. cbn beta zeta.
    rewrite statics_upd by (intros; apply statics_T_on).
    now rewrite statics_Topic_destroy.
  - apply Same. unfold Topic_update.
    destruct (get_topic t s) as [T|]; [|reflexivity].
    destruct (t_destroyed T); [reflexivity|].
    unfold Topic__startMdns, Topic__startDht.
    rewrite statics_mdns_loop, statics_clearTimeout.
    destruct (t_timeoutDht T); [|reflexivity].
    rewrite statics_dht_loop, statics_upd by reflexivity.
    apply statics_clearTimeout.
  - apply Same. apply statics_Topic_destroy.
  - apply Same. apply statics_upd. intros. apply statics_T_on.
  - apply Same. destruct (ticks s) as [|f rest]; [reflexivity|].
    destruct f; cbn [run_task];
      [rewrite statics_emit|rewrite statics_destroy_done|]; reflexivity.
  - apply Same. destruct (find_timer (timers s) h) as [fn|]; [|reflexivity].
    destruct fn; cbn [run_timer];
      [rewrite statics_mdns_loop|rewrite statics_dht_loop];
      apply statics_clearTimeout.
  - apply Same. destruct (nth_error (loops s) sid) as [L|]; [|reflexivity].
    unfold Topic__ondhtdata. destruct (get_topic _ s) as [T|]; [|reflexivity].
    destruct (t_destroyed T); [reflexivity|].
    now rewrite !statics_fold by (intros; apply statics_emit).
  - apply Same. unfold dht_done.
    destruct (nth_error (loops s) sid) as [L|]; [|reflexivity].
    destruct (get_topic _ s) as [T|]; [|reflexivity].
    destruct (lp_called L || t_destroyed T); [reflexivity|].
    destruct (Discovery__notify _ _ _) as [h s'] eqn:E.
    rewrite statics_upd by reflexivity.
    change s' with (snd (h, s')). rewrite <- E, statics_notify, statics_emit.
    change (statics (set_loops ?v ?x)) with (statics x).
    now rewrite statics_upd.
  - apply Same. unfold dht_done.
    destruct (nth_error (loops s) sid) as [L|]; [|reflexivity].
    destruct (get_topic _ s) as [T|]; [|reflexivity].
    destruct (lp_called L || t_destroyed T); [reflexivity|].
    destruct (Discovery__notify _ _ _) as [h s'] eqn:E.
    rewrite statics_upd by reflexivity.
    change s' with (snd (h, s')). rewrite <- E, statics_notify, statics_emit.
    change (statics (set_loops ?v ?x)) with (statics x).
    now rewrite statics_upd.
  - apply Same. destruct (Set_has (unannounces s) t); [|reflexivity].
    now rewrite statics_emit.
  - apply Same. unfold ping_callback.
    destruct (nth_error (pings s) pid) as [P|]; [|reflexivity].
    destruct (negb _); [reflexivity|].
    destruct pong; destruct (pg_res P); reflexivity.
  - now apply Same.
  - apply Same. unfold Discovery__onmdnsresponse. apply statics_fold.
    intros s' a. destruct a; try reflexivity.
    destruct (Map_get _ _); [|reflexivity].
    now apply statics_fold; intros; apply statics_emit.
Qed.

Lemma d_tld_run (acts : list action) (s : State) :
  d_tld (run acts s) = d_tld s.
Proof.
  pose proof (consts_run acts s) as C. unfold consts in C. congruence.
Qed.

Lemma statics_run_minted (acts : list action) :
  forall s,
    exists l, statics (run acts s) = statics s ++ l /\
              Forall (minted (d_tld s)) l.
Proof.
  induction acts as [|a acts IH]; intros s.
  - exists []. cbn. rewrite app_nil_r. auto.
  - cbn [run fold_left].
    destruct (statics_step_minted a s) as [l1 [E1 M1]].
    destruct (IH (step a s)) as [l2 [E2 M2]].
    exists (l1 ++ l2). fold (run acts (step a s)).
    rewrite E2, E1, <- app_assoc. split; [reflexivity|].
    apply Forall_app. split; [exact M1|].
    assert (T : d_tld (step a s) = d_tld s) by apply (d_tld_run [a] s).
    now rewrite T in M2.
Qed.

Lemma reachable_minted (s : State) (t : tid) (T : Topic) :
  reachable s -> get_topic t s = Some T -> minted (d_tld s) (T_static T).
Proof.
  intros [opts [draws [entropy [acts ->]]]] G.
  destruct (statics_run_minted acts (Discovery_new opts draws entropy))
    as [l [E M]].
  change (statics (Discovery_new opts draws entropy)) with
    (@nil (Buffer * option Announce * Buffer * string * option record)) in E.
  cbn [app] in E.
  assert (I : In (T_static T) l).
  { rewrite <- E. unfold statics. apply in_map.
    eapply nth_error_In; eauto. }
  rewrite Forall_forall in M. specialize (M _ I).
  now rewrite d_tld_run.
Qed.

(** The fields a topic gets from its constructor ([key], [announce],
    [id], [_domain], [_answer]) are never assigned again: a step leaves
    them as they are in every topic there is.  In a session they are as
    the constructor made them: the domain is [_domain(key)], the token
    is "id=" followed by 32 bytes, and the answer record, when there is
    one, is the SRV record of the domain with target "0.0.0.0" and a
    nonzero port. *)
Theorem topic_fields_frozen (opts : discovery_opts) (draws : list Q)
    (entropy : list Buffer) (acts : list action) (t : tid) :
  let s := run acts (Discovery_new opts draws entropy) in
  (forall T, get_topic t s = Some T ->
     t_domain T = Discovery__domain s (t_key T) /\
     (exists rnd, t_id T = id_prefix ++ rnd /\ List.length rnd = 32%nat) /\
     (forall a, t_answer T = Some a ->
        exists port, port <> 0 /\ a = SRV (t_domain T) "0.0.0.0" port)) /\
  (forall T (more : list action), get_topic t s = Some T ->
     exists T', get_topic t (run more s) = Some T' /\
                T_static T' = T_static T).
Proof.
  intros s. split.
  - intros T G.
    assert (R : reachable s) by (now exists opts, draws, entropy, acts).
    destruct (reachable_minted s t T R G) as [M1 [M2 M3]]. auto.
  - intros T more G.
    destruct (statics_run_minted more s) as [l [E _]].
    apply (statics_get (run more s) t (T_static T)).
    rewrite E, nth_error_app1.
    + unfold statics. rewrite nth_error_map. unfold get_topic in G.
      now rewrite G.
    + unfold statics. rewrite length_map. apply nth_error_Some.
      unfold get_topic in G. congruence.
Qed.

(** ** A topic does not answer itself *)

Lemma trace_notify (fn : timer_fn) (eager : bool) (s : State) :
  trace (snd (Discovery__notify fn eager s)) = trace s.
Proof. unfold Discovery__notify, Math_random. now destruct (draws s). Qed.

Lemma byte_eqb_refl (b : byte) : byte_eqb b b = true.
Proof. unfold byte_eqb. apply N.eqb_refl. Qed.

Lemma Buffer_equals_refl (b : Buffer) : Buffer_equals b b = true.
Proof.
  induction b as [|x b IH]; [reflexivity|]. cbn.
  now rewrite byte_eqb_refl, IH.
Qed.

(** The query the loop of [_startMdns] sends for a topic names the
    topic's domain and carries its token where [_getId] looks for it;
    so when that query comes back to [_onmdnsquery], of this or of any
    state in which the topic has the same token, the topic adds nothing
    to the response. *)
Theorem own_query_is_filtered (s : State) (t : tid) (T : Topic) :
  get_topic t s = Some T ->
  trace (mdns_loop t s) = MdnsQuery (query_of T) :: trace s /\
  map q_name (questions (query_of T)) = [t_domain T] /\
  Discovery__getId (answers (query_of T)) (t_domain T) = Some (t_id T) /\
  (forall s' T' r,
     get_topic t s' = Some T' -> t_id T' = t_id T ->
     answer_for s' (Discovery__getId (answers (query_of T)) (t_domain T)) r t
     = r).
Proof.
  intros G. split; [|split; [reflexivity|split]].
  - unfold mdns_loop. rewrite G. fold (query_of T).
    pose proof (trace_notify (F_mdns_loop t) true
                  (log (MdnsQuery (query_of T)) s)) as N.
    destruct (Discovery__notify _ _ _) as [h s1]. cbn [snd] in N.
    unfold upd_topic. cbn [trace set_heap]. exact N.
  - cbn. now rewrite String.eqb_refl.
  - intros s' T' r G' E. unfold answer_for. rewrite G'.
    cbn [query_of answers Discovery__getId]. rewrite String.eqb_refl.
    cbn [is_self]. now rewrite E, Buffer_equals_refl.
Qed.

Lemma own_query_is_filtered_witness :
  let s := run [A_announce sample_key sample_announce] sample_session in
  exists T,
    get_topic 0%nat s = Some T /\
    Discovery__getId (answers (query_of T)) (t_domain T) = Some (t_id T).
Proof.
  cbv zeta.
  assert (G : exists T,
             get_topic 0%nat
               (run [A_announce sample_key sample_announce] sample_session)
             = Some T)
    by (vm_compute; eauto).
  destruct G as [T G]. exists T. split; [exact G|].
  exact (proj1 (proj2 (proj2 (own_query_is_filtered _ 0%nat T G)))).
Defined.

(** ** The Domain Index and the topics *)

Lemma caction_destroy_dec (a : caction) : {a = C_destroy} + {a <> C_destroy}.
Proof. destruct a; first [now left|right; discriminate]. Qed.

Lemma c_destroyed_step_eq (a : caction) (c : Core) :
  a <> C_destroy -> c_destroyed (c_step a c) = c_destroyed c.
Proof.
  intros N. destruct a; cbn [c_step]; try reflexivity.
  - now rewrite c_destroyed_topic.
  - cbn [c_destroyed c_upd c_set_topics]. now rewrite c_destroyed_topic.
  - now rewrite c_destroyed_Topic_destroy.
  - congruence.
  - destruct (c_ticks c) as [|f rest]; [reflexivity|].
    destruct f; cbn [c_run_task];
      [rewrite c_destroyed_emit|rewrite c_destroyed_done|]; reflexivity.
  - destruct (Set_has (c_unann c) t); [|reflexivity].
    now rewrite c_destroyed_emit.
  - unfold c_data. destruct (c_get t c) as [T|]; [|reflexivity].
    destruct (ct_destroyed T); [reflexivity|].
    now rewrite frame_fold by (intros; apply c_destroyed_emit).
  - now rewrite c_destroyed_emit.
  - unfold c_response. rewrite frame_fold; [reflexivity|].
    intros c' x. destruct (Map_get _ _); [|reflexivity].
    now rewrite frame_fold by (intros; apply c_destroyed_emit).
  - unfold c_pong. destruct (nth_error (c_pings c) pid) as [P|]; [|reflexivity].
    destruct (negb _); [reflexivity|].
    destruct pong; destruct (pg_res P); reflexivity.
Qed.

(** In every state of a session the Domain Index holds exactly the
    topics that are not destroyed: each of them once, under the domain
    of its key, and every domain once. *)
Theorem index_holds_live_topics (opts : discovery_opts) (draws : list Q)
    (entropy : list Buffer) (acts : list action) :
  let s := run acts (Discovery_new opts draws entropy) in
  NoDup (map fst (d_domains s)) /\
  (forall d set, In (d, set) (d_domains s) -> NoDup set) /\
  (forall d set t,
     In (d, set) (d_domains s) -> In t set ->
     exists T, get_topic t s = Some T /\ t_destroyed T = false /\
               d = Discovery__domain s (t_key T)) /\
  (forall t T,
     get_topic t s = Some T -> t_destroyed T = false ->
     exists set,
       Map_get (d_domains s) (Discovery__domain s (t_key T)) = Some set /\
       In t set).
Proof.
  intros s.
  assert (R : reachable s) by (now exists opts, draws, entropy, acts).
  destruct (inv_index _ _ _ (reachable_Inv s R)) as [I1 I2 I3 I4 I5].
  change (c_domains (erase s)) with (d_domains s) in *.
  assert (Dom : forall t T, get_topic t s = Some T ->
                  t_domain T = Discovery__domain s (t_key T)).
  { intros t T G. now destruct (reachable_minted s t T R G) as [M _]. }
  split; [exact I2|]. split; [exact I3|]. split.
  - intros d set t Hd Ht. destruct (I4 d set t Hd Ht) as [T [G [D E]]].
    rewrite c_get_erase in G.
    destruct (get_topic t s) as [T0|] eqn:G0; [|discriminate].
    cbn in G. injection G as <-. exists T0. cbn in D, E.
    split; [reflexivity|]. split; [exact D|].
    rewrite <- E. now apply (Dom t).
  - intros t T G D.
    destruct (I5 t (erase_topic T)) as [set [Hs Ht]].
    + now rewrite c_get_erase, G.
    + exact D.
    + exists set. split; [|exact Ht]. cbn [ct_domain erase_topic] in Hs.
      rewrite <- (Dom t T G). now apply In_Map_get.
Qed.

(** ** The ['close'] of a topic *)

Lemma emitted_close_erase (s : State) (t : tid) :
  emitted_close (erase s) t = count (is_close_emit t) (trace s).
Proof.
  unfold emitted_close. cbn [c_trace erase]. apply count_filter.
  intros e H. destruct e; try discriminate. reflexivity.
Qed.

Lemma Topic_destroy_destroys (t : tid) (s : State) (T : Topic) :
  get_topic t s = Some T ->
  exists T', get_topic t (Topic_destroy t s) = Some T' /\
             t_destroyed T' = true.
Proof.
  intros G. apply destroyed_read. rewrite erase_Topic_destroy.
  apply (destroyed_after_destroy t _ (erase_topic T)).
  now rewrite c_get_erase, G.
Qed.

(** A topic emits ['close'] at most once, and only once it is
    destroyed; a destroyed topic has emitted it as soon as no tick and
    no [unannounce] callback is outstanding.  [destroy()] itself emits
    nothing, and a second [destroy()] does nothing at all. *)
Theorem topic_close_at_most_once (opts : discovery_opts) (draws : list Q)
    (entropy : list Buffer) (acts : list action) (t : tid) :
  let s := run acts (Discovery_new opts draws entropy) in
  (count (is_close_emit t) (trace s) <= 1)%nat /\
  (In (Emit t Ev_close) (trace s) ->
   exists T, get_topic t s = Some T /\ t_destroyed T = true) /\
  (forall T, get_topic t s = Some T -> t_destroyed T = true ->
     quiescent s -> count (is_close_emit t) (trace s) = 1%nat) /\
  filter visible (trace (step (A_topic_destroy t) s))
  = filter visible (trace s) /\
  step (A_topic_destroy t) (step (A_topic_destroy t) s)
  = step (A_topic_destroy t) s.
Proof.
  intros s.
  assert (R : reachable s) by (now exists opts, draws, entropy, acts).
  pose proof (inv_close _ _ _ (reachable_Inv s R) t) as C.
  rewrite emitted_close_erase in C.
  split; [|split; [|split; [|split]]].
  - destruct (topic_destroyed (erase s) t); lia.
  - intros I.
    assert (N : count (is_close_emit t) (trace s) <> O).
    { apply (count_nonzero_In _ _ _ I). cbn. apply Nat.eqb_refl. }
    apply destroyed_read.
    destruct (topic_destroyed (erase s) t); [reflexivity|lia].
  - intros T G D [Q1 Q2].
    assert (E : topic_destroyed (erase s) t = true).
    { unfold topic_destroyed. now rewrite c_get_erase, G. }
    rewrite E in C. unfold pending_close in C.
    change (c_ticks (erase s)) with (ticks s) in C.
    change (c_unann (erase s)) with (unannounces s) in C.
    rewrite Q1, Q2 in C. cbn in C. exact C.
  - change (filter visible (trace (step (A_topic_destroy t) s)))
      with (c_trace (erase (step (A_topic_destroy t) s))).
    rewrite erase_step. cbn [abstraction c_step].
    now rewrite c_trace_Topic_destroy.
  - cbn [step].
    destruct (get_topic t s) as [T|] eqn:G.
    + destruct (Topic_destroy_destroys t s T G) as [T' [G' D']].
      set (s' := Topic_destroy t s) in *. unfold Topic_destroy.
      now rewrite G', D'.
    + assert (E0 : Topic_destroy t s = s)
        by (unfold Topic_destroy; now rewrite G).
      now rewrite !E0.
Qed.

(** ** A destroyed session *)

Lemma Map_all_nil (m : list (string * list tid)) :
  (forall d set, In (d, set) m -> set <> []) -> Map_all m = [] -> m = [].
Proof.
  intros H E. destruct m as [|[d set] m]; [reflexivity|].
  unfold Map_all in E. cbn in E. apply app_eq_nil in E as [E _].
  exfalso. apply (H d set); [now left|exact E].
Qed.

Lemma destroy_loop_empties (L : list tid) :
  forall (F : tid -> Prop) (c : Core),
    Inv F 1 c -> Map_all (c_domains c) = L ->
    Map_all (c_domains (fold_left destroy_round L c)) = [].
Proof.
  induction L as [|t L IH]; intros F c H E; [exact E|].
  destruct (destroy_round_spec F t L c H E) as [H1 [E1 _]].
  cbn [fold_left]. now apply (IH _ _ H1).
Qed.

Lemma c_destroy_empties (F : tid -> Prop) (c : Core) :
  Inv F 0 c -> c_domains (c_destroy c) = [] \/ c_destroyed c = true.
Proof.
  intros H. destruct (c_destroyed c) eqn:D; [now right|left].
  unfold c_destroy. rewrite D.
  set (c1 := c_set_missing 1 (c_set_destroyed true c)).
  assert (H1 : Inv F 1 c1).
  { destruct H as [Hix Hty Hcl Hid Hmi Hcs Hdd Hor Hfr].
    destruct (Hid D) as [A [B [C0 _]]].
    constructor; try assumption.
    - destruct Hix. now constructor.
    - intros D'. cbn in D'. discriminate.
    - intros _. change (owed c1) with (owed c).
      rewrite (owed_idle c A B). reflexivity.
    - intros _. exact C0. }
  destruct (destroy_loop (Map_all (c_domains c1)) F c1 H1 eq_refl) as [H2 _].
  pose proof (destroy_loop_empties (Map_all (c_domains c1)) F c1 H1 eq_refl)
    as E.
  change (fun c0 topic =>
            c_upd topic (ct_on N_close L_done)
              (c_Topic_destroy topic (c_set_missing (c_missing c0 + 1) c0)))
    with destroy_round.
  cbn [c_domains c_set_ticks].
  apply Map_all_nil; [|exact E].
  apply (ix_nonempty _ (inv_index _ _ _ H2)).
Qed.

Lemma c_domains_Topic_destroy_nil (t : tid) (c : Core) :
  c_domains c = [] -> c_domains (c_Topic_destroy t c) = [].
Proof.
  intros E. unfold c_Topic_destroy. destruct (c_get t c) as [T|]; [|exact E].
  destruct (ct_destroyed T); [exact E|].
  cbn [c_domains c_upd c_set_topics]. rewrite E. exact E.
Qed.

Lemma c_domains_done (c : Core) : c_domains (c_done c) = c_domains c.
Proof. unfold c_done. cbn. now destruct (c_missing c - 1 =? 0). Qed.

Lemma c_domains_run_listener_nil (t : tid) (e : event) (l : listener)
    (c : Core) :
  c_domains c = [] -> c_domains (c_run_listener t e l c) = [].
Proof.
  intros E. destruct l; cbn [c_run_listener]; try exact E.
  - destruct e; try exact E. cbn [c_domains c_log].
    now apply c_domains_Topic_destroy_nil.
  - now rewrite c_domains_done.
Qed.

Lemma c_domains_emit_nil (t : tid) (e : event) (c : Core) :
  c_domains c = [] -> c_domains (c_emit t e c) = [].
Proof.
  intros E. unfold c_emit. destruct (c_get t c) as [T|]; [|exact E].
  apply (Inv_fold (fun c => c_domains c = [])); [|exact E].
  intros c' l. apply c_domains_run_listener_nil.
Qed.

Lemma shut_step (a : action) (s : State) :
  d_destroyed s = true -> d_domains s = [] -> d_domains (step a s) = [].
Proof.
  intros D E.
  change (c_domains (erase (step a s)) = []). rewrite erase_step.
  assert (E' : c_domains (erase s) = []) by exact E.
  assert (K : forall b, (forall d an, b <> C_topic d an) ->
                (forall d cb, b <> C_lookupOne d cb) ->
                c_domains (c_step b (erase s)) = []).
  { intros b N1 N2. destruct b; cbn [c_step]; try exact E'.
    - now contradiction (N1 domain announcing).
    - now contradiction (N2 domain cb).
    - now apply c_domains_Topic_destroy_nil.
    - unfold c_destroy. cbn [c_destroyed erase]. now rewrite D.
    - destruct (c_ticks (erase s)) as [|f rest]; [exact E'|].
      destruct f; cbn [c_run_task]; try exact E'.
      + now apply c_domains_emit_nil.
      + now rewrite c_domains_done.
    - destruct (Set_has _ _); [|exact E']. now apply c_domains_emit_nil.
    - unfold c_data. destruct (c_get t (erase s)) as [T|]; [|exact E'].
      destruct (ct_destroyed T); [exact E'|].
      apply (Inv_fold (fun c => c_domains c = [])); [|exact E'].
      intros c' p. apply c_domains_emit_nil.
    - now apply c_domains_emit_nil.
    - unfold c_response.
      apply (Inv_fold (fun c => c_domains c = [])); [|exact E'].
      intros c' x H. now rewrite H.
    - unfold c_pong. destruct (nth_error _ _) as [P|]; [|exact E'].
      destruct (negb _); [exact E'|].
      destruct pong; destruct (pg_res P); exact E'. }
  apply K.
  - intros d an. destruct a; cbn [abstraction]; rewrite ?D; try discriminate;
      repeat match goal with
        | |- context [match ?x with _ => _ end] => destruct x
        end; discriminate.
  - intros d cb. destruct a; cbn [abstraction]; rewrite ?D; try discriminate;
      repeat match goal with
        | |- context [match ?x with _ => _ end] => destruct x
        end; discriminate.
Qed.

Lemma d_destroyed_run (acts : list action) (s : State) :
  d_destroyed s = true -> d_destroyed (run acts s) = true.
Proof.
  intros D. change (c_destroyed (erase (run acts s)) = true).
  rewrite erase_run. now apply c_destroyed_run.
Qed.

Lemma shut_run (acts : list action) :
  forall s, d_destroyed s = true -> d_domains s = [] ->
            d_domains (run acts s) = [].
Proof.
  induction acts as [|a acts IH]; intros s D E; [exact E|].
  cbn [run fold_left]. apply IH.
  - apply (d_destroyed_run [a] s D).
  - now apply shut_step.
Qed.

Lemma response_nothing (res : message) (address : string) :
  forall s, d_domains s = [] ->
    Discovery__onmdnsresponse res address s = s.
Proof.
  unfold Discovery__onmdnsresponse.
  induction (answers res) as [|a l IH]; intros s E; [reflexivity|].
  cbn [fold_left]. destruct a; try now apply IH.
  rewrite E. cbn [Map_get]. now apply IH.
Qed.

Lemma reachable_step (a : action) (s : State) :
  reachable s -> reachable (step a s).
Proof.
  intros [opts [draws [entropy [acts ->]]]].
  exists opts, draws, entropy, (acts ++ [a]). now rewrite run_app.
Qed.

Lemma reachable_run (acts : list action) (s : State) :
  reachable s -> reachable (run acts s).
Proof.
  intros [opts [draws [entropy [pre ->]]]].
  exists opts, draws, entropy, (pre ++ acts). now rewrite run_app.
Qed.

Lemma shut_after_step (a : action) (s : State) :
  reachable s -> (d_destroyed s = true -> d_domains s = []) ->
  d_destroyed (step a s) = true -> d_domains (step a s) = [].
Proof.
  intros R H D'. destruct (d_destroyed s) eqn:D.
  - apply shut_step; auto.
  - assert (A : abstraction a s = C_destroy).
    { destruct (caction_destroy_dec (abstraction a s)) as [A|A]; [exact A|].
      exfalso.
      change (c_destroyed (erase (step a s)) = true) in D'.
      rewrite erase_step, (c_destroyed_step_eq _ _ A) in D'.
      change (c_destroyed (erase s)) with (d_destroyed s) in D'. congruence. }
    change (c_domains (erase (step a s)) = []). rewrite erase_step, A.
    cbn [c_step].
    destruct (c_destroy_empties _ (erase s) (reachable_Inv s R)) as [X|X];
      [exact X|].
    change (c_destroyed (erase s)) with (d_destroyed s) in X. congruence.
Qed.

Lemma shut_reachable (s : State) :
  reachable s -> d_destroyed s = true -> d_domains s = [].
Proof.
  intros [opts [draws [entropy [acts ->]]]].
  assert (G : forall l s0, reachable s0 ->
                (d_destroyed s0 = true -> d_domains s0 = []) ->
                d_destroyed (run l s0) = true -> d_domains (run l s0) = []).
  { induction l as [|a l IH]; intros s0 R H; [exact H|].
    cbn [run fold_left]. apply IH.
    - now apply reachable_step.
    - now apply shut_after_step. }
  apply G.
  - now exists opts, draws, entropy, [].
  - discriminate.
Qed.

(** After [destroy()] the session stays destroyed: the Domain Index is
    empty and stays empty, every topic is destroyed, [lookup],
    [announce] and [lookupOne] throw and create nothing, an inbound
    query gets an empty response, an inbound response is dropped, and a
    second [destroy()] does nothing. *)
Theorem session_destroyed_for_good (opts : discovery_opts)
    (draws : list Q) (entropy : list Buffer) (pre post : list action) :
  let s := run post
             (step A_destroy (run pre (Discovery_new opts draws entropy))) in
  d_destroyed s = true /\ d_domains s = [] /\
  (forall t T, get_topic t s = Some T -> t_destroyed T = true) /\
  (forall key,
     step (A_lookup key) s = log (Throw "Discovery instance is destroyed") s) /\
  (forall key o,
     step (A_announce key o) s
     = log (Throw "Discovery instance is destroyed") s) /\
  (forall key cb,
     step (A_lookupOne key cb) s
     = log (Throw "Discovery instance is destroyed") s) /\
  (forall res,
     step (E_query res) s = log (MdnsResponse (mk_msg [] [])) s) /\
  (forall res address, step (E_response res address) s = s) /\
  step A_destroy s = s.
Proof.
  intros s.
  set (s0 := run pre (Discovery_new opts draws entropy)) in *.
  set (s1 := step A_destroy s0) in *.
  assert (R0 : reachable s0) by (now exists opts, draws, entropy, pre).
  assert (D1 : d_destroyed s1 = true).
  { unfold s1. cbn [step]. unfold Discovery_destroy.
    destruct (d_destroyed s0) eqn:D0; [exact D0|].
    unfold process_nextTick. cbn [d_destroyed set_ticks].
    match goal with
    | |- d_destroyed (fold_left ?f ?l ?x) = true =>
        change (c_destroyed (erase (fold_left f l x)) = true)
    end.
    pose proof (erase_Discovery_destroy s0) as E.
    destruct (Inv_destroy_live (fun _ => False) (erase s0) D0
                (reachable_Inv s0 R0)) as [_ [_ X]].
    rewrite <- E in X. unfold Discovery_destroy in X. rewrite D0 in X.
    exact X. }
  assert (R1 : reachable s1).
  { exists opts, draws, entropy, (pre ++ [A_destroy]).
    now rewrite run_app. }
  assert (E1 : d_domains s1 = []) by (now apply shut_reachable).
  assert (D : d_destroyed s = true) by (now apply d_destroyed_run).
  assert (E : d_domains s = []) by (now apply shut_run).
  assert (R : reachable s).
  { exists opts, draws, entropy, (pre ++ [A_destroy] ++ post).
    now rewrite !run_app. }
  split; [exact D|]. split; [exact E|].
  split; [|split; [|split; [|split; [|split; [|split]]]]].
  - intros t T G. destruct (t_destroyed T) eqn:DT; [reflexivity|].
    destruct (ix_all _ (inv_index _ _ _ (reachable_Inv s R)) t (erase_topic T))
      as [set [Hs _]].
    + now rewrite c_get_erase, G.
    + exact DT.
    + change (c_domains (erase s)) with (d_domains s) in Hs.
      rewrite E in Hs. contradiction.
  - intros key. cbn [step]. unfold Discovery_lookup. now rewrite D.
  - intros key o. cbn [step]. unfold Discovery_announce. now rewrite D.
  - intros key cb. cbn [step].
    unfold Discovery_lookupOne, Discovery_lookup. now rewrite D.
  - intros res. rewrite onmdnsquery_eq. do 3 f_equal.
    induction (questions res) as [|q qs IH]; [reflexivity|].
    cbn [flat_map]. rewrite IH. unfold question_answers. rewrite E.
    cbn [Map_get]. now destruct (String.eqb _ _).
  - intros res address. cbn [step]. now apply response_nothing.
  - cbn [step]. unfold Discovery_destroy. now rewrite D.
Qed.

(** ** What a step emits *)

Lemma emissions_app (a b : list effect) :
  emissions (a ++ b) = emissions a ++ emissions b.
Proof. apply filter_app. Qed.

Lemma events_on_emissions (t : tid) (tr : list effect) :
  events_on t (emissions tr) = events_on t tr.
Proof.
  induction tr as [|e tr IH]; [reflexivity|].
  unfold events_on, emissions in *. destruct e; cbn; rewrite ?IH; reflexivity.
Qed.

Lemma emissions_visible (tr : list effect) :
  emissions (filter visible tr) = emissions tr.
Proof.
  induction tr as [|e tr IH]; [reflexivity|].
  unfold emissions in *. destruct e; cbn; rewrite ?IH; reflexivity.
Qed.

Lemma emissions_erase (s : State) :
  emissions (c_trace (erase s)) = emissions (trace s).
Proof. apply emissions_visible. Qed.

Lemma emissions_done (c : Core) :
  emissions (c_trace (c_done c)) = emissions (c_trace c).
Proof. unfold c_done. cbn. now destruct (c_missing c - 1 =? 0). Qed.

Lemma emissions_run_listener (t : tid) (e : event) (l : listener)
    (c : Core) :
  emissions (c_trace (c_run_listener t e l c)) = emissions (c_trace c).
Proof.
  destruct l; cbn [c_run_listener]; try reflexivity.
  - destruct e; try reflexivity. cbn [c_trace c_log].
    unfold emissions. cbn [filter is_emit].
    now rewrite c_trace_Topic_destroy.
  - apply emissions_done.
Qed.

Lemma emissions_emit (t : tid) (e : event) (c : Core) :
  emissions (c_trace (c_emit t e c))
  = (if is_some (c_get t c) then [Emit t e] else [])
    ++ emissions (c_trace c).
Proof.
  unfold c_emit. destruct (c_get t c) as [T|]; [|reflexivity].
  rewrite (frame_fold (fun c => emissions (c_trace c)))
    by (intros; apply emissions_run_listener).
  reflexivity.
Qed.

(** *** The topics through an emission *)

Lemma evolves_refl (c : Core) : evolves c c.
Proof. intros t. destruct (c_get t c); auto. Qed.

Lemma evolves_trans (c1 c2 c3 : Core) :
  evolves c1 c2 -> evolves c2 c3 -> evolves c1 c3.
Proof.
  intros A B t. specialize (A t). specialize (B t).
  destruct (c_get t c1), (c_get t c2), (c_get t c3); try tauto.
  destruct A as [A1 A2], B as [B1 B2]. split; [congruence|auto].
Qed.

Lemma evolves_upd (t : tid) (f : CTopic -> CTopic) (c : Core) :
  (forall T, ct_domain (f T) = ct_domain T) ->
  (forall T, ct_destroyed T = true -> ct_destroyed (f T) = true) ->
  evolves c (c_upd t f c).
Proof.
  intros H1 H2 t'. rewrite c_get_upd. destruct (c_get t' c) as [T|]; cbn;
    [|exact Logic.I].
  destruct (Nat.eqb t t'); auto.
Qed.

Lemma evolves_same_topics (c c' : Core) :
  c_topics c' = c_topics c -> evolves c c'.
Proof.
  intros E t. unfold c_get. rewrite E. destruct (nth_error _ _); auto.
Qed.

Lemma evolves_Topic_destroy (t : tid) (c : Core) :
  evolves c (c_Topic_destroy t c).
Proof.
  unfold c_Topic_destroy. destruct (c_get t c) as [T|]; [|apply evolves_refl].
  destruct (ct_destroyed T); [apply evolves_refl|].
  apply (evolves_trans _ (c_upd t (ct_set_destroyed true) c)).
  { apply evolves_upd; auto. }
  destruct (Map_get _ _) as [set|]; [|apply evolves_refl].
  apply evolves_same_topics.
  destruct (Set_delete set t); destruct (ct_announcing T); reflexivity.
Qed.

Lemma evolves_done (c : Core) : evolves c (c_done c).
Proof.
  apply evolves_same_topics. unfold c_done. cbn.
  now destruct (c_missing c - 1 =? 0).
Qed.

Lemma evolves_run_listener (t : tid) (e : event) (l : listener) (c : Core) :
  evolves c (c_run_listener t e l c).
Proof.
  destruct l as [n|cb|cb|]; cbn [c_run_listener].
  - apply evolves_refl.
  - now apply evolves_same_topics.
  - destruct e as [p| |]; try apply evolves_refl.
    set (c1 := c_upd t (ct_removeListener N_peer (L_onpeer cb)) c).
    set (c2 := c_upd t (ct_removeListener N_close (L_onclose cb)) c1).
    apply (evolves_trans _ (c_Topic_destroy t c2));
      [|now apply evolves_same_topics].
    apply (evolves_trans _ c2); [|apply evolves_Topic_destroy].
    apply (evolves_trans _ c1); apply evolves_upd; auto.
  - apply evolves_done.
Qed.

Lemma evolves_fold {A : Type} (f : Core -> A -> Core) (l : list A) :
  (forall c a, evolves c (f c a)) ->
  forall c, evolves c (fold_left f l c).
Proof.
  intros H. induction l as [|a l IH]; intros c; [apply evolves_refl|].
  cbn. eapply evolves_trans; [apply H|apply IH].
Qed.

Lemma evolves_emit (t : tid) (e : event) (c : Core) :
  evolves c (c_emit t e c).
Proof.
  unfold c_emit. destruct (c_get t c) as [T|]; [|apply evolves_refl].
  apply (evolves_trans _ (c_log (Emit t e) c));
    [now apply evolves_same_topics|].
  apply evolves_fold. intros. apply evolves_run_listener.
Qed.

Lemma evolves_destroyed (c c' : Core) (t : tid) :
  evolves c c' -> topic_destroyed c t = true -> topic_destroyed c' t = true.
Proof.
  intros E. specialize (E t). unfold topic_destroyed.
  destruct (c_get t c), (c_get t c'); try tauto; try discriminate.
Qed.

Lemma evolves_some (c c' : Core) (t : tid) :
  evolves c c' -> is_some (c_get t c') = is_some (c_get t c).
Proof.
  intros E. specialize (E t).
  destruct (c_get t c), (c_get t c'); try tauto; reflexivity.
Qed.

(** the listeners of a topic change only that topic *)
Lemma c_get_Topic_destroy_ne (t t' : tid) (c : Core) :
  t <> t' -> c_get t' (c_Topic_destroy t c) = c_get t' c.
Proof.
  intros N. unfold c_Topic_destroy. destruct (c_get t c) as [T|]; [|reflexivity].
  destruct (ct_destroyed T); [reflexivity|].
  assert (E : c_get t' (c_upd t (ct_set_destroyed true) c) = c_get t' c)
    by (now apply c_get_upd_ne).
  destruct (Map_get _ _) as [set|]; [|exact E].
  destruct (Set_delete set t); destruct (ct_announcing T); exact E.
Qed.

Lemma c_get_done (t : tid) (c : Core) : c_get t (c_done c) = c_get t c.
Proof. unfold c_done, c_get. cbn. now destruct (c_missing c - 1 =? 0). Qed.

Lemma c_get_run_listener_ne (t t' : tid) (e : event) (l : listener)
    (c : Core) :
  t <> t' -> c_get t' (c_run_listener t e l c) = c_get t' c.
Proof.
  intros N. destruct l; cbn [c_run_listener]; try reflexivity.
  - destruct e; try reflexivity.
    change (c_get t' (c_log ?x ?y)) with (c_get t' y).
    now rewrite c_get_Topic_destroy_ne, !c_get_upd_ne.
  - apply c_get_done.
Qed.

Lemma c_get_emit_ne (t t' : tid) (e : event) (c : Core) :
  t <> t' -> c_get t' (c_emit t e c) = c_get t' c.
Proof.
  intros N. unfold c_emit. destruct (c_get t c) as [T|]; [|reflexivity].
  rewrite (frame_fold (fun c => c_get t' c))
    by (intros; now apply c_get_run_listener_ne).
  reflexivity.
Qed.

(** ** The data of a DHT stream *)

Lemma filter_rev_eq {A : Type} (p : A -> bool) (l : list A) :
  filter p (rev l) = rev (filter p l).
Proof.
  induction l as [|x l IH]; [reflexivity|].
  cbn [rev filter]. rewrite filter_app, IH. cbn [filter].
  destruct (p x); cbn [rev]; [reflexivity|now rewrite app_nil_r].
Qed.

Lemma emissions_history (s : State) :
  emissions (history s) = rev (emissions (c_trace (erase s))).
Proof.
  unfold history. rewrite emissions_erase. apply filter_rev_eq.
Qed.

Lemma data_emissions (t : tid) (ps : list peer) :
  forall c,
    is_some (c_get t c) = true ->
    emissions
      (c_trace (fold_left (fun c p => c_emit t (Ev_peer p) c) ps c))
    = rev (map (fun p => Emit t (Ev_peer p)) ps) ++ emissions (c_trace c).
Proof.
  induction ps as [|p ps IH]; intros c G; [reflexivity|].
  cbn [fold_left map rev]. rewrite IH.
  - rewrite emissions_emit, G, <- app_assoc. reflexivity.
  - rewrite (evolves_some c); [exact G|apply evolves_emit].
Qed.

(** [_ondhtdata] on a topic that is not destroyed when the data
    arrives surfaces every entry of the data as a ['peer'] event of that
    topic, one by one and in order, the local peers before the others,
    also when [onpeer] of [lookupOne] destroys the topic at the first of
    them: [destroyed] is read once, before the loops.  (The listeners of
    the caller are only recorded: they return and call nothing.)  On a
    topic that is destroyed already it does nothing.  The local
    candidates carry no referrer; the others carry the node the data
    came from, so that [holepunch] on such a candidate hands it to
    [dht.holepunch] with that node. *)
Theorem dht_data_surfaces_every_peer (s : State) (sid : nat)
    (data : dht_data) :
  let s' := step (E_data sid data) s in
  match nth_error (loops s) sid with
  | None => s' = s
  | Some L =>
      match get_topic (lp_topic L) s with
      | None => s' = s
      | Some T =>
          if t_destroyed T then s' = s
          else
            emissions (history s')
            = emissions (history s)
              ++ map (fun p => Emit (lp_topic L) (Ev_peer p)) (peers_of data)
      end
  end /\
  (forall p, In p (peers_of data) ->
     (p_local p = true /\ p_referrer p = None) \/
     (p_local p = false /\ p_referrer p = Some (data_node data))) /\
  (forall p cb s0, In p (peers_of data) -> p_local p = false ->
     step (A_holepunch p cb) s0
     = log (DhtHolepunch p (data_node data) cb) s0).
Proof.
  intros s'.
  assert (K : forall p, In p (peers_of data) ->
            (p_local p = true /\ p_referrer p = None) \/
            (p_local p = false /\ p_referrer p = Some (data_node data))).
  { intros p I. unfold peers_of in I. apply in_app_iff in I as [I|I];
      apply in_map_iff in I as [a [<- _]]; cbn; auto. }
  split; [|split; [exact K|]].
  - unfold s'. cbn [step].
    destruct (nth_error (loops s) sid) as [L|] eqn:EL; [|reflexivity].
    unfold Topic__ondhtdata.
    destruct (get_topic (lp_topic L) s) as [T|] eqn:G; [|reflexivity].
    destruct (t_destroyed T) eqn:D; [reflexivity|].
    pose proof (erase_step (E_data sid data) s) as E.
    cbn [step abstraction] in E. rewrite EL in E.
    unfold Topic__ondhtdata in E. rewrite G, D in E.
    rewrite !emissions_history, E. cbn [c_step]. unfold c_data.
    rewrite c_get_erase, G. cbn [option_map erase_topic ct_destroyed].
    rewrite D, data_emissions.
    + rewrite rev_app_distr, rev_involutive. reflexivity.
    + now rewrite c_get_erase, G.
  - intros p cb s0 I Lp. destruct (K p I) as [[A _]|[_ R]]; [congruence|].
    cbn [step]. unfold Discovery_holepunch. now rewrite R.
Qed.

(** ** A destroyed topic *)

Lemma events_on_app (t : tid) (a b : list effect) :
  events_on t (a ++ b) = events_on t a ++ events_on t b.
Proof. apply flat_map_app. Qed.

Lemma events_on_rev (t : tid) (tr : list effect) :
  events_on t (rev tr) = rev (events_on t tr).
Proof.
  induction tr as [|e tr IH]; [reflexivity|].
  cbn [rev]. rewrite events_on_app, IH.
  change (events_on t (e :: tr)) with (event_on t e ++ events_on t tr).
  rewrite rev_app_distr. f_equal.
  unfold events_on. cbn. rewrite app_nil_r.
  destruct e; try reflexivity. cbn. now destruct (Nat.eqb t0 t).
Qed.

Lemma events_on_erase (s : State) (t : tid) :
  events_on t (c_trace (erase s)) = events_on t (trace s).
Proof.
  now rewrite <- events_on_emissions, emissions_erase, events_on_emissions.
Qed.

Lemma emitted_close_events (t : tid) (tr : list effect) :
  count (is_close_emit t) tr = count is_close_ev (events_on t tr).
Proof.
  induction tr as [|e tr IH]; [reflexivity|].
  change (events_on t (e :: tr)) with (event_on t e ++ events_on t tr).
  rewrite count_app, <- IH. unfold count at 1. cbn [filter].
  destruct e; try reflexivity. cbn [is_close_emit event_on].
  rewrite (Nat.eqb_sym t t0).
  destruct e; destruct (Nat.eqb t0 t); reflexivity.
Qed.

Lemma events_same (t : tid) (c c' : Core) :
  emissions (c_trace c') = emissions (c_trace c) ->
  events_on t (c_trace c') = events_on t (c_trace c).
Proof.
  intros E.
  now rewrite <- events_on_emissions, E, events_on_emissions.
Qed.

Lemma events_emit_other (t t' : tid) (e : event) (c : Core) :
  t' <> t -> events_on t (c_trace (c_emit t' e c)) = events_on t (c_trace c).
Proof.
  intros N. rewrite <- events_on_emissions, emissions_emit, events_on_app,
    events_on_emissions.
  destruct (is_some _); [|reflexivity].
  cbn. apply Nat.eqb_neq in N. now rewrite N.
Qed.

Lemma events_emit_self (t : tid) (e : event) (c : Core) :
  is_some (c_get t c) = true ->
  events_on t (c_trace (c_emit t e c)) = e :: events_on t (c_trace c).
Proof.
  intros G. rewrite <- events_on_emissions, emissions_emit, events_on_app,
    events_on_emissions, G.
  cbn. now rewrite Nat.eqb_refl.
Qed.

Lemma emissions_c_destroy (c : Core) :
  emissions (c_trace (c_destroy c)) = emissions (c_trace c).
Proof.
  unfold c_destroy. destruct (c_destroyed c); [reflexivity|].
  cbn [c_trace c_set_ticks].
  rewrite (frame_fold (fun c => emissions (c_trace c))); [reflexivity|].
  intros c' x. cbn [c_trace c_upd c_set_topics].
  now rewrite c_trace_Topic_destroy.
Qed.

Lemma emissions_c_topic (d : string) (a : bool) (c : Core) :
  c_trace (c_topic d a c) = c_trace c.
Proof. now rewrite c_topic_eq. Qed.

Lemma response_silent (F : tid -> Prop) (t : tid) (l : list (string * peer)) :
  forall c,
    Inv F 0 c -> topic_destroyed c t = true ->
    events_on t (c_trace (c_response l c)) = events_on t (c_trace c).
Proof.
  unfold c_response.
  induction l as [|a l IH]; intros c I D; [reflexivity|].
  cbn [fold_left].
  destruct (Map_get (c_domains c) (fst a)) as [set|] eqn:G; [|now apply IH].
  assert (N : ~ In t set).
  { intros Ht. apply Map_get_In in G.
    destruct (ix_live _ (inv_index _ _ _ I) _ _ t G Ht) as [T [GT [L _]]].
    unfold topic_destroyed in D. rewrite GT in D. congruence. }
  set (f := fun c topic => c_emit topic (Ev_peer (snd a)) c).
  assert (K : forall set0 c0,
             ~ In t set0 -> Inv F 0 c0 -> topic_destroyed c0 t = true ->
             Inv F 0 (fold_left f set0 c0) /\
             topic_destroyed (fold_left f set0 c0) t = true /\
             events_on t (c_trace (fold_left f set0 c0))
             = events_on t (c_trace c0)).
  { induction set0 as [|x set0 IH0]; intros c0 N0 I0 D0; [auto|].
    cbn [fold_left].
    destruct (IH0 (f c0 x)) as [A [B C]].
    - intros H. apply N0. now right.
    - apply Inv_emit_peer, I0.
    - apply (evolves_destroyed c0); [apply evolves_emit|exact D0].
    - split; [exact A|]. split; [exact B|]. rewrite C.
      apply events_emit_other. intros ->. apply N0. now left. }
  destruct (K set c N I D) as [A [B C]].
  rewrite IH; auto.
Qed.

Lemma silent_step (F : tid -> Prop) (t : tid) (a : caction) (c : Core) :
  Inv F 0 c -> topic_destroyed c t = true ->
  (forall err, a <> C_update t err) ->
  events_on t (c_trace (c_step a c)) = events_on t (c_trace c) \/
  (events_on t (c_trace (c_step a c)) = Ev_close :: events_on t (c_trace c) /\
   emitted_close c t = O).
Proof.
  intros I D U.
  assert (G : is_some (c_get t c) = true).
  { unfold topic_destroyed in D. now destruct (c_get t c). }
  pose proof (inv_close _ _ _ I t) as C. rewrite D in C.
  destruct a; cbn [c_step].
  - now left.
  - left. now rewrite emissions_c_topic.
  - left. cbn [c_trace c_upd c_set_topics]. now rewrite emissions_c_topic.
  - left. now rewrite c_trace_Topic_destroy.
  - left. apply events_same, emissions_c_destroy.
  - now left.
  - destruct (c_ticks c) as [|f rest] eqn:E; [now left|].
    destruct f as [t'| |cb r]; cbn [c_run_task].
    + destruct (Nat.eq_dec t' t) as [->|N].
      * right. split.
        -- exact (events_emit_self t Ev_close (c_set_ticks rest c) G).
        -- unfold pending_close in C. rewrite E in C.
           unfold count at 1 in C. cbn in C. rewrite Nat.eqb_refl in C.
           cbn in C. lia.
      * left. exact (events_emit_other t t' Ev_close (c_set_ticks rest c) N).
    + left. exact (events_same t (c_set_ticks rest c) _ (emissions_done _)).
    + now left.
  - destruct (Set_has (c_unann c) t0) eqn:E; [|now left].
    destruct (Nat.eq_dec t0 t) as [->|N].
    + right. split.
      * exact (events_emit_self t Ev_close
                 (c_set_unann (Set_delete (c_unann c) t) c) G).
      * apply Set_has_In in E. unfold pending_close in C.
        assert (X : count (Nat.eqb t) (c_unann c) <> O).
        { apply (count_nonzero_In _ _ t); [exact E|apply Nat.eqb_refl]. }
        unfold tid in *. lia.
    + left.
      exact (events_emit_other t t0 Ev_close
               (c_set_unann (Set_delete (c_unann c) t0) c) N).
  - left. unfold c_data. destruct (c_get t0 c) as [T|] eqn:G0; [|reflexivity].
    destruct (ct_destroyed T) eqn:D0; [reflexivity|].
    assert (N : t0 <> t).
    { intros ->. unfold topic_destroyed in D. rewrite G0 in D. congruence. }
    apply (frame_fold (fun c => events_on t (c_trace c))).
    intros c' p. now apply events_emit_other.
  - left. apply events_emit_other. intros ->. now apply (U err).
  - left. now apply (response_silent F).
  - now left.
  - now left.
  - left. unfold c_pong. destruct (nth_error _ _) as [P|]; [|reflexivity].
    destruct (negb _); [reflexivity|].
    destruct pong; destruct (pg_res P); reflexivity.
Qed.

Lemma topic_destroyed_topic (t : tid) (d : string) (a : bool) (c : Core) :
  topic_destroyed c t = true -> topic_destroyed (c_topic d a c) t = true.
Proof.
  rewrite c_topic_eq. unfold topic_destroyed, c_get. cbn.
  destruct (nth_error (c_topics c) t) as [T|] eqn:G; [|discriminate].
  rewrite nth_error_app1; [now rewrite G|].
  apply nth_error_Some. congruence.
Qed.

Lemma topic_destroyed_step (t : tid) (a : caction) (c : Core) :
  topic_destroyed c t = true -> topic_destroyed (c_step a c) t = true.
Proof.
  intros D.
  assert (E : forall c', evolves c c' -> topic_destroyed c' t = true).
  { intros c' H. now apply (evolves_destroyed c). }
  destruct a; cbn [c_step].
  - exact D.
  - now apply topic_destroyed_topic.
  - apply topic_destroyed_upd; [now destruct T|].
    apply topic_destroyed_upd; [now destruct T|].
    now apply topic_destroyed_topic.
  - apply E, evolves_Topic_destroy.
  - apply E. unfold c_destroy. destruct (c_destroyed c); [apply evolves_refl|].
    apply (evolves_trans _ (c_set_missing 1 (c_set_destroyed true c)));
      [now apply evolves_same_topics|].
    match goal with
    | |- evolves ?x (c_set_ticks _ ?y) =>
        apply (evolves_trans _ y); [|now apply evolves_same_topics]
    end.
    apply evolves_fold. intros c' x.
    apply (evolves_trans _ (c_set_missing (c_missing c' + 1) c'));
      [now apply evolves_same_topics|].
    eapply evolves_trans; [apply evolves_Topic_destroy|].
    apply evolves_upd; auto.
  - apply E. apply evolves_upd; [now destruct n|now destruct n].
  - destruct (c_ticks c) as [|f rest]; [exact D|].
    apply E.
    apply (evolves_trans _ (c_set_ticks rest c));
      [now apply evolves_same_topics|].
    destruct f; cbn [c_run_task];
      [apply evolves_emit|apply evolves_done|now apply evolves_same_topics].
  - destruct (Set_has _ _); [|exact D]. apply E.
    eapply evolves_trans; [|apply evolves_emit].
    now apply evolves_same_topics.
  - apply E. unfold c_data. destruct (c_get t0 c) as [T|]; [|apply evolves_refl].
    destruct (ct_destroyed T); [apply evolves_refl|].
    apply evolves_fold. intros. apply evolves_emit.
  - apply E, evolves_emit.
  - apply E. unfold c_response. apply evolves_fold. intros c' x.
    destruct (Map_get _ _); [|apply evolves_refl].
    apply evolves_fold. intros. apply evolves_emit.
  - exact D.
  - exact D.
  - unfold c_pong. destruct (nth_error _ _) as [P|]; [|exact D].
    destruct (negb _); [exact D|].
    destruct pong; destruct (pg_res P); exact D.
Qed.

Lemma abstraction_update_live (a : action) (s : State) (t : tid)
    (err : option string) :
  abstraction a s = C_update t err -> topic_destroyed (erase s) t = false.
Proof.
  intros A.
  assert (K : forall sid,
             match nth_error (loops s) sid with
             | None => C_skip
             | Some L =>
                 match get_topic (lp_topic L) s with
                 | None => C_skip
                 | Some T =>
                     if lp_called L || t_destroyed T then C_skip
                     else C_update (lp_topic L) err
                 end
             end = C_update t err ->
             topic_destroyed (erase s) t = false).
  { intros sid H. destruct (nth_error (loops s) sid) as [L|]; [|discriminate].
    destruct (get_topic (lp_topic L) s) as [T|] eqn:G; [|discriminate].
    destruct (lp_called L || t_destroyed T) eqn:B; [discriminate|].
    injection H as <-. unfold topic_destroyed. rewrite c_get_erase, G.
    cbn. now apply orb_false_iff in B. }
  destruct a; cbn [abstraction] in A; try discriminate.
  - destruct (d_destroyed s); discriminate.
  - destruct (d_destroyed s); discriminate.
  - destruct (d_destroyed s); discriminate.
  - destruct (d_bootstrap s); discriminate.
  - destruct (nth_error (loops s) sid); discriminate.
  - apply (K sid).
    destruct (nth_error (loops s) sid) as [L|]; [|discriminate].
    destruct (get_topic (lp_topic L) s) as [T|]; [|discriminate].
    destruct (lp_called L || t_destroyed T); [discriminate|].
    injection A as A1 A2. now subst.
  - apply (K sid).
    destruct (nth_error (loops s) sid) as [L|]; [|discriminate].
    destruct (get_topic (lp_topic L) s) as [T|]; [|discriminate].
    destruct (lp_called L || t_destroyed T); [discriminate|].
    injection A as A1 A2. now subst.
Qed.

Lemma silent_run (t : tid) (post : list action) :
  forall s,
    reachable s -> topic_destroyed (erase s) t = true ->
    events_on t (trace (run post s)) = events_on t (trace s) \/
    (events_on t (trace (run post s)) = Ev_close :: events_on t (trace s) /\
     count (is_close_emit t) (trace s) = O).
Proof.
  induction post as [|a post IH]; intros s R D; [now left|].
  cbn [run fold_left]. fold (run post (step a s)).
  assert (S : events_on t (trace (step a s)) = events_on t (trace s) \/
              (events_on t (trace (step a s))
               = Ev_close :: events_on t (trace s) /\
               count (is_close_emit t) (trace s) = O)).
  { rewrite <- !events_on_erase, <- emitted_close_erase, erase_step.
    apply (silent_step (fun _ => False)); [now apply reachable_Inv|exact D|].
    intros err A. apply abstraction_update_live in A. congruence. }
  assert (D' : topic_destroyed (erase (step a s)) t = true).
  { rewrite erase_step. now apply topic_destroyed_step. }
  destruct (IH (step a s) (reachable_step a s R) D') as [H|[H1 H2]];
    destruct S as [S|[S1 S2]].
  - left. congruence.
  - right. split; [congruence|exact S2].
  - right. split; [congruence|].
    rewrite emitted_close_events in *. now rewrite <- S.
  - exfalso. rewrite emitted_close_events, S1 in H2.
    unfold count in H2. cbn in H2. discriminate.
Qed.

(** A topic that is destroyed when a turn of the event loop begins emits
    no ['peer'] and no ['update'] from then on: all it ever emits is its
    one ['close'], if that is still to come. *)
Theorem destroyed_topic_only_closes (opts : discovery_opts)
    (draws : list Q) (entropy : list Buffer) (pre post : list action)
    (t : tid) (T : Topic) :
  let s := run pre (Discovery_new opts draws entropy) in
  let s' := run post s in
  get_topic t s = Some T -> t_destroyed T = true ->
  events_on t (history s') = events_on t (history s) \/
  (events_on t (history s') = events_on t (history s) ++ [Ev_close] /\
   ~ In Ev_close (events_on t (history s))).
Proof.
  intros s s' G D. unfold s', history. rewrite !events_on_rev.
  assert (R : reachable s) by (now exists opts, draws, entropy, pre).
  assert (D0 : topic_destroyed (erase s) t = true).
  { unfold topic_destroyed. now rewrite c_get_erase, G. }
  destruct (silent_run t post s R D0) as [H|[H1 H2]].
  - left. now rewrite H.
  - right. split; [now rewrite H1|].
    intros I. apply in_rev in I.
    rewrite emitted_close_events in H2.
    now apply (count_nonzero_In is_close_ev _ Ev_close I).
Qed.

Lemma destroyed_topic_only_closes_witness :
  let s := run [A_lookup sample_key; A_topic_destroy 0%nat] sample_session in
  let s' := run [E_data 0%nat sample_data; E_end 0%nat; E_tick] s in
  events_on 0%nat (history s') = events_on 0%nat (history s) ++ [Ev_close].
Proof.
  cbv zeta.
  assert (G : exists T,
             get_topic 0%nat
               (run [A_lookup sample_key; A_topic_destroy 0%nat]
                  (Discovery_new (mk_dopts (Some "test.local") None) [] []))
             = Some T /\ t_destroyed T = true).
  { vm_compute. eauto. }
  destruct G as [T [G D]].
  destruct (destroyed_topic_only_closes (mk_dopts (Some "test.local") None)
              [] [] [A_lookup sample_key; A_topic_destroy 0%nat]
              [E_data 0%nat sample_data; E_end 0%nat; E_tick] 0%nat T G D)
    as [H|[H _]].
  - exfalso. vm_compute in H. discriminate.
  - exact H.
Defined.

(** ** The answers of a multicast response *)

Lemma inner_emissions (p : peer) (set : list tid) :
  forall c,
    (forall t, In t set -> is_some (c_get t c) = true) ->
    emissions
      (c_trace (fold_left (fun c topic => c_emit topic (Ev_peer p) c) set c))
    = rev (map (fun t => Emit t (Ev_peer p)) set) ++ emissions (c_trace c).
Proof.
  induction set as [|x set IH]; intros c G; [reflexivity|].
  cbn [fold_left map rev]. rewrite IH.
  - rewrite emissions_emit, (G x) by (now left).
    now rewrite <- app_assoc.
  - intros t Ht. rewrite (evolves_some c); [|apply evolves_emit].
    apply G. now right.
Qed.

Lemma inner_keeps (p : peer) (t : tid) (set : list tid) :
  forall c,
    ~ In t set ->
    c_get t (fold_left (fun c topic => c_emit topic (Ev_peer p) c) set c)
    = c_get t c.
Proof.
  induction set as [|x set IH]; intros c N; [reflexivity|].
  cbn [fold_left]. rewrite IH by (intros H; apply N; now right).
  apply c_get_emit_ne. intros ->. apply N. now left.
Qed.

Lemma index_members (F : tid -> Prop) (c : Core) (d : string)
    (set : list tid) :
  Inv F 0 c -> Map_get (c_domains c) d = Some set ->
  forall t, In t set ->
    exists T, c_get t c = Some T /\ ct_destroyed T = false /\
              ct_domain T = d.
Proof.
  intros I G t Ht. apply Map_get_In in G.
  apply (ix_live _ (inv_index _ _ _ I) d set t G Ht).
Qed.

Lemma response_emissions (F : tid -> Prop) (c0 : Core)
    (l : list (string * peer)) :
  forall c,
    Inv F 0 c -> evolves c0 c ->
    exists new,
      emissions (c_trace (c_response l c)) = new ++ emissions (c_trace c) /\
      Forall
        (fun e => exists t T p,
                    e = Emit t (Ev_peer p) /\ c_get t c0 = Some T /\
                    ct_destroyed T = false /\ In (ct_domain T, p) l)
        new.
Proof.
  unfold c_response.
  induction l as [|a l IH]; intros c I E.
  - exists []. split; [reflexivity|constructor].
  - cbn [fold_left].
    assert (W : forall new,
               Forall
                 (fun e => exists t T p,
                    e = Emit t (Ev_peer p) /\ c_get t c0 = Some T /\
                    ct_destroyed T = false /\ In (ct_domain T, p) l) new ->
               Forall
                 (fun e => exists t T p,
                    e = Emit t (Ev_peer p) /\ c_get t c0 = Some T /\
                    ct_destroyed T = false /\ In (ct_domain T, p) (a :: l))
                 new).
    { intros new H. eapply Forall_impl; [|exact H].
      intros e [t [T [p [H1 [H2 [H3 H4]]]]]]. exists t, T, p.
      repeat split; auto. now right. }
    destruct (Map_get (c_domains c) (fst a)) as [set|] eqn:G.
    + set (c1 := fold_left _ set c).
      assert (M := index_members F c (fst a) set I G).
      assert (I1 : Inv F 0 c1).
      { apply Inv_fold; [|exact I]. intros c' t. apply Inv_emit_peer. }
      assert (E1 : evolves c0 c1).
      { apply (evolves_trans _ c); [exact E|].
        apply evolves_fold. intros. apply evolves_emit. }
      destruct (IH c1 I1 E1) as [new [H1 H2]].
      exists (new ++ rev (map (fun t => Emit t (Ev_peer (snd a))) set)).
      split.
      * rewrite H1. unfold c1. rewrite inner_emissions.
        -- now rewrite app_assoc.
        -- intros t Ht. destruct (M t Ht) as [T [GT _]]. now rewrite GT.
      * apply Forall_app. split; [now apply W|].
        apply Forall_forall. intros e He. apply in_rev in He.
        apply in_map_iff in He as [t [<- Ht]].
        destruct (M t Ht) as [T [GT [LT DT]]].
        specialize (E t). rewrite GT in E.
        destruct (c_get t c0) as [T0|] eqn:G0; [|contradiction].
        destruct E as [Ed El].
        exists t, T0, (snd a). split; [reflexivity|]. split; [exact G0|].
        split.
        -- destruct (ct_destroyed T0); [|reflexivity].
           rewrite El in LT by reflexivity. discriminate.
        -- left. rewrite <- Ed, DT. now destruct a.
    + destruct (IH c I E) as [new [H1 H2]]. exists new. split; auto.
Qed.

Lemma response_keeps (F : tid -> Prop) (t : tid) (T : CTopic)
    (l : list (string * peer)) :
  forall c,
    Inv F 0 c -> c_get t c = Some T ->
    (forall x, In x l -> fst x <> ct_domain T) ->
    c_get t (c_response l c) = Some T.
Proof.
  unfold c_response.
  induction l as [|a l IH]; intros c I G N; [exact G|].
  cbn [fold_left].
  destruct (Map_get (c_domains c) (fst a)) as [set|] eqn:M.
  - assert (Nt : ~ In t set).
    { intros Ht. destruct (index_members F c _ _ I M t Ht) as [T' [G' [_ D']]].
      rewrite G in G'. injection G' as <-. apply (N a); [now left|].
      now rewrite D'. }
    apply IH.
    + apply Inv_fold; [|exact I]. intros c' x. apply Inv_emit_peer.
    + now rewrite inner_keeps.
    + intros x Hx. apply N. now right.
  - apply IH; auto. intros x Hx. apply N. now right.
Qed.

Lemma fold_left_app_eq {A B : Type} (f : A -> B -> A) (l1 l2 : list B)
    (a : A) :
  fold_left f (l1 ++ l2) a = fold_left f l2 (fold_left f l1 a).
Proof. apply fold_left_app. Qed.

Lemma response_reaches (F : tid -> Prop) (t : tid) (T : CTopic) (p : peer)
    (l1 l2 : list (string * peer)) (c : Core) :
  Inv F 0 c -> c_get t c = Some T -> ct_destroyed T = false ->
  (forall x, In x l1 -> fst x <> ct_domain T) ->
  exists n1 n2,
    emissions (c_trace (c_response (l1 ++ (ct_domain T, p) :: l2) c))
    = n2 ++ Emit t (Ev_peer p) :: n1 ++ emissions (c_trace c).
Proof.
  intros I G L N.
  assert (S : c_response (l1 ++ (ct_domain T, p) :: l2) c
              = c_response l2
                  (c_response [(ct_domain T, p)] (c_response l1 c))).
  { unfold c_response. now rewrite fold_left_app_eq. }
  rewrite S.
  set (c1 := c_response l1 c).
  assert (I1 : Inv F 0 c1) by (now apply Inv_response).
  assert (G1 : c_get t c1 = Some T) by (now apply (response_keeps F)).
  destruct (response_emissions F c l1 c I (evolves_refl c)) as [n1 [E1 _]].
  fold c1 in E1.
  destruct (ix_all _ (inv_index _ _ _ I1) t T G1 L) as [set [Hs Ht]].
  assert (M : Map_get (c_domains c1) (ct_domain T) = Some set).
  { apply In_Map_get; [apply (ix_keys _ (inv_index _ _ _ I1))|exact Hs]. }
  set (c2 := c_response [(ct_domain T, p)] c1).
  assert (E2 : emissions (c_trace c2)
               = rev (map (fun t => Emit t (Ev_peer p)) set)
                 ++ emissions (c_trace c1)).
  { unfold c2, c_response. cbn [fold_left fst snd]. rewrite M.
    apply inner_emissions. intros x Hx.
    destruct (index_members F c1 _ _ I1 M x Hx) as [Tx [Gx _]].
    now rewrite Gx. }
  assert (I2 : Inv F 0 c2) by (now apply Inv_response).
  destruct (response_emissions F c2 l2 c2 I2 (evolves_refl c2))
    as [n3 [E3 _]].
  apply in_split in Ht as [s1 [s2 ->]].
  rewrite map_app, rev_app_distr in E2. cbn [map rev] in E2.
  rewrite <- !app_assoc in E2. cbn [app] in E2.
  exists (rev (map (fun t => Emit t (Ev_peer p)) s1) ++ n1),
         (n3 ++ rev (map (fun t => Emit t (Ev_peer p)) s2)).
  rewrite E3, E2, E1, <- !app_assoc. reflexivity.
Qed.

Lemma response_peers_app (address : string) (l1 l2 : list record) :
  response_peers address (l1 ++ l2)
  = response_peers address l1 ++ response_peers address l2.
Proof. apply flat_map_app. Qed.

Lemma In_response_peers (address : string) (l : list record) (d : string)
    (p : peer) :
  In (d, p) (response_peers address l) <->
  exists target port,
    In (SRV d target port) l /\ p = srv_peer address target port.
Proof.
  unfold response_peers. rewrite in_flat_map. split.
  - intros [a [Ha H]]. destruct a; try contradiction.
    destruct H as [H|[]]. injection H as <- <-. eauto.
  - intros [target [port [H ->]]]. exists (SRV d target port).
    split; [exact H|now left].
Qed.

Lemma unmatched_response (address : string) (res : message) (s : State) :
  (forall name target port,
     In (SRV name target port) (answers res) ->
     Map_get (d_domains s) name = None) ->
  Discovery__onmdnsresponse res address s = s.
Proof.
  unfold Discovery__onmdnsresponse.
  induction (answers res) as [|a l IH]; intros H; [reflexivity|].
  cbn [fold_left].
  assert (H' : forall name target port,
             In (SRV name target port) l ->
             Map_get (d_domains s) name = None).
  { intros n tg po I. apply (H n tg po). now right. }
  destruct a; try now apply IH.
  rewrite (H name target port) by (now left). now apply IH.
Qed.

(** [_onmdnsresponse] hands every SRV answer to the topics of the
    domain it names and to no other: what the step emits are ['peer']
    events of topics that were not destroyed when it began, each for an
    answer naming the topic's own domain, with the answer's port, the
    sender's address in place of the target "0.0.0.0", marked local and
    without referrer; and every such topic gets the first answer that
    names its domain.  Answers that are not SRV records, or name no
    domain of the index, change nothing. *)
Theorem mdns_response_reaches_its_domain (opts : discovery_opts)
    (draws : list Q) (entropy : list Buffer) (acts : list action)
    (res : message) (address : string) :
  let s := run acts (Discovery_new opts draws entropy) in
  let s' := step (E_response res address) s in
  let l := answers res in
  ((forall name target port,
      In (SRV name target port) l -> Map_get (d_domains s) name = None) ->
   s' = s) /\
  exists new,
    emissions (history s') = emissions (history s) ++ new /\
    (forall e, In e new ->
       exists t T target port,
         e = Emit t (Ev_peer (srv_peer address target port)) /\
         get_topic t s = Some T /\ t_destroyed T = false /\
         In (SRV (t_domain T) target port) l) /\
    (forall t T target port l1 l2,
       get_topic t s = Some T -> t_destroyed T = false ->
       l = l1 ++ SRV (t_domain T) target port :: l2 ->
       forallb (fun a => negb (srv_named (t_domain T) a)) l1 = true ->
       In (Emit t (Ev_peer (srv_peer address target port))) new).
Proof.
  intros s s' l. split.
  { intros H. unfold s'. cbn [step]. now apply unmatched_response. }
  assert (R : reachable s) by (now exists opts, draws, entropy, acts).
  pose proof (reachable_Inv s R) as I.
  assert (E : erase s' = c_response (response_peers address l) (erase s)).
  { unfold s'. now rewrite erase_step. }
  destruct (response_emissions (fun _ => False) (erase s)
              (response_peers address l) (erase s) I (evolves_refl _))
    as [new [H1 H2]].
  rewrite <- E in H1.
  exists (rev new). split; [|split].
  - rewrite !emissions_history, H1. apply rev_app_distr.
  - intros e He. apply in_rev in He. rewrite Forall_forall in H2.
    destruct (H2 e He) as [t [T [p [-> [G [L Hp]]]]]].
    rewrite c_get_erase in G.
    destruct (get_topic t s) as [T0|] eqn:G0; [|discriminate].
    cbn in G. injection G as <-. cbn in L, Hp.
    apply In_response_peers in Hp as [target [port [Hin ->]]].
    exists t, T0, target, port. auto.
  - intros t T target port l1 l2 G L El N. unfold l in *. rewrite El in *.
    assert (G' : c_get t (erase s) = Some (erase_topic T))
      by (now rewrite c_get_erase, G).
    destruct (response_reaches (fun _ => False) t (erase_topic T)
                (srv_peer address target port)
                (response_peers address l1) (response_peers address l2)
                (erase s) I G' L) as [n1 [n2 H3]].
    + intros [d p] Hx. cbn [fst erase_topic ct_domain].
      apply In_response_peers in Hx as [tg [po [Hin _]]].
      rewrite forallb_forall in N. specialize (N _ Hin). cbn in N.
      apply negb_true_iff in N. now apply String.eqb_neq in N.
    + rewrite response_peers_app in E. cbn [erase_topic ct_domain] in H3.
      change (response_peers address (SRV (t_domain T) target port :: l2))
        with ((t_domain T, srv_peer address target port)
              :: response_peers address l2) in E.
      rewrite <- E, H1 in H3.
      assert (X : new = n2 ++ Emit t (Ev_peer (srv_peer address target port))
                          :: n1).
      { apply (app_inv_tail (emissions (c_trace (erase s)))).
        rewrite H3, <- app_assoc. reflexivity. }
      apply in_rev. rewrite rev_involutive, X.
      apply in_app_iff. right. now left.
Qed.

(** ** The clockwork: what the methods do to it *)

Lemma gears_log (e : effect) (s : State) : gears (log e s) = gears s.
Proof. reflexivity. Qed.

Lemma gears_upd (t : tid) (f : Topic -> Topic) (g : Gear -> Gear)
    (s : State) :
  (forall T, T_gear (f T) = g (T_gear T)) ->
  gears (upd_topic t f s) = G_upd t g (gears s).
Proof.
  intros H. unfold gears, G_upd, upd_topic. cbn.
  now rewrite (map_list_update T_gear f g).
Qed.

Lemma gears_upd_id (t : tid) (f : Topic -> Topic) (s : State) :
  (forall T, T_gear (f T) = T_gear T) -> gears (upd_topic t f s) = gears s.
Proof.
  intros H. unfold gears, upd_topic. cbn.
  now rewrite (map_list_update_id T_gear f).
Qed.

Lemma T_gear_on (n : event_name) (l : listener) (T : Topic) :
  T_gear (T_on n l T) = T_gear T.
Proof. now destruct n. Qed.

Lemma T_gear_removeListener (n : event_name) (l : listener) (T : Topic) :
  T_gear (T_removeListener n l T) = T_gear T.
Proof. now destruct n. Qed.

Lemma gears_clearTimeout (h : option nat) (s : State) :
  gears (clearTimeout h s) = G_clear h (gears s).
Proof. now destruct h. Qed.

Lemma gears_notify (fn : timer_fn) (eager : bool) (s : State) :
  exists delay,
    gears (snd (Discovery__notify fn eager s)) = G_set fn delay (gears s) /\
    fst (Discovery__notify fn eager s) = timer_ctr s /\
    trace (snd (Discovery__notify fn eager s)) = trace s.
Proof.
  unfold Discovery__notify, Math_random.
  destruct (draws s) as [|r rest]; eexists; repeat split.
Qed.

Lemma gears_nextTick (f : js_callback) (s : State) :
  gears (process_nextTick f s) = gears s.
Proof. now destruct f. Qed.

Lemma gear_get (t : tid) (s : State) :
  nth_error (gs_topics (gears s)) t = option_map T_gear (get_topic t s).
Proof. unfold gears, get_topic. cbn. apply nth_error_map. Qed.

Lemma gears_Topic_destroy (t : tid) (s : State) :
  gears (Topic_destroy t s) = G_destroy t (gears s).
Proof.
  unfold Topic_destroy, G_destroy. rewrite gear_get.
  destruct (get_topic t s) as [T|] eqn:G; [cbn [option_map]|reflexivity].
  change (g_destroyed (T_gear T)) with (t_destroyed T).
  destruct (t_destroyed T); [reflexivity|].
  set (s1 := upd_topic t (T_set_destroyed true) s).
  assert (E1 : gears s1 = G_upd t (g_set_destroyed true) (gears s))
    by (now apply gears_upd).
  assert (G1 : get_topic t s1 = Some (T_set_destroyed true T)).
  { unfold s1, get_topic, upd_topic in *. cbn.
    now rewrite nth_error_list_update_eq, G. }
  set (s2 := Topic__stopDht t s1).
  assert (E2 : gears s2
               = G_upd t (g_set_dht None) (G_clear (g_dht (T_gear T))
                   (gears s1))).
  { unfold s2, Topic__stopDht. rewrite G1.
    cbn [t_timeoutDht T_set_destroyed t_stream].
    assert (X : gears (upd_topic t (T_set_timeoutDht None)
                         (clearTimeout (t_timeoutDht T) s1))
                = G_upd t (g_set_dht None)
                    (G_clear (t_timeoutDht T) (gears s1))).
    { rewrite (gears_upd _ _ (g_set_dht None)) by reflexivity.
      now rewrite gears_clearTimeout. }
    now destruct (t_stream T). }
  set (s3 := clearTimeout (t_timeoutMdns T) s2).
  assert (E3 : gears s3
               = G_clear (g_mdns (T_gear T))
                   (G_upd t (g_set_dht None)
                      (G_clear (g_dht (T_gear T))
                         (G_upd t (g_set_destroyed true) (gears s))))).
  { unfold s3. now rewrite gears_clearTimeout, E2, E1. }
  rewrite <- E3.
  destruct (Map_get (d_domains s3) (t_domain T)) as [set|]; [|reflexivity].
  destruct (Set_delete set t); destruct (t_announce T); reflexivity.
Qed.

Lemma gears_destroy_done (s : State) : gears (destroy_done s) = gears s.
Proof. unfold destroy_done. cbn. now destruct (d_missing s - 1 =? 0). Qed.

(** a listener leaves the clockwork alone, or destroys its topic *)
Lemma gears_run_listener (t : tid) (e : event) (l : listener) (s : State) :
  gears (run_listener t e l s) = gears s \/
  gears (run_listener t e l s) = G_destroy t (gears s).
Proof.
  destruct l as [n|cb|cb|]; cbn [run_listener]; auto.
  - destruct e as [p| |]; auto. right.
    rewrite gears_log, gears_Topic_destroy.
    now rewrite !gears_upd_id by (intros; apply T_gear_removeListener).
  - left. apply gears_destroy_done.
Qed.

Lemma gears_run_listener_calm (t : tid) (e : event) (l : listener)
    (s : State) :
  name_of e <> N_peer -> gears (run_listener t e l s) = gears s.
Proof.
  intros N. destruct l as [n|cb|cb|]; cbn [run_listener]; auto.
  - destruct e; auto. now contradiction N.
  - apply gears_destroy_done.
Qed.

Lemma gears_fold {A : Type} (f : State -> A -> State) (l : list A) :
  (forall s a, gears (f s a) = gears s) ->
  forall s, gears (fold_left f l s) = gears s.
Proof.
  intros H. induction l as [|a l IH]; intros s; cbn; [reflexivity|].
  now rewrite IH, H.
Qed.

Lemma gears_emit_calm (t : tid) (e : event) (s : State) :
  name_of e <> N_peer -> gears (Topic_emit t e s) = gears s.
Proof.
  intros N. unfold Topic_emit. destruct (get_topic t s) as [T|]; [|reflexivity].
  now rewrite gears_fold by (intros; now apply gears_run_listener_calm).
Qed.

Lemma gears_mdns_loop (t : tid) (s : State) :
  exists delay, gears (mdns_loop t s) = G_mdns_loop t delay (gears s).
Proof.
  unfold mdns_loop, G_mdns_loop. rewrite gear_get.
  destruct (get_topic t s) as [T|]; [cbn [option_map]|now exists 0].
  match goal with
  | |- context [Discovery__notify ?f ?e ?x] =>
      destruct (gears_notify f e x) as [delay [E1 [E2 _]]];
      destruct (Discovery__notify f e x) as [h s1]
  end.
  cbn [fst snd] in *. exists delay. subst h.
  rewrite (gears_upd _ _ (g_set_mdns (Some (timer_ctr s)))) by reflexivity.
  now rewrite E1.
Qed.

Lemma gears_dht_loop (t : tid) (s : State) :
  gears (dht_loop t s) = G_dht_loop t (gears s).
Proof.
  unfold dht_loop, G_dht_loop. rewrite gear_get.
  destruct (get_topic t s) as [T|]; [cbn [option_map]|reflexivity].
  rewrite (gears_upd _ _ (g_set_stream (Some (List.length (loops s)))))
    by reflexivity.
  rewrite (gears_upd _ _ (g_set_dht None)) by reflexivity.
  now destruct (t_announce T).
Qed.

Lemma gears_dht_done (sid : nat) (err : option string) (s : State) :
  exists delay, gears (dht_done sid err s) = G_done sid delay (gears s).
Proof.
  unfold dht_done, G_done. cbn [gs_loops gears].
  destruct (nth_error (loops s) sid) as [L|]; [|now exists 0].
  rewrite gear_get.
  destruct (get_topic (lp_topic L) s) as [T|]; [cbn [option_map]|now exists 0].
  change (g_destroyed (T_gear T)) with (t_destroyed T).
  destruct (lp_called L || t_destroyed T); [now exists 0|].
  set (s1 := set_loops _ (upd_topic (lp_topic L) (T_set_stream None) s)).
  set (s2 := Topic_emit (lp_topic L) (Ev_update err) s1).
  assert (E2 : gears s2 = gears s1)
    by (apply gears_emit_calm; discriminate).
  destruct (gears_notify (F_dht_loop (lp_topic L)) false s2)
    as [delay [E3 [E4 _]]].
  destruct (Discovery__notify _ _ s2) as [h s3]. cbn [fst snd] in *.
  exists delay.
  rewrite (gears_upd _ _ (g_set_dht (Some h))) by reflexivity.
  rewrite E3, E2. subst h.
  assert (C : timer_ctr s2 = timer_ctr s1)
    by (change (gs_ctr (gears s2) = gs_ctr (gears s1)); now rewrite E2).
  rewrite C.
  assert (E1 : gears s1
               = G_loops
                   (list_update (loops s) sid
                      (fun L => mk_Loop (lp_topic L) true))
                   (G_upd (lp_topic L) (g_set_stream None) (gears s))).
  { unfold s1, gears, G_loops, G_upd, upd_topic. cbn.
    now rewrite (map_list_update T_gear (T_set_stream None)
                   (g_set_stream None)). }
  now rewrite E1.
Qed.

(** ** The clockwork: its order is kept *)

Lemma nth_error_list_update {A : Type} (l : list A) (i j : nat)
    (f : A -> A) :
  nth_error (list_update l i f) j
  = if Nat.eqb i j then option_map f (nth_error l j) else nth_error l j.
Proof.
  destruct (Nat.eqb_spec i j) as [->|N].
  - apply nth_error_list_update_eq.
  - now apply nth_error_list_update_ne.
Qed.

Lemma list_update_none {A : Type} (l : list A) (i : nat) (f : A -> A) :
  nth_error l i = None -> list_update l i f = l.
Proof.
  revert i. induction l as [|x l IH]; intros [|i] H; cbn in *;
    try reflexivity; try discriminate.
  now rewrite IH.
Qed.

Lemma list_update_twice {A : Type} (l : list A) (i : nat) (f g : A -> A) :
  list_update (list_update l i f) i g = list_update l i (fun x => g (f x)).
Proof.
  revert i. induction l as [|x l IH]; intros [|i]; cbn; try reflexivity.
  now rewrite IH.
Qed.

Lemma list_update_ext {A : Type} (l : list A) (i : nat) (f g : A -> A) :
  (forall x, f x = g x) -> list_update l i f = list_update l i g.
Proof.
  intros E. revert i. induction l as [|x l IH]; intros [|i]; cbn;
    try reflexivity.
  - now rewrite E.
  - now rewrite IH.
Qed.

Lemma in_clear (h : option nat) (g : Gears) (x : nat * (Z * timer_fn)) :
  In x (gs_timers (G_clear h g)) <-> In x (gs_timers g) /\ spared h x.
Proof.
  destruct h as [n|]; cbn; [|tauto].
  rewrite filter_In. destruct (Nat.eqb_spec (fst x) n); cbn;
    intuition congruence.
Qed.

Lemma topics_clear (h : option nat) (g : Gears) :
  gs_topics (G_clear h g) = gs_topics g.
Proof. now destruct h. Qed.

Lemma loops_clear (h : option nat) (g : Gears) :
  gs_loops (G_clear h g) = gs_loops g.
Proof. now destruct h. Qed.

Lemma ctr_clear (h : option nat) (g : Gears) :
  gs_ctr (G_clear h g) = gs_ctr g.
Proof. now destruct h. Qed.

Lemma handles_kept (keep : nat * (Z * timer_fn) -> bool)
    (tm : list (nat * (Z * timer_fn))) :
  NoDup (map fst tm) -> NoDup (map fst (filter keep tm)).
Proof.
  intros N. induction tm as [|x tm IH]; cbn; [constructor|].
  inversion N as [|? ? N1 N2]; subst.
  destruct (keep x); cbn; [|now apply IH].
  constructor; [|now apply IH].
  intros I. apply N1. apply in_map_iff in I. destruct I as [y [E I]].
  apply filter_In in I. apply in_map_iff. exists y. tauto.
Qed.

Lemma nodup_clear (h : option nat) (g : Gears) :
  NoDup (map fst (gs_timers g)) ->
  NoDup (map fst (gs_timers (G_clear h g))).
Proof. destruct h; cbn; [apply handles_kept|auto]. Qed.

Lemma NoDup_push (l : list (nat * (Z * timer_fn))) (c : nat)
    (v : Z * timer_fn) :
  NoDup (map fst l) -> (forall x, In x l -> (fst x < c)%nat) ->
  NoDup (map fst (l ++ [(c, v)])).
Proof.
  intros N F. rewrite map_app. cbn.
  apply NoDup_app.
  - exact N.
  - constructor; [intros []|constructor].
  - intros a I [<-|[]]. apply in_map_iff in I.
    destruct I as [x [E I]]. apply F in I. lia.
Qed.

Lemma handle_unique (l : list (nat * (Z * timer_fn))) (h : nat)
    (a b : Z * timer_fn) :
  NoDup (map fst l) -> In (h, a) l -> In (h, b) l -> a = b.
Proof.
  induction l as [|x l IH]; cbn; intros N Ia Ib; [contradiction|].
  inversion N as [|? ? N1 N2]; subst.
  destruct Ia as [->|Ia], Ib as [E|Ib].
  - congruence.
  - exfalso. apply N1. cbn. apply in_map_iff. now exists (h, b).
  - subst x. exfalso. apply N1. cbn. apply in_map_iff. now exists (h, a).
  - now apply IH.
Qed.

Lemma find_timer_In (l : list (nat * (Z * timer_fn))) (h : nat)
    (fn : timer_fn) :
  find_timer l h = Some fn -> exists d, In (h, (d, fn)) l.
Proof.
  induction l as [|[h' [d fn']] l IH]; cbn; [discriminate|].
  destruct (Nat.eqb_spec h' h) as [->|N]; intros E.
  - injection E as ->. exists d. now left.
  - destruct (IH E) as [d' I]. exists d'. now right.
Qed.

Lemma In_find_timer (l : list (nat * (Z * timer_fn))) (h : nat) (d : Z)
    (fn : timer_fn) :
  NoDup (map fst l) -> In (h, (d, fn)) l -> find_timer l h = Some fn.
Proof.
  intros N I. destruct (find_timer l h) as [fn'|] eqn:F.
  - destruct (find_timer_In l h fn' F) as [d' I'].
    pose proof (handle_unique l h _ _ N I I') as E. congruence.
  - exfalso. induction l as [|[h' [d' fn']] l IH]; cbn in *; [contradiction|].
    destruct (Nat.eqb_spec h' h) as [->|N']; [discriminate|].
    destruct I as [E|I]; [congruence|].
    inversion N; subst. now apply IH.
Qed.

(** two timers of different kinds or topics have different handles *)
Lemma handles_apart (g : Gears) (h : nat) (d d' : Z) (fn fn' : timer_fn) :
  Hyg g -> In (h, (d, fn)) (gs_timers g) -> In (h, (d', fn')) (gs_timers g) ->
  fn = fn'.
Proof.
  intros H I I'.
  pose proof (handle_unique _ _ _ _ (hy_nodup g H) I I'). congruence.
Qed.

(** the timers the fields of a live topic name are pending *)
Lemma live_dht_pending (g : Gears) (t : tid) (T : Gear) (h : nat) :
  Hyg g -> nth_error (gs_topics g) t = Some T -> g_destroyed T = false ->
  g_dht T = Some h ->
  g_stream T = None /\ exists d, In (h, (d, F_dht_loop t)) (gs_timers g).
Proof.
  intros H N D E. pose proof (hy_beat g H t T N D) as B. rewrite E in B.
  destruct (g_stream T); [contradiction|]. now split.
Qed.

Lemma live_stream_awaited (g : Gears) (t : tid) (T : Gear) (sid : nat) :
  Hyg g -> nth_error (gs_topics g) t = Some T -> g_destroyed T = false ->
  g_stream T = Some sid ->
  g_dht T = None /\ awaited g t sid.
Proof.
  intros H N D E. pose proof (hy_beat g H t T N D) as B. rewrite E in B.
  destruct (g_dht T); [contradiction|]. now split.
Qed.

(** [Topic.destroy] *)
Lemma Hyg_destroy (t : tid) (g : Gears) : Hyg g -> Hyg (G_destroy t g).
Proof.
  intros H. unfold G_destroy.
  destruct (nth_error (gs_topics g) t) as [T|] eqn:N; [|exact H].
  destruct (g_destroyed T) eqn:D; [exact H|].
  set (g' := G_clear _ _).
  assert (Tm : forall x, In x (gs_timers g') <->
                 In x (gs_timers g) /\ spared (g_dht T) x /\
                 spared (g_mdns T) x).
  { intros x. unfold g'. rewrite in_clear. cbn [gs_timers G_upd].
    rewrite in_clear. cbn [gs_timers G_upd]. tauto. }
  assert (Tp : forall t',
             nth_error (gs_topics g') t'
             = if Nat.eqb t t'
               then Some (g_set_dht None (g_set_destroyed true T))
               else nth_error (gs_topics g) t').
  { intros t'. unfold g'. rewrite topics_clear. cbn [gs_topics G_upd].
    rewrite nth_error_list_update, topics_clear. cbn [gs_topics G_upd].
    rewrite nth_error_list_update.
    destruct (Nat.eqb_spec t t') as [<-|]; [now rewrite N|reflexivity]. }
  assert (Lp : gs_loops g' = gs_loops g).
  { unfold g'. rewrite loops_clear. cbn [gs_loops G_upd].
    now rewrite loops_clear. }
  assert (Ct : gs_ctr g' = gs_ctr g).
  { unfold g'. rewrite ctr_clear. cbn [gs_ctr G_upd]. now rewrite ctr_clear. }
  (* the timers of another live topic are spared *)
  assert (Sp : forall h d fn,
             In (h, (d, fn)) (gs_timers g) -> timer_topic fn <> t ->
             In (h, (d, fn)) (gs_timers g')).
  { intros h d fn I Nt. apply Tm. split; [exact I|]. split.
    - destruct (g_dht T) as [hd|] eqn:E; cbn; [|exact Logic.I].
      intros ->.
      destruct (live_dht_pending g t T hd H N D E) as [_ [d' I']].
      pose proof (handles_apart g hd _ _ _ _ H I I') as X. subst fn.
      now apply Nt.
    - destruct (g_mdns T) as [hm|] eqn:E; cbn; [|exact Logic.I].
      intros ->.
      destruct (hy_back g H t T hm N D E) as [d' I'].
      pose proof (handles_apart g hm _ _ _ _ H I I') as X. subst fn.
      now apply Nt. }
  constructor.
  - intros x I. rewrite Ct. apply Tm in I. now apply (hy_fresh g H).
  - unfold g'. apply nodup_clear. cbn [gs_timers G_upd]. apply nodup_clear.
    exact (hy_nodup g H).
  - intros h d t' I. apply Tm in I. destruct I as [I [S1 S2]].
    destruct (hy_mdns g H h d t' I) as [T' [N' [D' E']]].
    rewrite Tp. destruct (Nat.eqb_spec t t') as [<-|Nt].
    + exfalso. rewrite N in N'. injection N' as <-.
      rewrite E' in S2. now apply S2.
    + now exists T'.
  - intros h d t' I. apply Tm in I. destruct I as [I [S1 S2]].
    destruct (hy_dht g H h d t' I) as [T' [N' [D' E']]].
    rewrite Tp. destruct (Nat.eqb_spec t t') as [<-|Nt].
    + exfalso. rewrite N in N'. injection N' as <-.
      rewrite E' in S1. now apply S1.
    + now exists T'.
  - intros sid t' A. unfold awaited in A. rewrite Lp in A.
    destruct (hy_loops g H sid t' A) as [T' [N' E']].
    rewrite Tp. destruct (Nat.eqb_spec t t') as [<-|Nt].
    + rewrite N in N'. injection N' as <-. eexists. split; [reflexivity|].
      exact E'.
    + now exists T'.
  - intros t' T' h. rewrite Tp.
    destruct (Nat.eqb_spec t t') as [<-|Nt]; intros N' D' E'.
    + injection N' as <-. discriminate.
    + destruct (hy_back g H t' T' h N' D' E') as [d I]. exists d.
      apply Sp; [exact I|]. cbn. congruence.
  - intros t' T'. rewrite Tp.
    destruct (Nat.eqb_spec t t') as [<-|Nt]; intros N' D'.
    + injection N' as <-. discriminate.
    + pose proof (hy_beat g H t' T' N' D') as B.
      destruct (g_stream T') as [sid|], (g_dht T') as [h|]; try contradiction.
      * unfold awaited in *. now rewrite Lp.
      * destruct B as [d I]. exists d. apply Sp; [exact I|]. cbn. congruence.
Qed.

Lemma nth_error_snoc {A : Type} (l : list A) (x y : A) (i : nat) :
  nth_error (l ++ [x]) i = Some y <->
  nth_error l i = Some y \/ (i = List.length l /\ x = y).
Proof.
  destruct (Nat.lt_ge_cases i (List.length l)) as [L|L].
  - rewrite nth_error_app1 by exact L. split; [now left|].
    intros [E|[E _]]; [exact E|lia].
  - rewrite nth_error_app2 by exact L.
    assert (N : nth_error l i = None) by (now apply nth_error_None).
    rewrite N. destruct (i - List.length l)%nat as [|k] eqn:K; cbn.
    + split.
      * intros E. injection E as ->. right. split; [lia|reflexivity].
      * intros [E|[_ ->]]; [discriminate|reflexivity].
    + destruct k; cbn; split; try discriminate;
        intros [E|[E _]]; try discriminate; lia.
Qed.

Lemma nth_error_snoc_topics {A : Type} (l : list A) (x : A) (i : nat) :
  nth_error (l ++ [x]) i
  = if Nat.eqb (List.length l) i then Some x else nth_error l i.
Proof.
  destruct (Nat.eqb_spec (List.length l) i) as [<-|N].
  - rewrite nth_error_app2 by lia. now rewrite Nat.sub_diag.
  - destruct (Nat.lt_ge_cases i (List.length l)) as [L|L].
    + now rewrite nth_error_app1.
    + rewrite nth_error_app2 by exact L.
      assert (E : nth_error l i = None) by (now apply nth_error_None).
      rewrite E. destruct (i - List.length l)%nat as [|k] eqn:K; [lia|].
      now destruct k.
Qed.

(** [loop] of [_startMdns], the pending run of it cancelled or fired *)
Lemma Hyg_mdns_loop (t : tid) (delay : Z) (g : Gears) (T : Gear) :
  Hyg g -> nth_error (gs_topics g) t = Some T -> g_destroyed T = false ->
  Hyg (G_mdns_loop t delay (G_clear (g_mdns T) g)).
Proof.
  intros H N D. unfold G_mdns_loop. rewrite topics_clear, N.
  set (g' := G_upd _ _ _).
  assert (Tm : forall x, In x (gs_timers g') <->
                 (In x (gs_timers g) /\ spared (g_mdns T) x) \/
                 x = (gs_ctr g, (delay, F_mdns_loop t))).
  { intros x. unfold g'. cbn [gs_timers G_upd G_set]. rewrite in_app_iff.
    rewrite in_clear, ctr_clear. cbn. intuition. }
  assert (Tp : forall t',
             nth_error (gs_topics g') t'
             = if Nat.eqb t t'
               then Some (g_set_mdns (Some (gs_ctr g)) T)
               else nth_error (gs_topics g) t').
  { intros t'. unfold g'. cbn [gs_topics G_upd G_set].
    rewrite nth_error_list_update, topics_clear, ctr_clear.
    destruct (Nat.eqb_spec t t') as [<-|]; [now rewrite N|reflexivity]. }
  assert (Lp : gs_loops g' = gs_loops g).
  { unfold g'. cbn [gs_loops G_upd G_set]. now rewrite loops_clear. }
  assert (Ct : gs_ctr g' = S (gs_ctr g)).
  { unfold g'. cbn [gs_ctr G_upd G_set]. now rewrite ctr_clear. }
  assert (Sp : forall h d fn,
             In (h, (d, fn)) (gs_timers g) -> fn <> F_mdns_loop t ->
             In (h, (d, fn)) (gs_timers g')).
  { intros h d fn I Nt. apply Tm. left. split; [exact I|].
    destruct (g_mdns T) as [hm|] eqn:E; cbn; [|exact Logic.I].
    intros ->.
    destruct (hy_back g H t T hm N D E) as [d' I'].
    now pose proof (handles_apart g hm _ _ _ _ H I I') as X. }
  constructor.
  - intros x I. rewrite Ct. apply Tm in I. destruct I as [[I _]| ->].
    + apply (hy_fresh g H) in I. lia.
    + cbn. lia.
  - unfold g'. cbn [gs_timers G_upd G_set]. apply NoDup_push.
    + apply nodup_clear, (hy_nodup g H).
    + intros x I. apply in_clear in I. rewrite ctr_clear.
      now apply (hy_fresh g H).
  - intros h d t' I. apply Tm in I. rewrite Tp.
    destruct I as [[I S1]|E].
    + destruct (hy_mdns g H h d t' I) as [T' [N' [D' E']]].
      destruct (Nat.eqb_spec t t') as [<-|Nt].
      * exfalso. rewrite N in N'. injection N' as <-.
        rewrite E' in S1. now apply S1.
      * now exists T'.
    + injection E as -> _ <-. rewrite Nat.eqb_refl.
      eexists. split; [reflexivity|]. now split.
  - intros h d t' I. apply Tm in I. rewrite Tp.
    destruct I as [[I S1]|E]; [|discriminate].
    destruct (hy_dht g H h d t' I) as [T' [N' [D' E']]].
    destruct (Nat.eqb_spec t t') as [<-|Nt].
    + rewrite N in N'. injection N' as <-.
      eexists. split; [reflexivity|]. now split.
    + now exists T'.
  - intros sid t' A. unfold awaited in A. rewrite Lp in A.
    destruct (hy_loops g H sid t' A) as [T' [N' E']].
    rewrite Tp. destruct (Nat.eqb_spec t t') as [<-|Nt].
    + rewrite N in N'. injection N' as <-. eexists. split; [reflexivity|].
      exact E'.
    + now exists T'.
  - intros t' T' h. rewrite Tp.
    destruct (Nat.eqb_spec t t') as [<-|Nt]; intros N' D' E'.
    + injection N' as <-. cbn in E'. injection E' as <-.
      exists delay. apply Tm. now right.
    + destruct (hy_back g H t' T' h N' D' E') as [d I]. exists d.
      apply Sp; [exact I|]. congruence.
  - intros t' T'. rewrite Tp.
    assert (K : forall T0, nth_error (gs_topics g) t' = Some T0 ->
                  g_destroyed T0 = false ->
                  match g_stream T0, g_dht T0 with
                  | Some sid, None => awaited g' t' sid
                  | None, Some h =>
                      exists d, In (h, (d, F_dht_loop t')) (gs_timers g')
                  | _, _ => False
                  end).
    { intros T0 N0 D0. pose proof (hy_beat g H t' T0 N0 D0) as B.
      destruct (g_stream T0) as [sid|], (g_dht T0) as [h|];
        try contradiction.
      - unfold awaited in *. now rewrite Lp.
      - destruct B as [d I]. exists d. apply Sp; [exact I|]. discriminate. }
    destruct (Nat.eqb_spec t t') as [<-|Nt]; intros N' D'.
    + injection N' as <-. now apply (K T).
    + now apply K.
Qed.

(** [loop] of [_startDht], its retry cancelled or fired *)
Lemma Hyg_dht_loop (t : tid) (g : Gears) (T : Gear) (h : nat) :
  Hyg g -> nth_error (gs_topics g) t = Some T -> g_destroyed T = false ->
  g_dht T = Some h ->
  Hyg (G_dht_loop t (G_clear (Some h) g)).
Proof.
  intros H N D E. unfold G_dht_loop. rewrite topics_clear, N.
  destruct (live_dht_pending g t T h H N D E) as [St [d0 I0]].
  set (g' := G_upd _ _ _).
  assert (Tm : forall x, In x (gs_timers g') <->
                 In x (gs_timers g) /\ fst x <> h).
  { intros x. unfold g'. cbn [gs_timers G_upd G_loops].
    apply (in_clear (Some h)). }
  assert (Tp : forall t',
             nth_error (gs_topics g') t'
             = if Nat.eqb t t'
               then Some (g_set_stream (Some (List.length (gs_loops g)))
                            (g_set_dht None T))
               else nth_error (gs_topics g) t').
  { intros t'. unfold g'. cbn [gs_topics G_upd G_loops].
    rewrite !nth_error_list_update, topics_clear, loops_clear.
    destruct (Nat.eqb_spec t t') as [<-|]; [now rewrite N|reflexivity]. }
  assert (Aw : forall t' sid,
             awaited g' t' sid <->
             awaited g t' sid \/
             (sid = List.length (gs_loops g) /\ t' = t)).
  { intros t' sid. unfold awaited, g'. cbn [gs_loops G_upd G_loops].
    rewrite loops_clear, nth_error_snoc. intuition congruence. }
  assert (Ct : gs_ctr g' = gs_ctr g).
  { unfold g'. cbn [gs_ctr G_upd G_loops]. apply ctr_clear. }
  assert (Sp : forall h' d fn,
             In (h', (d, fn)) (gs_timers g) -> fn <> F_dht_loop t ->
             In (h', (d, fn)) (gs_timers g')).
  { intros h' d fn I Nt. apply Tm. split; [exact I|]. cbn. intros ->.
    now pose proof (handles_apart g h _ _ _ _ H I I0) as X. }
  constructor.
  - intros x I. rewrite Ct. apply Tm in I. now apply (hy_fresh g H).
  - unfold g'. cbn [gs_timers G_upd G_loops].
    apply (nodup_clear (Some h)), (hy_nodup g H).
  - intros h' d t' I. apply Tm in I. destruct I as [I S1]. rewrite Tp.
    destruct (hy_mdns g H h' d t' I) as [T' [N' [D' E']]].
    destruct (Nat.eqb_spec t t') as [<-|Nt].
    + rewrite N in N'. injection N' as <-.
      eexists. split; [reflexivity|]. now split.
    + now exists T'.
  - intros h' d t' I. apply Tm in I. destruct I as [I S1]. rewrite Tp.
    destruct (hy_dht g H h' d t' I) as [T' [N' [D' E']]].
    destruct (Nat.eqb_spec t t') as [<-|Nt].
    + exfalso. rewrite N in N'. injection N' as <-. cbn in S1. congruence.
    + now exists T'.
  - intros sid t' A. apply Aw in A. rewrite Tp. destruct A as [A|[-> ->]].
    + destruct (hy_loops g H sid t' A) as [T' [N' E']].
      destruct (Nat.eqb_spec t t') as [<-|Nt].
      * exfalso. rewrite N in N'. injection N' as <-. congruence.
      * now exists T'.
    + rewrite Nat.eqb_refl. eexists. split; reflexivity.
  - intros t' T' h'. rewrite Tp.
    destruct (Nat.eqb_spec t t') as [<-|Nt]; intros N' D' E'.
    + injection N' as <-. cbn in E', D'.
      destruct (hy_back g H t T h' N D E') as [d I]. exists d.
      apply Sp; [exact I|discriminate].
    + destruct (hy_back g H t' T' h' N' D' E') as [d I]. exists d.
      apply Sp; [exact I|discriminate].
  - intros t' T'. rewrite Tp.
    destruct (Nat.eqb_spec t t') as [<-|Nt]; intros N' D'.
    + injection N' as <-. cbn. apply Aw. now right.
    + pose proof (hy_beat g H t' T' N' D') as B.
      destruct (g_stream T') as [sid|], (g_dht T') as [h'|];
        try contradiction.
      * apply Aw. now left.
      * destruct B as [d I]. exists d. apply Sp; [exact I|]. congruence.
Qed.

(** [done] *)
Lemma Hyg_done (sid : nat) (delay : Z) (g : Gears) :
  Hyg g -> Hyg (G_done sid delay g).
Proof.
  intros H. unfold G_done.
  destruct (nth_error (gs_loops g) sid) as [[t called]|] eqn:NL; [|exact H].
  cbn [lp_topic lp_called].
  destruct (nth_error (gs_topics g) t) as [T|] eqn:N; [|exact H].
  destruct called; [exact H|]. cbn [orb].
  destruct (g_destroyed T) eqn:D; [exact H|].
  assert (A0 : awaited g t sid) by exact NL.
  destruct (hy_loops g H sid t A0) as [T0 [N0 St]].
  rewrite N in N0. injection N0 as <-.
  destruct (live_stream_awaited g t T sid H N D St) as [Dh _].
  cbv zeta. set (g' := G_upd _ _ _).
  assert (Tm : forall x, In x (gs_timers g') <->
                 In x (gs_timers g) \/
                 x = (gs_ctr g, (delay, F_dht_loop t))).
  { intros x. unfold g'. cbn [gs_timers gs_ctr G_upd G_set G_loops].
    rewrite in_app_iff. cbn. intuition. }
  assert (Tp : forall t',
             nth_error (gs_topics g') t'
             = if Nat.eqb t t'
               then Some (g_set_dht (Some (gs_ctr g)) (g_set_stream None T))
               else nth_error (gs_topics g) t').
  { intros t'. unfold g'. cbn [gs_topics gs_ctr G_upd G_set G_loops].
    rewrite !nth_error_list_update.
    destruct (Nat.eqb_spec t t') as [<-|]; [now rewrite N|reflexivity]. }
  assert (Aw : forall t' sid',
             awaited g' t' sid' <-> awaited g t' sid' /\ sid' <> sid).
  { intros t' sid'. unfold awaited, g'.
    cbn [gs_loops G_upd G_set G_loops]. rewrite nth_error_list_update.
    destruct (Nat.eqb_spec sid sid') as [<-|Ns].
    - rewrite NL. cbn. intuition; discriminate.
    - intuition. }
  assert (Ct : gs_ctr g' = S (gs_ctr g)) by reflexivity.
  constructor.
  - intros x I. rewrite Ct. apply Tm in I. destruct I as [I| ->].
    + apply (hy_fresh g H) in I. lia.
    + cbn. lia.
  - unfold g'. cbn [gs_timers gs_ctr G_upd G_set G_loops].
    apply NoDup_push; [apply (hy_nodup g H)|apply (hy_fresh g H)].
  - intros h d t' I. apply Tm in I. rewrite Tp.
    destruct I as [I|E]; [|discriminate].
    destruct (hy_mdns g H h d t' I) as [T' [N' [D' E']]].
    destruct (Nat.eqb_spec t t') as [<-|Nt].
    + rewrite N in N'. injection N' as <-.
      eexists. split; [reflexivity|]. now split.
    + now exists T'.
  - intros h d t' I. apply Tm in I. rewrite Tp. destruct I as [I|E].
    + destruct (hy_dht g H h d t' I) as [T' [N' [D' E']]].
      destruct (Nat.eqb_spec t t') as [<-|Nt].
      * exfalso. rewrite N in N'. injection N' as <-. congruence.
      * now exists T'.
    + injection E as -> _ <-. rewrite Nat.eqb_refl.
      eexists. split; [reflexivity|]. now split.
  - intros sid' t' A. apply Aw in A. destruct A as [A Ns]. rewrite Tp.
    destruct (hy_loops g H sid' t' A) as [T' [N' E']].
    destruct (Nat.eqb_spec t t') as [<-|Nt].
    + exfalso. rewrite N in N'. injection N' as <-. congruence.
    + now exists T'.
  - intros t' T' h. rewrite Tp.
    destruct (Nat.eqb_spec t t') as [<-|Nt]; intros N' D' E'.
    + injection N' as <-. cbn in E', D'.
      destruct (hy_back g H t T h N D E') as [d I]. exists d.
      apply Tm. now left.
    + destruct (hy_back g H t' T' h N' D' E') as [d I]. exists d.
      apply Tm. now left.
  - intros t' T'. rewrite Tp.
    destruct (Nat.eqb_spec t t') as [<-|Nt]; intros N' D'.
    + injection N' as <-. cbn. exists delay. apply Tm. now right.
    + pose proof (hy_beat g H t' T' N' D') as B.
      destruct (g_stream T') as [sid'|], (g_dht T') as [h'|];
        try contradiction.
      * apply Aw. split; [exact B|]. intros ->.
        unfold awaited in B. rewrite NL in B. congruence.
      * destruct B as [d I]. exists d. apply Tm. now left.
Qed.

(** the constructor of [Topic], up to its call of [_startDht] *)
Lemma Hyg_born (ann : bool) (g : Gears) :
  Hyg g -> Hyg (G_dht_loop (List.length (gs_topics g)) (G_new ann g)).
Proof.
  intros H. unfold G_dht_loop. cbn [gs_topics G_new].
  rewrite nth_error_snoc_topics, Nat.eqb_refl.
  set (t := List.length (gs_topics g)). set (g' := G_upd _ _ _).
  assert (Old : forall t' T', nth_error (gs_topics g) t' = Some T' ->
                  t <> t').
  { intros t' T' N' <-.
    assert (X : nth_error (gs_topics g) t <> None) by congruence.
    apply nth_error_Some in X. unfold t in X. lia. }
  assert (Tp : forall t',
             nth_error (gs_topics g') t'
             = if Nat.eqb t t'
               then Some (mk_Gear ann false None None
                            (Some (List.length (gs_loops g))))
               else nth_error (gs_topics g) t').
  { intros t'. unfold g'. cbn [gs_topics gs_loops G_upd G_loops G_new].
    rewrite !nth_error_list_update, nth_error_snoc_topics. fold t.
    now destruct (Nat.eqb t t'). }
  assert (Aw : forall t' sid,
             awaited g' t' sid <->
             awaited g t' sid \/
             (sid = List.length (gs_loops g) /\ t' = t)).
  { intros t' sid. unfold awaited, g'. cbn [gs_loops G_upd G_loops G_new].
    rewrite nth_error_snoc. intuition congruence. }
  assert (Keep : forall t' T', nth_error (gs_topics g) t' = Some T' ->
                   nth_error (gs_topics g') t' = Some T').
  { intros t' T' N'. rewrite Tp.
    destruct (Nat.eqb_spec t t') as [E|_]; [|exact N'].
    now destruct (Old t' T' N'). }
  constructor.
  - exact (hy_fresh g H).
  - exact (hy_nodup g H).
  - intros h d t' I. destruct (hy_mdns g H h d t' I) as [T' [N' X]].
    exists T'. split; [now apply Keep|exact X].
  - intros h d t' I. destruct (hy_dht g H h d t' I) as [T' [N' X]].
    exists T'. split; [now apply Keep|exact X].
  - intros sid t' A. apply Aw in A. destruct A as [A|[-> ->]].
    + destruct (hy_loops g H sid t' A) as [T' [N' E']].
      exists T'. split; [now apply Keep|exact E'].
    + rewrite Tp, Nat.eqb_refl. eexists. split; reflexivity.
  - intros t' T' h. rewrite Tp.
    destruct (Nat.eqb_spec t t') as [<-|Nt]; intros N' D' E'.
    + injection N' as <-. discriminate.
    + exact (hy_back g H t' T' h N' D' E').
  - intros t' T'. rewrite Tp.
    destruct (Nat.eqb_spec t t') as [<-|Nt]; intros N' D'.
    + injection N' as <-. cbn. apply Aw. now right.
    + pose proof (hy_beat g H t' T' N' D') as B.
      destruct (g_stream T') as [sid'|], (g_dht T') as [h'|];
        try contradiction.
      * apply Aw. now left.
      * exact B.
Qed.

Lemma G_dht_loop_upd (t : tid) (g : Gears) :
  G_dht_loop t (G_upd t (g_set_dht None) g) = G_dht_loop t g.
Proof.
  unfold G_dht_loop. cbn [gs_topics gs_loops G_upd].
  rewrite nth_error_list_update_eq.
  destruct (nth_error (gs_topics g) t) as [T|] eqn:N; cbn [option_map].
  - unfold G_upd, G_loops. cbn. f_equal. f_equal.
    rewrite list_update_twice. now apply list_update_ext.
  - unfold G_upd. destruct g as [tm c lp tp]. cbn in *.
    now rewrite list_update_none.
Qed.

(** [Topic.update] *)
Lemma Hyg_update (t : tid) (delay : Z) (g : Gears) :
  Hyg g -> Hyg (G_update t delay g).
Proof.
  intros H. unfold G_update.
  destruct (nth_error (gs_topics g) t) as [T|] eqn:N; [|exact H].
  destruct (g_destroyed T) eqn:D; [exact H|].
  destruct (g_dht T) as [h|] eqn:E.
  - rewrite G_dht_loop_upd.
    pose proof (Hyg_dht_loop t g T h H N D E) as H1.
    set (g1 := G_dht_loop t (G_clear (Some h) g)) in *.
    assert (N1 : nth_error (gs_topics g1) t
                 = Some (g_set_stream (Some (List.length (gs_loops g)))
                           (g_set_dht None T))).
    { unfold g1, G_dht_loop. rewrite topics_clear, N.
      cbn [gs_topics G_upd G_loops].
      rewrite !nth_error_list_update_eq, topics_clear, N, loops_clear.
      reflexivity. }
    exact (Hyg_mdns_loop t delay g1 _ H1 N1 D).
  - now apply Hyg_mdns_loop.
Qed.

(** a timeout fires *)
Lemma Hyg_timeout (h : nat) (delay : Z) (g : Gears) :
  Hyg g -> Hyg (G_timeout h delay g).
Proof.
  intros H. unfold G_timeout.
  destruct (find_timer (gs_timers g) h) as [[t|t]|] eqn:F; [| |exact H];
    destruct (find_timer_In _ _ _ F) as [d I].
  - destruct (hy_mdns g H h d t I) as [T [N [D E]]].
    rewrite <- E. now apply Hyg_mdns_loop.
  - destruct (hy_dht g H h d t I) as [T [N [D E]]].
    now apply (Hyg_dht_loop t g T h).
Qed.

(** the constructor of [Topic] *)
Lemma Hyg_topic (ann mdns : bool) (delay : Z) (g : Gears) :
  Hyg g -> Hyg (G_topic ann mdns delay g).
Proof.
  intros H. unfold G_topic. pose proof (Hyg_born ann g H) as H1.
  destruct mdns; [|exact H1].
  set (t := List.length (gs_topics g)) in *.
  set (g1 := G_dht_loop t (G_new ann g)) in *.
  assert (N1 : nth_error (gs_topics g1) t
               = Some (mk_Gear ann false None None
                         (Some (List.length (gs_loops g))))).
  { unfold g1, G_dht_loop. cbn [gs_topics G_new].
    rewrite nth_error_snoc_topics. fold t. rewrite Nat.eqb_refl.
    cbn [gs_topics gs_loops G_upd G_loops G_new].
    rewrite !nth_error_list_update_eq, nth_error_snoc_topics. fold t.
    now rewrite Nat.eqb_refl. }
  exact (Hyg_mdns_loop t delay g1 _ H1 N1 eq_refl).
Qed.

(** ** Topics that do not announce keep their multicast loop *)

Lemma Lkp_upd (t : tid) (f : Gear -> Gear) (g : Gears) :
  tame f -> Lkp g -> Lkp (G_upd t f g).
Proof.
  intros F L t' T'. cbn [gs_topics G_upd]. rewrite nth_error_list_update.
  destruct (Nat.eqb_spec t t') as [<-|Nt]; [|apply L].
  destruct (nth_error (gs_topics g) t) as [T|] eqn:N; [|discriminate].
  cbn. intros E A. injection E as <-. destruct (F T) as [F1 F2].
  apply F2. apply (L t T N). congruence.
Qed.

Lemma Lkp_clear (h : option nat) (g : Gears) : Lkp g -> Lkp (G_clear h g).
Proof. unfold Lkp. now rewrite topics_clear. Qed.

Lemma Lkp_set (fn : timer_fn) (delay : Z) (g : Gears) :
  Lkp g -> Lkp (G_set fn delay g).
Proof. auto. Qed.

Lemma Lkp_loops (v : list Loop) (g : Gears) : Lkp g -> Lkp (G_loops v g).
Proof. auto. Qed.

Lemma tame_destroyed (v : bool) : tame (g_set_destroyed v).
Proof. intros T. now split. Qed.

Lemma tame_dht (v : option nat) : tame (g_set_dht v).
Proof. intros T. now split. Qed.

Lemma tame_stream (v : option nat) : tame (g_set_stream v).
Proof. intros T. now split. Qed.

Lemma tame_mdns (h : nat) : tame (g_set_mdns (Some h)).
Proof. intros T. split; [reflexivity|]. intros _. discriminate. Qed.

Lemma Lkp_destroy (t : tid) (g : Gears) : Lkp g -> Lkp (G_destroy t g).
Proof.
  intros L. unfold G_destroy.
  destruct (nth_error (gs_topics g) t) as [T|]; [|exact L].
  destruct (g_destroyed T); [exact L|].
  apply Lkp_clear, Lkp_upd; [apply tame_dht|].
  apply Lkp_clear, Lkp_upd; [apply tame_destroyed|exact L].
Qed.

Lemma Lkp_mdns_loop (t : tid) (delay : Z) (g : Gears) :
  Lkp g -> Lkp (G_mdns_loop t delay g).
Proof.
  intros L. unfold G_mdns_loop.
  destruct (nth_error (gs_topics g) t) as [T|]; [|exact L].
  apply Lkp_upd; [apply tame_mdns|]. now apply Lkp_set.
Qed.

Lemma Lkp_dht_loop (t : tid) (g : Gears) : Lkp g -> Lkp (G_dht_loop t g).
Proof.
  intros L. unfold G_dht_loop.
  destruct (nth_error (gs_topics g) t) as [T|]; [|exact L].
  apply Lkp_upd; [apply tame_stream|].
  apply Lkp_upd; [apply tame_dht|]. now apply Lkp_loops.
Qed.

Lemma Lkp_done (sid : nat) (delay : Z) (g : Gears) :
  Lkp g -> Lkp (G_done sid delay g).
Proof.
  intros L. unfold G_done.
  destruct (nth_error (gs_loops g) sid) as [L0|]; [|exact L].
  destruct (nth_error (gs_topics g) (lp_topic L0)) as [T|]; [|exact L].
  destruct (lp_called L0 || g_destroyed T); [exact L|]. cbv zeta.
  apply Lkp_upd; [apply tame_dht|].
  apply Lkp_set, Lkp_loops, Lkp_upd; [apply tame_stream|exact L].
Qed.

Lemma Lkp_update (t : tid) (delay : Z) (g : Gears) :
  Lkp g -> Lkp (G_update t delay g).
Proof.
  intros L. unfold G_update.
  destruct (nth_error (gs_topics g) t) as [T|]; [|exact L].
  destruct (g_destroyed T); [exact L|].
  apply Lkp_mdns_loop, Lkp_clear.
  destruct (g_dht T); [|exact L]. apply Lkp_dht_loop.
  apply Lkp_upd; [apply tame_dht|]. now apply Lkp_clear.
Qed.

Lemma Lkp_timeout (h : nat) (delay : Z) (g : Gears) :
  Lkp g -> Lkp (G_timeout h delay g).
Proof.
  intros L. unfold G_timeout.
  destruct (find_timer (gs_timers g) h) as [[t|t]|]; [| |exact L].
  - now apply Lkp_mdns_loop, Lkp_clear.
  - now apply Lkp_dht_loop, Lkp_clear.
Qed.

Lemma Lkp_topic (ann mdns : bool) (delay : Z) (g : Gears) :
  (ann = false -> mdns = true) -> Lkp g -> Lkp (G_topic ann mdns delay g).
Proof.
  intros AM L. unfold G_topic.
  set (t := List.length (gs_topics g)).
  assert (Tp : forall t',
             nth_error (gs_topics (G_dht_loop t (G_new ann g))) t'
             = if Nat.eqb t t'
               then Some (mk_Gear ann false None None
                            (Some (List.length (gs_loops g))))
               else nth_error (gs_topics g) t').
  { intros t'. unfold G_dht_loop. cbn [gs_topics G_new].
    rewrite nth_error_snoc_topics. fold t. rewrite Nat.eqb_refl.
    cbn [gs_topics gs_loops G_upd G_loops G_new].
    rewrite !nth_error_list_update, nth_error_snoc_topics. fold t.
    now destruct (Nat.eqb t t'). }
  destruct mdns.
  - unfold G_mdns_loop. rewrite Tp, Nat.eqb_refl.
    intros t' T'. cbn [gs_topics G_upd G_set].
    rewrite nth_error_list_update, Tp.
    destruct (Nat.eqb_spec t t') as [<-|Nt].
    + cbn. intros E _. injection E as <-. discriminate.
    + apply L.
  - intros t' T'. rewrite Tp.
    destruct (Nat.eqb_spec t t') as [<-|Nt].
    + intros E A. injection E as <-. cbn in A. now specialize (AM A).
    + apply L.
Qed.

(** ** The order of the clockwork holds in every state *)

Lemma gears_Topic_update (t : tid) (s : State) :
  exists delay, gears (Topic_update t s) = G_update t delay (gears s).
Proof.
  unfold Topic_update, G_update. rewrite gear_get.
  destruct (get_topic t s) as [T|]; [cbn [option_map]|now exists 0].
  change (g_destroyed (T_gear T)) with (t_destroyed T).
  change (g_dht (T_gear T)) with (t_timeoutDht T).
  change (g_mdns (T_gear T)) with (t_timeoutMdns T).
  destruct (t_destroyed T); [now exists 0|].
  unfold Topic__startMdns, Topic__startDht.
  match goal with
  | |- exists delay, gears (mdns_loop t (clearTimeout _ ?x)) = _ =>
      set (s1 := x)
  end.
  destruct (gears_mdns_loop t (clearTimeout (t_timeoutMdns T) s1))
    as [delay E].
  exists delay. rewrite E, gears_clearTimeout. f_equal. f_equal.
  unfold s1. destruct (t_timeoutDht T) as [h|]; [|reflexivity].
  rewrite gears_dht_loop.
  rewrite (gears_upd _ _ (g_set_dht None)) by reflexivity.
  now rewrite gears_clearTimeout.
Qed.

Lemma gears_Topic_new (key : Buffer) (opts : topic_opts) (s : State) :
  fst (Topic_new key opts s) = List.length (heap s) /\
  exists delay,
    gears (snd (Topic_new key opts s))
    = G_topic (announces opts) (starts_mdns opts) delay (gears s).
Proof.
  unfold Topic_new.
  destruct (crypto_randomBytes 32 s) as [rnd s0] eqn:R.
  assert (E0 : gears s0 = gears s /\ heap s0 = heap s).
  { unfold crypto_randomBytes in R.
    destruct (entropy s); injection R as _ <-; now split. }
  destruct E0 as [E0 E0'].
  cbv zeta. split; [reflexivity|]. cbn [snd].
  unfold Topic__startMdns, Topic__startDht.
  match goal with
  | |- context [dht_loop _ (set_heap (heap s0 ++ [?X]) s0)] =>
      set (T := X)
  end.
  set (t := List.length (heap s)).
  set (s1 := dht_loop t (set_heap (heap s0 ++ [T]) s0)).
  assert (E1 : gears s1 = G_dht_loop t (G_new (announces opts) (gears s))).
  { unfold s1. rewrite gears_dht_loop. f_equal.
    rewrite <- E0. unfold gears, G_new. cbn. now rewrite map_app. }
  unfold G_topic, starts_mdns. cbv zeta.
  assert (Et : t = List.length (gs_topics (gears s))).
  { unfold t. cbn [gs_topics gears]. now rewrite length_map. }
  destruct (gears_mdns_loop t s1) as [delay E2].
  exists delay. rewrite <- Et, <- E1, <- E2.
  destruct (to_announce opts); [destruct (to_lookup opts)|]; reflexivity.
Qed.

Lemma Clock_same (s s' : State) : gears s' = gears s -> Clock s -> Clock s'.
Proof. unfold Clock. now intros ->. Qed.

Lemma Clock_destroy (t : tid) (s : State) :
  Clock s -> Clock (Topic_destroy t s).
Proof.
  intros [H L]. unfold Clock. rewrite gears_Topic_destroy.
  split; [now apply Hyg_destroy|now apply Lkp_destroy].
Qed.

Lemma Clock_fold {A : Type} (f : State -> A -> State) (l : list A) :
  (forall s a, Clock s -> Clock (f s a)) ->
  forall s, Clock s -> Clock (fold_left f l s).
Proof.
  intros H. induction l as [|a l IH]; intros s C; cbn; [exact C|].
  now apply IH, H.
Qed.

Lemma Clock_run_listener (t : tid) (e : event) (l : listener) (s : State) :
  Clock s -> Clock (run_listener t e l s).
Proof.
  intros C. destruct (gears_run_listener t e l s) as [E|E].
  - now apply (Clock_same s).
  - apply (Clock_same (Topic_destroy t s)).
    + now rewrite gears_Topic_destroy.
    + now apply Clock_destroy.
Qed.

Lemma Clock_emit (t : tid) (e : event) (s : State) :
  Clock s -> Clock (Topic_emit t e s).
Proof.
  intros C. unfold Topic_emit.
  destruct (get_topic t s) as [T|]; [|exact C].
  apply Clock_fold; [|exact C]. intros; now apply Clock_run_listener.
Qed.

Lemma Clock_ondhtdata (t : tid) (data : dht_data) (s : State) :
  Clock s -> Clock (Topic__ondhtdata t data s).
Proof.
  intros C. unfold Topic__ondhtdata.
  destruct (get_topic t s) as [T|]; [|exact C].
  destruct (t_destroyed T); [exact C|].
  apply Clock_fold; [intros; now apply Clock_emit|].
  apply Clock_fold; [intros; now apply Clock_emit|exact C].
Qed.

Lemma Clock_response (res : message) (address : string) (s : State) :
  Clock s -> Clock (Discovery__onmdnsresponse res address s).
Proof.
  intros C. unfold Discovery__onmdnsresponse.
  apply Clock_fold; [|exact C].
  intros s' [name target port|name data|type name] C'; try exact C'.
  destruct (Map_get (d_domains s') name); [|exact C'].
  apply Clock_fold; [intros; now apply Clock_emit|exact C'].
Qed.

Lemma gears_topic (key : Buffer) (ann : topic_opts) (s : State) :
  fst (Discovery__topic key ann s) = List.length (heap s) /\
  gears (snd (Discovery__topic key ann s))
  = gears (snd (Topic_new key ann s)).
Proof.
  unfold Discovery__topic.
  destruct (gears_Topic_new key ann s) as [E _].
  destruct (Topic_new key ann s) as [t s1]. cbn [fst snd] in *.
  match goal with
  | |- context [Map_get (d_domains ?x) ?d] =>
      assert (E1 : gears x = gears s1)
        by (now destruct (Map_has (d_domains s1) d));
      destruct (Map_get (d_domains x) d)
  end; cbn [fst snd]; split; auto.
Qed.

Lemma Clock_topic (key : Buffer) (ann : topic_opts) (s : State) :
  Clock s -> Clock (snd (Discovery__topic key ann s)).
Proof.
  intros [H L]. destruct (gears_topic key ann s) as [_ E].
  destruct (gears_Topic_new key ann s) as [_ [delay E']].
  unfold Clock. rewrite E, E'. split.
  - now apply Hyg_topic.
  - apply Lkp_topic; [|exact L]. unfold announces, starts_mdns.
    now destruct (to_announce ann).
Qed.

Lemma Clock_lookup (key : Buffer) (s : State) :
  Clock s -> Clock (snd (Discovery_lookup key s)).
Proof.
  intros C. unfold Discovery_lookup. destruct (d_destroyed s); [exact C|].
  pose proof (Clock_topic key no_opts s C) as C'.
  now destruct (Discovery__topic key no_opts s).
Qed.

Lemma Clock_announce (key : Buffer) (opts : announce_opts) (s : State) :
  Clock s -> Clock (snd (Discovery_announce key opts s)).
Proof.
  intros C. unfold Discovery_announce. destruct (d_destroyed s); [exact C|].
  match goal with
  | |- context [Discovery__topic key ?o s] =>
      pose proof (Clock_topic key o s C) as C';
      now destruct (Discovery__topic key o s)
  end.
Qed.

Lemma Clock_on (t : tid) (n : event_name) (l : listener) (s : State) :
  Clock s -> Clock (upd_topic t (T_on n l) s).
Proof.
  apply Clock_same. apply gears_upd_id. intros; apply T_gear_on.
Qed.

Lemma Clock_lookupOne (key : Buffer) (cb : nat) (s : State) :
  Clock s -> Clock (Discovery_lookupOne key cb s).
Proof.
  intros C. unfold Discovery_lookupOne.
  pose proof (Clock_lookup key s C) as C'.
  destruct (Discovery_lookup key s) as [[t|] s1]; [|exact C'].
  now apply Clock_on, Clock_on.
Qed.

Lemma Clock_Discovery_destroy (s : State) :
  Clock s -> Clock (Discovery_destroy s).
Proof.
  intros C. unfold Discovery_destroy. destruct (d_destroyed s); [exact C|].
  match goal with
  | |- Clock (process_nextTick ?f ?x) =>
      apply (Clock_same x); [apply gears_nextTick|]
  end.
  apply Clock_fold; [|exact C].
  intros s' t C'. apply Clock_on. now apply Clock_destroy.
Qed.

Lemma gears_ping (cb : nat) (now : Z) (s : State) :
  gears (Discovery_ping cb now s) = gears s.
Proof.
  unfold Discovery_ping. destruct (d_bootstrap s) as [|b l] eqn:B.
  - reflexivity.
  - now rewrite gears_fold by reflexivity.
Qed.

Lemma gears_pong (pid : nat) (bootstrap : string) (pong : option nat)
    (now : Z) (s : State) :
  gears (ping_callback pid bootstrap pong now s) = gears s.
Proof.
  unfold ping_callback. destruct (nth_error (pings s) pid) as [P|];
    [|reflexivity].
  destruct (negb _); [reflexivity|].
  match goal with |- context [match ?r with [] => _ | _ :: _ => _ end] =>
    now destruct r end.
Qed.

Lemma gears_holepunch (p : peer) (cb : nat) (s : State) :
  gears (Discovery_holepunch p cb s) = gears s.
Proof. unfold Discovery_holepunch. now destruct (p_referrer p). Qed.

Lemma gears_timeout (h : nat) (s : State) :
  exists delay, gears (step (E_timeout h) s) = G_timeout h delay (gears s).
Proof.
  cbn [step]. unfold G_timeout. cbn [gs_timers gears].
  destruct (find_timer (timers s) h) as [[t|t]|]; [| |now exists 0];
    cbn [run_timer].
  - destruct (gears_mdns_loop t (clearTimeout (Some h) s)) as [delay E].
    exists delay. now rewrite E, gears_clearTimeout.
  - exists 0. now rewrite gears_dht_loop, gears_clearTimeout.
Qed.

Lemma Clock_step (a : action) (s : State) : Clock s -> Clock (step a s).
Proof.
  intros C. destruct a.
  - now apply Clock_announce.
  - now apply Clock_lookup.
  - now apply Clock_lookupOne.
  - apply (Clock_same s); [apply gears_ping|exact C].
  - apply (Clock_same s); [apply gears_holepunch|exact C].
  - now apply Clock_Discovery_destroy.
  - destruct C as [H L]. cbn [step].
    destruct (gears_Topic_update t s) as [delay E].
    unfold Clock. rewrite E.
    split; [now apply Hyg_update|now apply Lkp_update].
  - now apply Clock_destroy.
  - now apply Clock_on.
  - cbn [step]. destruct (ticks s) as [|f rest]; [exact C|].
    assert (C1 : Clock (set_ticks rest s)) by exact C.
    destruct f as [t| |cb r]; cbn [run_task].
    + now apply Clock_emit.
    + apply (Clock_same (set_ticks rest s)); [apply gears_destroy_done|].
      exact C1.
    + exact C1.
  - destruct C as [H L]. destruct (gears_timeout h s) as [delay E].
    unfold Clock. rewrite E.
    split; [now apply Hyg_timeout|now apply Lkp_timeout].
  - cbn [step]. destruct (nth_error (loops s) sid); [|exact C].
    now apply Clock_ondhtdata.
  - destruct C as [H L]. cbn [step].
    destruct (gears_dht_done sid (Some err) s) as [delay E].
    unfold Clock. rewrite E.
    split; [now apply Hyg_done|now apply Lkp_done].
  - destruct C as [H L]. cbn [step].
    destruct (gears_dht_done sid None s) as [delay E].
    unfold Clock. rewrite E.
    split; [now apply Hyg_done|now apply Lkp_done].
  - cbn [step]. destruct (Set_has (unannounces s) t); [|exact C].
    now apply Clock_emit.
  - apply (Clock_same s); [apply gears_pong|exact C].
  - exact C.
  - now apply Clock_response.
Qed.

Lemma Clock_new (opts : discovery_opts) (draws : list Q)
    (entropy : list Buffer) :
  Clock (Discovery_new opts draws entropy).
Proof.
  split.
  - constructor; cbn.
    + intros x [].
    + constructor.
    + intros h d t [].
    + intros h d t [].
    + intros sid t A. unfold awaited in A. cbn in A. now destruct sid.
    + intros t T h N. now destruct t.
    + intros t T N. now destruct t.
  - intros t T N. now destruct t.
Qed.

Lemma Clock_run (acts : list action) (s : State) :
  Clock s -> Clock (run acts s).
Proof.
  revert s. induction acts as [|a acts IH]; intros s C; cbn; [exact C|].
  now apply IH, Clock_step.
Qed.

Lemma reachable_Clock (s : State) : reachable s -> Clock s.
Proof.
  intros [opts [draws [entropy [acts ->]]]]. apply Clock_run, Clock_new.
Qed.

(** ** What the order of the clockwork means for a session *)

Lemma gear_of (t : tid) (T : Topic) (s : State) :
  get_topic t s = Some T ->
  nth_error (gs_topics (gears s)) t = Some (T_gear T).
Proof. intros G. now rewrite gear_get, G. Qed.

Lemma of_gear (t : tid) (X : Gear) (s : State) :
  nth_error (gs_topics (gears s)) t = Some X ->
  exists T, get_topic t s = Some T /\ X = T_gear T.
Proof.
  rewrite gear_get. destruct (get_topic t s) as [T|]; [|discriminate].
  cbn. intros E. injection E as <-. now exists T.
Qed.

Lemma shut_topics (s : State) (t : tid) (T : Topic) :
  reachable s -> d_destroyed s = true -> get_topic t s = Some T ->
  t_destroyed T = true.
Proof.
  intros R D G. destruct (t_destroyed T) eqn:E; [reflexivity|exfalso].
  destruct (inv_index _ _ _ (reachable_Inv s R)) as [_ _ _ _ I5].
  destruct (I5 t (erase_topic T)) as [set [I _]].
  - now rewrite c_get_erase, G.
  - exact E.
  - change (c_domains (erase s)) with (d_domains s) in I.
    now rewrite (shut_reachable s R D) in I.
Qed.

Lemma timer_owner (s : State) (h : nat) (d : Z) (fn : timer_fn) :
  Clock s -> In (h, (d, fn)) (timers s) ->
  exists T, get_topic (timer_topic fn) s = Some T /\
            t_destroyed T = false /\ timer_field fn T = Some h.
Proof.
  intros [H _] I. destruct fn as [t|t]; cbn [timer_topic timer_field].
  - destruct (hy_mdns _ H h d t I) as [X [N [D E]]].
    destruct (of_gear t X s N) as [T [G ->]]. now exists T.
  - destruct (hy_dht _ H h d t I) as [X [N [D E]]].
    destruct (of_gear t X s N) as [T [G ->]]. now exists T.
Qed.

(** In every state of a session the pending timers have distinct
    handles; each belongs to a topic that is not destroyed and that holds
    its handle in [_timeoutMdns] or [_timeoutDht], according to the loop
    the timer runs, so that a loop of a topic has at most one timer
    pending; and once the session is destroyed no timer is pending. *)
Theorem pending_timers_belong_to_live_topics (opts : discovery_opts)
    (draws : list Q) (entropy : list Buffer) (acts : list action) :
  let s := run acts (Discovery_new opts draws entropy) in
  NoDup (map fst (timers s)) /\
  (forall h d fn,
     In (h, (d, fn)) (timers s) ->
     exists T, get_topic (timer_topic fn) s = Some T /\
               t_destroyed T = false /\ timer_field fn T = Some h) /\
  (forall h h' d d' fn,
     In (h, (d, fn)) (timers s) -> In (h', (d', fn)) (timers s) ->
     h = h' /\ d = d') /\
  (d_destroyed s = true -> timers s = []).
Proof.
  intros s.
  assert (R : reachable s) by (now exists opts, draws, entropy, acts).
  pose proof (reachable_Clock s R) as C.
  assert (N : NoDup (map fst (timers s))) by exact (hy_nodup _ (proj1 C)).
  split; [exact N|]. split; [intros h d fn; now apply timer_owner|]. split.
  - intros h h' d d' fn I I'.
    destruct (timer_owner s h d fn C I) as [T [G [_ E]]].
    destruct (timer_owner s h' d' fn C I') as [T' [G' [_ E']]].
    rewrite G in G'. injection G' as <-.
    assert (X : h = h') by congruence. subst h'. split; [reflexivity|].
    pose proof (handle_unique _ _ _ _ N I I'). congruence.
  - intros D. destruct (timers s) as [|[h [d fn]] l] eqn:E; [reflexivity|].
    exfalso.
    destruct (timer_owner s h d fn C) as [T [G [L _]]].
    + rewrite E. now left.
    + pose proof (shut_topics s _ T R D G). congruence.
Qed.

(** The DHT loop of a topic that is not destroyed never stalls and
    never doubles: either the topic awaits its stream, the one run of
    the loop whose [done] is still to come, and has no retry scheduled;
    or it has no stream and its retry timer is pending.  A run that is
    awaited is always the [_stream] of its topic. *)
Theorem dht_loop_never_stalls (opts : discovery_opts) (draws : list Q)
    (entropy : list Buffer) (acts : list action) :
  let s := run acts (Discovery_new opts draws entropy) in
  (forall t T,
     get_topic t s = Some T -> t_destroyed T = false ->
     (exists sid,
        t_stream T = Some sid /\ t_timeoutDht T = None /\
        nth_error (loops s) sid = Some (mk_Loop t false)) \/
     (exists h d,
        t_stream T = None /\ t_timeoutDht T = Some h /\
        In (h, (d, F_dht_loop t)) (timers s))) /\
  (forall sid t,
     nth_error (loops s) sid = Some (mk_Loop t false) ->
     exists T, get_topic t s = Some T /\ t_stream T = Some sid).
Proof.
  intros s.
  assert (R : reachable s) by (now exists opts, draws, entropy, acts).
  destruct (reachable_Clock s R) as [H _]. split.
  - intros t T G L.
    pose proof (hy_beat _ H t (T_gear T) (gear_of t T s G) L) as B.
    cbn [g_stream g_dht T_gear] in B.
    destruct (t_stream T) as [sid|], (t_timeoutDht T) as [h|];
      try contradiction.
    + left. now exists sid.
    + right. destruct B as [d I]. now exists h, d.
  - intros sid t A. destruct (hy_loops _ H sid t A) as [X [N E]].
    destruct (of_gear t X s N) as [T [G ->]]. now exists T.
Qed.

(** The multicast loop of a topic that is not destroyed never
    stalls: the handle in [_timeoutMdns] is the one of a pending timer of
    that loop, and a topic that does not announce always has one. *)
Theorem mdns_loop_never_stalls (opts : discovery_opts) (draws : list Q)
    (entropy : list Buffer) (acts : list action) :
  let s := run acts (Discovery_new opts draws entropy) in
  (forall t T h,
     get_topic t s = Some T -> t_destroyed T = false ->
     t_timeoutMdns T = Some h ->
     exists d, In (h, (d, F_mdns_loop t)) (timers s)) /\
  (forall t T,
     get_topic t s = Some T -> t_destroyed T = false ->
     t_announce T = None ->
     exists h d, t_timeoutMdns T = Some h /\
                 In (h, (d, F_mdns_loop t)) (timers s)).
Proof.
  intros s.
  assert (R : reachable s) by (now exists opts, draws, entropy, acts).
  destruct (reachable_Clock s R) as [H K].
  assert (B : forall t T h,
                get_topic t s = Some T -> t_destroyed T = false ->
                t_timeoutMdns T = Some h ->
                exists d, In (h, (d, F_mdns_loop t)) (timers s)).
  { intros t T h G L E.
    exact (hy_back _ H t (T_gear T) h (gear_of t T s G) L E). }
  split; [exact B|]. intros t T G L A.
  pose proof (K t (T_gear T) (gear_of t T s G)) as M.
  cbn [g_announcing g_mdns T_gear] in M. rewrite A in M.
  destruct (t_timeoutMdns T) as [h|] eqn:E; [|now destruct (M eq_refl)].
  destruct (B t T h G L E) as [d I]. now exists h, d.
Qed.

(** ** The loops, one run at a time *)

Lemma get_topic_upd (t : tid) (f : Topic -> Topic) (s : State) :
  get_topic t (upd_topic t f s) = option_map f (get_topic t s).
Proof. unfold get_topic, upd_topic. cbn. apply nth_error_list_update_eq. Qed.

Lemma mdns_loop_spec (t : tid) (s : State) (T : Topic) :
  get_topic t s = Some T ->
  trace (mdns_loop t s) = MdnsQuery (query_of T) :: trace s /\
  get_topic t (mdns_loop t s)
  = Some (T_set_timeoutMdns (Some (timer_ctr s)) T) /\
  timers (mdns_loop t s)
  = timers s ++
    [(timer_ctr s, (notify_delay true (fst (Math_random s)), F_mdns_loop t))].
Proof.
  intros G. unfold mdns_loop. rewrite G.
  unfold Discovery__notify, Math_random. cbn [draws log].
  destruct (draws s) as [|r rest]; cbn [setTimeout fst snd];
    rewrite get_topic_upd; unfold get_topic in *; cbn; rewrite G;
    repeat split.
Qed.

Lemma dht_loop_spec (t : tid) (s : State) (T : Topic) :
  get_topic t s = Some T ->
  trace (dht_loop t s) = stream_call T (List.length (loops s)) :: trace s /\
  get_topic t (dht_loop t s)
  = Some (T_set_stream (Some (List.length (loops s)))
            (T_set_timeoutDht None T)) /\
  loops (dht_loop t s) = loops s ++ [mk_Loop t false] /\
  timers (dht_loop t s) = timers s /\
  timer_ctr (dht_loop t s) = timer_ctr s /\
  draws (dht_loop t s) = draws s.
Proof.
  intros G. unfold dht_loop. rewrite G. rewrite !get_topic_upd.
  unfold stream_call, get_topic in *.
  destruct (t_announce T); cbn; rewrite G; repeat split.
Qed.

Lemma draws_clearTimeout (h : option nat) (s : State) :
  draws (clearTimeout h s) = draws s.
Proof. now destruct h. Qed.

Lemma draws_stopDht (t : tid) (s : State) :
  draws (Topic__stopDht t s) = draws s.
Proof.
  unfold Topic__stopDht. destruct (get_topic t s) as [T|]; [|reflexivity].
  destruct (t_stream T); cbn; now destruct (t_timeoutDht T).
Qed.

Lemma draws_Topic_destroy (t : tid) (s : State) :
  draws (Topic_destroy t s) = draws s.
Proof.
  unfold Topic_destroy. destruct (get_topic t s) as [T|]; [|reflexivity].
  destruct (t_destroyed T); [reflexivity|].
  set (s1 := clearTimeout _ _).
  assert (E : draws s1 = draws s).
  { unfold s1. now rewrite draws_clearTimeout, draws_stopDht. }
  destruct (Map_get (d_domains s1) (t_domain T)) as [set|]; [|exact E].
  destruct (Set_delete set t); destruct (t_announce T); exact E.
Qed.

Lemma draws_run_listener (t : tid) (e : event) (l : listener) (s : State) :
  draws (run_listener t e l s) = draws s.
Proof.
  destruct l as [n|cb|cb|]; cbn [run_listener]; try reflexivity.
  - destruct e; try reflexivity. cbn [draws log].
    now rewrite draws_Topic_destroy.
  - unfold destroy_done. cbn. now destruct (d_missing s - 1 =? 0).
Qed.

Lemma draws_fold {A : Type} (f : State -> A -> State) (l : list A) :
  (forall s a, draws (f s a) = draws s) ->
  forall s, draws (fold_left f l s) = draws s.
Proof.
  intros H. induction l as [|a l IH]; intros s; cbn; [reflexivity|].
  now rewrite IH, H.
Qed.

Lemma draws_emit (t : tid) (e : event) (s : State) :
  draws (Topic_emit t e s) = draws s.
Proof.
  unfold Topic_emit. destruct (get_topic t s) as [T|]; [|reflexivity].
  now rewrite draws_fold by (intros; apply draws_run_listener).
Qed.

Lemma next_draw (s s' : State) :
  draws s' = draws s -> fst (Math_random s') = fst (Math_random s).
Proof. unfold Math_random. intros ->. now destruct (draws s). Qed.

Lemma history_log (e : effect) (tr : list effect) (s s' : State) :
  trace s' = e :: tr ++ trace s -> history s' = history s ++ rev tr ++ [e].
Proof.
  unfold history. intros ->. cbn [rev]. rewrite rev_app_distr.
  now rewrite app_assoc.
Qed.

(** [Topic.update] of a live topic, up to its call of [_startMdns] *)
Lemma update_dht_part (t : tid) (s : State) (T : Topic) :
  get_topic t s = Some T ->
  let s1 :=
    match t_timeoutDht T with
    | Some h =>
        Topic__startDht t
          (upd_topic t (T_set_timeoutDht None) (clearTimeout (Some h) s))
    | None => s
    end in
  exists T1,
    get_topic t s1 = Some T1 /\ query_of T1 = query_of T /\
    t_destroyed T1 = t_destroyed T /\ t_timeoutDht T1 = None /\
    t_timeoutMdns T1 = t_timeoutMdns T /\
    trace s1
    = match t_timeoutDht T with
      | Some _ => [stream_call T (List.length (loops s))]
      | None => []
      end ++ trace s /\
    timer_ctr s1 = timer_ctr s /\ draws s1 = draws s.
Proof.
  intros G. cbv zeta. destruct (t_timeoutDht T) as [h|] eqn:Dh.
  - set (s0 := upd_topic t (T_set_timeoutDht None) (clearTimeout (Some h) s)).
    assert (G0 : get_topic t s0 = Some (T_set_timeoutDht None T)).
    { unfold s0. rewrite get_topic_upd.
      change (get_topic t (clearTimeout (Some h) s)) with (get_topic t s).
      now rewrite G. }
    destruct (dht_loop_spec t s0 _ G0) as [E1 [E2 [_ [_ [E3 E4]]]]].
    unfold Topic__startDht. eexists. split; [exact E2|].
    repeat split; try assumption.
  - exists T. repeat split; assumption.
Qed.

Lemma trace_clearTimeout (h : option nat) (s : State) :
  trace (clearTimeout h s) = trace s.
Proof. now destruct h. Qed.

Lemma get_topic_clearTimeout (h : option nat) (t : tid) (s : State) :
  get_topic t (clearTimeout h s) = get_topic t s.
Proof. now destruct h. Qed.

Lemma timer_ctr_clearTimeout (h : option nat) (s : State) :
  timer_ctr (clearTimeout h s) = timer_ctr s.
Proof. now destruct h. Qed.

(** [Topic.update] on a topic that is not destroyed opens a new DHT
    stream exactly when a retry was scheduled, and always sends one
    multicast query.  Afterwards the topic awaits a DHT stream with no
    retry scheduled, and its only pending timer is the one multicast
    timer this call set, with an eager delay. *)
Theorem update_rearms_both_loops (opts : discovery_opts) (draws : list Q)
    (entropy : list Buffer) (acts : list action) (t : tid) (T : Topic) :
  let s := run acts (Discovery_new opts draws entropy) in
  get_topic t s = Some T -> t_destroyed T = false ->
  let s' := step (A_topic_update t) s in
  let d := notify_delay true (fst (Math_random s)) in
  history s'
  = history s
    ++ match t_timeoutDht T with
       | Some _ => [stream_call T (List.length (loops s))]
       | None => []
       end
    ++ [MdnsQuery (query_of T)] /\
  (exists T' sid,
     get_topic t s' = Some T' /\ t_destroyed T' = false /\
     t_timeoutDht T' = None /\ t_stream T' = Some sid /\
     nth_error (loops s') sid = Some (mk_Loop t false) /\
     t_timeoutMdns T' = Some (timer_ctr s)) /\
  In (timer_ctr s, (d, F_mdns_loop t)) (timers s') /\
  (forall h x fn,
     In (h, (x, fn)) (timers s') -> timer_topic fn = t ->
     (h, (x, fn)) = (timer_ctr s, (d, F_mdns_loop t))).
Proof.
  intros s G D s' d.
  assert (R : reachable s) by (now exists opts, draws, entropy, acts).
  assert (C' : Clock s') by (apply reachable_Clock; now apply reachable_step).
  destruct (update_dht_part t s T G) as [T1 [G1 [Q1 [D1 [H1 [M1 [Tr1 [Ct1 Dr1]]]]]]]].
  cbv zeta in G1, Tr1, Ct1, Dr1.
  match type of G1 with get_topic t ?x = _ => set (s1 := x) in * end.
  set (s2 := clearTimeout (t_timeoutMdns T) s1).
  assert (E : s' = mdns_loop t s2).
  { unfold s'. cbn [step]. unfold Topic_update. now rewrite G, D. }
  assert (G2 : get_topic t s2 = Some T1).
  { unfold s2. now rewrite get_topic_clearTimeout. }
  destruct (mdns_loop_spec t s2 T1 G2) as [Tr [G' Tm]].
  rewrite <- E in Tr, G', Tm.
  assert (Ct2 : timer_ctr s2 = timer_ctr s).
  { unfold s2. now rewrite timer_ctr_clearTimeout. }
  assert (Dr2 : fst (Math_random s2) = fst (Math_random s)).
  { apply next_draw. unfold s2. now rewrite draws_clearTimeout. }
  rewrite Ct2 in G', Tm. rewrite Dr2 in Tm. fold d in Tm.
  assert (I : In (timer_ctr s, (d, F_mdns_loop t)) (timers s')).
  { rewrite Tm. apply in_or_app. right. now left. }
  assert (L' : t_destroyed (T_set_timeoutMdns (Some (timer_ctr s)) T1) = false).
  { cbn. congruence. }
  split; [|split; [|split; [exact I|]]].
  - unfold s2 in Tr. rewrite trace_clearTimeout, Tr1, Q1 in Tr.
    rewrite (history_log _ _ s s' Tr).
    now destruct (t_timeoutDht T).
  - destruct C' as [H' _].
    pose proof (hy_beat _ H' t _ (gear_of t _ s' G') L') as B.
    cbn [g_stream g_dht T_gear T_set_timeoutMdns t_stream t_timeoutDht] in B.
    rewrite H1 in B. destruct (t_stream T1) as [sid|] eqn:St; [|contradiction].
    eexists. exists sid. split; [exact G'|]. split; [exact L'|].
    split; [exact H1|]. split; [exact St|]. split; [exact B|reflexivity].
  - intros h x fn I' Et.
    destruct (timer_owner s' h x fn C' I') as [T' [GT [_ F]]].
    rewrite Et, G' in GT. injection GT as <-.
    destruct fn as [t'|t']; cbn in Et, F; subst t'.
    + injection F as <-.
      pose proof (handle_unique _ _ _ _ (hy_nodup _ (proj1 C')) I I') as X.
      now rewrite X.
    + congruence.
Qed.

Lemma update_rearms_both_loops_witness :
  let s := run [A_lookup sample_key; E_end 0%nat] sample_session in
  let s' := step (A_topic_update 0%nat) s in
  In (timer_ctr s, (notify_delay true (fst (Math_random s)), F_mdns_loop 0%nat))
    (timers s').
Proof.
  cbv zeta.
  assert (G : exists T,
             get_topic 0%nat
               (run [A_lookup sample_key; E_end 0%nat]
                  (Discovery_new (mk_dopts (Some "test.local") None) [] []))
             = Some T /\ t_destroyed T = false).
  { vm_compute. eauto. }
  destruct G as [T [G D]].
  exact (proj1 (proj2 (proj2
    (update_rearms_both_loops (mk_dopts (Some "test.local") None) [] []
       [A_lookup sample_key; E_end 0%nat] 0%nat T G D)))).
Defined.

Lemma notify_split (fn : timer_fn) (eager : bool) (t : tid) (s : State) :
  (let (h, s0) := Discovery__notify fn eager s in
   upd_topic t (T_set_timeoutDht (Some h)) s0)
  = upd_topic t (T_set_timeoutDht (Some (timer_ctr s)))
      (snd (Discovery__notify fn eager s)).
Proof. unfold Discovery__notify, Math_random. now destruct (draws s). Qed.

Lemma notify_spec (fn : timer_fn) (eager : bool) (s : State) :
  let s' := snd (Discovery__notify fn eager s) in
  heap s' = heap s /\ loops s' = loops s /\
  timers s'
  = timers s ++
    [(timer_ctr s, (notify_delay eager (fst (Math_random s)), fn))].
Proof.
  unfold Discovery__notify, Math_random. now destruct (draws s).
Qed.

(** When the stream a live topic awaits ends or fails, [done]
    emits one ['update'] with the error, leaves the topic without stream
    and schedules the retry with a lazy delay; a second call of [done]
    for the same stream, as when ['end'] follows ['error'], changes
    nothing. *)
Theorem stream_end_handled_once (opts : discovery_opts) (draws : list Q)
    (entropy : list Buffer) (acts : list action) (t : tid) (T : Topic)
    (sid : nat) (err : option string) :
  let s := run acts (Discovery_new opts draws entropy) in
  get_topic t s = Some T -> t_destroyed T = false ->
  t_stream T = Some sid ->
  let s' := dht_done sid err s in
  let d := notify_delay false (fst (Math_random s)) in
  events_on t (history s') = events_on t (history s) ++ [Ev_update err] /\
  (exists T',
     get_topic t s' = Some T' /\ t_destroyed T' = false /\
     t_stream T' = None /\ t_timeoutDht T' = Some (timer_ctr s)) /\
  timers s' = timers s ++ [(timer_ctr s, (d, F_dht_loop t))] /\
  (forall err', dht_done sid err' s' = s').
Proof.
  intros s G D St s' d.
  assert (R : reachable s) by (now exists opts, draws, entropy, acts).
  destruct (reachable_Clock s R) as [H _].
  destruct (live_stream_awaited _ t (T_gear T) sid H (gear_of t T s G) D St)
    as [Dh A].
  unfold awaited in A. cbn [gs_loops gears] in A.
  set (s2 := set_loops
               (list_update (loops s) sid (fun L => mk_Loop (lp_topic L) true))
               (upd_topic t (T_set_stream None) s)).
  set (s3 := Topic_emit t (Ev_update err) s2).
  assert (E : s' = upd_topic t (T_set_timeoutDht (Some (timer_ctr s3)))
                     (snd (Discovery__notify (F_dht_loop t) false s3))).
  { unfold s', dht_done. rewrite A. cbn [lp_topic lp_called orb].
    rewrite G, D. exact (notify_split _ _ t s3). }
  assert (E3 : gears s3 = gears s2)
    by (apply gears_emit_calm; discriminate).
  assert (G3 : exists T3, get_topic t s3 = Some T3 /\
                 T_gear T3 = T_gear (T_set_stream None T)).
  { destruct (of_gear t (T_gear (T_set_stream None T)) s3) as [T3 [X Y]].
    - rewrite E3. apply gear_of. unfold s2.
      change (get_topic t (set_loops ?l ?x)) with (get_topic t x).
      now rewrite get_topic_upd, G.
    - now exists T3. }
  destruct G3 as [T3 [G3 X3]].
  assert (Ct : timer_ctr s3 = timer_ctr s).
  { change (gs_ctr (gears s3) = timer_ctr s). now rewrite E3. }
  assert (Tm : timers s3 = timers s).
  { change (gs_timers (gears s3) = timers s). now rewrite E3. }
  assert (Lp : loops s3
               = list_update (loops s) sid
                   (fun L => mk_Loop (lp_topic L) true)).
  { change (gs_loops (gears s3) = list_update (loops s) sid
                                    (fun L => mk_Loop (lp_topic L) true)).
    now rewrite E3. }
  assert (Dr : fst (Math_random s3) = fst (Math_random s)).
  { apply next_draw. unfold s3. now rewrite draws_emit. }
  assert (G' : get_topic t s'
               = Some (T_set_timeoutDht (Some (timer_ctr s)) T3)).
  { rewrite E, get_topic_upd, Ct.
    assert (X : get_topic t (snd (Discovery__notify (F_dht_loop t) false s3))
                = get_topic t s3).
    { unfold get_topic.
      now rewrite (proj1 (notify_spec (F_dht_loop t) false s3)). }
    now rewrite X, G3. }
  assert (L' : loops s' = loops s3).
  { rewrite E. cbn [loops upd_topic set_heap].
    exact (proj1 (proj2 (notify_spec (F_dht_loop t) false s3))). }
  split; [|split; [|split]].
  - unfold history. rewrite !events_on_rev, <- !events_on_erase.
    unfold s'. rewrite erase_dht_done, A. cbn [lp_topic lp_called orb].
    rewrite G, D, events_emit_self; [reflexivity|].
    now rewrite c_get_erase, G.
  - eexists. split; [exact G'|].
    assert (Y1 : g_destroyed (T_gear T3) = false) by (now rewrite X3).
    assert (Y2 : g_stream (T_gear T3) = None) by (now rewrite X3).
    repeat split; assumption.
  - rewrite E. unfold d. rewrite <- Dr, <- Tm, <- Ct.
    cbn [timers upd_topic set_heap].
    exact (proj2 (proj2 (notify_spec (F_dht_loop t) false s3))).
  - intros err'. unfold dht_done. rewrite L', Lp.
    rewrite nth_error_list_update_eq, A. cbn [option_map lp_topic lp_called].
    now rewrite G'.
Qed.

Lemma stream_end_handled_once_witness :
  let s := run [A_lookup sample_key] sample_session in
  let s' := dht_done 0%nat (Some "timeout") s in
  events_on 0%nat (history s')
  = events_on 0%nat (history s) ++ [Ev_update (Some "timeout")].
Proof.
  cbv zeta.
  assert (G : exists T,
             get_topic 0%nat
               (run [A_lookup sample_key]
                  (Discovery_new (mk_dopts (Some "test.local") None) [] []))
             = Some T /\ t_destroyed T = false /\ t_stream T = Some 0%nat).
  { vm_compute. eauto. }
  destruct G as [T [G [D St]]].
  exact (proj1
    (stream_end_handled_once (mk_dopts (Some "test.local") None) [] []
       [A_lookup sample_key] 0%nat T 0%nat (Some "timeout") G D St)).
Defined.

(** A pending timer that fires is taken off the list and runs the
    loop of its topic once: the multicast loop sends the topic's query
    and sets its next timer with an eager delay; the DHT loop opens a
    new stream, which the topic then awaits. *)
Theorem fired_timer_runs_its_loop (opts : discovery_opts) (draws : list Q)
    (entropy : list Buffer) (acts : list action) (h : nat) (d : Z)
    (fn : timer_fn) :
  let s := run acts (Discovery_new opts draws entropy) in
  In (h, (d, fn)) (timers s) ->
  let s' := step (E_timeout h) s in
  exists T,
    get_topic (timer_topic fn) s = Some T /\
    ~ In h (map fst (timers s')) /\
    match fn with
    | F_mdns_loop t =>
        history s' = history s ++ [MdnsQuery (query_of T)] /\
        get_topic t s' = Some (T_set_timeoutMdns (Some (timer_ctr s)) T) /\
        In (timer_ctr s,
            (notify_delay true (fst (Math_random s)), F_mdns_loop t))
          (timers s')
    | F_dht_loop t =>
        history s' = history s ++ [stream_call T (List.length (loops s))] /\
        get_topic t s'
        = Some (T_set_stream (Some (List.length (loops s)))
                  (T_set_timeoutDht None T)) /\
        nth_error (loops s') (List.length (loops s)) = Some (mk_Loop t false)
    end.
Proof.
  intros s I s'.
  assert (R : reachable s) by (now exists opts, draws, entropy, acts).
  pose proof (reachable_Clock s R) as C. pose proof (proj1 C) as H.
  destruct (timer_owner s h d fn C I) as [T [G [L F]]].
  exists T. split; [exact G|].
  assert (Fd : find_timer (timers s) h = Some fn).
  { apply (In_find_timer _ h d); [exact (hy_nodup _ H)|exact I]. }
  set (s0 := clearTimeout (Some h) s).
  assert (E : s' = run_timer fn s0).
  { unfold s'. cbn [step]. now rewrite Fd. }
  assert (G0 : get_topic (timer_topic fn) s0 = Some T) by exact G.
  assert (Gone : forall x, In x (timers s0) -> fst x <> h /\ (fst x < timer_ctr s)%nat).
  { intros x Ix. unfold s0 in Ix. cbn in Ix. apply filter_In in Ix.
    destruct Ix as [Ix Nx]. split.
    - destruct (Nat.eqb_spec (fst x) h); [discriminate|assumption].
    - now apply (hy_fresh _ H). }
  assert (Fr : (h < timer_ctr s)%nat) by (exact (hy_fresh _ H _ I)).
  destruct fn as [t|t]; cbn [timer_topic run_timer] in *.
  - destruct (mdns_loop_spec t s0 T G0) as [Tr [G' Tm]].
    rewrite <- E in Tr, G', Tm.
    change (timer_ctr s0) with (timer_ctr s) in *.
    rewrite (next_draw s s0 eq_refl) in Tm.
    split; [|split; [|split]].
    + rewrite Tm, map_app. intros X. apply in_app_or in X.
      destruct X as [X|[X|[]]].
      * apply in_map_iff in X. destruct X as [x [Ex Ix]].
        destruct (Gone x Ix) as [N _]. congruence.
      * cbn in X. lia.
    + apply (history_log _ [] s s'). exact Tr.
    + exact G'.
    + rewrite Tm. apply in_or_app. right. now left.
  - destruct (dht_loop_spec t s0 T G0) as [Tr [G' [Lp [Tm _]]]].
    rewrite <- E in Tr, G', Tm, Lp.
    change (loops s0) with (loops s) in *.
    split; [|split; [|split]].
    + rewrite Tm. intros X.
      apply in_map_iff in X. destruct X as [x [Ex Ix]].
      destruct (Gone x Ix) as [N _]. congruence.
    + apply (history_log _ [] s s'). exact Tr.
    + exact G'.
    + rewrite Lp, nth_error_app2 by lia. now rewrite Nat.sub_diag.
Qed.

Lemma fired_timer_runs_its_loop_witness :
  let s := run [A_lookup sample_key] sample_session in
  let s' := step (E_timeout 0%nat) s in
  exists T,
    get_topic 0%nat s = Some T /\
    ~ In 0%nat (map fst (timers s')) /\
    history s' = history s ++ [MdnsQuery (query_of T)] /\
    get_topic 0%nat s' = Some (T_set_timeoutMdns (Some (timer_ctr s)) T) /\
    In (timer_ctr s,
        (notify_delay true (fst (Math_random s)), F_mdns_loop 0%nat))
      (timers s').
Proof.
  cbv zeta.
  assert (I : In (0%nat, (30000, F_mdns_loop 0%nat))
                (timers
                   (run [A_lookup sample_key]
                      (Discovery_new (mk_dopts (Some "test.local") None)
                         [] [])))).
  { vm_compute. now left. }
  exact (fired_timer_runs_its_loop (mk_dopts (Some "test.local") None) [] []
           [A_lookup sample_key] 0%nat 30000 (F_mdns_loop 0%nat) I).
Defined.

(** ** Exceptions *)

Lemma indexed_view (c c' : Core) :
  ix_view c' = ix_view c -> indexed c -> indexed c'.
Proof.
  unfold ix_view. intros E I t T G D. injection E as E1 E2.
  assert (X : nth_error (map (fun T => (ct_destroyed T, ct_domain T))
                           (c_topics c')) t
              = Some (ct_destroyed T, ct_domain T)).
  { rewrite nth_error_map. unfold c_get in G. now rewrite G. }
  rewrite E2, nth_error_map in X.
  destruct (nth_error (c_topics c) t) as [T0|] eqn:G0; [|discriminate].
  cbn in X. injection X as X1 X2.
  destruct (I t T0 G0) as [set [M J]]; [congruence|].
  exists set. rewrite E1, <- X2. now split.
Qed.

Lemma view_upd (t : tid) (f : CTopic -> CTopic) (c : Core) :
  (forall T, ct_destroyed (f T) = ct_destroyed T /\
             ct_domain (f T) = ct_domain T) ->
  ix_view (c_upd t f c) = ix_view c.
Proof.
  intros H. unfold ix_view, c_upd. cbn. f_equal.
  apply map_list_update_id. intros T. destruct (H T) as [-> ->]. reflexivity.
Qed.

Lemma view_on (t : tid) (n : event_name) (l : listener) (c : Core) :
  ix_view (c_upd t (ct_on n l) c) = ix_view c.
Proof. apply view_upd. intros T. now destruct n. Qed.

Lemma view_removeListener (t : tid) (n : event_name) (l : listener)
    (c : Core) :
  ix_view (c_upd t (ct_removeListener n l) c) = ix_view c.
Proof. apply view_upd. intros T. now destruct n. Qed.

Lemma view_done (c : Core) : ix_view (c_done c) = ix_view c.
Proof. unfold c_done. cbn. now destruct (c_missing c - 1 =? 0). Qed.

Lemma Map_get_set_ne (m : list (string * list tid)) (k k' : string)
    (v : list tid) :
  k <> k' -> Map_get (Map_set m k v) k' = Map_get m k'.
Proof.
  intros N. induction m as [|[k0 v0] m IH]; cbn.
  - destruct (String.eqb_spec k k'); [contradiction|reflexivity].
  - destruct (String.eqb_spec k0 k) as [->|N0]; cbn.
    + destruct (String.eqb_spec k k'); [contradiction|reflexivity].
    + now rewrite IH.
Qed.

Lemma Map_get_delete_ne (m : list (string * list tid)) (k k' : string) :
  k <> k' -> Map_get (Map_delete m k) k' = Map_get m k'.
Proof.
  intros N. induction m as [|[k0 v0] m IH]; cbn; [reflexivity|].
  destruct (String.eqb_spec k0 k) as [->|N0]; cbn.
  - destruct (String.eqb_spec k k'); [contradiction|reflexivity].
  - now rewrite IH.
Qed.

Lemma Set_delete_keeps (s : list tid) (t x : tid) :
  x <> t -> In x s -> In x (Set_delete s t).
Proof.
  intros N. induction s as [|y s IH]; cbn; [tauto|].
  destruct (Nat.eqb_spec t y) as [->|Ny]; intros [E|I].
  - congruence.
  - exact I.
  - now left.
  - right. now apply IH.
Qed.

Lemma indexed_Topic_destroy (t : tid) (c : Core) :
  indexed c -> indexed (c_Topic_destroy t c).
Proof.
  intros I. unfold c_Topic_destroy.
  destruct (c_get t c) as [T|] eqn:G; [|exact I].
  destruct (ct_destroyed T) eqn:D; [exact I|].
  destruct (I t T G D) as [set0 [M J]].
  cbn [c_domains c_upd c_set_topics]. rewrite M.
  set (d := ct_domain T). fold d in M.
  set (set := Set_delete set0 t).
  assert (K : forall m,
             (forall d', d' <> d -> Map_get m d' = Map_get (c_domains c) d') ->
             (set <> [] -> Map_get m d = Some set) ->
             forall c',
               c_domains c' = m ->
               c_topics c' = list_update (c_topics c) t (ct_set_destroyed true) ->
               indexed c').
  { intros m M1 M2 c' E1 E2 t' T' G' D'.
    unfold c_get in G'. rewrite E2, nth_error_list_update in G'.
    destruct (Nat.eqb_spec t t') as [<-|Nt].
    - unfold c_get in G. rewrite G in G'. cbn in G'. injection G' as <-.
      discriminate.
    - destruct (I t' T' G' D') as [set1 [M' J']]. rewrite E1.
      destruct (String.eqb_spec (ct_domain T') d) as [Ed|Nd].
      + rewrite Ed in *. rewrite M in M'. injection M' as <-.
        assert (X : In t' set) by (apply Set_delete_keeps; auto).
        exists set. split; [|exact X]. apply M2. intros Z.
        rewrite Z in X. contradiction.
      + exists set1. split; [|exact J']. now rewrite M1. }
  assert (R : forall c',
             c_domains c'
             = match set with
               | [] => Map_delete (Map_set (c_domains c) d set) d
               | _ :: _ => Map_set (c_domains c) d set
               end ->
             c_topics c' = list_update (c_topics c) t (ct_set_destroyed true) ->
             indexed c').
  { intros c' E1 E2. apply (K _) with (3 := E1) (4 := E2).
    - intros d' Nd. destruct set.
      + rewrite Map_get_delete_ne by congruence.
        apply Map_get_set_ne. congruence.
      + apply Map_get_set_ne. congruence.
    - intros Ns. destruct set; [congruence|]. apply Map_get_set_eq. }
  destruct (ct_announcing T); apply R; destruct set; reflexivity.
Qed.

Lemma indexed_run_listener (t : tid) (e : event) (l : listener) (c : Core) :
  indexed c -> indexed (c_run_listener t e l c).
Proof.
  intros I. destruct l as [n|cb|cb|]; cbn [c_run_listener].
  - exact I.
  - exact I.
  - destruct e; try exact I.
    apply (indexed_view (c_Topic_destroy t
             (c_upd t (ct_removeListener N_close (L_onclose cb))
                (c_upd t (ct_removeListener N_peer (L_onpeer cb)) c))));
      [reflexivity|].
    apply indexed_Topic_destroy.
    apply (indexed_view c); [|exact I].
    now rewrite !view_removeListener.
  - apply (indexed_view c); [apply view_done|exact I].
Qed.

Lemma Calm_refl (s : State) : Ok s -> Calm s s.
Proof. now split. Qed.

Lemma Calm_trans (s s1 s2 : State) : Calm s s1 -> Calm s1 s2 -> Calm s s2.
Proof. intros [_ E1] [O2 E2]. split; [exact O2|congruence]. Qed.

Lemma Calm_view (s s' : State) :
  ix_view (erase s') = ix_view (erase s) ->
  thrown (trace s') = thrown (trace s) -> Ok s -> Calm s s'.
Proof.
  intros V E O. split; [|exact E]. now apply (indexed_view (erase s)).
Qed.

Lemma Calm_erase (s s' : State) :
  erase s' = erase s -> thrown (trace s') = thrown (trace s) -> Ok s ->
  Calm s s'.
Proof. intros V. apply Calm_view. now rewrite V. Qed.

Lemma Calm_fold {A : Type} (f : State -> A -> State) (l : list A) :
  (forall s a, Ok s -> Calm s (f s a)) ->
  forall s, Ok s -> Calm s (fold_left f l s).
Proof.
  intros H. induction l as [|a l IH]; intros s O; cbn; [now apply Calm_refl|].
  apply (Calm_trans s (f s a)); [now apply H|].
  apply IH. now destruct (H s a O).
Qed.

Lemma thrown_stopDht (t : tid) (s : State) :
  thrown (trace (Topic__stopDht t s)) = thrown (trace s).
Proof.
  unfold Topic__stopDht. destruct (get_topic t s) as [T|]; [|reflexivity].
  destruct (t_stream T); cbn; now rewrite trace_clearTimeout.
Qed.

Lemma Calm_Topic_destroy (t : tid) (s : State) :
  Ok s -> Calm s (Topic_destroy t s).
Proof.
  intros O. split.
  - unfold Ok. rewrite erase_Topic_destroy. now apply indexed_Topic_destroy.
  - unfold Topic_destroy. destruct (get_topic t s) as [T|] eqn:G;
      [|reflexivity].
    destruct (t_destroyed T) eqn:D; [reflexivity|].
    set (s1 := clearTimeout _ _).
    assert (E1 : thrown (trace s1) = thrown (trace s)).
    { unfold s1. now rewrite trace_clearTimeout, thrown_stopDht. }
    assert (Ed : d_domains s1 = d_domains s).
    { change (c_domains (erase s1) = c_domains (erase s)). unfold s1.
      rewrite erase_clearTimeout, erase_stopDht.
      now rewrite (erase_upd_topic _ _ (ct_set_destroyed true)). }
    destruct (O t (erase_topic T)) as [set [M _]].
    + now rewrite c_get_erase, G.
    + exact D.
    + change (Map_get (d_domains s) (t_domain T) = Some set) in M.
      rewrite Ed, M.
      destruct (Set_delete set t); destruct (t_announce T); exact E1.
Qed.

Lemma Calm_run_listener (t : tid) (e : event) (l : listener) (s : State) :
  Ok s -> Calm s (run_listener t e l s).
Proof.
  intros O. destruct l as [n|cb|cb|]; cbn [run_listener].
  - now apply Calm_erase.
  - apply Calm_view; [now rewrite erase_log|reflexivity|exact O].
  - destruct e; try (now apply Calm_refl).
    set (s1 := upd_topic t (T_removeListener N_close (L_onclose cb))
                 (upd_topic t (T_removeListener N_peer (L_onpeer cb)) s)).
    assert (C1 : Calm s s1).
    { apply Calm_view; [|reflexivity|exact O]. unfold s1.
      rewrite (erase_upd_topic _ _ (ct_removeListener N_close (L_onclose cb)))
        by (intros; apply erase_T_removeListener).
      rewrite (erase_upd_topic _ _ (ct_removeListener N_peer (L_onpeer cb)))
        by (intros; apply erase_T_removeListener).
      now rewrite !view_removeListener. }
    apply (Calm_trans s s1); [exact C1|].
    apply (Calm_trans s1 (Topic_destroy t s1)).
    + apply Calm_Topic_destroy. now destruct C1.
    + apply Calm_view; [now rewrite erase_log|reflexivity|].
      apply Calm_Topic_destroy. now destruct C1.
  - apply Calm_view; [|now unfold destroy_done; cbn;
                        destruct (d_missing s - 1 =? 0)|exact O].
    rewrite erase_destroy_done. apply view_done.
Qed.

Lemma Calm_emit (t : tid) (e : event) (s : State) :
  Ok s -> Calm s (Topic_emit t e s).
Proof.
  intros O. unfold Topic_emit.
  destruct (get_topic t s) as [T|]; [|now apply Calm_refl].
  apply (Calm_trans s (log (Emit t e) s)).
  - apply Calm_view; [now rewrite erase_log|reflexivity|exact O].
  - apply Calm_fold; [intros; now apply Calm_run_listener|].
    apply (indexed_view (erase s)); [now rewrite erase_log|exact O].
Qed.

Lemma Calm_ondhtdata (t : tid) (data : dht_data) (s : State) :
  Ok s -> Calm s (Topic__ondhtdata t data s).
Proof.
  intros O. unfold Topic__ondhtdata.
  destruct (get_topic t s) as [T|]; [|now apply Calm_refl].
  destruct (t_destroyed T); [now apply Calm_refl|].
  match goal with
  | |- Calm s (fold_left ?f ?l (fold_left ?g ?k s)) =>
      apply (Calm_trans s (fold_left g k s));
        [apply Calm_fold; [intros; now apply Calm_emit|exact O]|];
      apply Calm_fold; [intros; now apply Calm_emit|];
      apply Calm_fold; [intros; now apply Calm_emit|exact O]
  end.
Qed.

Lemma Calm_response (res : message) (address : string) (s : State) :
  Ok s -> Calm s (Discovery__onmdnsresponse res address s).
Proof.
  intros O. unfold Discovery__onmdnsresponse.
  apply Calm_fold; [|exact O].
  intros s' [name target port|name data|type name] O';
    try (now apply Calm_refl).
  destruct (Map_get (d_domains s') name); [|now apply Calm_refl].
  apply Calm_fold; [intros; now apply Calm_emit|exact O'].
Qed.

Lemma thrown_mdns_loop (t : tid) (s : State) :
  thrown (trace (mdns_loop t s)) = thrown (trace s).
Proof.
  destruct (get_topic t s) as [T|] eqn:G.
  - destruct (mdns_loop_spec t s T G) as [-> _]. reflexivity.
  - unfold mdns_loop. now rewrite G.
Qed.

Lemma thrown_dht_loop (t : tid) (s : State) :
  thrown (trace (dht_loop t s)) = thrown (trace s).
Proof.
  destruct (get_topic t s) as [T|] eqn:G.
  - destruct (dht_loop_spec t s T G) as [-> _]. unfold stream_call.
    now destruct (t_announce T).
  - unfold dht_loop. now rewrite G.
Qed.

Lemma thrown_dht_done (sid : nat) (err : option string) (s : State) :
  Ok s -> thrown (trace (dht_done sid err s)) = thrown (trace s).
Proof.
  intros O. unfold dht_done.
  destruct (nth_error (loops s) sid) as [L|]; [|reflexivity].
  destruct (get_topic (lp_topic L) s) as [T|]; [|reflexivity].
  destruct (lp_called L || t_destroyed T); [reflexivity|].
  rewrite notify_split. cbn [trace upd_topic set_heap].
  rewrite trace_notify.
  match goal with
  | |- thrown (trace (Topic_emit ?t ?e ?x)) = _ =>
      destruct (Calm_emit t e x) as [_ E]; [|exact E]
  end.
  apply (indexed_view (erase s)); [|exact O].
  rewrite erase_set_loops. now rewrite erase_upd_topic_id.
Qed.

Lemma thrown_Topic_update (t : tid) (s : State) :
  thrown (trace (Topic_update t s)) = thrown (trace s).
Proof.
  unfold Topic_update. destruct (get_topic t s) as [T|]; [|reflexivity].
  destruct (t_destroyed T); [reflexivity|].
  unfold Topic__startMdns, Topic__startDht.
  rewrite thrown_mdns_loop, trace_clearTimeout.
  destruct (t_timeoutDht T); [|reflexivity].
  now rewrite thrown_dht_loop.
Qed.

Lemma thrown_Topic_new (key : Buffer) (opts : topic_opts) (s : State) :
  thrown (trace (snd (Topic_new key opts s))) = thrown (trace s).
Proof.
  unfold Topic_new. destruct (crypto_randomBytes 32 s) as [rnd s0] eqn:R.
  assert (E0 : trace s0 = trace s).
  { unfold crypto_randomBytes in R.
    destruct (entropy s); injection R as _ <-; reflexivity. }
  cbv zeta. cbn [snd]. unfold Topic__startMdns, Topic__startDht.
  rewrite <- E0.
  destruct (to_announce opts); [destruct (to_lookup opts)|];
    rewrite ?thrown_mdns_loop, thrown_dht_loop; reflexivity.
Qed.

(** [_topic] finds the set it has just made sure of *)
Lemma thrown_topic (key : Buffer) (ann : topic_opts) (s : State) :
  thrown (trace (snd (Discovery__topic key ann s))) = thrown (trace s).
Proof.
  unfold Discovery__topic.
  pose proof (thrown_Topic_new key ann s) as E.
  destruct (Topic_new key ann s) as [t s1]. cbn [snd] in E.
  set (d := Discovery__domain s1 key).
  destruct (Map_has (d_domains s1) d) eqn:Hs.
  - unfold Map_has in Hs. destruct (Map_get (d_domains s1) d); [exact E|].
    discriminate.
  - cbn [d_domains set_domains]. now rewrite Map_get_set_eq.
Qed.

Lemma thrown_Discovery_destroy (s : State) :
  Ok s -> thrown (trace (Discovery_destroy s)) = thrown (trace s).
Proof.
  intros O. unfold Discovery_destroy. destruct (d_destroyed s); [reflexivity|].
  cbn [process_nextTick trace set_ticks].
  match goal with
  | |- thrown (trace (fold_left ?f ?l ?x)) = _ =>
      destruct (Calm_fold f l) with (s := x) as [_ E]; [| |exact E]
  end.
  - intros s' t O'.
    apply (Calm_trans s' (Topic_destroy t (set_missing (d_missing s' + 1) s'))).
    + apply (Calm_trans s' (set_missing (d_missing s' + 1) s')).
      * now apply Calm_view.
      * apply Calm_Topic_destroy. exact O'.
    + apply Calm_view; [|reflexivity|].
      * rewrite (erase_upd_topic _ _ (ct_on N_close L_done))
          by (intros; apply erase_T_on).
        apply view_on.
      * now apply Calm_Topic_destroy.
  - exact O.
Qed.

Lemma thrown_fold_log {A : Type} (f : A -> effect) (l : list A) :
  (forall a, is_throw (f a) = false) ->
  forall s,
    thrown (trace (fold_left (fun s a => log (f a) s) l s)) = thrown (trace s).
Proof.
  intros H. induction l as [|a l IH]; intros s; cbn [fold_left];
    [reflexivity|].
  rewrite IH. cbn. unfold thrown. cbn. now rewrite H.
Qed.

Lemma thrown_step (a : action) (s : State) :
  Ok s -> thrown (trace (step a s)) = refusal a s ++ thrown (trace s).
Proof.
  intros O. destruct a; cbn [step refusal].
  - unfold Discovery_announce. destruct (d_destroyed s); [reflexivity|].
    match goal with
    | |- context [Discovery__topic key ?o s] =>
        pose proof (thrown_topic key o s) as E;
        destruct (Discovery__topic key o s)
    end. exact E.
  - unfold Discovery_lookup. destruct (d_destroyed s); [reflexivity|].
    pose proof (thrown_topic key no_opts s) as E.
    destruct (Discovery__topic key no_opts s). exact E.
  - unfold Discovery_lookupOne, Discovery_lookup.
    destruct (d_destroyed s); [reflexivity|].
    pose proof (thrown_topic key no_opts s) as E.
    destruct (Discovery__topic key no_opts s). exact E.
  - unfold Discovery_ping. destruct (d_bootstrap s); [reflexivity|].
    now rewrite (thrown_fold_log (fun b => DhtPing b (List.length (pings s)))).
  - unfold Discovery_holepunch. now destruct (p_referrer p).
  - now apply thrown_Discovery_destroy.
  - apply thrown_Topic_update.
  - now destruct (Calm_Topic_destroy t s O).
  - reflexivity.
  - destruct (ticks s) as [|f rest]; [reflexivity|].
    assert (O1 : Ok (set_ticks rest s)).
    { apply (indexed_view (erase s)); [reflexivity|exact O]. }
    destruct f as [t| |cb r]; cbn [run_task].
    + now destruct (Calm_emit t Ev_close _ O1).
    + unfold destroy_done. cbn. now destruct (d_missing s - 1 =? 0).
    + reflexivity.
  - destruct (find_timer (timers s) h) as [[t|t]|]; [| |reflexivity];
      cbn [run_timer].
    + now rewrite thrown_mdns_loop.
    + now rewrite thrown_dht_loop.
  - destruct (nth_error (loops s) sid); [|reflexivity].
    now destruct (Calm_ondhtdata (lp_topic l) data s O).
  - now apply thrown_dht_done.
  - now apply thrown_dht_done.
  - destruct (Set_has (unannounces s) t); [|reflexivity].
    match goal with
    | |- thrown (trace (Topic_emit t Ev_close ?x)) = _ =>
        destruct (Calm_emit t Ev_close x) as [_ E]; [|exact E]
    end.
    apply (indexed_view (erase s)); [reflexivity|exact O].
  - unfold ping_callback. destruct (nth_error (pings s) pid) as [P|];
      [|reflexivity].
    destruct (negb _); [reflexivity|].
    match goal with |- context [match ?r with [] => _ | _ :: _ => _ end] =>
      now destruct r end.
  - reflexivity.
  - now destruct (Calm_response res address s O).
Qed.

Lemma reachable_Ok (s : State) : reachable s -> Ok s.
Proof.
  intros R t T G D.
  destruct (inv_index _ _ _ (reachable_Inv s R)) as [_ I2 _ _ I5].
  destruct (I5 t T G D) as [set [I J]].
  exists set. split; [|exact J]. now apply In_Map_get.
Qed.

Lemma thrown_rev (tr : list effect) : thrown (rev tr) = rev (thrown tr).
Proof. apply filter_rev_eq. Qed.

Lemma thrown_known (s : State) (msg : string) :
  reachable s -> In (Throw msg) (trace s) ->
  msg = "Discovery instance is destroyed" \/
  msg = "TypeError: the callback argument must be of type function".
Proof.
  intros [opts [draws [entropy [acts ->]]]].
  induction acts as [|a acts IH] using rev_ind; [intros []|].
  rewrite run_app. cbn [run fold_left].
  set (s := run acts (Discovery_new opts draws entropy)) in *.
  assert (R : reachable s) by (now exists opts, draws, entropy, acts).
  intros I.
  assert (X : In (Throw msg) (thrown (trace (step a s)))).
  { apply filter_In. now split. }
  rewrite (thrown_step a s (reachable_Ok s R)) in X.
  apply in_app_or in X. destruct X as [X|X].
  - destruct a; cbn [refusal] in X; try contradiction.
    + destruct (d_destroyed s); [|contradiction].
      destruct X as [X|[]]. injection X as <-. now left.
    + destruct (d_destroyed s); [|contradiction].
      destruct X as [X|[]]. injection X as <-. now left.
    + destruct (d_destroyed s); [|contradiction].
      destruct X as [X|[]]. injection X as <-. now left.
    + destruct (p_referrer p); [contradiction|].
      destruct X as [X|[]]. injection X as <-. now right.
  - apply filter_In in X. now apply IH.
Qed.

(** Nothing but a refused call throws.  A step of a session throws
    exactly when it is [lookup], [announce] or [lookupOne] on a destroyed
    session, or [holepunch] of a peer without referrer; so the only
    exceptions a session ever throws are those two, and [Topic.destroy]
    and [_topic] always find the set they look up in the index. *)
Theorem only_refused_calls_throw (opts : discovery_opts) (draws : list Q)
    (entropy : list Buffer) (acts : list action) :
  let s := run acts (Discovery_new opts draws entropy) in
  (forall a,
     thrown (history (step a s)) = thrown (history s) ++ refusal a s) /\
  (forall msg,
     In (Throw msg) (history s) ->
     msg = "Discovery instance is destroyed" \/
     msg = "TypeError: the callback argument must be of type function").
Proof.
  intros s.
  assert (R : reachable s) by (now exists opts, draws, entropy, acts).
  split.
  - intros a. unfold history. rewrite !thrown_rev.
    rewrite (thrown_step a s (reachable_Ok s R)), rev_app_distr.
    f_equal. destruct a; cbn [refusal]; try reflexivity;
      try (now destruct (d_destroyed s)).
    now destruct (p_referrer p).
  - intros msg I. apply (thrown_known s msg R). now apply in_rev.
Qed.

(** ** [Topic.destroy] and the loops *)

Lemma filter_all {A : Type} (l : list A) : filter (fun _ => true) l = l.
Proof. induction l as [|x l IH]; cbn; [reflexivity|now rewrite IH]. Qed.

Lemma filter_twice {A : Type} (f g : A -> bool) (l : list A) :
  filter f (filter g l) = filter (fun x => g x && f x) l.
Proof.
  induction l as [|x l IH]; cbn; [reflexivity|].
  destruct (g x); cbn; [destruct (f x)|]; now rewrite IH.
Qed.

Lemma timers_clear (h : option nat) (g : Gears) :
  gs_timers (G_clear h g) = filter (keeps h) (gs_timers g).
Proof. destruct h; cbn; [reflexivity|]. symmetry. apply filter_all. Qed.

(** [Topic.destroy] takes the timers of its topic off the list, and no
    other *)
Lemma destroy_timers (g : Gears) (t : tid) (T : Gear) :
  Hyg g -> nth_error (gs_topics g) t = Some T -> g_destroyed T = false ->
  gs_timers (G_destroy t g)
  = filter (fun x => negb (Nat.eqb (timer_topic (snd (snd x))) t))
      (gs_timers g).
Proof.
  intros H N D. unfold G_destroy. rewrite N, D.
  rewrite timers_clear. cbn [gs_timers G_upd]. rewrite timers_clear.
  cbn [gs_timers G_upd]. rewrite filter_twice.
  apply filter_ext_in. intros [h [d fn]] I. cbn [snd fst].
  destruct (Nat.eqb_spec (timer_topic fn) t) as [E|Nt]; cbn [negb].
  - destruct fn as [t'|t']; cbn in E; subst t'.
    + destruct (hy_mdns g H h d t I) as [T' [N' [_ E']]].
      rewrite N in N'. injection N' as <-. rewrite E'. cbn.
      rewrite Nat.eqb_refl. apply andb_false_r.
    + destruct (hy_dht g H h d t I) as [T' [N' [_ E']]].
      rewrite N in N'. injection N' as <-. rewrite E'. cbn.
      now rewrite Nat.eqb_refl.
  - apply andb_true_iff. split.
    + destruct (g_dht T) as [hd|] eqn:E; [|reflexivity]. cbn.
      destruct (Nat.eqb_spec h hd) as [->|]; [|reflexivity].
      destruct (live_dht_pending g t T hd H N D E) as [_ [d' I']].
      pose proof (handles_apart g hd _ _ _ _ H I I') as X. subst fn.
      now destruct Nt.
    + destruct (g_mdns T) as [hm|] eqn:E; [|reflexivity]. cbn.
      destruct (Nat.eqb_spec h hm) as [->|]; [|reflexivity].
      destruct (hy_back g H t T hm N D E) as [d' I'].
      pose proof (handles_apart g hm _ _ _ _ H I I') as X. subst fn.
      now destruct Nt.
Qed.

Lemma Topic_destroy_spec (t : tid) (s : State) (T : Topic) :
  Ok s -> get_topic t s = Some T -> t_destroyed T = false ->
  let s' := Topic_destroy t s in
  trace s'
  = match t_announce T with
    | Some ann => [DhtUnannounce (t_key T) ann t]
    | None => []
    end ++
    match t_stream T with
    | Some sid => [StreamDestroy sid]
    | None => []
    end ++ trace s /\
  ticks s'
  = ticks s ++
    match t_announce T with
    | None => [T_emit_close t]
    | Some _ => []
    end /\
  unannounces s'
  = unannounces s ++
    match t_announce T with
    | Some _ => [t]
    | None => []
    end /\
  loops s' = loops s.
Proof.
  intros O G D. cbv zeta. unfold Topic_destroy. rewrite G, D.
  destruct (O t (erase_topic T)) as [set [M _]];
    [now rewrite c_get_erase, G|exact D|].
  change (Map_get (d_domains s) (t_domain T) = Some set) in M.
  assert (G1 : get_topic t (upd_topic t (T_set_destroyed true) s)
               = Some (T_set_destroyed true T))
    by (now rewrite get_topic_upd, G).
  unfold Topic__stopDht. rewrite G1.
  cbn [t_timeoutDht t_stream T_set_destroyed].
  destruct (t_stream T), (t_timeoutDht T), (t_timeoutMdns T);
    cbn [clearTimeout d_domains set_timers upd_topic set_heap log];
    rewrite M;
    destruct (Set_delete set t); destruct (t_announce T); cbn;
    rewrite ?app_nil_r; repeat split.
Qed.

(** [Topic.destroy] on a topic that is not destroyed destroys the stream
    the topic awaits, if any, unannounces the topic if it announces, and
    queues its ['close'].  It cancels exactly the timers of the topic.
    From then on the stream events of the topic and [update] change
    nothing. *)
Theorem destroy_stops_the_loops (opts : discovery_opts) (draws : list Q)
    (entropy : list Buffer) (acts : list action) (t : tid) (T : Topic) :
  let s := run acts (Discovery_new opts draws entropy) in
  get_topic t s = Some T -> t_destroyed T = false ->
  let s' := step (A_topic_destroy t) s in
  history s'
  = history s ++
    match t_stream T with
    | Some sid => [StreamDestroy sid]
    | None => []
    end ++
    match t_announce T with
    | Some ann => [DhtUnannounce (t_key T) ann t]
    | None => []
    end /\
  (ticks s', unannounces s')
  = match t_announce T with
    | Some _ => (ticks s, unannounces s ++ [t])
    | None => (ticks s ++ [T_emit_close t], unannounces s)
    end /\
  timers s'
  = filter (fun x => negb (Nat.eqb (timer_topic (snd (snd x))) t))
      (timers s) /\
  step (A_topic_update t) s' = s' /\
  (forall sid L data err,
     nth_error (loops s) sid = Some L -> lp_topic L = t ->
     step (E_data sid data) s' = s' /\
     step (E_error sid err) s' = s' /\
     step (E_end sid) s' = s').
Proof.
  intros s G D s'.
  assert (R : reachable s) by (now exists opts, draws, entropy, acts).
  destruct (reachable_Clock s R) as [H _].
  destruct (Topic_destroy_spec t s T (reachable_Ok s R) G D)
    as [Tr [Tk [Un Lp]]].
  cbv zeta in Tr, Tk, Un, Lp. change (Topic_destroy t s) with s' in *.
  destruct (Topic_destroy_destroys t s T G) as [T' [G' D']].
  change (Topic_destroy t s) with s' in G'.
  split; [|split; [|split; [|split]]].
  - unfold history. rewrite Tr, !rev_app_distr, <- app_assoc.
    now destruct (t_stream T), (t_announce T).
  - rewrite Tk, Un. destruct (t_announce T); now rewrite app_nil_r.
  - change (gs_timers (gears s') = filter
              (fun x => negb (Nat.eqb (timer_topic (snd (snd x))) t))
              (gs_timers (gears s))).
    unfold s'. cbn [step]. rewrite gears_Topic_destroy.
    now apply (destroy_timers _ t (T_gear T) H (gear_of t T s G)).
  - cbn [step]. unfold Topic_update. now rewrite G', D'.
  - intros sid L data err NL EL. cbn [step]. rewrite Lp, NL.
    unfold Topic__ondhtdata, dht_done. rewrite Lp, NL, EL, G', D'.
    now rewrite orb_true_r.
Qed.

Lemma destroy_stops_the_loops_witness :
  let s := run [A_lookup sample_key] sample_session in
  let s' := step (A_topic_destroy 0%nat) s in
  timers s'
  = filter (fun x => negb (Nat.eqb (timer_topic (snd (snd x))) 0%nat))
      (timers s).
Proof.
  cbv zeta.
  assert (G : exists T,
             get_topic 0%nat
               (run [A_lookup sample_key]
                  (Discovery_new (mk_dopts (Some "test.local") None) [] []))
             = Some T /\ t_destroyed T = false).
  { vm_compute. eauto. }
  destruct G as [T [G D]].
  exact (proj1 (proj2 (proj2
    (destroy_stops_the_loops (mk_dopts (Some "test.local") None) [] []
       [A_lookup sample_key] 0%nat T G D)))).
Defined.

(** ** A new topic *)

Lemma loops_mdns_loop (t : tid) (s : State) :
  loops (mdns_loop t s) = loops s.
Proof.
  destruct (gears_mdns_loop t s) as [delay E].
  change (gs_loops (gears (mdns_loop t s)) = gs_loops (gears s)).
  rewrite E. unfold G_mdns_loop.
  now destruct (nth_error (gs_topics (gears s)) t).
Qed.

Lemma randomBytes_frame (n : nat) (s : State) :
  let s0 := snd (crypto_randomBytes n s) in
  heap s0 = heap s /\ loops s0 = loops s /\ timers s0 = timers s /\
  timer_ctr s0 = timer_ctr s /\ trace s0 = trace s /\ draws s0 = draws s /\
  d_tld s0 = d_tld s.
Proof.
  unfold crypto_randomBytes. destruct (entropy s); cbn; repeat split.
Qed.

Lemma Topic_new_spec (key : Buffer) (opts : topic_opts) (s : State) :
  let t := List.length (heap s) in
  let sid := List.length (loops s) in
  let s' := snd (Topic_new key opts s) in
  exists T,
    get_topic t s' = Some T /\ t_key T = key /\
    t_announce T = to_announce opts /\ t_destroyed T = false /\
    t_stream T = Some sid /\ t_timeoutDht T = None /\
    t_timeoutMdns T
    = (if starts_mdns opts then Some (timer_ctr s) else None) /\
    trace s'
    = (if starts_mdns opts then [MdnsQuery (query_of T)] else []) ++
      stream_call T sid :: trace s /\
    loops s' = loops s ++ [mk_Loop t false] /\
    timers s'
    = timers s ++
      (if starts_mdns opts
       then [(timer_ctr s,
              (notify_delay true (fst (Math_random s)), F_mdns_loop t))]
       else []).
Proof.
  cbv zeta. unfold Topic_new.
  pose proof (randomBytes_frame 32 s) as F. cbv zeta in F.
  destruct (crypto_randomBytes 32 s) as [rnd s0]. cbn [snd] in F.
  destruct F as [F1 [F2 [F3 [F4 [F5 [F6 F7]]]]]].
  cbn [snd]. unfold Topic__startMdns, Topic__startDht.
  match goal with
  | |- context [dht_loop _ (set_heap (heap s0 ++ [?X]) s0)] =>
      set (T0 := X)
  end.
  set (t := List.length (heap s)).
  set (s1 := set_heap (heap s0 ++ [T0]) s0).
  assert (G1 : get_topic t s1 = Some T0).
  { unfold get_topic, s1, t. cbn [heap set_heap]. rewrite F1.
    rewrite nth_error_app2 by lia. now rewrite Nat.sub_diag. }
  destruct (dht_loop_spec t s1 T0 G1) as [Tr2 [G2 [Lp2 [Tm2 [Ct2 Dr2]]]]].
  set (s2 := dht_loop t s1) in *.
  change (loops s1) with (loops s0) in *. change (trace s1) with (trace s0) in *.
  change (timers s1) with (timers s0) in *.
  change (timer_ctr s1) with (timer_ctr s0) in *.
  change (draws s1) with (draws s0) in *.
  rewrite F2 in Tr2, G2, Lp2. rewrite F5 in Tr2. rewrite F3 in Tm2.
  rewrite F4 in Ct2. rewrite F6 in Dr2.
  set (T2 := T_set_stream (Some (List.length (loops s)))
               (T_set_timeoutDht None T0)) in *.
  assert (Q : starts_mdns opts = true ->
              exists T,
                get_topic t (mdns_loop t s2) = Some T /\ t_key T = key /\
                t_announce T = to_announce opts /\ t_destroyed T = false /\
                t_stream T = Some (List.length (loops s)) /\
                t_timeoutDht T = None /\
                t_timeoutMdns T = Some (timer_ctr s) /\
                trace (mdns_loop t s2)
                = [MdnsQuery (query_of T)] ++
                  stream_call T (List.length (loops s)) :: trace s /\
                loops (mdns_loop t s2) = loops s ++ [mk_Loop t false] /\
                timers (mdns_loop t s2)
                = timers s ++
                  [(timer_ctr s,
                    (notify_delay true (fst (Math_random s)),
                     F_mdns_loop t))]).
  { intros _. destruct (mdns_loop_spec t s2 T2 G2) as [Tr3 [G3 Tm3]].
    rewrite Ct2 in G3, Tm3. rewrite (next_draw s s2 Dr2), Tm2 in Tm3.
    eexists. split; [exact G3|]. repeat split.
    - rewrite Tr3, Tr2. reflexivity.
    - now rewrite loops_mdns_loop.
    - exact Tm3. }
  assert (P : starts_mdns opts = false ->
              exists T,
                get_topic t s2 = Some T /\ t_key T = key /\
                t_announce T = to_announce opts /\ t_destroyed T = false /\
                t_stream T = Some (List.length (loops s)) /\
                t_timeoutDht T = None /\ t_timeoutMdns T = None /\
                trace s2 = [] ++ stream_call T (List.length (loops s)) :: trace s /\
                loops s2 = loops s ++ [mk_Loop t false] /\
                timers s2 = timers s ++ []).
  { intros _. exists T2. split; [exact G2|]. repeat split.
    - exact Tr2.
    - exact Lp2.
    - now rewrite app_nil_r. }
  unfold starts_mdns in *.
  destruct (to_announce opts) as [a|]; [destruct (to_lookup opts)|].
  - now apply Q.
  - now apply P.
  - now apply Q.
Qed.

Lemma topic_frame (key : Buffer) (ann : topic_opts) (s : State) :
  let r := Discovery__topic key ann s in
  let r0 := Topic_new key ann s in
  fst r = fst r0 /\ heap (snd r) = heap (snd r0) /\
  trace (snd r) = trace (snd r0) /\ loops (snd r) = loops (snd r0) /\
  timers (snd r) = timers (snd r0).
Proof.
  cbv zeta. unfold Discovery__topic.
  destruct (Topic_new key ann s) as [t s1]. cbn [fst snd].
  set (d := Discovery__domain s1 key).
  destruct (Map_has (d_domains s1) d) eqn:Hs.
  - unfold Map_has in Hs.
    destruct (Map_get (d_domains s1) d); [|discriminate].
    repeat split.
  - cbn [d_domains set_domains]. rewrite Map_get_set_eq. repeat split.
Qed.

Lemma topic_spec (key : Buffer) (opts : topic_opts) (s : State) :
  let t := List.length (heap s) in
  let sid := List.length (loops s) in
  let s' := snd (Discovery__topic key opts s) in
  fst (Discovery__topic key opts s) = t /\
  exists T,
    get_topic t s' = Some T /\ t_key T = key /\
    t_announce T = to_announce opts /\ t_destroyed T = false /\
    t_stream T = Some sid /\ t_timeoutDht T = None /\
    t_timeoutMdns T
    = (if starts_mdns opts then Some (timer_ctr s) else None) /\
    trace s'
    = (if starts_mdns opts then [MdnsQuery (query_of T)] else []) ++
      stream_call T sid :: trace s /\
    loops s' = loops s ++ [mk_Loop t false] /\
    timers s'
    = timers s ++
      (if starts_mdns opts
       then [(timer_ctr s,
              (notify_delay true (fst (Math_random s)), F_mdns_loop t))]
       else []).
Proof.
  cbv zeta. destruct (topic_frame key opts s) as [E1 [E2 [E3 [E4 E5]]]].
  split; [rewrite E1; apply Topic_new_fst|].
  destruct (Topic_new_spec key opts s) as [T X]. cbv zeta in X.
  exists T. unfold get_topic in *. now rewrite E2, E3, E4, E5.
Qed.

(** [lookup] and [announce] on a session that is not destroyed make one
    new topic, which awaits a DHT stream opened in the same turn:
    [dht.lookup(key)] for [lookup], [dht.announce(key, { port,
    localAddress })] for [announce].  [lookup] also sends the topic's
    multicast query and sets the multicast timer, with an eager delay;
    [announce] does so only with the option [lookup]. *)
Theorem new_topic_starts_its_loops (s : State) (key : Buffer)
    (o : announce_opts) :
  d_destroyed s = false ->
  let t := List.length (heap s) in
  let sid := List.length (loops s) in
  let timer :=
    (timer_ctr s, (notify_delay true (fst (Math_random s)), F_mdns_loop t)) in
  (let s' := step (A_lookup key) s in
   fst (Discovery_lookup key s) = Some t /\
   exists T,
     get_topic t s' = Some T /\ t_key T = key /\ t_announce T = None /\
     t_destroyed T = false /\ t_stream T = Some sid /\
     t_timeoutDht T = None /\ t_timeoutMdns T = Some (timer_ctr s) /\
     history s' = history s ++ [DhtLookup key sid; MdnsQuery (query_of T)] /\
     loops s' = loops s ++ [mk_Loop t false] /\
     timers s' = timers s ++ [timer]) /\
  (let s' := step (A_announce key o) s in
   let ann := mk_ann (js_or0 (o_port o)) (o_localAddress o) in
   fst (Discovery_announce key o s) = Some t /\
   exists T,
     get_topic t s' = Some T /\ t_key T = key /\ t_announce T = Some ann /\
     t_destroyed T = false /\ t_stream T = Some sid /\
     t_timeoutDht T = None /\
     t_timeoutMdns T = (if o_lookup o then Some (timer_ctr s) else None) /\
     history s'
     = history s ++
       DhtAnnounce key ann sid ::
       (if o_lookup o then [MdnsQuery (query_of T)] else []) /\
     loops s' = loops s ++ [mk_Loop t false] /\
     timers s' = timers s ++ (if o_lookup o then [timer] else [])).
Proof.
  intros D. cbv zeta. split.
  - cbn [step]. unfold Discovery_lookup. rewrite D.
    destruct (topic_spec key no_opts s) as [E [T X]]. cbv zeta in E, X.
    destruct (Discovery__topic key no_opts s) as [t s']. cbn [fst snd] in *.
    split; [now rewrite E|]. exists T.
    destruct X as [X1 [X2 [X3 [X4 [X5 [X6 [X7 [X8 [X9 X10]]]]]]]]].
    cbn in X3, X7, X8, X10. repeat split; try assumption.
    unfold history. rewrite X8. unfold stream_call. rewrite X3, X2.
    cbn [rev app]. now rewrite <- app_assoc.
  - cbn [step]. unfold Discovery_announce. rewrite D.
    match goal with
    | |- context [Discovery__topic key ?x s] => set (opts := x)
    end.
    destruct (topic_spec key opts s) as [E [T X]]. cbv zeta in E, X.
    destruct (Discovery__topic key opts s) as [t s']. cbn [fst snd] in *.
    split; [now rewrite E|]. exists T.
    destruct X as [X1 [X2 [X3 [X4 [X5 [X6 [X7 [X8 [X9 X10]]]]]]]]].
    cbn in X3, X7, X8, X10. repeat split; try assumption.
    unfold history. rewrite X8. unfold stream_call. rewrite X3, X2.
    destruct (o_lookup o); cbn [rev app]; now rewrite <- ?app_assoc.
Qed.

Lemma new_topic_starts_its_loops_witness :
  let s := sample_session in
  let s' := step (A_lookup sample_key) s in
  fst (Discovery_lookup sample_key s) = Some 0%nat /\
  exists T,
    get_topic 0%nat s' = Some T /\ t_key T = sample_key /\
    t_announce T = None /\ t_destroyed T = false /\
    t_stream T = Some 0%nat /\ t_timeoutDht T = None /\
    t_timeoutMdns T = Some 0%nat /\
    history s'
    = history s ++ [DhtLookup sample_key 0%nat; MdnsQuery (query_of T)] /\
    loops s' = loops s ++ [mk_Loop 0%nat false] /\
    timers s'
    = timers s ++
      [(0%nat, (notify_delay true (fst (Math_random s)), F_mdns_loop 0%nat))].
Proof.
  exact (proj1 (new_topic_starts_its_loops sample_session sample_key
                  sample_announce eq_refl)).
Defined.

(** ** No call calls back *)

Lemma hearing_Topic_destroy (t : tid) (s : State) :
  hearing (trace (Topic_destroy t s)) = hearing (trace s).
Proof.
  unfold Topic_destroy. destruct (get_topic t s) as [T|] eqn:G;
    [|reflexivity].
  destruct (t_destroyed T); [reflexivity|].
  assert (G1 : get_topic t (upd_topic t (T_set_destroyed true) s)
               = Some (T_set_destroyed true T))
    by (now rewrite get_topic_upd, G).
  unfold Topic__stopDht. rewrite G1.
  cbn [t_timeoutDht t_stream T_set_destroyed].
  destruct (t_stream T), (t_timeoutDht T), (t_timeoutMdns T);
    cbn [clearTimeout d_domains set_timers upd_topic set_heap log];
    destruct (Map_get (d_domains s) (t_domain T)) as [set|];
    try reflexivity;
    destruct (Set_delete set t); destruct (t_announce T); reflexivity.
Qed.

Lemma hearing_mdns_loop (t : tid) (s : State) :
  hearing (trace (mdns_loop t s)) = hearing (trace s).
Proof.
  destruct (get_topic t s) as [T|] eqn:G.
  - destruct (mdns_loop_spec t s T G) as [-> _]. reflexivity.
  - unfold mdns_loop. now rewrite G.
Qed.

Lemma hearing_dht_loop (t : tid) (s : State) :
  hearing (trace (dht_loop t s)) = hearing (trace s).
Proof.
  destruct (get_topic t s) as [T|] eqn:G.
  - destruct (dht_loop_spec t s T G) as [-> _]. unfold stream_call.
    now destruct (t_announce T).
  - unfold dht_loop. now rewrite G.
Qed.

Lemma hearing_topic (key : Buffer) (opts : topic_opts) (s : State) :
  hearing (trace (snd (Discovery__topic key opts s))) = hearing (trace s).
Proof.
  destruct (topic_spec key opts s) as [_ [T X]]. cbv zeta in X.
  destruct X as [_ [_ [_ [_ [_ [_ [_ [-> _]]]]]]]].
  unfold stream_call.
  now destruct (starts_mdns opts), (t_announce T).
Qed.

Lemma hearing_fold {A : Type} (f : State -> A -> State) (l : list A) :
  (forall s a, hearing (trace (f s a)) = hearing (trace s)) ->
  forall s, hearing (trace (fold_left f l s)) = hearing (trace s).
Proof.
  intros H. induction l as [|a l IH]; intros s; cbn; [reflexivity|].
  now rewrite IH, H.
Qed.

Lemma hearing_call (a : action) (s : State) :
  is_caller_action a = true -> hearing (trace (step a s)) = hearing (trace s).
Proof.
  destruct a; try discriminate; intros _; cbn [step].
  - unfold Discovery_announce. destruct (d_destroyed s); [reflexivity|].
    match goal with
    | |- context [Discovery__topic key ?o s] =>
        pose proof (hearing_topic key o s) as E;
        destruct (Discovery__topic key o s)
    end. exact E.
  - unfold Discovery_lookup. destruct (d_destroyed s); [reflexivity|].
    pose proof (hearing_topic key no_opts s) as E.
    destruct (Discovery__topic key no_opts s). exact E.
  - unfold Discovery_lookupOne, Discovery_lookup.
    destruct (d_destroyed s); [reflexivity|].
    pose proof (hearing_topic key no_opts s) as E.
    destruct (Discovery__topic key no_opts s). exact E.
  - unfold Discovery_ping. destruct (d_bootstrap s); [reflexivity|].
    now rewrite hearing_fold by reflexivity.
  - unfold Discovery_holepunch. now destruct (p_referrer p).
  - unfold Discovery_destroy. destruct (d_destroyed s); [reflexivity|].
    cbn [process_nextTick trace set_ticks].
    rewrite hearing_fold; [reflexivity|].
    intros s' t. cbn [trace upd_topic set_heap].
    now rewrite hearing_Topic_destroy.
  - unfold Topic_update. destruct (get_topic t s) as [T|]; [|reflexivity].
    destruct (t_destroyed T); [reflexivity|].
    unfold Topic__startMdns, Topic__startDht.
    rewrite hearing_mdns_loop, trace_clearTimeout.
    destruct (t_timeoutDht T); [|reflexivity].
    now rewrite hearing_dht_loop.
  - apply hearing_Topic_destroy.
  - reflexivity.
Qed.

(** No call calls back.  Whatever the state, a call by the caller
    ([announce], [lookup], [lookupOne], [ping], [holepunch], [destroy],
    and [update], [destroy] and [on] of a topic) emits no event and
    invokes no callback and no listener before it returns: whatever the
    caller hears, it hears in a later turn of the event loop. *)
Theorem calls_never_call_back (s : State) (a : action) :
  is_caller_action a = true ->
  hearing (history (step a s)) = hearing (history s).
Proof.
  intros C. unfold history, hearing. rewrite !filter_rev_eq. f_equal.
  now apply hearing_call.
Qed.

Lemma calls_never_call_back_witness :
  let s := run [A_lookupOne sample_key 7%nat; A_lookup sample_key]
             sample_session in
  hearing (history (step A_destroy s)) = hearing (history s).
Proof. exact (calls_never_call_back _ A_destroy eq_refl). Defined.
